(** * flightctl image builder: a shallow embedding of the build-orchestration
    engine and the properties of its specification.

    The development follows the layout of [internal/imagebuilder]:
    Go's [strings], [time] and [path/filepath] helpers the code relies on,
    the API data model, the storage manager, the container and bootc
    builders, the orchestrator, the build manager (reconcile loop), the
    cleanup manager and the HTTP upload endpoint.  All definitions come
    first; the lemmas and theorems follow. *)

From Stdlib Require Import ZArith Ascii String DecimalString Sorted.
From stdpp Require Import gmap strings list.

Local Open Scope string_scope.
Local Open Scope Z_scope.

(** ** Go's [strings] package (the functions the image builder calls).
    A Go string is a sequence of bytes; so is a [string] here. *)
Module GoStrings.

Fixpoint drop (n : nat) (s : string) : string :=
  match n, s with
  | O, _ => s
  | S _, EmptyString => EmptyString
  | S n', String _ s' => drop n' s'
  end.

Fixpoint take (n : nat) (s : string) : string :=
  match n, s with
  | O, _ => EmptyString
  | S _, EmptyString => EmptyString
  | S n', String c s' => String c (take n' s')
  end.

(** [strings.HasPrefix(s, prefix)] *)
Fixpoint HasPrefix (s prefix : string) : bool :=
  match prefix, s with
  | EmptyString, _ => true
  | String _ _, EmptyString => false
  | String c p', String d s' => if Ascii.eqb c d then HasPrefix s' p' else false
  end.

(** [strings.HasSuffix(s, suffix)]:
    [len(s) >= len(suffix) && s[len(s)-len(suffix):] == suffix] *)
Definition HasSuffix (s suffix : string) : bool :=
  let n := String.length s in
  let m := String.length suffix in
  (m <=? n)%nat && String.eqb (drop (n - m) s) suffix.

(** [strings.TrimPrefix(s, prefix)] *)
Definition TrimPrefix (s prefix : string) : string :=
  if HasPrefix s prefix then drop (String.length prefix) s else s.

(** [strings.TrimSuffix(s, suffix)] *)
Definition TrimSuffix (s suffix : string) : string :=
  if HasSuffix s suffix
  then take (String.length s - String.length suffix) s
  else s.

Fixpoint index_from (s substr : string) : option nat :=
  if HasPrefix s substr then Some O
  else match s with
       | EmptyString => None
       | String _ s' => S <$> index_from s' substr
       end.

(** [strings.Index(s, substr)]: first byte offset of [substr], or -1. *)
Definition Index (s substr : string) : Z :=
  match index_from s substr with
  | Some i => Z.of_nat i
  | None => -1
  end.

Fixpoint last_index_from (s substr : string) : option nat :=
  match s with
  | EmptyString => if HasPrefix s substr then Some O else None
  | String _ s' =>
      match last_index_from s' substr with
      | Some i => Some (S i)
      | None => if HasPrefix s substr then Some O else None
      end
  end.

(** [strings.LastIndex(s, substr)]: last byte offset of [substr], or -1. *)
Definition LastIndex (s substr : string) : Z :=
  match last_index_from s substr with
  | Some i => Z.of_nat i
  | None => -1
  end.

(** [strings.Contains(s, substr)] is [Index(s, substr) >= 0]. *)
Definition Contains (s substr : string) : bool := 0 <=? Index s substr.

(** [strings.Split(s, sep)] for a one-byte separator. *)
Fixpoint Split (s : string) (sep : ascii) : list string :=
  match s with
  | EmptyString => [EmptyString]
  | String c s' =>
      if Ascii.eqb c sep then EmptyString :: Split s' sep
      else match Split s' sep with
           | h :: t => String c h :: t
           | [] => [String c EmptyString]
           end
  end.

(** [strings.Join(elems, sep)] *)
Fixpoint Join (elems : list string) (sep : string) : string :=
  match elems with
  | [] => EmptyString
  | [e] => e
  | e :: rest => e +:+ sep +:+ Join rest sep
  end.

(** Decimal rendering of a natural number, as [%d] prints it. *)
Definition itoa (n : Z) : string := NilZero.string_of_int (Z.to_int n).

Fixpoint zeros (n : nat) : string :=
  match n with O => EmptyString | S n' => String "0" (zeros n') end.

(** [%0wd] for a non-negative number. *)
Definition pad (w : nat) (n : Z) : string :=
  let d := itoa n in zeros (w - String.length d) +:+ d.

End GoStrings.

(** ** Go's [time] package: instants, durations and the one layout used. *)
Module GoTime.

(** A [time.Time] is an instant, in nanoseconds since the Unix epoch;
    a [time.Duration] is a number of nanoseconds. *)
Definition Time := Z.
Definition Duration := Z.

Definition Second : Duration := 1000000000.
Definition Minute : Duration := 60 * Second.
Definition Hour : Duration := 60 * Minute.

(** [t.Sub(u)] and [time.Since(t)] with the clock reading [now]. *)
Definition Sub (t u : Time) : Duration := t - u.
Definition Since (now t : Time) : Duration := Sub now t.

(** Proleptic Gregorian date of a day number counted from 1970-01-01. *)
Definition civil_from_days (days : Z) : Z * Z * Z :=
  let z := days + 719468 in
  let era := z / 146097 in
  let doe := z - era * 146097 in
  let yoe := (doe - doe / 1460 + doe / 36524 - doe / 146096) / 365 in
  let doy := doe - (365 * yoe + yoe / 4 - yoe / 100) in
  let mp := (5 * doy + 2) / 153 in
  let d := doy - (153 * mp + 2) / 5 + 1 in
  let m := if mp <? 10 then mp + 3 else mp - 9 in
  let y := yoe + era * 400 in
  (if m <=? 2 then y + 1 else y, m, d).

(** [t.Format("20060102-150405")] for an instant presented in UTC. *)
Definition Format_20060102_150405 (t : Time) : string :=
  let secs := t / Second in
  let days := secs / 86400 in
  let rem := secs mod 86400 in
  let '(y, m, d) := civil_from_days days in
  GoStrings.pad 4 y +:+ GoStrings.pad 2 m +:+ GoStrings.pad 2 d +:+ "-" +:+
  GoStrings.pad 2 (rem / 3600) +:+ GoStrings.pad 2 ((rem mod 3600) / 60) +:+
  GoStrings.pad 2 (rem mod 60).

End GoTime.

(** ** Go's [path/filepath] (Unix): lexical [Clean] and [Join]. *)
Module Filepath.
Import GoStrings.

(** One path element read by [Clean]: [ups] counts the leading [..]
    elements that cannot be removed, [elems] holds the kept elements,
    innermost first. *)
Definition clean_step (rooted : bool) (st : nat * list string) (c : string)
  : nat * list string :=
  let '(ups, elems) := st in
  if String.eqb c "" then st
  else if String.eqb c "." then st
  else if String.eqb c ".." then
    match elems with
    | _ :: t => (ups, t)
    | [] => if rooted then st else (S ups, [])
    end
  else (ups, c :: elems).

Definition render (rooted : bool) (st : nat * list string) : string :=
  let '(ups, elems) := st in
  let body := Join (repeat ".." ups ++ rev elems) "/" in
  if rooted then "/" +:+ body
  else if String.eqb body "" then "." else body.

(** [filepath.Clean(path)] *)
Definition Clean (path : string) : string :=
  if String.eqb path "" then "."
  else
    let rooted := HasPrefix path "/" in
    render rooted (fold_left (clean_step rooted) (Split path "/"%char) (O, [])).

Fixpoint drop_empty (elem : list string) : list string :=
  match elem with
  | [] => []
  | e :: rest => if String.eqb e "" then drop_empty rest else elem
  end.

(** [filepath.Join(elem...)]: the elements from the first non-empty one
    are joined with [/] and cleaned; no non-empty element gives [""]. *)
Definition Join (elem : list string) : string :=
  match drop_empty elem with
  | [] => ""
  | l => Clean (GoStrings.Join l "/")
  end.

End Filepath.

(** ** Errors.  A Go [error] is modelled by its message together with the
    log lines that [errors.As(err, &logsProvider)] finds in its chain:
    [Logs = Some l] when some error of the chain implements [Logs()]. *)
Module GoErr.

Record error := mkError { Error : string; Logs : option (list string) }.

(** [fmt.Errorf(format, ...)] without [%w]. *)
Definition Errorf (msg : string) : error := mkError msg None.

(** [fmt.Errorf(prefix + ": %w", err)]: the chain of [err] is kept. *)
Definition Wrap (prefix : string) (err : error) : error :=
  mkError (prefix +:+ ": " +:+ Error err) (Logs err).

(** The result of a call that returns [(value, error)], or panics. *)
Inductive result (A : Type) : Type :=
| Ok (a : A)
| Err (e : error)
| Panic (msg : string).
Arguments Ok {A} a.
Arguments Err {A} e.
Arguments Panic {A} msg.

End GoErr.

(** ** The API data model ([api/v1alpha1]), restricted to the fields the
    image builder reads or writes. *)
Module Api.
Import GoTime.

Record BootcExport := mkBootcExport {
  Type_ : string;                        (* iso, qcow2, vmdk, raw, ami, tar *)
  Architecture : option string
}.

Record BootcImageRef := mkBootcImageRef {
  RefType : string;
  RefArchitecture : option string;
  StorageRef : string
}.

Record ContainerRegistryConfig := mkContainerRegistryConfig { Url : string }.

Record ImageBuildSpec := mkImageBuildSpec {
  BaseImage : string;
  ContainerRegistry : option ContainerRegistryConfig;
  FlightctlConfig : option unit;
  BootcExports : option (list BootcExport)
}.

Record ImageBuildStatus := mkImageBuildStatus {
  Phase : option string;
  Message : option string;
  ContainerImageRef : option string;
  BootcImageRefs : option (list BootcImageRef);
  StartTime : option Time;
  CompletionTime : option Time;
  Logs : option (list string)
}.

(** [&api.ImageBuildStatus{}] *)
Definition emptyStatus : ImageBuildStatus :=
  mkImageBuildStatus None None None None None None None.

(** [Name] is a [*string] in Go; the service rejects a resource without
    a name, and the image builder dereferences it unconditionally, so it
    is a plain string here. *)
Record ObjectMeta := mkObjectMeta {
  Name : string;
  Annotations : option (gmap string string);
  CreationTimestamp : option Time
}.

Record ImageBuild := mkImageBuild {
  Metadata : ObjectMeta;
  Spec : ImageBuildSpec;
  Status : option ImageBuildStatus
}.

Definition set_Status (ib : ImageBuild) (st : option ImageBuildStatus) : ImageBuild :=
  mkImageBuild (Metadata ib) (Spec ib) st.

Definition set_Annotations (ib : ImageBuild) (a : option (gmap string string)) : ImageBuild :=
  mkImageBuild (mkObjectMeta (Name (Metadata ib)) a (CreationTimestamp (Metadata ib)))
               (Spec ib) (Status ib).

Definition set_Phase (st : ImageBuildStatus) (v : option string) :=
  mkImageBuildStatus v (Message st) (ContainerImageRef st) (BootcImageRefs st)
                     (StartTime st) (CompletionTime st) (Logs st).
Definition set_Message (st : ImageBuildStatus) (v : option string) :=
  mkImageBuildStatus (Phase st) v (ContainerImageRef st) (BootcImageRefs st)
                     (StartTime st) (CompletionTime st) (Logs st).
Definition set_ContainerImageRef (st : ImageBuildStatus) (v : option string) :=
  mkImageBuildStatus (Phase st) (Message st) v (BootcImageRefs st)
                     (StartTime st) (CompletionTime st) (Logs st).
Definition set_BootcImageRefs (st : ImageBuildStatus) (v : option (list BootcImageRef)) :=
  mkImageBuildStatus (Phase st) (Message st) (ContainerImageRef st) v
                     (StartTime st) (CompletionTime st) (Logs st).
Definition set_StartTime (st : ImageBuildStatus) (v : option Time) :=
  mkImageBuildStatus (Phase st) (Message st) (ContainerImageRef st) (BootcImageRefs st)
                     v (CompletionTime st) (Logs st).
Definition set_CompletionTime (st : ImageBuildStatus) (v : option Time) :=
  mkImageBuildStatus (Phase st) (Message st) (ContainerImageRef st) (BootcImageRefs st)
                     (StartTime st) v (Logs st).
Definition set_Logs (st : ImageBuildStatus) (v : option (list string)) :=
  mkImageBuildStatus (Phase st) (Message st) (ContainerImageRef st) (BootcImageRefs st)
                     (StartTime st) (CompletionTime st) v.

(** The control annotations. *)
Definition cancelAnnotation : string := "imagebuilder.flightctl.io/cancel".
Definition retryAnnotation : string := "imagebuilder.flightctl.io/retry".

End Api.

(** ** Service configuration ([internal/config]), as far as it is read. *)
Module Config.

Record S3Config := mkS3Config {
  Endpoint : string; Bucket : string; Region : string;
  AccessKey : string; SecretKey : string
}.

Record StorageConfig := mkStorageConfig {
  Type_ : string;                        (* "local", "pvc", "s3" *)
  LocalPath : string;
  PVCName : string;
  S3 : option S3Config                   (* [S3Config], a pointer *)
}.

Record ImageBuilderConfig := mkImageBuilderConfig {
  BuildNamespace : string;
  DefaultRegistry : string;
  ServiceURL : string;
  Storage : option StorageConfig
}.

Record ServiceConfig := mkServiceConfig {
  BaseAgentEndpointUrl : string;
  BaseUIUrl : string
}.

Record Config := mkConfig {
  ImageBuilder : option ImageBuilderConfig;
  Service : option ServiceConfig
}.

(** [cfg.ImageBuilder.Storage], or nothing when either pointer is nil. *)
Definition storageOf (cfg : Config) : option StorageConfig :=
  match ImageBuilder cfg with
  | Some ib => Storage ib
  | None => None
  end.

(** [cfg.ImageBuilder.Storage.S3Config], or nothing when a pointer on
    the way is nil. *)
Definition s3Of (cfg : Config) : option S3Config :=
  match storageOf cfg with
  | Some st => S3 st
  | None => None
  end.

End Config.

(** ** The storage manager ([StorageManager]). *)
Module Storage.
Import GoStrings GoErr.

Record StorageReference := mkStorageReference {
  Type_ : string;                        (* "local", "pvc", "s3" *)
  Path : string;                         (* full path or S3 URL *)
  Size : Z;
  Metadata : gmap string string
}.

(** The table of [getImageExtensionFromString]. *)
Definition extensions : gmap string string :=
  <["iso" := "iso"]> (<["qcow2" := "qcow2"]> (<["vmdk" := "vmdk"]>
  (<["raw" := "raw"]> (<["ami" := "raw"]> (<["tar" := "tar"]> ∅))))).

(** [getImageExtensionFromString] *)
Definition getImageExtensionFromString (imageType : string) : string :=
  match extensions !! imageType with
  | Some ext => ext
  | None => imageType
  end.

(** [getS3Region] *)
Definition getS3Region (region : string) : string :=
  if String.eqb region "" then "us-east-1" else region.

(** [fmt.Sprintf("%s.%s", imageType, getImageExtensionFromString(imageType))] *)
Definition fileName (imageType : string) : string :=
  imageType +:+ "." +:+ getImageExtensionFromString imageType.

(** The operating system and the object store as the storage manager
    sees them: what is on disk, and which calls fail. *)
Record OS := mkOS {
  Stat : string -> option Z;                       (* [os.Stat]: size when present *)
  MkdirAll : string -> option error;
  Create : string -> option error;                 (* [os.Create] *)
  copyFile : string -> string -> Z + error;        (* the helper [copyFile] *)
  NewSession : option error;                       (* [session.NewSession] *)
  UploadFile : string -> string -> string -> Z + error; (* open, stat and put a file *)
  Remove : string -> option error                  (* [os.Remove] of a file that exists *)
}.

Definition uploadedMetadata (imageName imageType : string) : gmap string string :=
  <["image_name" := imageName]> (<["image_type" := imageType]>
  (<["uploaded" := "true"]> ∅)).

(** [storeToLocal] *)
Definition storeToLocal (os : OS) (imageName sourceFile imageType basePath : string)
  : result StorageReference :=
  let basePath := if String.eqb basePath "" then "/var/lib/flightctl/images" else basePath in
  let targetDir := Filepath.Join [basePath; imageName] in
  match MkdirAll os targetDir with
  | Some err => Err (Wrap "failed to create target directory" err)
  | None =>
      let targetFile := Filepath.Join [targetDir; fileName imageType] in
      match copyFile os sourceFile targetFile with
      | inr err => Err (Wrap "failed to copy file" err)
      | inl size =>
          Ok (mkStorageReference "local" targetFile size
                (<["image_name" := imageName]> (<["image_type" := imageType]> ∅)))
      end
  end.

(** [storeToPVC] *)
Definition storeToPVC (os : OS) (imageName sourceFile imageType pvcName : string)
  : result StorageReference :=
  let pvcBasePath := "/mnt/pvc/" +:+ pvcName in
  let targetDir := Filepath.Join [pvcBasePath; imageName] in
  match MkdirAll os targetDir with
  | Some err => Err (Wrap "failed to create target directory in PVC" err)
  | None =>
      let targetFile := Filepath.Join [targetDir; fileName imageType] in
      match copyFile os sourceFile targetFile with
      | inr err => Err (Wrap "failed to copy file to PVC" err)
      | inl size =>
          Ok (mkStorageReference "pvc" targetFile size
                (<["image_name" := imageName]> (<["image_type" := imageType]>
                (<["pvc_name" := pvcName]> ∅))))
      end
  end.

(** [storeToS3]; opening, measuring and putting the source file is the
    one call [UploadFile]. *)
Definition storeToS3 (os : OS) (imageName sourceFile imageType : string)
           (s3Config : Config.S3Config) : result StorageReference :=
  match NewSession os with
  | Some err => Err (Wrap "failed to create AWS session" err)
  | None =>
      let s3Key := imageName +:+ "/" +:+ fileName imageType in
      match UploadFile os (Config.Bucket s3Config) s3Key sourceFile with
      | inr err => Err err
      | inl size =>
          let s3URL := "s3://" +:+ Config.Bucket s3Config +:+ "/" +:+ s3Key in
          Ok (mkStorageReference "s3" s3URL size
                (<["image_name" := imageName]> (<["image_type" := imageType]>
                (<["bucket" := Config.Bucket s3Config]> (<["key" := s3Key]> ∅)))))
      end
  end.

(** [StorageManager.StoreBootcImage].  A [sourceFile] of the form
    [uploaded:<name>/<type>] marks an artifact the build job has already
    uploaded: only its reference is computed. *)
Definition StoreBootcImage (cfg : Config.Config) (os : OS)
           (imageName sourceFile imageType : string) : result StorageReference :=
  if HasPrefix sourceFile "uploaded:" then
    match Config.storageOf cfg with
    | None => Err (Errorf "storage configuration not found")
    | Some storage =>
        let file := fileName imageType in
        let resolved : result string :=
          if String.eqb (Config.Type_ storage) "local" then
            let basePath :=
              if String.eqb (Config.LocalPath storage) ""
              then "/var/lib/flightctl/images" else Config.LocalPath storage in
            Ok (Filepath.Join [basePath; imageName; file])
          else if String.eqb (Config.Type_ storage) "pvc" then
            Ok (Filepath.Join ["/mnt/pvc/" +:+ Config.PVCName storage; imageName; file])
          else if String.eqb (Config.Type_ storage) "s3" then
            match Config.S3 storage with
            | None => Panic "nil pointer dereference: storage.S3Config"
            | Some s3 =>
                Ok ("s3://" +:+ Config.Bucket s3 +:+ "/" +:+ imageName +:+ "/" +:+ file)
            end
          else Err (Errorf ("unsupported storage type: " +:+ Config.Type_ storage))
        in
        match resolved with
        | Panic m => Panic m
        | Err e => Err e
        | Ok storagePath =>
            let size :=
              if String.eqb (Config.Type_ storage) "local"
                 || String.eqb (Config.Type_ storage) "pvc"
              then match Stat os storagePath with Some n => n | None => 0 end
              else 0 in
            Ok (mkStorageReference (Config.Type_ storage) storagePath size
                  (uploadedMetadata imageName imageType))
        end
    end
  else
    (* legacy path: [sourceFile] is a file that is copied *)
    match Config.storageOf cfg with
    | None => Err (Errorf "storage configuration not found")
    | Some storage =>
        if String.eqb (Config.Type_ storage) "local" then
          storeToLocal os imageName sourceFile imageType (Config.LocalPath storage)
        else if String.eqb (Config.Type_ storage) "pvc" then
          storeToPVC os imageName sourceFile imageType (Config.PVCName storage)
        else if String.eqb (Config.Type_ storage) "s3" then
          match Config.S3 storage with
          | None => Panic "nil pointer dereference: storage.S3Config"
          | Some s3 => storeToS3 os imageName sourceFile imageType s3
          end
        else Err (Errorf ("unsupported storage type: " +:+ Config.Type_ storage))
    end.

(** *** Streaming writes, used by the upload endpoint. *)

(** What is stored: files by path, objects by bucket and key. *)
Record Disk := mkDisk {
  files : gmap string string;
  objects : gmap (string * string) string
}.

(** An [io.Reader] read to its end: the bytes it yields and whether the
    copy out of it ends in an error. *)
Record Reader := mkReader { data : string; failure : option error }.

(** [StreamToLocalOrPVC] *)
Definition StreamToLocalOrPVC (cfg : Config.Config) (os : OS) (disk : Disk)
           (imageName : string) (reader : Reader) (imageType : string)
  : result StorageReference * Disk :=
  match Config.storageOf cfg with
  | None => (Err (Errorf "storage configuration not found"), disk)
  | Some storage =>
      let target : option (string * string) :=
        if String.eqb (Config.Type_ storage) "local" then
          Some ("local",
                if String.eqb (Config.LocalPath storage) ""
                then "/var/lib/flightctl/images" else Config.LocalPath storage)
        else if String.eqb (Config.Type_ storage) "pvc" then
          Some ("pvc", "/mnt/pvc/" +:+ Config.PVCName storage)
        else None in
      match target with
      | None =>
          (Err (Errorf ("unsupported storage type for streaming: "
                        +:+ Config.Type_ storage)), disk)
      | Some (storageType, basePath) =>
          let targetDir := Filepath.Join [basePath; imageName] in
          match MkdirAll os targetDir with
          | Some err => (Err (Wrap "failed to create target directory" err), disk)
          | None =>
              let targetFile := Filepath.Join [targetDir; fileName imageType] in
              match Create os targetFile with
              | Some err => (Err (Wrap "failed to create target file" err), disk)
              | None =>
                  match failure reader with
                  | Some err =>
                      (* the file was created anew and holds the bytes copied so
                         far; [os.Remove] is tried and its error is dropped *)
                      (Err (Wrap "failed to stream to file" err),
                       mkDisk (match Remove os targetFile with
                               | None => delete targetFile (files disk)
                               | Some _ => <[targetFile := data reader]> (files disk)
                               end)
                              (objects disk))
                  | None =>
                      (Ok (mkStorageReference storageType targetFile
                             (Z.of_nat (String.length (data reader)))
                             (<["image_name" := imageName]>
                              (<["image_type" := imageType]>
                              (<["streamed" := "true"]> ∅)))),
                       mkDisk (<[targetFile := data reader]> (files disk))
                              (objects disk))
                  end
              end
          end
      end
  end.

(** [StreamToS3]; the ETag the store answers with is [etag]. *)
Definition StreamToS3 (cfg : Config.Config) (os : OS) (disk : Disk)
           (imageName : string) (reader : Reader) (imageType filename etag : string)
  : result StorageReference * Disk :=
  match Config.s3Of cfg with
  | None => (Err (Errorf "S3 configuration not found"), disk)
  | Some s3cfg =>
      match NewSession os with
      | Some err => (Err (Wrap "failed to create AWS session" err), disk)
      | None =>
          let s3Key := imageName +:+ "/" +:+ fileName imageType in
          match failure reader with
          | Some err => (Err (Wrap "failed to upload to S3" err), disk)
          | None =>
              let s3URL := "s3://" +:+ Config.Bucket s3cfg +:+ "/" +:+ s3Key in
              (Ok (mkStorageReference "s3" s3URL 0
                     (<["image_name" := imageName]> (<["image_type" := imageType]>
                      (<["bucket" := Config.Bucket s3cfg]> (<["key" := s3Key]>
                      (<["etag" := etag]> (<["streamed" := "true"]> ∅))))))),
               mkDisk (files disk)
                      (<[(Config.Bucket s3cfg, s3Key) := data reader]> (objects disk)))
          end
      end
  end.

End Storage.

(** ** Registry helpers and the container builder's image reference. *)
Module ContainerBuilder.
Import GoStrings Api.

(** [NormalizeRegistryURL] *)
Definition NormalizeRegistryURL (registryURL : string) : string :=
  let registry := TrimPrefix registryURL "https://" in
  let registry := TrimPrefix registry "http://" in
  TrimSuffix registry "/".

(** The tag: the creation timestamp in layout [20060102-150405], or
    [latest] when the resource carries none. *)
Definition tagOf (imageBuild : ImageBuild) : string :=
  match CreationTimestamp (Metadata imageBuild) with
  | Some t => GoTime.Format_20060102_150405 t
  | None => "latest"
  end.

(** [ContainerBuilder.generateImageName] *)
Definition generateImageName (imageBuild : ImageBuild) : string :=
  match ContainerRegistry (Spec imageBuild) with
  | Some reg =>
      if negb (String.eqb (Url reg) "") then
        let registryURL := Url reg in
        let registryURL := TrimPrefix registryURL "https://" in
        let registryURL := TrimPrefix registryURL "http://" in
        let registryURL := TrimSuffix registryURL "/" in
        if Contains registryURL "/" then
          if Contains registryURL ":"
             && (LastIndex registryURL "/" <? Index registryURL ":")
          then registryURL
          else registryURL +:+ ":" +:+ tagOf imageBuild
        else
          registryURL +:+ "/" +:+ Name (Metadata imageBuild) +:+ ":" +:+ tagOf imageBuild
      else Name (Metadata imageBuild) +:+ ":" +:+ tagOf imageBuild
  | None => Name (Metadata imageBuild) +:+ ":" +:+ tagOf imageBuild
  end.

End ContainerBuilder.

(** ** The cluster objects the image builder looks at ([k8sclient]). *)
Module K8s.

Record Pod := mkPod {
  Name : string;
  Labels : gmap string string;
  CreationTimestamp : GoTime.Time
}.

Record Job := mkJob { JobName : string }.

End K8s.

(** ** The world the image builder runs in.

    The process talks to three parties: the API server (the catalog of
    [ImageBuild] resources), the cluster and the clock.  The catalog is
    part of the state, so that the effect of every accepted write can be
    read back.  What the other parties answer is an input ([Env]): each
    external call is numbered, and the oracle of its kind says what the
    call made at that number returns.  Users and other replicas edit the
    catalog concurrently, so the reply to a GET is an input as well. *)
Module Sys.
Import GoErr GoTime Api.

Definition OrgId := string.

Record PatchOp := mkPatchOp { Op : string; Path : string }.

Inductive Event : Type :=
| TimeNow
| GetImageBuild (name : string)
| ListImageBuilds
| ReplaceImageBuildStatus (name : string) (body : ImageBuild)
| PatchImageBuild (name : string) (ops : list PatchOp)
| StoreListOrganizations
| StoreListImageBuilds (org : OrgId)
| ListPods (ns selector : string)
| GetPodLogs (ns pod : string) (tail : Z)
| ListJobs (ns selector : string)
| CreateJob (ns job : string)
| WatchJob (ns job : string)
| DeleteJob (ns job : string)
| CreateConfigMap (ns name : string)
| GetConfigMap (ns name : string)
| DeleteConfigMap (ns name : string)
| RequestEnrollmentCertificate (name : string) (expirySeconds : Z)
| PrepareBuild (name : string).

(** The answer of the API server to one request. *)
Inductive Response (A : Type) : Type :=
| TransportError (e : error)             (* the client call returned [err != nil] *)
| HTTP (code : Z) (body : option A).     (* [StatusCode()] and [JSON200] *)
Arguments TransportError {A} e.
Arguments HTTP {A} code body.

(** What can go wrong with a write before the catalog applies it. *)
Inductive Fault : Type :=
| Transport (e : error)
| Refused (code : Z).                    (* a reply other than 200 *)

Record Env := mkEnv {
  apiOrg : OrgId;                                  (* the tenant of the API client *)
  clock : nat -> Time;
  getImageBuild : nat -> Response ImageBuild;
  listImageBuilds : nat -> Response (list ImageBuild);
  apiFault : nat -> option Fault;
  storeFault : nat -> option error;                (* a failing store listing *)
  listPods : nat -> list K8s.Pod + error;
  podLogs : nat -> string + error;
  listJobs : nat -> list K8s.Job + error;
  createJob : nat -> string -> option error;     (* by call number and job name *)
  watchJob : nat -> string -> option error;
  jobPodLogs : nat -> list string;                 (* what [getJobPodLogs] collects *)
  deleteJob : nat -> option error;
  createConfigMap : nat -> option error;
  getConfigMap : nat -> gmap string string + error;
  deleteConfigMap : nat -> option error;
  requestCertificate : nat -> string * string + error;
  prepareBuild : nat -> option error;              (* configmap and secrets of a build *)
  generate : ImageBuildSpec -> string -> string -> string + error;
  os : Storage.OS
}.

Record World := mkWorld {
  orgs : list OrgId;
  catalog : gmap (OrgId * string) ImageBuild;
  spawned : list ImageBuild;             (* goroutines started with [go bm.ProcessBuild] *)
  steps : nat;                           (* external calls made so far *)
  trace : list Event                     (* the calls, oldest first *)
}.

(** Computations that change the world. *)
Definition M (A : Type) : Type := World -> A * World.

Definition ret {A} (a : A) : M A := fun w => (a, w).
Definition bind {A B} (m : M A) (k : A -> M B) : M B :=
  fun w => let '(a, w') := m w in k a w'.

Declare Scope sys_scope.
Delimit Scope sys_scope with sys.
Notation "'let*' x ':=' m 'in' k" := (bind m (fun x => k))
  (at level 10, x pattern, m at level 100, k at level 200) : sys_scope.
Notation "m ';;' k" := (bind m (fun _ => k))
  (at level 100, k at level 200, right associativity) : sys_scope.
Local Open Scope sys_scope.

(** One external call: it is recorded and numbered. *)
Definition call (ev : Event) : M nat :=
  fun w => (steps w,
            mkWorld (orgs w) (catalog w) (spawned w) (S (steps w)) (trace w ++ [ev])).

Definition getCatalog : M (gmap (OrgId * string) ImageBuild) :=
  fun w => (catalog w, w).

Definition putCatalog (c : gmap (OrgId * string) ImageBuild) : M unit :=
  fun w => (tt, mkWorld (orgs w) c (spawned w) (steps w) (trace w)).

(** The result and the world after a computation satisfy [Q]. *)
Definition post {A} (m : M A) (w : World) (Q : A -> World -> Prop) : Prop :=
  Q (fst (m w)) (snd (m w)).

(** [go f(x)]: the goroutine is started, not run. *)
Definition spawn (ib : ImageBuild) : M unit :=
  fun w => (tt, mkWorld (orgs w) (catalog w) (spawned w ++ [ib]) (steps w) (trace w)).

Fixpoint forEach {A S} (l : list A) (s : S) (body : S -> A -> M S) : M S :=
  match l with
  | [] => ret s
  | a :: rest => let* s' := body s a in forEach rest s' body
  end.

Section WithEnv.
Variable env : Env.

(** [time.Now()] *)
Definition time_Now : M Time :=
  let* n := call TimeNow in ret (clock env n).

(** [client.GetImageBuildWithResponse] *)
Definition GetImageBuildWithResponse (name : string) : M (Response ImageBuild) :=
  let* n := call (GetImageBuild name) in ret (getImageBuild env n).

(** [client.ListImageBuildsWithResponse] *)
Definition ListImageBuildsWithResponse : M (Response (list ImageBuild)) :=
  let* n := call ListImageBuilds in ret (listImageBuilds env n).

(** Modelled from the spec: the catalog's status subresource
    ([GenericStore.UpdateStatus] is not among the sources).  A
    replace-status stores the status of the body on the named
    resource and leaves its metadata and spec alone; a resource that
    does not exist answers 404. *)
Definition ReplaceImageBuildStatusWithResponse (name : string) (body : ImageBuild)
  : M (Response ImageBuild) :=
  let* n := call (ReplaceImageBuildStatus name body) in
  match apiFault env n with
  | Some (Transport e) => ret (TransportError e)
  | Some (Refused code) => ret (HTTP code None)
  | None =>
      let* c := getCatalog in
      match c !! (apiOrg env, name) with
      | None => ret (HTTP 404 None)
      | Some stored =>
          let stored' := set_Status stored (Status body) in
          putCatalog (<[(apiOrg env, name) := stored']> c) ;;
          ret (HTTP 200 (Some stored'))
      end
  end.

(** RFC 6901 unescaping of one reference token. *)
Fixpoint unescape (s : string) : string :=
  match s with
  | EmptyString => EmptyString
  | String c rest =>
      match rest with
      | String d rest' =>
          if Ascii.eqb c "~" && Ascii.eqb d "1" then String "/" (unescape rest')
          else if Ascii.eqb c "~" && Ascii.eqb d "0" then String "~" (unescape rest')
          else String c (unescape rest)
      | EmptyString => String c EmptyString
      end
  end.

(** Modelled from the spec: the catalog applying a JSON patch
    ([ApplyJSONPatch] and the store's [Update] are not among the
    sources).  The only patches the image builder sends remove one
    annotation; removing a key that is absent is an error (400), as is
    any other operation here. *)
Definition applyPatchOp (ib : ImageBuild) (op : PatchOp) : option ImageBuild :=
  if String.eqb (Op op) "remove"
     && GoStrings.HasPrefix (Path op) "/metadata/annotations/"
  then
    let key := unescape (GoStrings.TrimPrefix (Path op) "/metadata/annotations/") in
    match Annotations (Metadata ib) with
    | Some anns =>
        match anns !! key with
        | Some _ => Some (set_Annotations ib (Some (delete key anns)))
        | None => None
        end
    | None => None
    end
  else None.

Fixpoint applyPatch (ib : ImageBuild) (ops : list PatchOp) : option ImageBuild :=
  match ops with
  | [] => Some ib
  | op :: rest =>
      match applyPatchOp ib op with
      | Some ib' => applyPatch ib' rest
      | None => None
      end
  end.

(** [client.PatchImageBuildWithApplicationJSONPatchPlusJSONBodyWithResponse],
    served by [ServiceHandler.PatchImageBuild]. *)
Definition PatchImageBuildWithResponse (name : string) (ops : list PatchOp)
  : M (Response ImageBuild) :=
  let* n := call (PatchImageBuild name ops) in
  match apiFault env n with
  | Some (Transport e) => ret (TransportError e)
  | Some (Refused code) => ret (HTTP code None)
  | None =>
      let* c := getCatalog in
      match c !! (apiOrg env, name) with
      | None => ret (HTTP 404 None)
      | Some currentObj =>
          match applyPatch currentObj ops with
          | None => ret (HTTP 400 None)
          | Some newObj =>
              if String.eqb (BaseImage (Spec newObj)) "" then ret (HTTP 400 None)
              else
                putCatalog (<[(apiOrg env, name) := newObj]> c) ;;
                ret (HTTP 200 (Some newObj))
          end
      end
  end.

End WithEnv.

End Sys.

(** ** The bootc builder ([BootcBuilder]). *)
Module Bootc.
Import GoErr Api Sys.
Local Open Scope sys_scope.

(** [BootcImageResult] *)
Record BootcImageResult := mkBootcImageResult {
  Type_ : string;
  Architecture : string;
  Path : string;
  Size : Z
}.

(** [getArchitecture] *)
Definition getArchitecture (arch : option string) : string :=
  match arch with
  | None => "x86_64"
  | Some a => a
  end.

Section WithEnv.
Variable env : Env.
Variable namespace : string.

(** [BootcBuilder.buildBootcImage]: one workload, created, watched to its
    end, its logs collected, and deleted. *)
Definition buildBootcImage (imageBuild : ImageBuild) (containerImageRef : string)
           (export : BootcExport) : M (result BootcImageResult) :=
  let name := Api.Name (Metadata imageBuild) in
  let jobName := "bootc-" +:+ name +:+ "-" +:+ Api.Type_ export in
  let architecture := getArchitecture (Api.Architecture export) in
  let* n := call (CreateJob namespace jobName) in
  match createJob env n jobName with
  | Some err => ret (Err (Wrap "failed to create bootc job" err))
  | None =>
      let* n := call (WatchJob namespace jobName) in
      let watched := watchJob env n jobName in
      let* n := call (ListPods namespace
                        ("job-name=bootc-" +:+ name +:+ "-" +:+ Api.Type_ export)) in
      let logs := jobPodLogs env n in
      match watched with
      | Some err =>
          let* _ := call (DeleteJob namespace jobName) in
          ret (Err (mkError ("bootc job failed: " +:+ Error err) (Some logs)))
      | None =>
          let* _ := call (DeleteJob namespace jobName) in
          ret (Ok (mkBootcImageResult (Api.Type_ export) architecture
                     ("uploaded:" +:+ name +:+ "/" +:+ Api.Type_ export) 0))
      end
  end.

(** The loop of [BuildBootcImages]: the first export that fails ends it. *)
Fixpoint buildAll (imageBuild : ImageBuild) (containerImageRef : string)
         (exports : list BootcExport) (results : list BootcImageResult)
  : M (result (list BootcImageResult)) :=
  match exports with
  | [] => ret (Ok results)
  | export :: rest =>
      let* r := buildBootcImage imageBuild containerImageRef export in
      match r with
      | Ok result => buildAll imageBuild containerImageRef rest (results ++ [result])%list
      | Err err =>
          ret (Err (Wrap ("failed to build bootc image type=" +:+ Api.Type_ export) err))
      | Panic m => ret (Panic m)
      end
  end.

(** [BootcBuilder.BuildBootcImages] *)
Definition BuildBootcImages (imageBuild : ImageBuild) (containerImageRef : string)
  : M (result (list BootcImageResult)) :=
  match BootcExports (Spec imageBuild) with
  | None => ret (Ok [])
  | Some [] => ret (Ok [])
  | Some exports => buildAll imageBuild containerImageRef exports []
  end.

End WithEnv.
End Bootc.

(** ** The container build stage ([ContainerBuilder.BuildAndPushImage]). *)
Module ContainerStage.
Import GoErr Api Sys.
Local Open Scope sys_scope.

Section WithEnv.
Variable env : Env.
Variable namespace : string.

(** [ContainerBuilder.BuildAndPushImage].  Materialising the configmap and
    the credential secrets is the one call [PrepareBuild]; its error
    arrives wrapped as the code wraps it. *)
Definition BuildAndPushImage (imageBuild : ImageBuild) (containerfile : string)
  : M (result string) :=
  let name := Name (Metadata imageBuild) in
  let imageName := ContainerBuilder.generateImageName imageBuild in
  let jobName := "build-" +:+ name in
  let configMapName := "containerfile-" +:+ name in
  let* n := call (PrepareBuild name) in
  match prepareBuild env n with
  | Some err => ret (Err err)
  | None =>
      let* n := call (CreateJob namespace jobName) in
      match createJob env n jobName with
      | Some err => ret (Err (Wrap "failed to create build job" err))
      | None =>
          let* n := call (WatchJob namespace jobName) in
          let watched := watchJob env n jobName in
          let* n := call (ListPods namespace ("job-name=build-" +:+ name)) in
          let logs := jobPodLogs env n in
          let* _ := call (DeleteJob namespace jobName) in
          let* _ := call (DeleteConfigMap namespace configMapName) in
          match watched with
          | Some err =>
              ret (Err (mkError ("build job failed: " +:+ Error err) (Some logs)))
          | None => ret (Ok imageName)
          end
      end
  end.

End WithEnv.
End ContainerStage.

(** ** The orchestrator ([Orchestrator]). *)
Module Orchestrator.
Import GoErr GoTime Api Sys.
Local Open Scope sys_scope.

Section WithEnv.
Variable env : Env.
Variable config : Config.Config.

(** The namespace the builders were created with ([NewOrchestrator]). *)
Definition namespace : string :=
  match Config.ImageBuilder config with
  | Some ib =>
      if String.eqb (Config.BuildNamespace ib) "" then "default"
      else Config.BuildNamespace ib
  | None => "default"
  end.

Definition statusOf (imageBuild : ImageBuild) : ImageBuildStatus :=
  match Status imageBuild with
  | Some st => st
  | None => emptyStatus
  end.

(** What the callers of a status write do with its answer. *)
Definition statusWriteError (prefix : string) (resp : Response ImageBuild) : option error :=
  match resp with
  | TransportError err => Some (Wrap prefix err)
  | HTTP code _ =>
      if negb (code =? 200)
      then Some (Errorf ("failed to update ImageBuild status, status code: "
                         +:+ GoStrings.itoa code))
      else None
  end.

(** The assignments of [updateStatus]: the start time is set on entering
    [Building] when the status carries none. *)
Definition markStatus (now : Time) (imageBuild : ImageBuild) (phase message : string)
  : ImageBuild :=
  let st := statusOf imageBuild in
  let st := set_Phase st (Some phase) in
  let st := set_Message st (Some message) in
  let st := if String.eqb phase "Building" && bool_decide (StartTime st = None)
            then set_StartTime st (Some now) else st in
  set_Status imageBuild (Some st).

(** [Orchestrator.updateStatus] *)
Definition updateStatus (imageBuild : ImageBuild) (phase message : string)
  : M (ImageBuild * option error) :=
  let* now := time_Now env in
  let imageBuild := markStatus now imageBuild phase message in
  let* resp := ReplaceImageBuildStatusWithResponse env (Name (Metadata imageBuild)) imageBuild in
  ret (imageBuild, statusWriteError "failed to update ImageBuild status" resp).

(** The assignments of [updateStatusWithContainerImage]. *)
Definition markContainerImage (imageBuild : ImageBuild) (containerImageRef : string)
  : ImageBuild :=
  let st := statusOf imageBuild in
  let st := set_ContainerImageRef st (Some containerImageRef) in
  let st := set_Phase st (Some "Pushing") in
  let st := set_Message st (Some "Container image built successfully") in
  set_Status imageBuild (Some st).

(** [Orchestrator.updateStatusWithContainerImage] *)
Definition updateStatusWithContainerImage (imageBuild : ImageBuild) (containerImageRef : string)
  : M (ImageBuild * option error) :=
  let imageBuild := markContainerImage imageBuild containerImageRef in
  let* resp := ReplaceImageBuildStatusWithResponse env (Name (Metadata imageBuild)) imageBuild in
  ret (imageBuild, statusWriteError "failed to update ImageBuild status" resp).

(** The assignments of [completeBuild]: the references are stored only
    when there is at least one. *)
Definition markCompleted (now : Time) (imageBuild : ImageBuild) (containerImageRef : string)
           (bootcRefs : list BootcImageRef) : ImageBuild :=
  let st := statusOf imageBuild in
  let st := set_Phase st (Some "Completed") in
  let st := set_Message st (Some "Image build completed successfully") in
  let st := set_ContainerImageRef st (Some containerImageRef) in
  let st := set_CompletionTime st (Some now) in
  let st := if (0 <? length bootcRefs)%nat then set_BootcImageRefs st (Some bootcRefs) else st in
  set_Status imageBuild (Some st).

(** [Orchestrator.completeBuild] *)
Definition completeBuild (imageBuild : ImageBuild) (containerImageRef : string)
           (bootcRefs : list BootcImageRef) : M (ImageBuild * option error) :=
  let* now := time_Now env in
  let imageBuild := markCompleted now imageBuild containerImageRef bootcRefs in
  let* resp := ReplaceImageBuildStatusWithResponse env (Name (Metadata imageBuild)) imageBuild in
  ret (imageBuild, statusWriteError "failed to update ImageBuild status to completed" resp).

(** The assignments of [failBuild]: the logs of the error, when it
    carries some, are attached. *)
Definition markFailed (now : Time) (imageBuild : ImageBuild) (buildErr : error) : ImageBuild :=
  let st := statusOf imageBuild in
  let st := set_Phase st (Some "Failed") in
  let st := set_Message st (Some ("Build failed: " +:+ Error buildErr)) in
  let st := set_CompletionTime st (Some now) in
  let st := match GoErr.Logs buildErr with
            | Some logs => if (0 <? length logs)%nat then set_Logs st (Some logs) else st
            | None => st
            end in
  set_Status imageBuild (Some st).

(** [Orchestrator.failBuild]: the answer of the status write is only logged. *)
Definition failBuild (imageBuild : ImageBuild) (buildErr : error)
  : M (ImageBuild * option error) :=
  let* now := time_Now env in
  let imageBuild := markFailed now imageBuild buildErr in
  let* _ := ReplaceImageBuildStatusWithResponse env (Name (Metadata imageBuild)) imageBuild in
  ret (imageBuild, Some buildErr).

(** [exists && cancelValue == "true"] on an annotation map that may be nil. *)
Definition cancelRequested (annotations : option (gmap string string)) : bool :=
  match annotations with
  | None => false
  | Some anns =>
      match anns !! cancelAnnotation with
      | Some v => String.eqb v "true"
      | None => false
      end
  end.

(** The decision of [isCancelled] on the answer to its GET: the latest
    annotations decide, and the local copy when the fetch fails. *)
Definition cancelDecision (local : option (gmap string string))
           (latestBuild : Response ImageBuild) : bool :=
  match latestBuild with
  | TransportError _ => cancelRequested local
  | HTTP code body =>
      match body with
      | Some latest =>
          if negb (code =? 200) then cancelRequested local
          else cancelRequested (Annotations (Metadata latest))
      | None => cancelRequested local
      end
  end.

(** [Orchestrator.isCancelled] *)
Definition isCancelled (imageBuild : ImageBuild) : M bool :=
  let* latestBuild := GetImageBuildWithResponse env (Name (Metadata imageBuild)) in
  ret (cancelDecision (Annotations (Metadata imageBuild)) latestBuild).

(** The log collection of [CancelBuild]. *)
Definition collectPodLogs (buildNamespace : string) (logs : list string) (pod : K8s.Pod)
  : M (list string) :=
  let* n := call (GetPodLogs buildNamespace (K8s.Name pod) 1000) in
  match podLogs env n with
  | inl podLog =>
      if (0 <? String.length podLog)%nat then
        ret ((logs ++ ["=== Logs from pod " +:+ K8s.Name pod +:+ " (before cancellation) ==="])
               ++ GoStrings.Split podLog "010"%char)%list
      else ret logs
  | inr _ => ret logs
  end.

(** The job deletion of [CancelBuild]; the count is of the jobs deleted. *)
Definition deleteOneJob (buildNamespace : string) (deletedCount : nat) (job : K8s.Job)
  : M nat :=
  let* n := call (DeleteJob buildNamespace (K8s.JobName job)) in
  match deleteJob env n with
  | Some _ => ret deletedCount
  | None => ret (S deletedCount)
  end.

(** The assignments of [CancelBuild]: the collected logs, when there are
    some, are attached. *)
Definition markCancelled (now : Time) (imageBuild : ImageBuild) (reason : string)
           (logs : list string) : ImageBuild :=
  let st := statusOf imageBuild in
  let st := set_Phase st (Some "Cancelled") in
  let st := set_Message st (Some ("Build cancelled: " +:+ reason)) in
  let st := set_CompletionTime st (Some now) in
  let st := if (0 <? length logs)%nat then set_Logs st (Some logs) else st in
  set_Status imageBuild (Some st).

(** [Orchestrator.CancelBuild] *)
Definition CancelBuild (imageBuild : ImageBuild) (reason : string)
  : M (ImageBuild * option error) :=
  let name := Name (Metadata imageBuild) in
  let configMapName := "containerfile-" +:+ name in
  let buildNamespace := namespace in
  let labelSelector := "imagebuild=" +:+ name in
  let* n := call (ListPods buildNamespace labelSelector) in
  let* logs :=
    match listPods env n with
    | inl pods => forEach pods [] (collectPodLogs buildNamespace)
    | inr _ => ret []
    end in
  let* n := call (ListJobs buildNamespace labelSelector) in
  let* deletedCount :=
    match listJobs env n with
    | inl jobs => forEach jobs O (deleteOneJob buildNamespace)
    | inr _ => ret O
    end in
  let* _ := call (DeleteConfigMap buildNamespace configMapName) in
  let patchOps := [mkPatchOp "remove"
                     "/metadata/annotations/imagebuilder.flightctl.io~1cancel"] in
  let* _ := PatchImageBuildWithResponse env name patchOps in
  let* now := time_Now env in
  let imageBuild := markCancelled now imageBuild reason logs in
  let* statusResp := ReplaceImageBuildStatusWithResponse env name imageBuild in
  match statusResp with
  | TransportError err =>
      ret (imageBuild, Some (Wrap "failed to update ImageBuild status" err))
  | HTTP code _ =>
      if negb (code =? 200) then
        ret (imageBuild,
             Some (Errorf ("failed to update ImageBuild status, status code: "
                           +:+ GoStrings.itoa code)))
      else
        ret (imageBuild, Some (Errorf ("build cancelled: " +:+ reason)))
  end.

(** [Orchestrator.cancelBuild] *)
Definition cancelBuild (imageBuild : ImageBuild) (reason : string)
  : M (ImageBuild * option error) :=
  CancelBuild imageBuild reason.

(** A Go function returning [error]: [nil] is [Ok tt]. *)
Definition returned (r : ImageBuild * option error) : ImageBuild * result unit :=
  match r with
  | (imageBuild, None) => (imageBuild, Ok tt)
  | (imageBuild, Some err) => (imageBuild, Err err)
  end.

(** Step 5 of [BuildImage]: a result whose reference cannot be resolved is
    logged and skipped. *)
Fixpoint storeAll (name : string) (bootcResults : list Bootc.BootcImageResult)
         (bootcRefs : list BootcImageRef) : result (list BootcImageRef) :=
  match bootcResults with
  | [] => Ok bootcRefs
  | r :: rest =>
      match Storage.StoreBootcImage config (os env) name (Bootc.Path r) (Bootc.Type_ r) with
      | Err _ => storeAll name rest bootcRefs
      | Panic m => Panic m
      | Ok storageRef =>
          storeAll name rest
            (bootcRefs ++ [mkBootcImageRef (Bootc.Type_ r) (Some (Bootc.Architecture r))
                                           (Storage.Path storageRef)])%list
      end
  end.

(** Steps 4 to 6 of [BuildImage]. *)
Definition buildExportsAndComplete (imageBuild : ImageBuild) (containerImageRef : string)
  : M (ImageBuild * result unit) :=
  match BootcExports (Spec imageBuild) with
  | Some (e :: es) =>
      let* c := isCancelled imageBuild in
      if c then
        let* r := cancelBuild imageBuild "Build cancelled before bootc image generation" in
        ret (returned r)
      else
        let* (imageBuild, _) :=
          updateStatus imageBuild "GeneratingImages" "Building bootc disk images" in
        let* built := Bootc.BuildBootcImages env namespace imageBuild containerImageRef in
        match built with
        | Err err =>
            let* r := failBuild imageBuild (Wrap "failed to build bootc images" err) in
            ret (returned r)
        | Panic m => ret (imageBuild, Panic m)
        | Ok bootcResults =>
            match storeAll (Name (Metadata imageBuild)) bootcResults [] with
            | Panic m => ret (imageBuild, Panic m)
            | Err err => ret (imageBuild, Err err)
            | Ok bootcRefs =>
                let* r := completeBuild imageBuild containerImageRef bootcRefs in
                ret (returned r)
            end
        end
  | _ =>
      let* r := completeBuild imageBuild containerImageRef [] in
      ret (returned r)
  end.

(** Steps 2 and 3 of [BuildImage]. *)
Definition generateAndBuild (imageBuild : ImageBuild) (enrollmentCert enrollmentKey : string)
  : M (ImageBuild * result unit) :=
  let* c := isCancelled imageBuild in
  if c then
    let* r := cancelBuild imageBuild "Build cancelled before Containerfile generation" in
    ret (returned r)
  else
    match generate env (Spec imageBuild) enrollmentCert enrollmentKey with
    | inr err =>
        let* r := failBuild imageBuild (Wrap "failed to generate Containerfile" err) in
        ret (returned r)
    | inl containerfile =>
        let* c := isCancelled imageBuild in
        if c then
          let* r := cancelBuild imageBuild "Build cancelled before container image build" in
          ret (returned r)
        else
          let* built := ContainerStage.BuildAndPushImage env namespace imageBuild containerfile in
          match built with
          | Err err =>
              let* r := failBuild imageBuild (Wrap "failed to build container image" err) in
              ret (returned r)
          | Panic m => ret (imageBuild, Panic m)
          | Ok containerImageRef =>
              let* (imageBuild, _) :=
                updateStatusWithContainerImage imageBuild containerImageRef in
              buildExportsAndComplete imageBuild containerImageRef
          end
    end.

(** [Orchestrator.BuildImage] *)
Definition BuildImage (imageBuild : ImageBuild) : M (ImageBuild * result unit) :=
  let* c := isCancelled imageBuild in
  if c then
    let* r := cancelBuild imageBuild "Build cancelled before starting" in
    ret (returned r)
  else
    let* (imageBuild, _) :=
      updateStatus imageBuild "Building" "Starting image build process" in
    match FlightctlConfig (Spec imageBuild) with
    | Some _ =>
        let* c := isCancelled imageBuild in
        if c then
          let* r := cancelBuild imageBuild "Build cancelled during certificate request" in
          ret (returned r)
        else
          let* n := call (RequestEnrollmentCertificate (Name (Metadata imageBuild))
                            (365 * 24 * 3600)) in
          match requestCertificate env n with
          | inl (cert, key) => generateAndBuild imageBuild cert key
          | inr err =>
              let* r := failBuild imageBuild
                          (Wrap "failed to request enrollment certificate" err) in
              ret (returned r)
          end
    | None => generateAndBuild imageBuild "" ""
    end.

(** The search of [RebuildImage] in the listed items. *)
Fixpoint findByName (items : list ImageBuild) (imageBuildName : string) : option ImageBuild :=
  match items with
  | [] => None
  | item :: rest =>
      if String.eqb (Name (Metadata item)) imageBuildName then Some item
      else findByName rest imageBuildName
  end.

(** The reset of [RebuildImage]: five fields of the status are cleared. *)
Definition resetStatus (imageBuild : ImageBuild) : ImageBuild :=
  match Status imageBuild with
  | Some st =>
      let st := set_Phase st None in
      let st := set_Message st None in
      let st := set_ContainerImageRef st None in
      let st := set_BootcImageRefs st None in
      let st := set_CompletionTime st None in
      set_Status imageBuild (Some st)
  | None => imageBuild
  end.

(** [Orchestrator.RebuildImage] *)
Definition RebuildImage (imageBuildName : string) : M (option ImageBuild * result unit) :=
  let* listResp := ListImageBuildsWithResponse env in
  match listResp with
  | TransportError err => ret (None, Err (Wrap "failed to list ImageBuilds" err))
  | HTTP code body =>
      if negb (code =? 200) then
        ret (None, Err (Errorf ("failed to list ImageBuilds, status code: "
                                +:+ GoStrings.itoa code)))
      else
        let found := match body with
                     | Some items => findByName items imageBuildName
                     | None => None
                     end in
        match found with
        | None => ret (None, Err (Errorf ("ImageBuild " +:+ imageBuildName +:+ " not found")))
        | Some imageBuild =>
            let* (imageBuild, r) := BuildImage (resetStatus imageBuild) in
            ret (Some imageBuild, r)
        end
  end.

End WithEnv.
End Orchestrator.

(** ** The build manager ([BuildManager]), the reconcile loop. *)
Module BuildManager.
Import GoErr GoTime Api Sys.
Local Open Scope sys_scope.

(** The one piece of state of a [BuildManager]: the builds cancelled
    recently, with the time of the cancellation. *)
Record BuildManager := mkBuildManager {
  recentlyCancelled : gmap string Time
}.

(** [NewBuildManager] *)
Definition NewBuildManager : BuildManager := mkBuildManager ∅.

(** [exists && value == "true"] on an annotation map that may be nil. *)
Definition annotationIsTrue (imageBuild : ImageBuild) (key : string) : bool :=
  match Annotations (Metadata imageBuild) with
  | None => false
  | Some anns =>
      match anns !! key with
      | Some v => String.eqb v "true"
      | None => false
      end
  end.

(** [BuildManager.shouldProcessBuild] *)
Definition shouldProcessBuild (imageBuild : ImageBuild) : bool :=
  match Status imageBuild with
  | None => true
  | Some st =>
      match Phase st with
      | None => true
      | Some phase => String.eqb phase "" || String.eqb phase "Pending"
      end
  end.

(** [BuildManager.shouldCancelBuild] *)
Definition shouldCancelBuild (imageBuild : ImageBuild) : bool :=
  match Status imageBuild with
  | None => false
  | Some st =>
      match Phase st with
      | None => false
      | Some phase =>
          let isActivePhase :=
            String.eqb phase "Building" || String.eqb phase "Pushing"
            || String.eqb phase "GeneratingImages" in
          if negb isActivePhase then false
          else annotationIsTrue imageBuild cancelAnnotation
      end
  end.

(** [BuildManager.shouldRetryBuild] *)
Definition shouldRetryBuild (imageBuild : ImageBuild) : bool :=
  match Status imageBuild with
  | None => false
  | Some st =>
      match Phase st with
      | None => false
      | Some phase =>
          if negb (String.eqb phase "Failed") then false
          else annotationIsTrue imageBuild retryAnnotation
      end
  end.

Section WithEnv.
Variable env : Env.
Variable cfg : Config.Config.

(** [BuildManager.ProcessBuild], the body of a started goroutine. *)
Definition ProcessBuild (imageBuild : ImageBuild) : M (ImageBuild * result unit) :=
  Orchestrator.BuildImage env cfg imageBuild.

(** [BuildManager.handleCancellation] *)
Definition handleCancellation (bm : BuildManager) (imageBuild : ImageBuild)
  : M BuildManager :=
  let buildName := Name (Metadata imageBuild) in
  let* recent :=
    match recentlyCancelled bm !! buildName with
    | Some lastCancelled =>
        let* now := time_Now env in
        ret (Since now lastCancelled <? 2 * Minute)
    | None => ret false
    end in
  if recent then ret bm
  else
    let* now := time_Now env in
    let bm := mkBuildManager (<[buildName := now]> (recentlyCancelled bm)) in
    let* _ := Orchestrator.CancelBuild env cfg imageBuild "Build cancelled by user request" in
    ret bm.

(** [BuildManager.cleanupRecentlyCancelled] *)
Definition cleanupRecentlyCancelled (bm : BuildManager) : M BuildManager :=
  let* now := time_Now env in
  ret (mkBuildManager
         (filter (fun kv => Sub now (snd kv) <= 2 * Minute) (recentlyCancelled bm))).

(** [BuildManager.handleRetry]: the annotation is deleted from the map of
    the listed copy, and a goroutine is started on that copy. *)
Definition handleRetry (imageBuild : ImageBuild) : M unit :=
  let imageBuild :=
    set_Annotations imageBuild (delete retryAnnotation <$> Annotations (Metadata imageBuild)) in
  spawn imageBuild.

(** The body of the loop of [processPendingBuildsForOrg].  A goroutine
    that is started does not run before the loop body ends. *)
Definition processItem (bm : BuildManager) (imageBuild : ImageBuild) : M BuildManager :=
  let* _ := if shouldProcessBuild imageBuild then spawn imageBuild else ret tt in
  let* bm := if shouldCancelBuild imageBuild
             then handleCancellation bm imageBuild else ret bm in
  let* _ := if shouldRetryBuild imageBuild then handleRetry imageBuild else ret tt in
  ret bm.

(** [store.ImageBuild().List(ctx, orgID, ...)]: the resources of a tenant. *)
Definition itemsOf (c : gmap (OrgId * string) ImageBuild) (orgID : OrgId) : list ImageBuild :=
  snd <$> filter (fun kv => fst (fst kv) = orgID) (map_to_list c).

(** [BuildManager.processPendingBuildsForOrg] *)
Definition processPendingBuildsForOrg (bm : BuildManager) (orgID : OrgId) : M BuildManager :=
  let* n := call (StoreListImageBuilds orgID) in
  match storeFault env n with
  | Some _ => ret bm
  | None =>
      let* c := getCatalog in
      forEach (itemsOf c orgID) bm processItem
  end.

(** [BuildManager.ProcessPendingBuilds], one tick of the loop. *)
Definition ProcessPendingBuilds (bm : BuildManager) : M BuildManager :=
  let* bm := cleanupRecentlyCancelled bm in
  let* n := call StoreListOrganizations in
  match storeFault env n with
  | Some _ => ret bm
  | None =>
      fun w => forEach (orgs w) bm processPendingBuildsForOrg w
  end.

(** [BuildManager.Run] for a number of ticks: the immediate one and those
    of the ticker, until the context is done. *)
Fixpoint Run (ticks : nat) (bm : BuildManager) : M BuildManager :=
  match ticks with
  | O => ret bm
  | S k => let* bm := ProcessPendingBuilds bm in Run k bm
  end.

End WithEnv.
End BuildManager.

(** ** The cleanup manager ([CleanupManager]). *)
Module Cleanup.
Import GoErr GoTime Api Sys.
Local Open Scope sys_scope.

Section WithEnv.
Variable env : Env.
Variable cfg : Config.Config.
(** [time.Parse(time.RFC3339, s)] *)
Variable parseRFC3339 : string -> option Time.

(** [CleanupManager.getBuildNamespace] *)
Definition getBuildNamespace : string :=
  match Config.ImageBuilder cfg with
  | Some ib =>
      if negb (String.eqb (Config.BuildNamespace ib) "") then Config.BuildNamespace ib
      else "flightctl-builds"
  | None => "flightctl-builds"
  end.

(** [CleanupManager.tryAcquireLock]; [fuel] bounds the retries after an
    expired lock was taken over.  [inl true] is the lock acquired. *)
Fixpoint tryAcquireLock (fuel : nat) (namespace lockName : string)
         (leaseDuration : Duration) : M (bool + error) :=
  let* n := call (CreateConfigMap namespace lockName) in
  match createConfigMap env n with
  | None => ret (inl true)
  | Some _ =>
      let* n := call (GetConfigMap namespace lockName) in
      match getConfigMap env n with
      | inr err => ret (inr (Wrap "failed to get existing lock" err))
      | inl existing =>
          match existing !! "timestamp" with
          | None =>
              let* _ := call (DeleteConfigMap namespace lockName) in
              ret (inr (Errorf "invalid lock"))
          | Some timestampStr =>
              match parseRFC3339 timestampStr with
              | None =>
                  let* _ := call (DeleteConfigMap namespace lockName) in
                  ret (inr (Errorf "invalid lock timestamp"))
              | Some lockTime =>
                  let* now := time_Now env in
                  if leaseDuration <? Since now lockTime then
                    let* _ := call (DeleteConfigMap namespace lockName) in
                    match fuel with
                    | O => ret (inr (Errorf "lock retries exhausted"))
                    | S fuel' => tryAcquireLock fuel' namespace lockName leaseDuration
                    end
                  else ret (inl false)
              end
          end
      end
  end.

(** A build counts as active in phase Building, Queued or Pending. *)
Definition isActive (imageBuild : ImageBuild) : bool :=
  match Status imageBuild with
  | Some st =>
      match Phase st with
      | Some phase =>
          String.eqb phase "Building" || String.eqb phase "Queued"
          || String.eqb phase "Pending"
      | None => false
      end
  | None => false
  end.

(** The inner loop over the builds of one tenant. *)
Definition markActive (activeBuilds : gset string) (imageBuild : ImageBuild) : gset string :=
  if isActive imageBuild then {[ Name (Metadata imageBuild) ]} ∪ activeBuilds
  else activeBuilds.

(** The outer loop: a tenant whose listing fails is skipped. *)
Definition activeOfOrg (activeBuilds : gset string) (org : OrgId) : M (gset string) :=
  let* n := call (StoreListImageBuilds org) in
  match storeFault env n with
  | Some _ => ret activeBuilds
  | None =>
      let* c := getCatalog in
      ret (foldl markActive activeBuilds (BuildManager.itemsOf c org))
  end.

(** The names of the active builds, or the error of the tenant listing. *)
Definition collectActive : M (gset string + error) :=
  let* n := call StoreListOrganizations in
  match storeFault env n with
  | Some err => ret (inr err)
  | None =>
      fun w =>
        let '(active, w') := forEach (orgs w) ∅ activeOfOrg w in
        (inl active, w')
  end.

(** The orphaned jobs and configmaps found so far. *)
Record Orphans := mkOrphans {
  orphanedJobs : gset string;
  orphanedConfigMaps : gset string
}.

(** The body of the loop over the pods. *)
Definition checkPod (activeBuilds : gset string) (acc : Orphans) (pod : K8s.Pod) : M Orphans :=
  match K8s.Labels pod !! "job-name" with
  | None => ret acc
  | Some jobName =>
      if negb (GoStrings.HasPrefix jobName "build-") then ret acc
      else
        let imageBuildName := GoStrings.TrimPrefix jobName "build-" in
        if bool_decide (imageBuildName ∈ activeBuilds) then ret acc
        else
          let* now := time_Now env in
          if Since now (K8s.CreationTimestamp pod) <? 1 * Hour then ret acc
          else
            ret (mkOrphans ({[ jobName ]} ∪ orphanedJobs acc)
                           ({[ "containerfile-" +:+ imageBuildName ]} ∪ orphanedConfigMaps acc))
  end.

(** The pods of the build namespace are listed and checked. *)
Definition markOrphans (activeBuilds : gset string) : M (Orphans + error) :=
  let* n := call (ListPods getBuildNamespace "") in
  match listPods env n with
  | inr err => ret (inr (Wrap "failed to list pods" err))
  | inl pods =>
      let* acc := forEach pods (mkOrphans ∅ ∅) (checkPod activeBuilds) in
      ret (inl acc)
  end.

(** The deletions; a failing deletion is logged. *)
Definition deleteOrphans (acc : Orphans) : M unit :=
  let* _ := forEach (elements (orphanedJobs acc)) tt
              (fun _ jobName => let* _ := call (DeleteJob getBuildNamespace jobName) in ret tt) in
  forEach (elements (orphanedConfigMaps acc)) tt
    (fun _ name => let* _ := call (DeleteConfigMap getBuildNamespace name) in ret tt).

(** [CleanupManager.PerformInitialCleanup]; [None] is a [nil] error. *)
Definition PerformInitialCleanup (fuel : nat) : M (option error) :=
  let buildNamespace := getBuildNamespace in
  let lockName := "imagebuilder-cleanup-lock" in
  let* locked := tryAcquireLock fuel buildNamespace lockName (5 * Minute) in
  match locked with
  | inr err => ret (Some (Wrap "failed to acquire cleanup lock" err))
  | inl false => ret None
  | inl true =>
      let unlock := call (DeleteConfigMap buildNamespace lockName) in
      let* active := collectActive in
      match active with
      | inr err => let* _ := unlock in ret (Some err)
      | inl activeBuilds =>
          let* found := markOrphans activeBuilds in
          match found with
          | inr err => let* _ := unlock in ret (Some err)
          | inl acc =>
              let* _ := deleteOrphans acc in
              let* _ := unlock in
              ret None
          end
      end
  end.

End WithEnv.
End Cleanup.

(** ** The upload endpoint ([HTTPServer.handleUploadArtifact] behind
    [HTTPServer.uploadAuthMiddleware]). *)
Module Upload.
Import GoErr GoStrings Storage.

(** One step of [multipart.Reader.NextPart]: a part, or a stream that
    cannot be parsed further.  The end of the list is [io.EOF]. *)
Inductive PartEvent : Type :=
| Part (formName fileName : string) (content : Reader)
| Malformed (e : error).

(** The body of a request: [r.MultipartReader()] fails, or yields parts. *)
Inductive Body : Type :=
| NotMultipart (e : error)
| Multipart (parts : list PartEvent).

Record Request := mkRequest {
  Authorization : string;                 (* [r.Header.Get("Authorization")]: "" when absent *)
  body : Body
}.

Inductive JSONValue : Type :=
| JBool (b : bool)
| JString (s : string)
| JNumber (n : Z).

(** What is written to the [http.ResponseWriter]. *)
Inductive Payload : Type :=
| Text (msg : string)                     (* [http.Error] *)
| JSON (fields : gmap string JSONValue).  (* an encoded [map[string]interface{}] *)

Record Response := mkResponse { StatusCode : Z; payload : Payload }.

Definition StatusOK : Z := 200.
Definition StatusBadRequest : Z := 400.
Definition StatusUnauthorized : Z := 401.
Definition StatusInternalServerError : Z := 500.
Definition StatusServiceUnavailable : Z := 503.

(** [http.Error(w, msg, code)] *)
Definition http_Error (msg : string) (code : Z) : Response := mkResponse code (Text msg).

(** The fields read so far by the loop over the parts. *)
Record Form := mkForm {
  imageName : string;
  imageType : string;
  architecture : string;
  filePart : option (string * Reader)     (* the file name and the open part *)
}.

(** The loop over the parts: the metadata fields are read as they come,
    the first [file] part ends the loop, a part that cannot be read ends
    the request. *)
Fixpoint readParts (parts : list PartEvent) (form : Form) : Form + Response :=
  match parts with
  | [] => inl form
  | Malformed _ :: _ => inr (http_Error "Failed to read upload" StatusBadRequest)
  | Part formName fileName content :: rest =>
      if String.eqb formName "imageName" then
        readParts rest (mkForm (data content) (imageType form) (architecture form) (filePart form))
      else if String.eqb formName "imageType" then
        readParts rest (mkForm (imageName form) (data content) (architecture form) (filePart form))
      else if String.eqb formName "architecture" then
        readParts rest (mkForm (imageName form) (imageType form) (data content) (filePart form))
      else if String.eqb formName "file" then
        inl (mkForm (imageName form) (imageType form) (architecture form)
                    (Some (fileName, content)))
      else readParts rest form
  end.

Section WithConfig.
Variable cfg : Config.Config.
Variable os : OS.
(** The ETag the object store answers a PUT with. *)
Variable etag : string.

(** [HTTPServer.handleUploadArtifact] *)
Definition handleUploadArtifact (disk : Disk) (r : Request) : Response * Disk :=
  match body r with
  | NotMultipart err =>
      (http_Error ("Failed to read multipart form: " +:+ Error err) StatusBadRequest, disk)
  | Multipart parts =>
      match readParts parts (mkForm "" "" "" None) with
      | inr resp => (resp, disk)
      | inl form =>
          if String.eqb (imageName form) "" || String.eqb (imageType form) "" then
            (http_Error "imageName and imageType are required" StatusBadRequest, disk)
          else
            match filePart form with
            | None => (http_Error "No file uploaded" StatusBadRequest, disk)
            | Some (filename, part) =>
                let storageType :=
                  match Config.storageOf cfg with
                  | Some storage => Config.Type_ storage
                  | None => "pvc"
                  end in
                let '(stored, disk') :=
                  if String.eqb storageType "s3" then
                    StreamToS3 cfg os disk (imageName form) part (imageType form) filename etag
                  else
                    StreamToLocalOrPVC cfg os disk (imageName form) part (imageType form) in
                match stored with
                | Err err =>
                    (http_Error ("Failed to store image: " +:+ Error err)
                                StatusInternalServerError, disk')
                | Panic m =>
                    (http_Error "Internal Server Error" StatusInternalServerError, disk')
                | Ok storageRef =>
                    (mkResponse StatusOK
                       (JSON (<["success" := JBool true]>
                             (<["imageName" := JString (imageName form)]>
                             (<["imageType" := JString (imageType form)]>
                             (<["storageType" := JString (Storage.Type_ storageRef)]>
                             (<["storagePath" := JString (Storage.Path storageRef)]>
                             (<["size" := JNumber (Storage.Size storageRef)]> ∅))))))),
                     disk')
                end
            end
      end
  end.

(** [HTTPServer.uploadAuthMiddleware]; [expectedToken] is
    [os.Getenv("UPLOAD_TOKEN")]. *)
Definition uploadAuthMiddleware (expectedToken : string)
           (next : Disk -> Request -> Response * Disk)
           (disk : Disk) (r : Request) : Response * Disk :=
  if String.eqb expectedToken "" then
    (http_Error "Upload endpoint not configured" StatusServiceUnavailable, disk)
  else
    let authHeader := Authorization r in
    if String.eqb authHeader "" then
      (http_Error "Unauthorized" StatusUnauthorized, disk)
    else if negb (HasPrefix authHeader "Bearer ") then
      (http_Error "Invalid Authorization header format" StatusUnauthorized, disk)
    else
      let token := TrimPrefix authHeader "Bearer " in
      if negb (String.eqb token expectedToken) then
        (http_Error "Invalid token" StatusUnauthorized, disk)
      else next disk r.

(** [POST /api/v1/imagebuilds/upload] as the router serves it. *)
Definition postUpload (expectedToken : string) (disk : Disk) (r : Request) : Response * Disk :=
  uploadAuthMiddleware expectedToken handleUploadArtifact disk r.

End WithConfig.
End Upload.

(** ** The vocabulary of the specification. *)
Module Spec.
Import GoStrings.

(** A string without a path separator. *)
Fixpoint noSlash (s : string) : bool :=
  match s with
  | EmptyString => true
  | String c s' => negb (Ascii.eqb c "/") && noSlash s'
  end.

(** A path element that [filepath.Clean] keeps as it is: not empty, no
    separator, neither [.] nor [..].  Resource names are such elements. *)
Definition plain (s : string) : bool :=
  noSlash s && negb (String.eqb s "") && negb (String.eqb s ".")
  && negb (String.eqb s "..").

(** The sentinel the bootc builder leaves on a result. *)
Definition sentinel (name type : string) : string :=
  "uploaded:" +:+ name +:+ "/" +:+ type.

(** The base of a storage backend: the configured or default directory,
    the mount point of the volume, or the bucket. *)
Definition storageBase (storage : Config.StorageConfig) : option string :=
  if String.eqb (Config.Type_ storage) "local" then
    Some (if String.eqb (Config.LocalPath storage) ""
          then "/var/lib/flightctl/images" else Config.LocalPath storage)
  else if String.eqb (Config.Type_ storage) "pvc" then
    Some ("/mnt/pvc/" +:+ Config.PVCName storage)
  else if String.eqb (Config.Type_ storage) "s3" then
    match Config.S3 storage with
    | Some s3 => Some ("s3://" +:+ Config.Bucket s3)
    | None => None
    end
  else None.

(** A directory base is well formed when it is a clean path other than
    the root and the current directory; a bucket URL always is. *)
Definition wellFormedBase (storage : Config.StorageConfig) (base : string) : Prop :=
  String.eqb (Config.Type_ storage) "local" || String.eqb (Config.Type_ storage) "pvc" = true ->
  Filepath.Clean base = base /\ base <> "/" /\ base <> ".".

(** An [ImageBuild] with a registry URL, a name and a creation time. *)
Definition buildWith (url : option string) (name : string) (created : option GoTime.Time)
  : Api.ImageBuild :=
  Api.mkImageBuild (Api.mkObjectMeta name None created)
    (Api.mkImageBuildSpec "quay.io/centos-bootc/centos-bootc:stream9"
       (Api.mkContainerRegistryConfig <$> url) None None)
    None.

(** *** The behaviour of the environment during one build. *)

(** No poll of [isCancelled] sees a cancellation request. *)
Definition quiet (env : Sys.Env) (imageBuild : Api.ImageBuild) : Prop :=
  forall n, Orchestrator.cancelDecision (Api.Annotations (Api.Metadata imageBuild))
                                        (Sys.getImageBuild env n) = false.

(** The workload named [job] is created and runs to a successful end. *)
Definition workloadSucceeds (env : Sys.Env) (job : string) : Prop :=
  forall n, Sys.createJob env n job = None /\ Sys.watchJob env n job = None.

(** The workload named [job] fails: it cannot be created, or it ends in a
    failure. *)
Definition workloadFails (env : Sys.Env) (job : string) : Prop :=
  (forall n, is_Some (Sys.createJob env n job)) \/
  (forall n, is_Some (Sys.watchJob env n job)).

(** The workload named [job] was seen to succeed, or to fail, at some
    call of a run. *)
Definition ranWell (env : Sys.Env) (job : string) : Prop :=
  exists n m, Sys.createJob env n job = None /\ Sys.watchJob env m job = None.

Definition ranBadly (env : Sys.Env) (job : string) : Prop :=
  (exists n, is_Some (Sys.createJob env n job)) \/
  (exists n, is_Some (Sys.watchJob env n job)).

(** The result the bootc builder returns for a successful export. *)
Definition resultOf (name : string) (export : Api.BootcExport) : Bootc.BootcImageResult :=
  Bootc.mkBootcImageResult (Api.Type_ export) (Bootc.getArchitecture (Api.Architecture export))
                           (sentinel name (Api.Type_ export)) 0.

(** The configuration names the object store without configuring it:
    resolving a reference then dereferences a nil pointer. *)
Definition storagePanics (cfg : Config.Config) : Prop :=
  exists storage, Config.storageOf cfg = Some storage /\
                  Config.Type_ storage = "s3" /\ Config.S3 storage = None.

(** The reference of one result, when the storage manager resolves it. *)
Definition resolve (cfg : Config.Config) (os : Storage.OS) (name : string)
           (r : Bootc.BootcImageResult) : option Api.BootcImageRef :=
  match Storage.StoreBootcImage cfg os name (Bootc.Path r) (Bootc.Type_ r) with
  | GoErr.Ok storageRef =>
      Some (Api.mkBootcImageRef (Bootc.Type_ r) (Some (Bootc.Architecture r))
                                (Storage.Path storageRef))
  | _ => None
  end.

(** The name of the workload of one export. *)
Definition bootcJobName (name : string) (export : Api.BootcExport) : string :=
  "bootc-" +:+ name +:+ "-" +:+ Api.Type_ export.

(** The stages before the exports succeed: the certificate is issued when
    one is asked for, the Containerfile is generated, the configmap and the
    secrets are created and the container workload succeeds. *)
Definition earlyStagesSucceed (env : Sys.Env) (imageBuild : Api.ImageBuild) : Prop :=
  (forall n, exists cert key, Sys.requestCertificate env n = inl (cert, key)) /\
  (forall cert key, exists text, Sys.generate env (Api.Spec imageBuild) cert key = inl text) /\
  (forall n, Sys.prepareBuild env n = None) /\
  workloadSucceeds env ("build-" +:+ Api.Name (Api.Metadata imageBuild)).

(** The exports a build asks for. *)
Definition exportsOf (imageBuild : Api.ImageBuild) : list Api.BootcExport :=
  match Api.BootcExports (Api.Spec imageBuild) with
  | Some exports => exports
  | None => []
  end.

(** The phase of the local copy of a build. *)
Definition phaseOf (imageBuild : Api.ImageBuild) : option string :=
  Api.Phase (Orchestrator.statusOf imageBuild).

(** What a build whose early stages succeed ends in, by the way its
    export workloads went: [Failed] when one was seen to fail; a panic
    when all went well and the object store is not configured;
    [Completed] otherwise, with the references that resolve. *)
Definition exportsOutcome (env : Sys.Env) (cfg : Config.Config) (ib : Api.ImageBuild)
           (r : Api.ImageBuild * GoErr.result unit) : Prop :=
  let ib' := fst r in
  let name := Api.Name (Api.Metadata ib) in
  let jobs := bootcJobName name <$> exportsOf ib in
  Api.ContainerImageRef (Orchestrator.statusOf ib')
    = Some (ContainerBuilder.generateImageName ib) /\
  ((Exists (ranBadly env) jobs /\ phaseOf ib' = Some "Failed" /\
    (exists e, snd r = GoErr.Err e) /\
    Api.BootcImageRefs (Orchestrator.statusOf ib')
      = Api.BootcImageRefs (Orchestrator.statusOf ib) /\
    is_Some (Api.CompletionTime (Orchestrator.statusOf ib')))
   \/
   (Forall (ranWell env) jobs /\ storagePanics cfg /\ exportsOf ib <> [] /\
    exists m, snd r = GoErr.Panic m)
   \/
   (Forall (ranWell env) jobs /\ (exportsOf ib = [] \/ ~ storagePanics cfg) /\
    phaseOf ib' = Some "Completed" /\
    (forall m, snd r <> GoErr.Panic m) /\
    is_Some (Api.CompletionTime (Orchestrator.statusOf ib')) /\
    Api.BootcImageRefs (Orchestrator.statusOf ib') =
      let refs := omap (resolve cfg (Sys.os env) name) (resultOf name <$> exportsOf ib) in
      if (0 <? length refs)%nat then Some refs
      else Api.BootcImageRefs (Orchestrator.statusOf ib))).

(** 2025-01-04T14:30:22Z *)
Definition t_2025_01_04_14_30_22 : GoTime.Time := 1736001022 * GoTime.Second.

(** The catalog holds the resource named [name] of the client's tenant. *)
Definition present (env : Sys.Env) (name : string) (w : Sys.World) : Prop :=
  is_Some (Sys.catalog w !! (Sys.apiOrg env, name)).

(** From [a] to [b] the identity of the build is kept and no timestamp is
    lost: a start time that is set keeps its value, a completion time
    that is set stays set. *)
Definition advances (a b : Api.ImageBuild) : Prop :=
  Api.Metadata b = Api.Metadata a /\ Api.Spec b = Api.Spec a /\
  (forall t, Api.StartTime (Orchestrator.statusOf a) = Some t ->
             Api.StartTime (Orchestrator.statusOf b) = Some t) /\
  (is_Some (Api.CompletionTime (Orchestrator.statusOf a)) ->
   is_Some (Api.CompletionTime (Orchestrator.statusOf b))).

(** A terminal phase. *)
Definition terminal (phase : option string) : Prop :=
  phase = Some "Completed" \/ phase = Some "Failed" \/ phase = Some "Cancelled".

(** Every exit of a build: the identity and the timestamps are kept; a
    build that ends in phase Cancelled returns an error; one that returns
    no error ends in phase Completed; one that returns carries a terminal
    phase and a completion time. *)
Definition exitShape (ib : Api.ImageBuild) (r : Api.ImageBuild * GoErr.result unit) : Prop :=
  advances ib (fst r) /\
  (phaseOf (fst r) = Some "Cancelled" -> exists e, snd r = GoErr.Err e) /\
  (snd r = GoErr.Ok tt -> phaseOf (fst r) = Some "Completed") /\
  ((exists e, snd r = GoErr.Err e) \/ snd r = GoErr.Ok tt ->
   terminal (phaseOf (fst r)) /\
   is_Some (Api.CompletionTime (Orchestrator.statusOf (fst r)))).

(** The claim that a retry zeroes the mutable fields of the status. *)
Definition retryZeroesStatus : Prop :=
  forall ib, Orchestrator.statusOf (Orchestrator.resetStatus ib) = Api.emptyStatus.

(** *** The reconcile loop. *)

(** The copy [handleRetry] starts a goroutine on. *)
Definition withoutRetry (ib : Api.ImageBuild) : Api.ImageBuild :=
  Api.set_Annotations ib (delete Api.retryAnnotation <$> Api.Annotations (Api.Metadata ib)).

(** The tasks one observation of a build dispatches. *)
Definition dispatchOf (ib : Api.ImageBuild) : list Api.ImageBuild :=
  ((if BuildManager.shouldProcessBuild ib then [ib] else [])
   ++ (if BuildManager.shouldRetryBuild ib then [withoutRetry ib] else []))%list.

(** The tasks one tick dispatches on a catalog. *)
Definition dispatchAll (c : gmap (Sys.OrgId * string) Api.ImageBuild) (orgs : list Sys.OrgId)
  : list Api.ImageBuild :=
  orgs ≫= (fun org => BuildManager.itemsOf c org ≫= dispatchOf).

(** No stored build is in an active phase with a cancel request. *)
Definition noCancelPending (c : gmap (Sys.OrgId * string) Api.ImageBuild) : Prop :=
  forall k ib, c !! k = Some ib -> BuildManager.shouldCancelBuild ib = false.

(** From [w] to [w'] the catalog and the tenants are left alone and the
    goroutines [tasks] are started. *)
Definition dispatches (w : Sys.World) (tasks : list Api.ImageBuild) (w' : Sys.World) : Prop :=
  Sys.catalog w' = Sys.catalog w /\ Sys.orgs w' = Sys.orgs w /\
  Sys.spawned w' = (Sys.spawned w ++ tasks)%list.

(** Whether an event is a patch of the catalog. *)
Definition isPatch (ev : Sys.Event) : bool :=
  match ev with
  | Sys.PatchImageBuild _ _ => true
  | _ => false
  end.

(** The annotation [key] of the stored resource named [name]. *)
Definition storedAnnotation (w : Sys.World) (name key : string) : option string :=
  match Sys.catalog w !! ("default-org", name) with
  | Some ib =>
      match Api.Annotations (Api.Metadata ib) with
      | Some anns => anns !! key
      | None => None
      end
  | None => None
  end.

(** The phase of the stored resource named [name]. *)
Definition storedPhase (w : Sys.World) (name : string) : option string :=
  match Sys.catalog w !! ("default-org", name) with
  | Some ib => phaseOf ib
  | None => None
  end.

(** At most one task per build name. *)
Definition atMostOncePerName (tasks : list Api.ImageBuild) : Prop :=
  NoDup ((fun ib => Api.Name (Api.Metadata ib)) <$> tasks).

(** *** The cleanup. *)





(** An event that deletes no workload: no job, and no configmap but the
    lock of the cleanup. *)
Definition sparesWorkloads (ev : Sys.Event) : Prop :=
  match ev with
  | Sys.DeleteJob _ _ => False
  | Sys.DeleteConfigMap _ name => name = "imagebuilder-cleanup-lock"
  | _ => True
  end.

(** From [w] to [w'] the catalog and the tenants are kept and no workload
    is deleted. *)
Definition sparing (w w' : Sys.World) : Prop :=
  Sys.catalog w' = Sys.catalog w /\ Sys.orgs w' = Sys.orgs w /\
  exists evs, Sys.trace w' = (Sys.trace w ++ evs)%list /\ Forall sparesWorkloads evs.

(** The events a computation added to the trace. *)
Definition newEvents (w w' : Sys.World) : list Sys.Event :=
  skipn (length (Sys.trace w)) (Sys.trace w').

(** *** The upload endpoint. *)

(** The part events up to the first [file] part, which ends the reading. *)
Fixpoint beforeFile (parts : list Upload.PartEvent) : list Upload.PartEvent :=
  match parts with
  | [] => []
  | Upload.Part formName fileName content :: rest =>
      if String.eqb formName "file" then []
      else Upload.Part formName fileName content :: beforeFile rest
  | Upload.Malformed e :: rest => Upload.Malformed e :: beforeFile rest
  end.

(** The stream cannot be parsed up to its first [file] part. *)
Definition parseFails (parts : list Upload.PartEvent) : bool :=
  existsb (fun ev => match ev with Upload.Malformed _ => true | _ => false end)
          (beforeFile parts).

(** The value of the metadata field [name]: that of its last part before
    the [file] part, or [""] when there is none. *)
Definition fieldValue (name : string) (parts : list Upload.PartEvent) : string :=
  fold_left (fun v ev =>
               match ev with
               | Upload.Part formName _ content =>
                   if String.eqb formName name then Storage.data content else v
               | Upload.Malformed _ => v
               end) (beforeFile parts) "".

(** The first [file] part: its file name and its content. *)
Fixpoint firstFile (parts : list Upload.PartEvent) : option (string * Storage.Reader) :=
  match parts with
  | [] => None
  | Upload.Part formName fileName content :: rest =>
      if String.eqb formName "file" then Some (fileName, content) else firstFile rest
  | Upload.Malformed _ :: rest => firstFile rest
  end.

(** The streaming write the handler chooses for a configuration. *)
Definition streamed (cfg : Config.Config) (os : Storage.OS) (etag : string)
           (disk : Storage.Disk) (name type filename : string) (part : Storage.Reader)
  : GoErr.result Storage.StorageReference * Storage.Disk :=
  let storageType := match Config.storageOf cfg with
                     | Some storage => Config.Type_ storage
                     | None => "pvc"
                     end in
  if String.eqb storageType "s3"
  then Storage.StreamToS3 cfg os disk name part type filename etag
  else Storage.StreamToLocalOrPVC cfg os disk name part type.

(** The JSON summary of a stored upload. *)
Definition isSummary (payload : Upload.Payload) (name type : string)
           (ref : Storage.StorageReference) : Prop :=
  exists fields,
    payload = Upload.JSON fields /\
    fields !! "success" = Some (Upload.JBool true) /\
    fields !! "imageName" = Some (Upload.JString name) /\
    fields !! "imageType" = Some (Upload.JString type) /\
    fields !! "storageType" = Some (Upload.JString (Storage.Type_ ref)) /\
    fields !! "storagePath" = Some (Upload.JString (Storage.Path ref)) /\
    fields !! "size" = Some (Upload.JNumber (Storage.Size ref)).

(** *** Sample builds, configurations and environments. *)

(** A build named [name] that asks for the exports [types]. *)
Definition buildOf (name : string) (annotations : option (gmap string string))
           (types : list string) (status : option Api.ImageBuildStatus) : Api.ImageBuild :=
  Api.mkImageBuild (Api.mkObjectMeta name annotations None)
    (Api.mkImageBuildSpec "quay.io/centos-bootc/centos-bootc:stream9" None None
       (match types with
        | [] => None
        | _ => Some ((fun t => Api.mkBootcExport t None) <$> types)
        end))
    status.

(** Local storage under the default directory. *)
Definition localConfig : Config.Config :=
  Config.mkConfig
    (Some (Config.mkImageBuilderConfig "" "" "" (Some (Config.mkStorageConfig "local" "" "" None))))
    None.

(** No storage section at all. *)
Definition noStorageConfig : Config.Config :=
  Config.mkConfig (Some (Config.mkImageBuilderConfig "" "" "" None)) None.

(** An operating system where nothing fails and no file exists yet. *)
Definition calmOS : Storage.OS :=
  Storage.mkOS (fun _ => None) (fun _ => None) (fun _ => None) (fun _ _ => inl 0) None
               (fun _ _ _ => inl 0) (fun _ => None).

(** An environment in which every call succeeds: the clock advances by a
    second per call, the API server knows the polled build without any
    annotation, the cluster runs every workload to a successful end. *)
Definition calmEnv : Sys.Env :=
  Sys.mkEnv "default-org"
    (fun n => t_2025_01_04_14_30_22 + Z.of_nat n * GoTime.Second)
    (fun _ => Sys.HTTP 200 (Some (buildOf "b" None [] None)))
    (fun _ => Sys.HTTP 200 (Some []))
    (fun _ => None) (fun _ => None)
    (fun _ => inl []) (fun _ => inl "") (fun _ => inl [])
    (fun _ _ => None) (fun _ _ => None) (fun _ => ["build log"])
    (fun _ => None) (fun _ => None) (fun _ => inl ∅) (fun _ => None)
    (fun _ => inl ("cert", "key")) (fun _ => None)
    (fun _ _ _ => inl "FROM quay.io/centos-bootc/centos-bootc:stream9")
    calmOS.

(** [calmEnv], except that the workload named [job] ends in a failure. *)
Definition failingJob (job : string) : Sys.Env :=
  Sys.mkEnv (Sys.apiOrg calmEnv) (Sys.clock calmEnv) (Sys.getImageBuild calmEnv)
    (Sys.listImageBuilds calmEnv) (Sys.apiFault calmEnv) (Sys.storeFault calmEnv)
    (Sys.listPods calmEnv) (Sys.podLogs calmEnv) (Sys.listJobs calmEnv)
    (Sys.createJob calmEnv)
    (fun _ j => if String.eqb j job then Some (GoErr.Errorf "job failed") else None)
    (Sys.jobPodLogs calmEnv) (Sys.deleteJob calmEnv) (Sys.createConfigMap calmEnv)
    (Sys.getConfigMap calmEnv) (Sys.deleteConfigMap calmEnv)
    (Sys.requestCertificate calmEnv) (Sys.prepareBuild calmEnv) (Sys.generate calmEnv)
    (Sys.os calmEnv).

(** The status of a build that ran once and failed. *)
Definition failedStatus : Api.ImageBuildStatus :=
  Api.mkImageBuildStatus (Some "Failed") (Some "Build failed: build job failed") None None
    (Some t_2025_01_04_14_30_22) (Some (t_2025_01_04_14_30_22 + 5 * GoTime.Minute))
    (Some ["=== Pod build-b4 (Status: Failed) ==="; "error: exit status 1"]).

(** A build that failed and carries the retry request. *)
Definition retryRequested : Api.ImageBuild :=
  buildOf "b4" (Some {[ Api.retryAnnotation := "true" ]}) [] (Some failedStatus).

(** [calmEnv] with the pods [pods] in the build namespace and a store
    whose call number [faultAt] fails. *)
Definition cleanupEnv (pods : list K8s.Pod) (faultAt : option nat) : Sys.Env :=
  Sys.mkEnv (Sys.apiOrg calmEnv) (Sys.clock calmEnv) (Sys.getImageBuild calmEnv)
    (Sys.listImageBuilds calmEnv) (Sys.apiFault calmEnv)
    (fun n => if bool_decide (faultAt = Some n)
              then Some (GoErr.Errorf "connection refused") else None)
    (fun _ => inl pods) (Sys.podLogs calmEnv) (Sys.listJobs calmEnv)
    (Sys.createJob calmEnv) (Sys.watchJob calmEnv)
    (Sys.jobPodLogs calmEnv) (Sys.deleteJob calmEnv) (Sys.createConfigMap calmEnv)
    (Sys.getConfigMap calmEnv) (Sys.deleteConfigMap calmEnv)
    (Sys.requestCertificate calmEnv) (Sys.prepareBuild calmEnv) (Sys.generate calmEnv)
    (Sys.os calmEnv).

(** The pod of the container workload of the build [name], created at
    [created]. *)
Definition buildPod (name : string) (created : GoTime.Time) : K8s.Pod :=
  K8s.mkPod ("build-" +:+ name +:+ "-x7k2p") {[ "job-name" := "build-" +:+ name ]} created.

(** A build in phase Building. *)
Definition buildingBuild (name : string) : Api.ImageBuild :=
  buildOf name None []
    (Some (Api.mkImageBuildStatus (Some "Building") (Some "Starting image build process")
             None None (Some t_2025_01_04_14_30_22) None None)).

(** No timestamp is ever parsed in the sample runs. *)
Definition noParse : string -> option GoTime.Time := fun _ => None.

(** A world of one tenant whose catalog holds the given builds. *)
Definition worldOf (builds : list Api.ImageBuild) : Sys.World :=
  Sys.mkWorld ["default-org"]
    (list_to_map ((fun ib => (("default-org", Api.Name (Api.Metadata ib)), ib)) <$> builds))
    [] 0 [].

End Spec.


(** ** The properties of the remaining code: vocabulary. *)
Module Reading.

(** The branch of the loop body of [processPendingBuildsForOrg] that an
    observation of a build takes, were the three tests an if-else chain. *)
Definition oneBranch (env : Sys.Env) (cfg : Config.Config)
           (bm : BuildManager.BuildManager) (imageBuild : Api.ImageBuild)
  : Sys.M BuildManager.BuildManager :=
  if BuildManager.shouldProcessBuild imageBuild then
    Sys.bind (Sys.spawn imageBuild) (fun _ => Sys.ret bm)
  else if BuildManager.shouldCancelBuild imageBuild then
    BuildManager.handleCancellation env cfg bm imageBuild
  else if BuildManager.shouldRetryBuild imageBuild then
    Sys.bind (BuildManager.handleRetry imageBuild) (fun _ => Sys.ret bm)
  else Sys.ret bm.

(** The world [w'] continues [w] by calls that satisfy [Q] as a whole. *)
Definition extendsBy (Q : list Sys.Event -> Prop) (w w' : Sys.World) : Prop :=
  exists evs, Sys.trace w' = (Sys.trace w ++ evs)%list /\ Q evs.

(** The world [w'] continues [w] by the calls of stages that satisfy [Q],
    ended or not by one cancellation. *)
Definition runsTo (env : Sys.Env) (cfg : Config.Config) (Q : list Sys.Event -> Prop)
           (w w' : Sys.World) : Prop :=
  exists w1, extendsBy Q w w1 /\
             (w' = w1 \/
              exists ib reason, w' = snd (Orchestrator.CancelBuild env cfg ib reason w1)).

(** A call that starts something: a job, the watch of a job, the
    configmap and secrets of a build, a certificate request. *)
Definition startsWork (ev : Sys.Event) : bool :=
  match ev with
  | Sys.CreateJob _ _ | Sys.WatchJob _ _ | Sys.PrepareBuild _
  | Sys.RequestEnrollmentCertificate _ _ | Sys.CreateConfigMap _ _ => true
  | _ => false
  end.

(** Every request to create a job is followed, later among the calls, by
    a request to delete the job of that name in that namespace. *)
Definition balanced (evs : list Sys.Event) : Prop :=
  forall i ns job,
    evs !! i = Some (Sys.CreateJob ns job) ->
    exists j, (i < j)%nat /\ evs !! j = Some (Sys.DeleteJob ns job).

(** The calls of a cancellation that met the pods [pods] and the jobs
    [jobs], to the status write of [body]. *)
Definition cancellationCalls (ns name : string) (pods : list K8s.Pod) (jobs : list K8s.Job)
           (body : Api.ImageBuild) : list Sys.Event :=
  ([Sys.ListPods ns ("imagebuild=" +:+ name)]
   ++ ((fun pod => Sys.GetPodLogs ns (K8s.Name pod) 1000) <$> pods)
   ++ [Sys.ListJobs ns ("imagebuild=" +:+ name)]
   ++ ((fun job => Sys.DeleteJob ns (K8s.JobName job)) <$> jobs)
   ++ [Sys.DeleteConfigMap ns ("containerfile-" +:+ name);
       Sys.PatchImageBuild name
         [Sys.mkPatchOp "remove" "/metadata/annotations/imagebuilder.flightctl.io~1cancel"];
       Sys.TimeNow;
       Sys.ReplaceImageBuildStatus name body])%list.

(** A call that writes a status. *)
Definition isStatusWrite (ev : Sys.Event) : bool :=
  match ev with
  | Sys.ReplaceImageBuildStatus _ _ => true
  | _ => false
  end.

(** The body of a status write. *)
Definition writtenBody (ev : Sys.Event) : option Api.ImageBuild :=
  match ev with
  | Sys.ReplaceImageBuildStatus _ body => Some body
  | _ => None
  end.

(** The bodies of the status writes among the calls, oldest first. *)
Definition statusWrites (evs : list Sys.Event) : list Api.ImageBuild :=
  omap writtenBody evs.

(** The catalog holds the resource of the build [ib] of the client's
    tenant, and its status is that of [ib]. *)
Definition storedAs (env : Sys.Env) (ib : Api.ImageBuild) (w : Sys.World) : Prop :=
  exists stored,
    Sys.catalog w !! (Sys.apiOrg env, Api.Name (Api.Metadata ib)) = Some stored /\
    Api.Status stored = Api.Status ib.

(** The last call made is the status write of [ib] under its own name. *)
Definition lastWrote (ib : Api.ImageBuild) (w : Sys.World) : Prop :=
  exists before,
    Sys.trace w
    = (before ++ [Sys.ReplaceImageBuildStatus (Api.Name (Api.Metadata ib)) ib])%list.

(** How a build that returned has ended, from the world [w] it started
    in: the last call is the status write of the copy it returns; when the
    API server answers every request and the resource was stored at the
    start, the catalog holds the status of that copy, and a build that
    ended in phase Completed returned no error. *)
Definition endsWritten (env : Sys.Env) (r : Api.ImageBuild * GoErr.result unit)
           (w w' : Sys.World) : Prop :=
  lastWrote (fst r) w' /\
  ((forall n, Sys.apiFault env n = None) ->
   Spec.present env (Api.Name (Api.Metadata (fst r))) w ->
   storedAs env (fst r) w' /\
   (Spec.phaseOf (fst r) = Some "Completed" -> snd r = GoErr.Ok tt)).

(** A string without the byte [c]. *)
Fixpoint without (c : ascii) (s : string) : bool :=
  match s with
  | EmptyString => true
  | String d s' => negb (Ascii.eqb d c) && without c s'
  end.

(** The namespace a call to the cluster names. *)
Definition namespaceOf (ev : Sys.Event) : option string :=
  match ev with
  | Sys.ListPods ns _ | Sys.GetPodLogs ns _ _ | Sys.ListJobs ns _
  | Sys.CreateJob ns _ | Sys.WatchJob ns _ | Sys.DeleteJob ns _
  | Sys.CreateConfigMap ns _ | Sys.GetConfigMap ns _ | Sys.DeleteConfigMap ns _ => Some ns
  | _ => None
  end.

(** A call that names no namespace other than [ns]. *)
Definition inNamespace (ns : string) (ev : Sys.Event) : bool :=
  match namespaceOf ev with
  | Some n => String.eqb n ns
  | None => true
  end.

(** The call [ev] names no namespace other than [ns]. *)
Definition allIn (ns : string) (ev : Sys.Event) : Prop := inNamespace ns ev = true.

(** The calls of the log endpoint that met the pods [pods] of the
    container job and the pods [allPods] in the namespace. *)
Definition logCalls (ns name : string) (pods allPods : list K8s.Pod) : list Sys.Event :=
  ([Sys.ListPods ns ("job-name=build-" +:+ name)]
   ++ ((fun pod => Sys.GetPodLogs ns (K8s.Name pod) 1000) <$> pods)
   ++ [Sys.ListPods ns ""]
   ++ ((fun pod => Sys.GetPodLogs ns (K8s.Name pod) 1000)
         <$> filter (fun pod => GoStrings.HasPrefix (K8s.Name pod)
                                  ("bootc-" +:+ name +:+ "-") = true) allPods))%list.

End Reading.

(** ** Registry helpers ([registry_utils.go]). *)
Module Registry.
Import GoStrings Api.

Definition DefaultRegistry : string := "localhost:5000".
Definition DockerHubRegistry : string := "docker.io".

(** [GetRegistryURL] *)
Definition GetRegistryURL (imageBuild : ImageBuild) : string :=
  match ContainerRegistry (Spec imageBuild) with
  | None => DefaultRegistry
  | Some reg =>
      if String.eqb (Url reg) "" then DefaultRegistry
      else ContainerBuilder.NormalizeRegistryURL (Url reg)
  end.

(** The lower case of an ASCII byte. *)
Definition toLower (c : ascii) : ascii :=
  let n := nat_of_ascii c in
  if (65 <=? n)%nat && (n <=? 90)%nat then ascii_of_nat (n + 32) else c.

(** [strings.EqualFold(s, t)] for a [t] of ASCII bytes.  A letter of [t]
    is matched by its two cases; simple case folding also equates
    U+017F (the bytes C5 BF) with [s] and U+212A (the bytes E2 84 AA)
    with [k].  Any other rune of [s], valid or not, matches no ASCII
    byte. *)
Fixpoint EqualFold (s t : string) : bool :=
  match t with
  | EmptyString => String.eqb s ""
  | String c t' =>
      match s with
      | EmptyString => false
      | String d s' =>
          if Ascii.eqb (toLower d) (toLower c) then EqualFold s' t'
          else if Ascii.eqb (toLower c) "s" && Ascii.eqb d (ascii_of_nat 197) then
            match s' with
            | String e s'' => Ascii.eqb e (ascii_of_nat 191) && EqualFold s'' t'
            | EmptyString => false
            end
          else if Ascii.eqb (toLower c) "k" && Ascii.eqb d (ascii_of_nat 226) then
            match s' with
            | String e (String f s'') =>
                Ascii.eqb e (ascii_of_nat 132) && Ascii.eqb f (ascii_of_nat 170)
                && EqualFold s'' t'
            | _ => false
            end
          else false
      end
  end.

(** [GetBaseImageRegistry] *)
Definition GetBaseImageRegistry (imageRef : string) : string :=
  let imageWithoutDigest := hd "" (Split imageRef "@") in
  let parts := Split imageWithoutDigest "/" in
  if (length parts =? 1)%nat then DockerHubRegistry
  else
    let firstPart := hd "" parts in
    if Contains firstPart "." || Contains firstPart ":" || EqualFold firstPart "localhost"
    then firstPart
    else DockerHubRegistry.

(** [IsFullImageReference] *)
Definition IsFullImageReference (imageRef : string) : bool :=
  let parts := Split imageRef "/" in
  if (length parts =? 1)%nat then false
  else
    let firstPart := hd "" parts in
    Contains firstPart "." || Contains firstPart ":" || EqualFold firstPart "localhost".

End Registry.

(** ** Removing a stored image ([StorageManager.DeleteImage]). *)
Module Removal.
Import GoStrings GoErr Storage.

(** Which removals fail although their target exists. *)
Record Faults := mkFaults {
  removeFault : string -> option error;              (* [os.Remove] *)
  deleteObjectFault : string -> string -> option error  (* [DeleteObjectWithContext] *)
}.

(** [os.Remove(path)] on the files of the disk, which holds regular files
    only: a path without a file does not exist. *)
Definition os_Remove (faults : Faults) (disk : Disk) (path : string)
  : option error * Disk :=
  match files disk !! path with
  | None => (Some (Errorf ("remove " +:+ path +:+ ": no such file or directory")), disk)
  | Some _ =>
      match removeFault faults path with
      | Some err => (Some err, disk)
      | None => (None, mkDisk (delete path (files disk)) (objects disk))
      end
  end.

(** [ref.Metadata[key]]: the empty string when the key is absent. *)
Definition metadataOf (ref : StorageReference) (key : string) : string :=
  match Metadata ref !! key with
  | Some v => v
  | None => ""
  end.

(** [StorageManager.DeleteImage]; the object store deletes a key whether
    or not it holds an object. *)
Definition DeleteImage (cfg : Config.Config) (os : OS) (faults : Faults) (disk : Disk)
           (ref : StorageReference) : option error * Disk :=
  if String.eqb (Type_ ref) "local" || String.eqb (Type_ ref) "pvc" then
    os_Remove faults disk (Path ref)
  else if String.eqb (Type_ ref) "s3" then
    match Config.s3Of cfg with
    | None => (Some (Errorf "S3 configuration not found"), disk)
    | Some s3cfg =>
        let bucket := metadataOf ref "bucket" in
        let key := metadataOf ref "key" in
        if String.eqb bucket "" || String.eqb key "" then
          (Some (Errorf "invalid S3 reference: missing bucket or key"), disk)
        else
          match NewSession os with
          | Some err => (Some (Wrap "failed to create AWS session" err), disk)
          | None =>
              match deleteObjectFault faults bucket key with
              | Some err => (Some (Wrap "failed to delete from S3" err), disk)
              | None =>
                  (None, mkDisk (files disk) (delete (bucket, key) (objects disk)))
              end
          end
    end
  else (Some (Errorf ("unsupported storage type: " +:+ Type_ ref)), disk).

End Removal.

(** ** The download endpoint ([HTTPServer.handleDownload]). *)
Module Download.
Import GoStrings GoErr Storage.

(** The parameters of the route
    [/api/v1/imagebuilds/{name}/downloads/{filename}]. *)
Record Request := mkRequest { name : string; filename : string }.

(** What is written to the [http.ResponseWriter]: an error, or a file
    under status 200 with the headers set for it. *)
Inductive Response : Type :=
| Failure (msg : string) (code : Z)                       (* [http.Error] *)
| Served (headers : gmap string string) (body : string).

(** What fails on the way to a file, and how much the client takes. *)
Record Faults := mkFaults {
  statFault : string -> option error;    (* [os.Stat] failing other than by absence *)
  openFault : string -> option error;    (* [os.Open] *)
  accepted : option nat                  (* bytes written before [io.Copy] fails *)
}.

Definition StatusBadRequest : Z := 400.
Definition StatusNotFound : Z := 404.
Definition StatusInternalServerError : Z := 500.
Definition StatusNotImplemented : Z := 501.
Definition StatusServiceUnavailable : Z := 503.

(** The image type read off the parts of a file name: the part before
    the last of three or more, the last of two. *)
Definition imageTypeOf (parts : list string) : string :=
  if (3 <=? length parts)%nat then nth (length parts - 2) parts ""
  else nth (length parts - 1) parts "".

(** [HTTPServer.handleDownload]; [os.Stat] finds what the disk holds at
    the path, a regular file or nothing. *)
Definition handleDownload (cfg : Config.Config) (faults : Faults) (disk : Disk)
           (r : Request) : Response :=
  if String.eqb (name r) "" || String.eqb (filename r) "" then
    Failure "ImageBuild name and filename are required" StatusBadRequest
  else
    let parts := Split (filename r) "-" in
    if (length parts <? 2)%nat then Failure "Invalid filename format" StatusBadRequest
    else
      let imageType := imageTypeOf parts in
      match Config.storageOf cfg with
      | None => Failure "Storage not configured" StatusServiceUnavailable
      | Some storage =>
          let located : string + Response :=
            if String.eqb (Config.Type_ storage) "local" then
              let basePath :=
                if String.eqb (Config.LocalPath storage) ""
                then "/var/lib/flightctl/images" else Config.LocalPath storage in
              inl (Filepath.Join [basePath; name r; fileName imageType])
            else if String.eqb (Config.Type_ storage) "pvc" then
              inl (Filepath.Join ["/mnt/pvc/" +:+ Config.PVCName storage; name r;
                                  fileName imageType])
            else if String.eqb (Config.Type_ storage) "s3" then
              inr (Failure "S3 downloads not yet implemented" StatusNotImplemented)
            else
              inr (Failure ("Unsupported storage type: " +:+ Config.Type_ storage)
                           StatusInternalServerError) in
          match located with
          | inr resp => resp
          | inl filePath =>
              match statFault faults filePath with
              | Some _ => Failure "Internal server error" StatusInternalServerError
              | None =>
                  match files disk !! filePath with
                  | None => Failure "File not found" StatusNotFound
                  | Some content =>
                      match openFault faults filePath with
                      | Some _ => Failure "Failed to open file" StatusInternalServerError
                      | None =>
                          Served
                            (<["Content-Type" := "application/octet-stream"]>
                             (<["Content-Disposition" := "attachment; filename=" +:+ filename r]>
                             (<["Content-Length" :=
                                  itoa (Z.of_nat (String.length content))]> ∅)))
                            (match accepted faults with
                             | None => content
                             | Some n => take n content
                             end)
                      end
                  end
              end
          end
      end.

End Download.

(** ** The annotations a patch hands to the store
    ([ServiceHandler.PatchImageBuild]). *)
Module Service.
Import GoStrings.

(** [strings.ReplaceAll(s, "~1", "/")] *)
Fixpoint replaceTilde1 (s : string) : string :=
  match s with
  | EmptyString => EmptyString
  | String c rest =>
      match rest with
      | String d rest' =>
          if Ascii.eqb c "~" && Ascii.eqb d "1" then String "/" (replaceTilde1 rest')
          else String c (replaceTilde1 rest)
      | EmptyString => String c EmptyString
      end
  end.

(** A patch operation names an image builder annotation. *)
Definition touches (op : Sys.PatchOp) : bool :=
  HasPrefix (Sys.Path op) "/metadata/annotations/imagebuilder.flightctl.io".

(** [touchedImageBuilderAnnotations] after the loop over the patch. *)
Definition touchedImageBuilderAnnotations (patch : list Sys.PatchOp) : bool :=
  existsb touches patch.

(** [modifiedAnnotationKeys] after the loop over the patch. *)
Definition modifiedAnnotationKeys (patch : list Sys.PatchOp) : gset string :=
  list_to_set
    ((fun op => replaceTilde1 (TrimPrefix (Sys.Path op) "/metadata/annotations/"))
       <$> filter (fun op => touches op = true) patch).

(** [*m] for a [*map[string]string]: nothing to range over when nil. *)
Definition entries (m : option (gmap string string)) : gmap string string :=
  match m with
  | Some a => a
  | None => ∅
  end.

(** [imageBuilderAnnotations] after the two loops: the image builder
    annotations of the stored object that the patch does not name, and
    those of the patched object that it names. *)
Definition imageBuilderAnnotations (patch : list Sys.PatchOp)
           (current patched : option (gmap string string)) : gmap string string :=
  let modified := modifiedAnnotationKeys patch in
  let kept :=
    filter (fun kv => HasPrefix kv.1 "imagebuilder.flightctl.io/" = true /\ kv.1 ∉ modified)
           (entries current) in
  let taken :=
    filter (fun kv => HasPrefix kv.1 "imagebuilder.flightctl.io/" = true /\ kv.1 ∈ modified)
           (entries patched) in
  taken ∪ kept.

Section PatchImageBuild.
(** [NilOutManagedObjectMetaProperties] is not among the sources: what it
    leaves of the annotations of the patched object is a parameter. *)
Variable managed : option (gmap string string) -> option (gmap string string).

(** The annotations of the object handed to [Update]. *)
Definition restoredAnnotations (patch : list Sys.PatchOp)
           (current patched : option (gmap string string))
  : option (gmap string string) :=
  let restored := imageBuilderAnnotations patch current patched in
  if decide (restored = ∅) then managed patched
  else Some (restored ∪ entries (managed patched)).

(** The flag [fromAPI] handed to [Update]. *)
Definition fromAPI (patch : list Sys.PatchOp) : bool :=
  negb (touchedImageBuilderAnnotations patch).

End PatchImageBuild.
End Service.

(** ** The log endpoint ([HTTPServer.handleGetLogs]). *)
Module LogsEndpoint.
Import GoStrings GoErr Sys.
Local Open Scope sys_scope.

(** What is written to the [http.ResponseWriter]: an error, or status 200
    with the JSON object [{"logs": lines}]. *)
Inductive Response : Type :=
| Failure (msg : string) (code : Z)
| Lines (lines : list string).

Section WithEnv.
Variable env : Env.
Variable cfg : Config.Config.

(** [HTTPServer.getBuildNamespace] *)
Definition getBuildNamespace : string :=
  match Config.ImageBuilder cfg with
  | Some ib =>
      if negb (String.eqb (Config.BuildNamespace ib) "") then Config.BuildNamespace ib
      else "flightctl-builds"
  | None => "flightctl-builds"
  end.

(** The body of the loop over the pods of the container build job. *)
Definition collectBuildPod (buildNamespace : string) (allLogs : list string) (pod : K8s.Pod)
  : M (list string) :=
  let* n := call (GetPodLogs buildNamespace (K8s.Name pod) 1000) in
  match podLogs env n with
  | inr _ => ret allLogs
  | inl podLog =>
      if (0 <? String.length podLog)%nat then
        ret ((allLogs ++ ["=== Logs from container build pod " +:+ K8s.Name pod +:+ " ==="])
               ++ Split podLog "010"%char)%list
      else ret allLogs
  end.

(** The body of the loop over all pods of the namespace. *)
Definition collectBootcPod (buildNamespace bootcJobPrefix : string) (allLogs : list string)
           (pod : K8s.Pod) : M (list string) :=
  if HasPrefix (K8s.Name pod) bootcJobPrefix then
    let* n := call (GetPodLogs buildNamespace (K8s.Name pod) 1000) in
    match podLogs env n with
    | inr _ => ret allLogs
    | inl podLog =>
        if (0 <? String.length podLog)%nat then
          ret ((allLogs ++ ["=== Logs from bootc image generation pod "
                            +:+ K8s.Name pod +:+ " ==="])
                 ++ Split podLog "010"%char)%list
        else ret allLogs
    end
  else ret allLogs.

(** [HTTPServer.handleGetLogs] *)
Definition handleGetLogs (name : string) : M Response :=
  if String.eqb name "" then ret (Failure "ImageBuild name is required" 400)
  else
    let buildNamespace := getBuildNamespace in
    let* n := call (ListPods buildNamespace ("job-name=build-" +:+ name)) in
    let* allLogs :=
      match listPods env n with
      | inr _ => ret []
      | inl pods => forEach pods [] (collectBuildPod buildNamespace)
      end in
    let* n := call (ListPods buildNamespace "") in
    let* allLogs :=
      match listPods env n with
      | inr _ => ret allLogs
      | inl allPods =>
          forEach allPods allLogs
                  (collectBootcPod buildNamespace ("bootc-" +:+ name +:+ "-"))
      end in
    let allLogs :=
      if (length allLogs =? 0)%nat then ["No logs available from build job pods"]
      else allLogs in
    ret (Lines allLogs).

End WithEnv.
End LogsEndpoint.

(** ** Sample inputs for the properties of the remaining code. *)
Module Samples.

(** A build in phase Building that carries the cancel request. *)
Definition cancelSeenWhileBuilding : Api.ImageBuild :=
  Spec.buildOf "b" (Some {[ Api.cancelAnnotation := "true" ]}) []
    (Some (Api.mkImageBuildStatus (Some "Building") (Some "Starting image build process")
             None None (Some Spec.t_2025_01_04_14_30_22) None None)).

(** The object store, bucket [images]. *)
Definition s3Storage : Config.StorageConfig :=
  Config.mkStorageConfig "s3" "" ""
    (Some (Config.mkS3Config "http://minio:9000" "images" "" "key" "secret")).

Definition s3Config : Config.Config :=
  Config.mkConfig (Some (Config.mkImageBuilderConfig "" "" "" (Some s3Storage))) None.

(** Nothing is stored yet. *)
Definition emptyDisk : Storage.Disk := Storage.mkDisk ∅ ∅.

(** An artifact that is read to its end, and one whose copy breaks off. *)
Definition artifact : Storage.Reader := Storage.mkReader "qcow2 bytes" None.


(** No removal fails; no read fails and the client takes everything. *)
Definition noRemovalFaults : Removal.Faults :=
  Removal.mkFaults (fun _ => None) (fun _ _ => None).
Definition noDownloadFaults : Download.Faults :=
  Download.mkFaults (fun _ => None) (fun _ => None) None.

(** The parts of an upload of the [qcow2] artifact of the build [b]. *)
Definition uploadParts : list Upload.PartEvent :=
  [Upload.Part "imageName" "" (Storage.mkReader "b" None);
   Upload.Part "imageType" "" (Storage.mkReader "qcow2" None);
   Upload.Part "file" "disk.qcow2" artifact].

Definition uploadRequest : Upload.Request :=
  Upload.mkRequest "Bearer token" (Upload.Multipart uploadParts).

(** The export pod of the build [a-b]. *)
Definition exportPod : K8s.Pod :=
  K8s.mkPod "bootc-a-b-iso-x7k2p" {[ "job-name" := "bootc-a-b-iso" ]}
            Spec.t_2025_01_04_14_30_22.

(** [calmEnv] with the pods [pods] in every listing, each with a log. *)
Definition logsEnv (pods : list K8s.Pod) : Sys.Env :=
  Sys.mkEnv (Sys.apiOrg Spec.calmEnv) (Sys.clock Spec.calmEnv)
    (Sys.getImageBuild Spec.calmEnv) (Sys.listImageBuilds Spec.calmEnv)
    (Sys.apiFault Spec.calmEnv) (Sys.storeFault Spec.calmEnv)
    (fun _ => inl pods) (fun _ => inl "STEP 1/4: FROM scratch") (Sys.listJobs Spec.calmEnv)
    (Sys.createJob Spec.calmEnv) (Sys.watchJob Spec.calmEnv)
    (Sys.jobPodLogs Spec.calmEnv) (Sys.deleteJob Spec.calmEnv)
    (Sys.createConfigMap Spec.calmEnv) (Sys.getConfigMap Spec.calmEnv)
    (Sys.deleteConfigMap Spec.calmEnv) (Sys.requestCertificate Spec.calmEnv)
    (Sys.prepareBuild Spec.calmEnv) (Sys.generate Spec.calmEnv) (Sys.os Spec.calmEnv).

(** [logsEnv pods] with the jobs [jobs] in every listing of jobs. *)
Definition cancelEnv (pods : list K8s.Pod) (jobs : list K8s.Job) : Sys.Env :=
  Sys.mkEnv (Sys.apiOrg Spec.calmEnv) (Sys.clock Spec.calmEnv)
    (Sys.getImageBuild Spec.calmEnv) (Sys.listImageBuilds Spec.calmEnv)
    (Sys.apiFault Spec.calmEnv) (Sys.storeFault Spec.calmEnv)
    (Sys.listPods (logsEnv pods)) (Sys.podLogs (logsEnv pods)) (fun _ => inl jobs)
    (Sys.createJob Spec.calmEnv) (Sys.watchJob Spec.calmEnv)
    (Sys.jobPodLogs Spec.calmEnv) (Sys.deleteJob Spec.calmEnv)
    (Sys.createConfigMap Spec.calmEnv) (Sys.getConfigMap Spec.calmEnv)
    (Sys.deleteConfigMap Spec.calmEnv) (Sys.requestCertificate Spec.calmEnv)
    (Sys.prepareBuild Spec.calmEnv) (Sys.generate Spec.calmEnv) (Sys.os Spec.calmEnv).

(** A patch that removes the cancel request. *)
Definition removeCancel : list Sys.PatchOp :=
  [Sys.mkPatchOp "remove" "/metadata/annotations/imagebuilder.flightctl.io~1cancel"].

End Samples.
(** * Lemmas and theorems *)

(** * Properties *)

(** ** Strings and paths *)
Section StringFacts.
Import GoStrings Spec.

Lemma append_cons (c : ascii) (a b : string) : String c a +:+ b = String c (a +:+ b).
Proof. reflexivity. Qed.

Lemma append_nil_l (b : string) : "" +:+ b = b.
Proof. reflexivity. Qed.

Lemma append_assoc (a b c : string) : (a +:+ b) +:+ c = a +:+ (b +:+ c).
Proof.
  induction a as [|x a IH]; [reflexivity|].
  rewrite !append_cons. now rewrite IH.
Qed.

Lemma append_nil_r (a : string) : a +:+ "" = a.
Proof.
  induction a as [|x a IH]; [reflexivity|].
  rewrite append_cons. now rewrite IH.
Qed.

Lemma length_append (a b : string) :
  String.length (a +:+ b) = (String.length a + String.length b)%nat.
Proof.
  induction a as [|x a IH]; [reflexivity|].
  rewrite append_cons. simpl. now rewrite IH.
Qed.

Lemma drop_append (a b : string) : drop (String.length a) (a +:+ b) = b.
Proof.
  induction a as [|x a IH]; [now destruct b|].
  rewrite append_cons. simpl. exact IH.
Qed.

Lemma HasPrefix_append (p s : string) : HasPrefix (p +:+ s) p = true.
Proof.
  induction p as [|x p IH]; [rewrite append_nil_l; now destruct s|].
  rewrite append_cons. simpl. now rewrite Ascii.eqb_refl.
Qed.

Lemma HasPrefix_nil (s : string) : HasPrefix s "" = true.
Proof. now destruct s. Qed.

Lemma HasPrefix_cons_slash (c : ascii) (s : string) :
  HasPrefix (String c s) "/" = Ascii.eqb "/" c.
Proof.
  change (HasPrefix (String c s) "/")
    with (if Ascii.eqb "/" c then HasPrefix s "" else false).
  rewrite HasPrefix_nil. now destruct (Ascii.eqb "/" c).
Qed.

Lemma HasSuffix_append (a s : string) : HasSuffix (a +:+ s) s = true.
Proof.
  unfold HasSuffix. rewrite length_append.
  replace (String.length a + String.length s - String.length s)%nat
    with (String.length a) by lia.
  rewrite drop_append, String.eqb_refl.
  rewrite andb_true_r. apply Nat.leb_le. lia.
Qed.

Lemma TrimPrefix_append (p s : string) : TrimPrefix (p +:+ s) p = s.
Proof. unfold TrimPrefix. now rewrite HasPrefix_append, drop_append. Qed.

(** A string without the separator is one element for [Split]. *)
Lemma Split_noSlash (s : string) : noSlash s = true -> Split s "/" = [s].
Proof.
  induction s as [|c s IH]; simpl; [reflexivity|].
  intros H. apply andb_true_iff in H as [Hc Hs].
  apply negb_true_iff in Hc. rewrite Hc, (IH Hs). reflexivity.
Qed.

Lemma Split_nonempty (s : string) : Split s "/" <> [].
Proof.
  destruct s as [|c s]; simpl; [discriminate|].
  destruct (Ascii.eqb c "/"); [discriminate|].
  destruct (Split s "/"); discriminate.
Qed.

Lemma Split_append_slash (a b : string) :
  Split (a +:+ "/" +:+ b) "/" = (Split a "/" ++ Split b "/")%list.
Proof.
  induction a as [|c a IH].
  - rewrite append_nil_l, append_cons, append_nil_l. reflexivity.
  - rewrite append_cons. simpl. rewrite IH.
    destruct (Ascii.eqb c "/"); [reflexivity|].
    destruct (Split a "/") as [|h t] eqn:E; [now apply Split_nonempty in E|].
    reflexivity.
Qed.

Lemma Join_snoc (l : list string) (x sep : string) :
  l <> [] -> Join (l ++ [x]) sep = Join l sep +:+ sep +:+ x.
Proof.
  induction l as [|a l IH]; [congruence|]. intros _.
  destruct l as [|b l]; [reflexivity|].
  change (Join ((a :: b :: l) ++ [x]) sep) with (a +:+ sep +:+ Join ((b :: l) ++ [x]) sep).
  rewrite IH by discriminate.
  change (Join (a :: b :: l) sep) with (a +:+ sep +:+ Join (b :: l) sep).
  now rewrite !append_assoc.
Qed.

Lemma plain_inv (s : string) :
  plain s = true ->
  noSlash s = true /\ String.eqb s "" = false /\ String.eqb s "." = false
  /\ String.eqb s ".." = false.
Proof.
  unfold plain. rewrite !andb_true_iff, !negb_true_iff. tauto.
Qed.

Lemma clean_step_plain (rooted : bool) (ups : nat) (elems : list string) (c : string) :
  plain c = true -> Filepath.clean_step rooted (ups, elems) c = (ups, c :: elems).
Proof.
  intros H. apply plain_inv in H as (_ & H1 & H2 & H3).
  unfold Filepath.clean_step. now rewrite H1, H2, H3.
Qed.

Lemma append_eq_nil (a b : string) : a +:+ b = "" -> a = "" /\ b = "".
Proof. destruct a; [now rewrite append_nil_l | rewrite append_cons; discriminate]. Qed.

(** [Clean] never keeps an empty element. *)
Lemma clean_step_nonempty (rooted : bool) (c : string) (st : nat * list string) :
  Forall (fun e => e <> "") (snd st) ->
  Forall (fun e => e <> "") (snd (Filepath.clean_step rooted st c)).
Proof.
  destruct st as [ups elems]. simpl. intros H.
  unfold Filepath.clean_step.
  destruct (String.eqb c "") eqn:E0; [exact H|].
  destruct (String.eqb c "."); [exact H|].
  destruct (String.eqb c "..").
  - destruct elems as [|e t]; [destruct rooted; simpl; constructor|].
    simpl. now inversion H.
  - simpl. constructor; [now apply String.eqb_neq | exact H].
Qed.

Lemma fold_clean_nonempty (rooted : bool) (l : list string) (st : nat * list string) :
  Forall (fun e => e <> "") (snd st) ->
  Forall (fun e => e <> "") (snd (fold_left (Filepath.clean_step rooted) l st)).
Proof.
  revert st. induction l as [|c l IH]; intros st H; simpl; [exact H|].
  apply IH. now apply clean_step_nonempty.
Qed.

Lemma Join_head_nonempty (a : string) (l : list string) (sep : string) :
  a <> "" -> GoStrings.Join (a :: l) sep <> "".
Proof.
  intros Ha. destruct l as [|b l]; [exact Ha|].
  change (GoStrings.Join (a :: b :: l) sep) with (a +:+ sep +:+ GoStrings.Join (b :: l) sep).
  intros E. apply append_eq_nil in E as [E _]. congruence.
Qed.

(** Joining a base directory with two plain elements appends them. *)
Lemma Join_plain (base name file : string) :
  base <> "" -> plain name = true -> plain file = true ->
  exists pre,
    Filepath.Join [base; name; file] = pre +:+ name +:+ "/" +:+ file /\
    (Filepath.Clean base = base -> base <> "/" -> base <> "." -> pre = base +:+ "/").
Proof.
  intros Hb Hn Hf.
  assert (Hbe : String.eqb base "" = false) by now apply String.eqb_neq.
  remember (Filepath.Clean base) as CB eqn:ECB.
  unfold Filepath.Join. simpl Filepath.drop_empty. rewrite Hbe.
  change (GoStrings.Join [base; name; file] "/")
    with (base +:+ "/" +:+ name +:+ "/" +:+ file).
  unfold Filepath.Clean.
  assert (Hne : String.eqb (base +:+ "/" +:+ name +:+ "/" +:+ file) "" = false).
  { apply String.eqb_neq. intros E. apply append_eq_nil in E as [E _]. congruence. }
  rewrite Hne.
  assert (Hr : HasPrefix (base +:+ "/" +:+ name +:+ "/" +:+ file) "/" = HasPrefix base "/").
  { destruct base as [|c b]; [congruence|]. rewrite append_cons.
    now rewrite !HasPrefix_cons_slash. }
  rewrite Hr. remember (HasPrefix base "/") as rooted eqn:Er.
  rewrite !Split_append_slash.
  pose proof (plain_inv _ Hn) as (Hn0 & Hn1 & _).
  pose proof (plain_inv _ Hf) as (Hf0 & _).
  rewrite (Split_noSlash name Hn0), (Split_noSlash file Hf0).
  rewrite !fold_left_app. cbn [fold_left].
  assert (Hclean : CB = Filepath.render rooted
                         (fold_left (Filepath.clean_step rooted) (Split base "/") (0%nat, []))).
  { rewrite ECB. unfold Filepath.Clean. now rewrite Hbe, <- Er. }
  clear ECB.
  destruct (fold_left (Filepath.clean_step rooted) (Split base "/") (0%nat, []))
    as [ups elems] eqn:Efold.
  rewrite (clean_step_plain _ _ _ _ Hn), (clean_step_plain _ _ _ _ Hf).
  unfold Filepath.render in *. simpl rev.
  set (L := (repeat ".." ups ++ rev elems)%list) in *.
  replace (repeat ".." ups ++ (rev elems ++ [name]) ++ [file])%list
    with ((L ++ [name]) ++ [file])%list by (unfold L; now rewrite !app_assoc).
  rewrite Join_snoc by (destruct L; discriminate).
  assert (HL : Forall (fun e => e <> "") L).
  { pose proof (fold_clean_nonempty rooted (Split base "/") (0%nat, []) ltac:(constructor)) as Hall.
    rewrite Efold in Hall. simpl in Hall.
    unfold L. apply Forall_app. split.
    - clear. induction ups; simpl; constructor; [discriminate | assumption].
    - apply Forall_forall. intros x Hx. rewrite Forall_forall in Hall.
      apply Hall. apply list_elem_of_In. apply list_elem_of_In in Hx.
      now apply in_rev. }
  destruct L as [|a L'] eqn:EL.
  - (* the base cleans to the root or to the current directory *)
    simpl app. change (GoStrings.Join [name] "/") with name.
    change (GoStrings.Join [] "/") with "" in Hclean.
    destruct rooted.
    + exists "/". split; [reflexivity|].
      intros Hc Hroot _. rewrite Hc in Hclean. exfalso. now apply Hroot.
    + assert (Hbody : String.eqb (name +:+ "/" +:+ file) "" = false).
      { apply String.eqb_neq. intros E. apply append_eq_nil in E as [E _].
        apply String.eqb_neq in Hn1. congruence. }
      rewrite Hbody. exists "". split; [reflexivity|].
      intros Hc _ Hdot. rewrite Hc in Hclean. exfalso. now apply Hdot.
  - rewrite Join_snoc by discriminate.
    assert (HB : GoStrings.Join (a :: L') "/" <> "").
    { apply Join_head_nonempty. now inversion HL. }
    set (B := GoStrings.Join (a :: L') "/") in *.
    destruct rooted.
    + exists ("/" +:+ B +:+ "/"). split; [now rewrite !append_assoc|].
      intros Hc _ _. rewrite <- Hc, Hclean. now rewrite !append_assoc.
    + destruct (String.eqb ((B +:+ "/" +:+ name) +:+ "/" +:+ file) "") eqn:Hbody.
      { apply String.eqb_eq in Hbody. apply append_eq_nil in Hbody as [_ E].
        rewrite append_cons in E. discriminate. }
      exists (B +:+ "/"). split; [now rewrite !append_assoc|].
      intros Hc _ _. rewrite <- Hc, Hclean.
      apply String.eqb_neq in HB. now rewrite HB.
Qed.

End StringFacts.

(** ** The storage extension and the path of an uploaded artifact *)
Section StorageFacts.
Import GoStrings GoErr Spec Storage.

Lemma extension_unknown (t : string) :
  t <> "iso" -> t <> "qcow2" -> t <> "vmdk" -> t <> "raw" -> t <> "ami" -> t <> "tar" ->
  getImageExtensionFromString t = t.
Proof.
  intros. unfold getImageExtensionFromString, extensions.
  rewrite !lookup_insert_ne by congruence. now rewrite lookup_empty.
Qed.

Lemma extension_cases (t : string) :
  getImageExtensionFromString t = t \/
  (t = "ami" /\ getImageExtensionFromString t = "raw").
Proof.
  destruct (decide (t = "ami")) as [->|Hami]; [right; split; reflexivity|].
  left.
  destruct (decide (t = "iso")) as [->|?]; [reflexivity|].
  destruct (decide (t = "qcow2")) as [->|?]; [reflexivity|].
  destruct (decide (t = "vmdk")) as [->|?]; [reflexivity|].
  destruct (decide (t = "raw")) as [->|?]; [reflexivity|].
  destruct (decide (t = "tar")) as [->|?]; [reflexivity|].
  now apply extension_unknown.
Qed.

Lemma noSlash_append (a b : string) :
  noSlash (a +:+ b) = noSlash a && noSlash b.
Proof.
  induction a as [|c a IH]; [reflexivity|].
  rewrite append_cons. simpl. rewrite IH. now rewrite andb_assoc.
Qed.

(** The file name of a type without separator is a plain path element. *)
Lemma plain_fileName (t : string) :
  noSlash t = true -> t <> "" -> plain (fileName t) = true.
Proof.
  intros Hs Hne. unfold plain, fileName.
  assert (He : noSlash (getImageExtensionFromString t) = true).
  { destruct (extension_cases t) as [-> | [_ ->]]; [exact Hs | reflexivity]. }
  rewrite !andb_true_iff, !negb_true_iff. repeat split.
  - rewrite !noSlash_append, Hs, He. reflexivity.
  - apply String.eqb_neq. intros E. apply append_eq_nil in E as [E _]. congruence.
  - apply String.eqb_neq. destruct t as [|c t]; [congruence|].
    rewrite append_cons. intros E. injection E as _ E.
    apply append_eq_nil in E as [_ E]. rewrite append_cons in E. discriminate.
  - apply String.eqb_neq. destruct t as [|c t]; [congruence|].
    rewrite append_cons. intros E. injection E as Ec E.
    destruct t as [|d t].
    + rewrite append_nil_l, append_cons, append_nil_l in E. injection E as E.
      subst c. discriminate E.
    + rewrite append_cons in E. injection E as _ E.
      apply append_eq_nil in E as [_ E]. rewrite append_cons in E. discriminate.
Qed.

Lemma HasPrefix_sentinel (name type : string) :
  HasPrefix (sentinel name type) "uploaded:" = true.
Proof. unfold sentinel. apply HasPrefix_append. Qed.

(** What [StoreBootcImage] answers for a sentinel, by backend. *)
Lemma StoreBootcImage_sentinel (cfg : Config.Config) (os : OS) (name type : string)
      (ref : StorageReference) :
  StoreBootcImage cfg os name (sentinel name type) type = Ok ref ->
  exists storage base,
    Config.storageOf cfg = Some storage /\ storageBase storage = Some base /\
    Path ref =
      if String.eqb (Config.Type_ storage) "local" || String.eqb (Config.Type_ storage) "pvc"
      then Filepath.Join [base; name; fileName type]
      else base +:+ "/" +:+ name +:+ "/" +:+ fileName type.
Proof.
  unfold StoreBootcImage. rewrite HasPrefix_sentinel.
  destruct (Config.storageOf cfg) as [storage|]; [|discriminate].
  intros H. exists storage. unfold storageBase.
  destruct (String.eqb (Config.Type_ storage) "local") eqn:El.
  { eexists. split; [reflexivity|]. split; [reflexivity|].
    injection H as <-. reflexivity. }
  destruct (String.eqb (Config.Type_ storage) "pvc") eqn:Ep.
  { eexists. split; [reflexivity|]. split; [reflexivity|].
    injection H as <-. reflexivity. }
  destruct (String.eqb (Config.Type_ storage) "s3") eqn:Es; [|discriminate].
  destruct (Config.S3 storage) as [s3|]; [|discriminate].
  eexists. split; [reflexivity|]. split; [reflexivity|].
  injection H as <-. simpl. now rewrite !append_assoc.
Qed.

Lemma storageBase_nonempty (storage : Config.StorageConfig) (base : string) :
  storageBase storage = Some base -> base <> "".
Proof.
  unfold storageBase.
  destruct (String.eqb (Config.Type_ storage) "local").
  { destruct (String.eqb (Config.LocalPath storage) "") eqn:E; intros [= <-];
      [discriminate | now apply String.eqb_neq]. }
  destruct (String.eqb (Config.Type_ storage) "pvc"); [intros [= <-]; discriminate|].
  destruct (String.eqb (Config.Type_ storage) "s3"); [|discriminate].
  destruct (Config.S3 storage); [intros [= <-]; discriminate | discriminate].
Qed.

(** ** C8 *)

(** C8.  The extension table is [iso -> iso, qcow2 -> qcow2, vmdk -> vmdk,
    raw -> raw, ami -> raw, tar -> tar] and any other type is its own
    extension.  For a resource name that is a plain path element and a
    type without separator, the storage manager resolves the sentinel
    [uploaded:<name>/<type>] to a path that ends in
    [<name>/<type>.<ext>]; with a well-formed base the path is
    [<base>/<name>/<type>.<ext>]; the path depends on the configuration,
    the name and the type only; an [ami] export ends in [<name>/ami.raw]. *)
Theorem extension_mapping_and_sentinel_path :
  (getImageExtensionFromString "iso" = "iso" /\
   getImageExtensionFromString "qcow2" = "qcow2" /\
   getImageExtensionFromString "vmdk" = "vmdk" /\
   getImageExtensionFromString "raw" = "raw" /\
   getImageExtensionFromString "ami" = "raw" /\
   getImageExtensionFromString "tar" = "tar") /\
  (forall t, t <> "iso" -> t <> "qcow2" -> t <> "vmdk" -> t <> "raw" -> t <> "ami" ->
             t <> "tar" -> getImageExtensionFromString t = t) /\
  (forall cfg os name type ref,
      plain name = true -> noSlash type = true -> type <> "" ->
      StoreBootcImage cfg os name (sentinel name type) type = Ok ref ->
      (exists pre, Path ref = pre +:+ name +:+ "/" +:+ type +:+ "."
                              +:+ getImageExtensionFromString type) /\
      (forall storage base,
          Config.storageOf cfg = Some storage -> storageBase storage = Some base ->
          wellFormedBase storage base ->
          Path ref = base +:+ "/" +:+ name +:+ "/" +:+ type +:+ "."
                     +:+ getImageExtensionFromString type) /\
      (forall os' ref',
          StoreBootcImage cfg os' name (sentinel name type) type = Ok ref' ->
          Path ref' = Path ref)) /\
  (forall cfg os name ref,
      plain name = true ->
      StoreBootcImage cfg os name (sentinel name "ami") "ami" = Ok ref ->
      HasSuffix (Path ref) (name +:+ "/ami.raw") = true).
Proof.
  split; [repeat split; reflexivity|].
  split; [exact extension_unknown|].
  assert (Hmain : forall cfg os name type ref,
      plain name = true -> noSlash type = true -> type <> "" ->
      StoreBootcImage cfg os name (sentinel name type) type = Ok ref ->
      (exists pre, Path ref = pre +:+ name +:+ "/" +:+ fileName type) /\
      (forall storage base,
          Config.storageOf cfg = Some storage -> storageBase storage = Some base ->
          wellFormedBase storage base ->
          Path ref = base +:+ "/" +:+ name +:+ "/" +:+ fileName type)).
  { intros cfg os name type ref Hn Hs Hne H.
    apply StoreBootcImage_sentinel in H as (storage & base & Hst & Hbase & Hpath).
    pose proof (storageBase_nonempty _ _ Hbase) as Hb.
    destruct (Join_plain base name (fileName type) Hb Hn (plain_fileName _ Hs Hne))
      as (pre & Hj & Hpre).
    destruct (String.eqb (Config.Type_ storage) "local" || String.eqb (Config.Type_ storage) "pvc")
      eqn:Ek.
    - rewrite Hj in Hpath. split; [now exists pre|].
      intros storage' base' Hst' Hbase' Hwf.
      rewrite Hst in Hst'. injection Hst' as <-.
      rewrite Hbase in Hbase'. injection Hbase' as <-.
      destruct (Hwf Ek) as (Hc & Hroot & Hdot).
      rewrite Hpath, (Hpre Hc Hroot Hdot). now rewrite !append_assoc.
    - split; [exists (base +:+ "/"); rewrite Hpath; now rewrite !append_assoc|].
      intros storage' base' Hst' Hbase' _.
      rewrite Hst in Hst'. injection Hst' as <-.
      rewrite Hbase in Hbase'. now injection Hbase' as <-. }
  split.
  - intros cfg os name type ref Hn Hs Hne H.
    destruct (Hmain cfg os name type ref Hn Hs Hne H) as [Hex Hbase].
    split; [exact Hex|]. split; [exact Hbase|].
    intros os' ref' H'.
    apply StoreBootcImage_sentinel in H as (storage & base & Hst & Hb & Hpath).
    apply StoreBootcImage_sentinel in H' as (storage' & base' & Hst' & Hb' & Hpath').
    rewrite Hst in Hst'. injection Hst' as <-.
    rewrite Hb in Hb'. injection Hb' as <-.
    now rewrite Hpath, Hpath'.
  - intros cfg os name ref Hn H.
    destruct (Hmain cfg os name "ami" ref Hn eq_refl ltac:(discriminate) H) as [[pre Hpre] _].
    rewrite Hpre. change (fileName "ami") with "ami.raw".
    change ("/" +:+ "ami.raw") with "/ami.raw".
    apply HasSuffix_append.
Qed.

End StorageFacts.

(** ** The image reference of the container build *)
Section ImageNameFacts.
Import Spec ContainerBuilder.

(** C3.  The two references of the specification come out as stated, but
    a full image name behind a registry with a port is not used as it is:
    the code compares the first colon, that of the port, with the last
    slash, so [localhost:5000/myimage:v1], which has a tag after the last
    slash, gets a second tag appended. *)
Theorem generateImageName_tag_behind_port :
  generateImageName (buildWith (Some "https://quay.io/org/img:v1/") "b"
                               (Some t_2025_01_04_14_30_22))
    = "quay.io/org/img:v1" /\
  generateImageName (buildWith (Some "localhost:5000") "b" (Some t_2025_01_04_14_30_22))
    = "localhost:5000/b:20250104-143022" /\
  generateImageName (buildWith None "b" (Some t_2025_01_04_14_30_22))
    = "b:20250104-143022" /\
  GoStrings.LastIndex "localhost:5000/myimage:v1" "/" = 14 /\
  GoStrings.LastIndex "localhost:5000/myimage:v1" ":" = 22 /\
  GoStrings.Index "localhost:5000/myimage:v1" ":" = 9 /\
  generateImageName (buildWith (Some "localhost:5000/myimage:v1") "b"
                               (Some t_2025_01_04_14_30_22))
    = "localhost:5000/myimage:v1:20250104-143022".
Proof. repeat split; vm_compute; reflexivity. Qed.

End ImageNameFacts.

(** ** Reasoning about computations in the world *)
Section PostFacts.
Import GoErr Api Sys.

Lemma post_ret {A} (a : A) (w : World) (Q : A -> World -> Prop) :
  Q a w -> post (ret a) w Q.
Proof. exact (fun H => H). Qed.

Lemma post_bind {A B} (m : M A) (k : A -> M B) (w : World) (Q : B -> World -> Prop) :
  post m w (fun a w' => post (k a) w' Q) -> post (bind m k) w Q.
Proof. unfold post, bind. now destruct (m w). Qed.

Lemma post_mono {A} (m : M A) (w : World) (Q Q' : A -> World -> Prop) :
  post m w Q -> (forall a w', Q a w' -> Q' a w') -> post m w Q'.
Proof. unfold post. auto. Qed.

Lemma post_call (ev : Event) (w : World) (Q : nat -> World -> Prop) :
  Q (steps w) (mkWorld (orgs w) (catalog w) (spawned w) (S (steps w)) (trace w ++ [ev])) ->
  post (call ev) w Q.
Proof. exact (fun H => H). Qed.

(** A loop keeps what each of its iterations keeps. *)
Lemma post_forEach {A S} (I : S -> World -> Prop) (body : S -> A -> M S) (l : list A) :
  (forall s a w, a ∈ l -> I s w -> post (body s a) w I) ->
  forall s w, I s w -> post (forEach l s body) w I.
Proof.
  induction l as [|a l IH]; intros Hb s w Hi; [exact Hi|].
  simpl. apply post_bind.
  eapply post_mono; [apply Hb; [left | exact Hi]|].
  intros s' w' Hi'. apply IH; [|exact Hi'].
  intros s0 a0 w0 Hin. apply Hb. now right.
Qed.

(** Two facts about one computation hold together. *)
Lemma post_conj {A} (m : M A) (w : World) (Q Q' : A -> World -> Prop) :
  post m w Q -> post m w Q' -> post m w (fun a w' => Q a w' /\ Q' a w').
Proof. unfold post. auto. Qed.

End PostFacts.

(** ** The orchestrator *)
Section OrchestratorFacts.
Import GoErr GoTime Api Sys Orchestrator Spec.
Variable env : Env.
Variable cfg : Config.Config.

(** One step of a computation, with a known fact about it. *)
Ltac step H :=
  apply post_bind; eapply post_mono; [apply H | cbv beta].

Lemma time_Now_post (w : World) (Q : Time -> World -> Prop) :
  (forall now w', Q now w') -> post (time_Now env) w Q.
Proof. intros H. apply H. Qed.

Lemma Replace_post (name : string) (body : ImageBuild) (w : World)
      (Q : Response ImageBuild -> World -> Prop) :
  (forall r w', Q r w') -> post (ReplaceImageBuildStatusWithResponse env name body) w Q.
Proof. intros H. apply H. Qed.

Lemma isCancelled_post (ib : ImageBuild) (w : World) :
  post (isCancelled env ib) w
       (fun c _ => exists n, c = cancelDecision (Annotations (Metadata ib)) (getImageBuild env n)).
Proof.
  unfold isCancelled, GetImageBuildWithResponse.
  apply post_bind, post_bind, post_call, post_ret, post_ret. eauto.
Qed.

Lemma updateStatus_post (ib : ImageBuild) (phase message : string) (w : World) :
  post (updateStatus env ib phase message) w
       (fun r _ => exists now, fst r = markStatus now ib phase message).
Proof.
  unfold updateStatus. apply post_bind, time_Now_post. intros now w1.
  apply post_bind, Replace_post. intros r w2. apply post_ret. simpl. eauto.
Qed.

Lemma updateStatusWithContainerImage_post (ib : ImageBuild) (ref : string) (w : World) :
  post (updateStatusWithContainerImage env ib ref) w
       (fun r _ => fst r = markContainerImage ib ref).
Proof.
  unfold updateStatusWithContainerImage.
  apply post_bind, Replace_post. intros r w2. apply post_ret. reflexivity.
Qed.

Lemma completeBuild_post (ib : ImageBuild) (ref : string) (refs : list BootcImageRef)
      (w : World) :
  post (completeBuild env ib ref refs) w
       (fun r _ => exists now, fst r = markCompleted now ib ref refs /\ returned r <> (fst r, Panic "")).
Proof.
  unfold completeBuild. apply post_bind, time_Now_post. intros now w1.
  apply post_bind, Replace_post. intros r w2. apply post_ret. simpl.
  exists now. split; [reflexivity|].
  destruct (statusWriteError _ r); discriminate.
Qed.

Lemma failBuild_post (ib : ImageBuild) (e : error) (w : World) :
  post (failBuild env ib e) w (fun r _ => exists now, r = (markFailed now ib e, Some e)).
Proof.
  unfold failBuild. apply post_bind, time_Now_post. intros now w1.
  apply post_bind, Replace_post. intros r w2. apply post_ret. eauto.
Qed.

Lemma CancelBuild_post (ib : ImageBuild) (reason : string) (w : World) :
  post (CancelBuild env cfg ib reason) w
       (fun r _ => exists now logs e, r = (markCancelled now ib reason logs, Some e)).
Proof.
  unfold post, CancelBuild, bind.
  repeat match goal with
         | |- context [let '(_, _) := ?m in _] => destruct m
         end.
  match goal with
  | |- context [match ?r with TransportError _ => _ | HTTP _ _ => _ end] => destruct r
  end; [simpl; eauto|].
  destruct (negb (code =? 200)); simpl; eauto.
Qed.

Lemma succeeds_not_badly (job : string) : workloadSucceeds env job -> ~ ranBadly env job.
Proof.
  intros H [[n [e He]] | [n [e He]]]; destruct (H n) as [H1 H2]; congruence.
Qed.

Lemma fails_not_well (job : string) : workloadFails env job -> ~ ranWell env job.
Proof.
  intros [H | H] (n & m & H1 & H2).
  - destruct (H n) as [e He]. congruence.
  - destruct (H m) as [e He]. congruence.
Qed.

Lemma buildBootcImage_post (ns : string) (ib : ImageBuild) (ref : string)
      (export : BootcExport) (w : World) :
  post (Bootc.buildBootcImage env ns ib ref export) w
       (fun r _ =>
          match r with
          | Ok res => res = resultOf (Name (Metadata ib)) export /\
                      ranWell env (bootcJobName (Name (Metadata ib)) export)
          | Err _ => ranBadly env (bootcJobName (Name (Metadata ib)) export)
          | Panic _ => False
          end).
Proof.
  unfold Bootc.buildBootcImage. fold (bootcJobName (Name (Metadata ib)) export).
  apply post_bind, post_call.
  destruct (createJob env (steps w) _) as [e|] eqn:Ec.
  { apply post_ret. left. exists (steps w). rewrite Ec. eauto. }
  apply post_bind, post_call. cbn [steps].
  apply post_bind, post_call. cbn [steps].
  destruct (watchJob env (S (steps w)) _) as [e|] eqn:Ew.
  - apply post_bind, post_call, post_ret. right. exists (S (steps w)). rewrite Ew. eauto.
  - apply post_bind, post_call, post_ret. split; [reflexivity|].
    exists (steps w), (S (steps w)). now split.
Qed.

Lemma buildAll_post (ns : string) (ib : ImageBuild) (ref : string)
      (exports : list BootcExport) :
  forall (acc : list Bootc.BootcImageResult) (w : World),
  post (Bootc.buildAll env ns ib ref exports acc) w
       (fun r _ =>
          match r with
          | Ok rs => rs = (acc ++ (resultOf (Name (Metadata ib)) <$> exports))%list /\
                     Forall (fun e => ranWell env (bootcJobName (Name (Metadata ib)) e)) exports
          | Err _ => Exists (fun e => ranBadly env (bootcJobName (Name (Metadata ib)) e)) exports
          | Panic _ => False
          end).
Proof.
  induction exports as [|export rest IH]; intros acc w.
  - simpl. apply post_ret. split; [now rewrite app_nil_r | constructor].
  - simpl. step buildBootcImage_post. intros [res|e|m] w1 H; [|apply post_ret|contradiction].
    + destruct H as [-> Hok].
      eapply post_mono; [apply IH|]. cbv beta.
      intros [rs|e|m] _ H; [|now right|exact H].
      destruct H as [-> Hall]. split; [now rewrite <- app_assoc | now constructor].
    + now left.
Qed.

Lemma BuildBootcImages_post (ns : string) (ib : ImageBuild) (ref : string) (w : World) :
  post (Bootc.BuildBootcImages env ns ib ref) w
       (fun r _ =>
          match r with
          | Ok rs => rs = resultOf (Name (Metadata ib)) <$> exportsOf ib /\
                     Forall (fun e => ranWell env (bootcJobName (Name (Metadata ib)) e))
                            (exportsOf ib)
          | Err _ => Exists (fun e => ranBadly env (bootcJobName (Name (Metadata ib)) e))
                            (exportsOf ib)
          | Panic _ => False
          end).
Proof.
  unfold Bootc.BuildBootcImages, exportsOf.
  destruct (BootcExports (Spec ib)) as [[|e es]|].
  - apply post_ret. split; [reflexivity | constructor].
  - eapply post_mono; [apply (buildAll_post ns ib ref (e :: es) [] w)|].
    cbv beta. intros r _ H. exact H.
  - apply post_ret. split; [reflexivity | constructor].
Qed.

Lemma BuildAndPushImage_post (ns : string) (ib : ImageBuild) (containerfile : string)
      (w : World) :
  post (ContainerStage.BuildAndPushImage env ns ib containerfile) w
       (fun r _ =>
          match r with
          | Ok ref => ref = ContainerBuilder.generateImageName ib
          | Err _ => (exists n, is_Some (prepareBuild env n)) \/
                     ranBadly env ("build-" +:+ Name (Metadata ib))
          | Panic _ => False
          end).
Proof.
  unfold ContainerStage.BuildAndPushImage.
  apply post_bind, post_call.
  destruct (prepareBuild env (steps w)) as [e|] eqn:Ep.
  { apply post_ret. left. exists (steps w). rewrite Ep. eauto. }
  apply post_bind, post_call. cbn [steps].
  destruct (createJob env _ _) as [e|] eqn:Ec.
  { apply post_ret. right. left. eexists. rewrite Ec. eauto. }
  apply post_bind, post_call. cbn [steps].
  apply post_bind, post_call. cbn [steps].
  apply post_bind, post_call. cbn [steps].
  apply post_bind, post_call. cbn [steps].
  destruct (watchJob env _ _) as [e|] eqn:Ew.
  - apply post_ret. right. right. eexists. rewrite Ew. eauto.
  - apply post_ret. reflexivity.
Qed.


Lemma StoreBootcImage_panic (os : Storage.OS) (name src type m : string) :
  Storage.StoreBootcImage cfg os name src type = Panic m -> storagePanics cfg.
Proof.
  unfold Storage.StoreBootcImage, storagePanics.
  destruct (Config.storageOf cfg) as [storage|];
    [|destruct (GoStrings.HasPrefix src "uploaded:"); discriminate].
  intros H. exists storage. split; [reflexivity|].
  destruct (GoStrings.HasPrefix src "uploaded:").
  - destruct (String.eqb (Config.Type_ storage) "local"); [discriminate|].
    destruct (String.eqb (Config.Type_ storage) "pvc"); [discriminate|].
    destruct (String.eqb (Config.Type_ storage) "s3") eqn:Es; [|discriminate].
    apply String.eqb_eq in Es.
    destruct (Config.S3 storage); [discriminate | now split].
  - destruct (String.eqb (Config.Type_ storage) "local").
    { unfold Storage.storeToLocal in H.
      destruct (Storage.MkdirAll os _); [discriminate|].
      destruct (Storage.copyFile os _ _); discriminate. }
    destruct (String.eqb (Config.Type_ storage) "pvc").
    { unfold Storage.storeToPVC in H.
      destruct (Storage.MkdirAll os _); [discriminate|].
      destruct (Storage.copyFile os _ _); discriminate. }
    destruct (String.eqb (Config.Type_ storage) "s3") eqn:Es; [|discriminate].
    apply String.eqb_eq in Es.
    destruct (Config.S3 storage) as [s3|]; [|now split].
    unfold Storage.storeToS3 in H.
    destruct (Storage.NewSession os); [discriminate|].
    destruct (Storage.UploadFile os _ _ _); discriminate.
Qed.

(** Step 5 keeps the references it can resolve, in order, and skips the
    others. *)
Lemma storeAll_resolved (name : string) (results : list Bootc.BootcImageResult) :
  ~ storagePanics cfg ->
  forall refs,
    storeAll env cfg name results refs
    = Ok (refs ++ omap (resolve cfg (os env) name) results)%list.
Proof.
  intros Hnp. induction results as [|r rest IH]; intros refs; simpl.
  - now rewrite app_nil_r.
  - unfold resolve at 1.
    destruct (Storage.StoreBootcImage cfg (os env) name (Bootc.Path r) (Bootc.Type_ r))
      as [sr|e|m] eqn:E.
    + rewrite IH. now rewrite <- app_assoc.
    + apply IH.
    + exfalso. apply Hnp. eapply StoreBootcImage_panic. exact E.
Qed.

Lemma storeAll_not_Err (name : string) (results : list Bootc.BootcImageResult) :
  forall refs e, storeAll env cfg name results refs <> Err e.
Proof.
  induction results as [|r rest IH]; intros refs e; simpl; [discriminate|].
  destruct (Storage.StoreBootcImage _ _ _ _ _); [apply IH | apply IH | discriminate].
Qed.

Lemma storagePanics_dec : storagePanics cfg \/ ~ storagePanics cfg.
Proof.
  unfold storagePanics.
  destruct (Config.storageOf cfg) as [storage|]; [|right; intros (s & H & _); discriminate].
  destruct (decide (Config.Type_ storage = "s3")) as [Ht|Ht];
    [|right; intros (s & [= <-] & H & _); contradiction].
  destruct (Config.S3 storage) as [s3|] eqn:Es.
  - right. intros (s & [= <-] & _ & H). congruence.
  - left. exists storage. auto.
Qed.

Lemma storeAll_panics (name : string) (e : BootcExport) (es : list BootcExport) :
  storagePanics cfg ->
  exists m, storeAll env cfg name (resultOf name <$> e :: es) [] = Panic m.
Proof.
  intros (storage & Hst & Ht & Hs3). simpl.
  unfold Storage.StoreBootcImage.
  change (GoStrings.HasPrefix (sentinel name (Api.Type_ e)) "uploaded:")
    with (GoStrings.HasPrefix ("uploaded:" +:+ (name +:+ "/" +:+ Api.Type_ e)) "uploaded:").
  rewrite HasPrefix_append, Hst, Ht, Hs3. simpl. eauto.
Qed.

(** The marks change the status only. *)
Lemma mark_identity (now : Time) (ib : ImageBuild) :
  (forall p m, Metadata (markStatus now ib p m) = Metadata ib /\
               Spec (markStatus now ib p m) = Spec ib) /\
  (forall r, Metadata (markContainerImage ib r) = Metadata ib /\
             Spec (markContainerImage ib r) = Spec ib) /\
  (forall r rs, Metadata (markCompleted now ib r rs) = Metadata ib /\
                Spec (markCompleted now ib r rs) = Spec ib) /\
  (forall e, Metadata (markFailed now ib e) = Metadata ib /\
             Spec (markFailed now ib e) = Spec ib) /\
  (forall r l, Metadata (markCancelled now ib r l) = Metadata ib /\
               Spec (markCancelled now ib r l) = Spec ib).
Proof. repeat split. Qed.

Ltac marks :=
  unfold phaseOf, markCompleted, markFailed, markStatus, markContainerImage, markCancelled,
    statusOf in *;
  cbn [set_Status set_Phase set_Message set_ContainerImageRef set_BootcImageRefs
       set_StartTime set_CompletionTime set_Logs Status Phase Message ContainerImageRef
       BootcImageRefs StartTime CompletionTime Api.Logs Metadata Spec] in *.

(** The exports and the completion of a build whose polls see no
    cancellation request. *)
Lemma buildExportsAndComplete_post (ib : ImageBuild) (ref : string) (w : World) :
  quiet env ib ->
  let name := Name (Metadata ib) in
  let jobs := bootcJobName name <$> exportsOf ib in
  post (buildExportsAndComplete env cfg ib ref) w
       (fun r _ =>
          let ib' := fst r in
          (Exists (ranBadly env) jobs /\ phaseOf ib' = Some "Failed" /\
           (exists e, snd r = Err e) /\
           ContainerImageRef (statusOf ib') = ContainerImageRef (statusOf ib) /\
           BootcImageRefs (statusOf ib') = BootcImageRefs (statusOf ib) /\
           is_Some (CompletionTime (statusOf ib')))
          \/
          (Forall (ranWell env) jobs /\ storagePanics cfg /\ exportsOf ib <> [] /\
           (exists m, snd r = Panic m) /\
           ContainerImageRef (statusOf ib') = ContainerImageRef (statusOf ib))
          \/
          (Forall (ranWell env) jobs /\ (exportsOf ib = [] \/ ~ storagePanics cfg) /\
           phaseOf ib' = Some "Completed" /\
           (forall m, snd r <> Panic m) /\
           ContainerImageRef (statusOf ib') = Some ref /\
           is_Some (CompletionTime (statusOf ib')) /\
           BootcImageRefs (statusOf ib') =
             let refs := omap (resolve cfg (os env) name) (resultOf name <$> exportsOf ib) in
             if (0 <? length refs)%nat then Some refs else BootcImageRefs (statusOf ib))).
Proof.
  intros Hq name jobs. unfold buildExportsAndComplete.
  assert (Hdone : forall (refs : list BootcImageRef) ib1 w1,
             Metadata ib1 = Metadata ib ->
             post (let* r := completeBuild env ib1 ref refs in ret (returned r))%sys w1
                  (fun r _ => phaseOf (fst r) = Some "Completed" /\
                              (forall m, snd r <> Panic m) /\
                              ContainerImageRef (statusOf (fst r)) = Some ref /\
                              is_Some (CompletionTime (statusOf (fst r))) /\
                              BootcImageRefs (statusOf (fst r)) =
                                if (0 <? length refs)%nat then Some refs
                                else BootcImageRefs (statusOf ib1))).
  { intros refs ib1 w1 _. step completeBuild_post.
    intros [ib2 e2] w2 (now & Hib2 & _). apply post_ret. simpl in Hib2. subst ib2.
    destruct e2; simpl; (split; [|split; [|split; [|split]]]);
      try (intros m; discriminate); marks;
      destruct (0 <? length refs)%nat; simpl; eauto. }
  destruct (BootcExports (Spec ib)) as [[|e es]|] eqn:Eexp.
  - eapply post_mono; [apply (Hdone [] ib); reflexivity|]. cbv beta.
    intros r _ (H1 & H2 & H3 & H4 & H5). right; right.
    assert (Hex : exportsOf ib = []) by (unfold exportsOf; now rewrite Eexp).
    unfold jobs. rewrite Hex. simpl. repeat split; auto.
  - assert (Hex : exportsOf ib = e :: es) by (unfold exportsOf; now rewrite Eexp).
    step isCancelled_post. intros c w1 [n ->]. rewrite (Hq n).
    step updateStatus_post. intros [ib1 e1] w2 [now1 Hib1]. simpl in Hib1. subst ib1.
    set (ib1 := markStatus now1 ib "GeneratingImages" "Building bootc disk images").
    step BuildBootcImages_post.
    change (Name (Metadata ib1)) with name. change (exportsOf ib1) with (exportsOf ib).
    intros [rs|err|m] w3 H; [| |contradiction].
    + destruct H as [-> Hall].
      assert (Hjobs : Forall (ranWell env) jobs).
      { unfold jobs. now apply Forall_fmap. }
      destruct storagePanics_dec as [Hp|Hnp].
      * destruct (storeAll_panics name e es Hp) as [m Hm].
        rewrite Hex. change (Name (Metadata ib1)) with name. rewrite Hm.
        apply post_ret. right; left. repeat split; eauto.
      * change (Name (Metadata ib1)) with name.
        rewrite (storeAll_resolved name _ Hnp). simpl app.
        eapply post_mono; [apply (Hdone _ ib1); reflexivity|]. cbv beta.
        intros r _ (H1 & H2 & H3 & H4 & H5). right; right.
        repeat split; auto.
    + step failBuild_post. intros r w4 [now2 ->]. apply post_ret. left.
      split; [unfold jobs; now apply Exists_fmap|].
      subst ib1. marks. simpl.
      repeat split; eauto;
        destruct (GoErr.Logs _) as [l|]; try destruct (0 <? length l)%nat;
        destruct (Status ib) as [st|]; simpl; try destruct (_ && _); simpl; eauto.
  - eapply post_mono; [apply (Hdone [] ib); reflexivity|]. cbv beta.
    intros r _ (H1 & H2 & H3 & H4 & H5). right; right.
    assert (Hex : exportsOf ib = []) by (unfold exportsOf; now rewrite Eexp).
    unfold jobs. rewrite Hex. simpl. repeat split; auto.
Qed.

Lemma quiet_same (a b : ImageBuild) : Metadata b = Metadata a -> quiet env a -> quiet env b.
Proof. unfold quiet. now intros ->. Qed.

Lemma generateAndBuild_post (ib0 ib : ImageBuild) (cert key : string) (w : World) :
  quiet env ib0 -> earlyStagesSucceed env ib0 ->
  (exists now, ib = markStatus now ib0 "Building" "Starting image build process") ->
  post (generateAndBuild env cfg ib cert key) w (fun r _ => exportsOutcome env cfg ib0 r).
Proof.
  intros Hq (_ & Hgen & Hprep & Hjob) [now0 Hib].
  assert (Hmeta : Metadata ib = Metadata ib0) by now subst ib.
  assert (Hspec : Spec ib = Spec ib0) by now subst ib.
  assert (Hq' : quiet env ib) by now apply (quiet_same ib0).
  unfold generateAndBuild.
  step isCancelled_post. intros c w1 [n ->]. rewrite (Hq' n).
  rewrite Hspec. destruct (Hgen cert key) as [text ->].
  step isCancelled_post. intros c w2 [n2 ->]. rewrite (Hq' n2).
  step BuildAndPushImage_post. intros [ref|e|m] w3 H; [| |contradiction].
  - subst ref.
    step updateStatusWithContainerImage_post. intros [ib2 e2] w4 Hib2. simpl in Hib2.
    eapply post_mono; [apply buildExportsAndComplete_post|].
    { apply (quiet_same ib); [now subst ib2 | exact Hq']. }
    cbv beta. intros r _ H. unfold exportsOutcome.
    assert (Hn : Name (Metadata ib2) = Name (Metadata ib0)) by (subst ib2; now rewrite <- Hmeta).
    assert (Hex : exportsOf ib2 = exportsOf ib0)
      by (unfold exportsOf; subst ib2; cbn [markContainerImage Spec set_Status]; now rewrite Hspec).
    assert (Hgn : ContainerBuilder.generateImageName ib = ContainerBuilder.generateImageName ib0).
    { unfold ContainerBuilder.generateImageName, ContainerBuilder.tagOf.
      now rewrite Hmeta, Hspec. }
    assert (Hcir : ContainerImageRef (statusOf ib2)
                   = Some (ContainerBuilder.generateImageName ib0))
      by (subst ib2; rewrite <- Hgn; reflexivity).
    assert (Hbr : BootcImageRefs (statusOf ib2) = BootcImageRefs (statusOf ib0)).
    { subst ib2 ib. marks. destruct (Status ib0) as [st|]; simpl; now destruct (bool_decide _). }
    rewrite Hn, Hex, Hbr, Hgn in H.
    destruct H as [(H1 & H2 & H3 & H4 & H5 & H6) | [(H1 & H2 & H3 & H4 & H5)
                  | (H1 & H2 & H3 & H4 & H5 & H6 & H7)]].
    + split; [now rewrite H4|]. left. repeat split; assumption.
    + split; [now rewrite H5|]. right; left. repeat split; assumption.
    + split; [exact H5|]. right; right. repeat split; assumption.
  - exfalso. destruct H as [[k Hk] | Hbad].
    + rewrite Hprep in Hk. now destruct Hk.
    + rewrite Hmeta in Hbad. now apply succeeds_not_badly in Hbad.
Qed.

Lemma BuildImage_post (ib : ImageBuild) (w : World) :
  quiet env ib -> earlyStagesSucceed env ib ->
  post (BuildImage env cfg ib) w (fun r _ => exportsOutcome env cfg ib r).
Proof.
  intros Hq Hearly. unfold BuildImage.
  step isCancelled_post. intros c w1 [n ->]. rewrite (Hq n).
  step updateStatus_post. intros [ib1 e1] w2 [now1 Hib1]. simpl in Hib1.
  assert (Hspec : Spec ib1 = Spec ib) by now subst ib1.
  assert (Hq1 : quiet env ib1) by (apply (quiet_same ib); [now subst ib1 | exact Hq]).
  rewrite Hspec.
  destruct (FlightctlConfig (Spec ib)).
  - step isCancelled_post. intros c w3 [n3 ->]. rewrite (Hq1 n3).
    apply post_bind, post_call.
    destruct Hearly as (Hcert & Hrest).
    destruct (Hcert (steps w3)) as (cert & key & ->).
    apply generateAndBuild_post; [exact Hq | split; assumption | eauto].
  - apply generateAndBuild_post; [exact Hq | exact Hearly | eauto].
Qed.

End OrchestratorFacts.

(** ** Partial failure of the exports (C1, C10) *)
Section ExportFacts.
Import GoErr GoTime Api Sys Orchestrator Spec.

Lemma jobs_fail_not_well (env : Env) (name : string) (exports : list BootcExport) :
  Exists (fun e => workloadFails env (bootcJobName name e)) exports ->
  ~ Forall (ranWell env) (bootcJobName name <$> exports).
Proof.
  intros Hex Hall. apply Exists_exists in Hex as (e & Hin & Hf).
  rewrite Forall_fmap, Forall_forall in Hall.
  exact (fails_not_well env _ Hf (Hall e Hin)).
Qed.

Lemma jobs_succeed_not_badly (env : Env) (name : string) (exports : list BootcExport) :
  Forall (fun e => workloadSucceeds env (bootcJobName name e)) exports ->
  ~ Exists (ranBadly env) (bootcJobName name <$> exports).
Proof.
  intros Hall Hex. rewrite Exists_fmap in Hex.
  apply Exists_exists in Hex as (e & Hin & Hb).
  rewrite Forall_forall in Hall.
  exact (succeeds_not_badly env _ (Hall e Hin) Hb).
Qed.

Lemma resolve_no_storage (cfg : Config.Config) (os : Storage.OS) (name : string)
      (e : BootcExport) :
  Config.storageOf cfg = None -> resolve cfg os name (resultOf name e) = None.
Proof.
  intros H. unfold resolve, resultOf, Storage.StoreBootcImage. simpl. rewrite H.
  now destruct (GoStrings.HasPrefix _ _).
Qed.

End ExportFacts.

(** ** Cancellation (C9) *)
Section CancelFacts.
Import GoErr GoTime Api Sys Orchestrator Spec.
Variable env : Env.
Variable cfg : Config.Config.

Ltac step H :=
  apply post_bind; eapply post_mono; [apply H | cbv beta].

Lemma call_present (name : string) (ev : Event) (w : World) :
  present env name w -> post (call ev) w (fun _ w' => present env name w').
Proof. intros H. exact H. Qed.

Lemma collectPodLogs_present (name ns : string) (logs : list string) (pod : K8s.Pod)
      (w : World) :
  present env name w -> post (collectPodLogs env ns logs pod) w (fun _ w' => present env name w').
Proof.
  intros H. unfold collectPodLogs. step (call_present name); [exact H|].
  intros n w1 H1. destruct (podLogs env n) as [l|e]; [|exact H1].
  destruct (0 <? String.length l)%nat; exact H1.
Qed.

Lemma deleteOneJob_present (name ns : string) (count : nat) (job : K8s.Job) (w : World) :
  present env name w -> post (deleteOneJob env ns count job) w (fun _ w' => present env name w').
Proof.
  intros H. unfold deleteOneJob. step (call_present name); [exact H|].
  intros n w1 H1. destruct (deleteJob env n); exact H1.
Qed.

Lemma Patch_present (name : string) (ops : list PatchOp) (w : World) :
  present env name w ->
  post (PatchImageBuildWithResponse env name ops) w (fun _ w' => present env name w').
Proof.
  intros H. unfold PatchImageBuildWithResponse. step (call_present name); [exact H|].
  intros n w1 H1. destruct (apiFault env n) as [[e|c]|]; [exact H1 | exact H1 |].
  unfold post, bind, getCatalog. simpl.
  destruct (catalog w1 !! (apiOrg env, name)) as [cur|]; [|exact H1].
  destruct (applyPatch cur ops) as [new|]; [|exact H1].
  destruct (String.eqb (BaseImage (Spec new)) ""); [exact H1|].
  unfold present. simpl. rewrite lookup_insert_eq. eauto.
Qed.

Lemma Replace_present (name : string) (body : ImageBuild) (w : World) :
  (forall n, apiFault env n = None) -> present env name w ->
  post (ReplaceImageBuildStatusWithResponse env name body) w
       (fun r _ => exists stored, r = HTTP 200 stored).
Proof.
  intros Hf [stored Hs]. unfold ReplaceImageBuildStatusWithResponse, post, bind, call. simpl.
  rewrite Hf. unfold getCatalog. simpl. rewrite Hs. simpl. eauto.
Qed.

Lemma CancelBuild_succeeds (ib : ImageBuild) (reason : string) (w : World) :
  (forall n, apiFault env n = None) -> present env (Name (Metadata ib)) w ->
  post (CancelBuild env cfg ib reason) w
       (fun r _ => snd r = Some (Errorf ("build cancelled: " +:+ reason))).
Proof.
  intros Hf Hp. unfold CancelBuild.
  set (name := Name (Metadata ib)) in *.
  step (call_present name); [exact Hp|]. intros n1 w1 H1.
  apply post_bind.
  eapply (post_mono _ _ (fun _ w' => present env name w')).
  { destruct (listPods env n1) as [pods|e]; [|exact H1].
    apply (post_forEach (fun _ w' => present env name w')); [|exact H1].
    intros s a w0 _. apply collectPodLogs_present. }
  intros logs w2 H2.
  step (call_present name); [exact H2|]. intros n3 w3 H3.
  apply post_bind.
  eapply (post_mono _ _ (fun _ w' => present env name w')).
  { destruct (listJobs env n3) as [jobs|e]; [|exact H3].
    apply (post_forEach (fun _ w' => present env name w')); [|exact H3].
    intros s a w0 _. apply deleteOneJob_present. }
  intros count w4 H4.
  step (call_present name); [exact H4|]. intros n5 w5 H5.
  step (Patch_present name); [exact H5|]. intros r6 w6 H6.
  apply post_bind.
  eapply (post_mono _ _ (fun _ w' => present env name w')); [exact H6|].
  intros now w7 H7.
  step (Replace_present name); [exact Hf|exact H7|].
  intros r8 w8 [stored ->]. simpl. apply post_ret. reflexivity.
Qed.

End CancelFacts.

(** ** Timestamps (C5) and the shape of every exit of a build *)
Section ShapeFacts.
Import GoErr GoTime Api Sys Orchestrator Spec.
Variable env : Env.
Variable cfg : Config.Config.

Ltac step H :=
  apply post_bind; eapply post_mono; [apply H | cbv beta].

Lemma advances_refl (a : ImageBuild) : advances a a.
Proof. repeat split; auto. Qed.

Lemma advances_trans (a b c : ImageBuild) : advances a b -> advances b c -> advances a c.
Proof.
  intros (M1 & S1 & T1 & C1) (M2 & S2 & T2 & C2).
  repeat split; [congruence | congruence | auto | auto].
Qed.

Ltac marks :=
  unfold advances, phaseOf, markCompleted, markFailed, markStatus, markContainerImage,
    markCancelled, statusOf in *;
  cbn [set_Status set_Phase set_Message set_ContainerImageRef set_BootcImageRefs
       set_StartTime set_CompletionTime set_Logs Status Phase Message ContainerImageRef
       BootcImageRefs StartTime CompletionTime Api.Logs Metadata Spec] in *.

Lemma markStatus_advances (now : Time) (ib : ImageBuild) (p m : string) :
  advances ib (markStatus now ib p m).
Proof.
  marks. repeat split; destruct (Status ib) as [st|]; simpl;
    destruct (String.eqb p "Building"); simpl; try case_bool_decide; simpl; auto;
    try congruence; intros [? ?]; discriminate.
Qed.

Lemma markContainerImage_advances (ib : ImageBuild) (ref : string) :
  advances ib (markContainerImage ib ref).
Proof. marks. repeat split; destruct (Status ib); simpl; auto. Qed.

Lemma markCompleted_advances (now : Time) (ib : ImageBuild) (ref : string)
      (refs : list BootcImageRef) :
  advances ib (markCompleted now ib ref refs).
Proof.
  marks. repeat split; destruct (Status ib); destruct (0 <? length refs)%nat; simpl; eauto.
Qed.

Lemma markFailed_advances (now : Time) (ib : ImageBuild) (e : error) :
  advances ib (markFailed now ib e).
Proof.
  marks. repeat split; destruct (Status ib); destruct (GoErr.Logs e) as [l|];
    try destruct (0 <? length l)%nat; simpl; eauto.
Qed.

Lemma markCancelled_advances (now : Time) (ib : ImageBuild) (reason : string)
      (logs : list string) :
  advances ib (markCancelled now ib reason logs).
Proof.
  marks. repeat split; destruct (Status ib); destruct (0 <? length logs)%nat; simpl; eauto.
Qed.

Lemma markCompleted_phase (now : Time) (ib : ImageBuild) (ref : string)
      (refs : list BootcImageRef) :
  phaseOf (markCompleted now ib ref refs) = Some "Completed" /\
  CompletionTime (statusOf (markCompleted now ib ref refs)) = Some now.
Proof. marks. destruct (0 <? length refs)%nat; split; reflexivity. Qed.

Lemma markFailed_phase (now : Time) (ib : ImageBuild) (e : error) :
  phaseOf (markFailed now ib e) = Some "Failed" /\
  CompletionTime (statusOf (markFailed now ib e)) = Some now.
Proof.
  marks. destruct (GoErr.Logs e) as [l|]; try destruct (0 <? length l)%nat; split; reflexivity.
Qed.

Lemma markCancelled_phase (now : Time) (ib : ImageBuild) (reason : string)
      (logs : list string) :
  phaseOf (markCancelled now ib reason logs) = Some "Cancelled" /\
  CompletionTime (statusOf (markCancelled now ib reason logs)) = Some now.
Proof. marks. destruct (0 <? length logs)%nat; split; reflexivity. Qed.

Lemma markStatus_phase (now : Time) (ib : ImageBuild) (p m : string) :
  phaseOf (markStatus now ib p m) = Some p.
Proof.
  marks. destruct (_ && _); reflexivity.
Qed.

Lemma exit_cancel (ib0 ib : ImageBuild) (reason : string) (w : World) :
  advances ib0 ib ->
  post (let* r := cancelBuild env cfg ib reason in ret (returned r))%sys w
       (fun r _ => exitShape ib0 r).
Proof.
  intros Ha. unfold cancelBuild. step CancelBuild_post.
  intros r w1 (now & logs & e & ->). apply post_ret. unfold exitShape, returned. cbn [fst snd].
  destruct (markCancelled_phase now ib reason logs) as [Hp Hc].
  split; [|split; [|split]].
  - apply (advances_trans _ ib); [exact Ha | apply markCancelled_advances].
  - eauto.
  - discriminate.
  - intros _. split; [right; right; exact Hp | rewrite Hc; eauto].
Qed.

Lemma exit_fail (ib0 ib : ImageBuild) (e : error) (w : World) :
  advances ib0 ib ->
  post (let* r := failBuild env ib e in ret (returned r))%sys w
       (fun r _ => exitShape ib0 r).
Proof.
  intros Ha. step failBuild_post. intros r w1 (now & ->). apply post_ret.
  unfold exitShape, returned. cbn [fst snd].
  destruct (markFailed_phase now ib e) as [Hp Hc].
  split; [|split; [|split]].
  - apply (advances_trans _ ib); [exact Ha | apply markFailed_advances].
  - rewrite Hp. discriminate.
  - discriminate.
  - intros _. split; [right; left; exact Hp | rewrite Hc; eauto].
Qed.

Lemma exit_complete (ib0 ib : ImageBuild) (ref : string) (refs : list BootcImageRef)
      (w : World) :
  advances ib0 ib ->
  post (let* r := completeBuild env ib ref refs in ret (returned r))%sys w
       (fun r _ => exitShape ib0 r).
Proof.
  intros Ha. step completeBuild_post. intros [ib1 e1] w1 (now & Hib1 & _).
  apply post_ret. simpl in Hib1. subst ib1.
  destruct (markCompleted_phase now ib ref refs) as [Hp Hc].
  assert (Hadv : advances ib0 (markCompleted now ib ref refs))
    by (apply (advances_trans _ ib); [exact Ha | apply markCompleted_advances]).
  unfold exitShape, returned.
  destruct e1; cbn [fst snd]; (split; [exact Hadv|split; [|split]]);
    try (rewrite Hp; discriminate); try discriminate; try (intros _; exact Hp);
    (intros _; split; [left; exact Hp | rewrite Hc; eauto]).
Qed.

Lemma exit_panic (ib0 ib : ImageBuild) (now : Time) (m msg : string) :
  advances ib0 ib ->
  exitShape ib0 (markStatus now ib "GeneratingImages" msg, Panic m).
Proof.
  intros Ha. unfold exitShape. cbn [fst snd].
  split; [|split; [|split]].
  - apply (advances_trans _ ib); [exact Ha | apply markStatus_advances].
  - rewrite markStatus_phase. discriminate.
  - discriminate.
  - intros [[e He] | He]; discriminate.
Qed.

Lemma buildExportsAndComplete_shape (ib0 ib : ImageBuild) (ref : string) (w : World) :
  advances ib0 ib ->
  post (buildExportsAndComplete env cfg ib ref) w (fun r _ => exitShape ib0 r).
Proof.
  intros Ha. unfold buildExportsAndComplete.
  destruct (BootcExports (Spec ib)) as [[|e es]|]; try now apply exit_complete.
  step isCancelled_post. intros c w1 _. destruct c; [now apply exit_cancel|].
  step updateStatus_post. intros [ib1 e1] w2 [now1 Hib1]. simpl in Hib1. subst ib1.
  step BuildBootcImages_post. intros [rs|err|m] w3 H; [| |contradiction].
  - destruct (storeAll env cfg _ rs []) as [refs|err|m] eqn:Es.
    + apply exit_complete.
      apply (advances_trans _ ib); [exact Ha | apply markStatus_advances].
    + now apply storeAll_not_Err in Es.
    + apply post_ret. now apply exit_panic.
  - apply exit_fail.
    apply (advances_trans _ ib); [exact Ha | apply markStatus_advances].
Qed.

Lemma generateAndBuild_shape (ib0 ib : ImageBuild) (cert key : string) (w : World) :
  advances ib0 ib ->
  post (generateAndBuild env cfg ib cert key) w (fun r _ => exitShape ib0 r).
Proof.
  intros Ha. unfold generateAndBuild.
  step isCancelled_post. intros c w1 _. destruct c; [now apply exit_cancel|].
  destruct (generate env (Spec ib) cert key) as [text|err]; [|now apply exit_fail].
  step isCancelled_post. intros c w2 _. destruct c; [now apply exit_cancel|].
  step BuildAndPushImage_post. intros [ref|err|m] w3 H; [| |contradiction].
  - step updateStatusWithContainerImage_post. intros [ib2 e2] w4 Hib2. simpl in Hib2.
    apply buildExportsAndComplete_shape. subst ib2.
    apply (advances_trans _ ib); [exact Ha | apply markContainerImage_advances].
  - now apply exit_fail.
Qed.

Lemma BuildImage_shape (ib : ImageBuild) (w : World) :
  post (BuildImage env cfg ib) w (fun r _ => exitShape ib r).
Proof.
  unfold BuildImage.
  step isCancelled_post. intros c w1 _.
  destruct c; [apply exit_cancel, advances_refl|].
  step updateStatus_post. intros [ib1 e1] w2 [now1 Hib1]. simpl in Hib1.
  assert (Ha : advances ib ib1) by (subst ib1; apply markStatus_advances).
  destruct (FlightctlConfig (Spec ib1)); [|now apply generateAndBuild_shape].
  step isCancelled_post. intros c w3 _. destruct c; [now apply exit_cancel|].
  apply post_bind, post_call.
  destruct (requestCertificate env _) as [[cert key]|err].
  - now apply generateAndBuild_shape.
  - now apply exit_fail.
Qed.

End ShapeFacts.

Section TimestampFacts.
Import GoErr GoTime Api Sys Orchestrator Spec.

(** The local copy a status write returns is the marked copy it sent. *)
Lemma Replace_local {A} (env : Env) (name : string) (body : ImageBuild) (w : World)
      (k : Response ImageBuild -> A) (ib : ImageBuild) :
  fst (fst (bind (ReplaceImageBuildStatusWithResponse env name body)
                 (fun resp => ret (ib, k resp)) w)) = ib.
Proof.
  unfold bind. destruct (ReplaceImageBuildStatusWithResponse env name body w). reflexivity.
Qed.

(** C9.  [CancelBuild] never returns [nil]: whatever the cluster and the
    API server answer, it returns an error and leaves the local copy in
    phase Cancelled; when no API call fails and the resource exists, that
    error is [build cancelled: <reason>].  So [BuildImage] returns an error
    whenever it ends in phase Cancelled. *)
Theorem CancelBuild_never_returns_nil (env : Env) (cfg : Config.Config) (ib : ImageBuild)
        (reason : string) (w : World) :
  let r := fst (CancelBuild env cfg ib reason w) in
  (exists e, snd r = Some e) /\
  phaseOf (fst r) = Some "Cancelled" /\
  ((forall n, apiFault env n = None) -> present env (Name (Metadata ib)) w ->
   snd r = Some (Errorf ("build cancelled: " +:+ reason))) /\
  (let b := fst (BuildImage env cfg ib w) in
   phaseOf (fst b) = Some "Cancelled" -> exists e, snd b = Err e).
Proof.
  intros r.
  pose proof (CancelBuild_post env cfg ib reason w) as (now & logs & e & Hr).
  fold r in Hr.
  split; [rewrite Hr; eauto|].
  split; [rewrite Hr; apply markCancelled_phase|].
  split; [intros Hf Hp; exact (CancelBuild_succeeds env cfg ib reason w Hf Hp)|].
  intros b. exact (proj1 (proj2 (BuildImage_shape env cfg ib w))).
Qed.

(** On the copy a build works on, the start time is set when [Building] is
    entered without one and is kept by every later status write; the
    completion time is set to the current time by each of the three
    writes of a terminal phase; no operation of a build, and no build as a
    whole, loses a timestamp that is set.  The reset of [RebuildImage]
    clears the phase, the message, both references and the completion
    time, and leaves the start time and the logs as they are. *)
Lemma marks_keep_timestamps :
  (forall now ib m, StartTime (statusOf ib) = None ->
     StartTime (statusOf (markStatus now ib "Building" m)) = Some now) /\
  (forall now ib p m t, StartTime (statusOf ib) = Some t ->
     StartTime (statusOf (markStatus now ib p m)) = Some t) /\
  (forall now ib ref refs e reason logs,
     (phaseOf (markCompleted now ib ref refs) = Some "Completed" /\
      CompletionTime (statusOf (markCompleted now ib ref refs)) = Some now) /\
     (phaseOf (markFailed now ib e) = Some "Failed" /\
      CompletionTime (statusOf (markFailed now ib e)) = Some now) /\
     (phaseOf (markCancelled now ib reason logs) = Some "Cancelled" /\
      CompletionTime (statusOf (markCancelled now ib reason logs)) = Some now)) /\
  (forall env cfg ib w,
     (forall p m, fst (fst (updateStatus env ib p m w))
                  = markStatus (clock env (steps w)) ib p m) /\
     (forall ref, fst (fst (updateStatusWithContainerImage env ib ref w))
                  = markContainerImage ib ref) /\
     (forall ref refs, fst (fst (completeBuild env ib ref refs w))
                       = markCompleted (clock env (steps w)) ib ref refs) /\
     (forall e, fst (fst (failBuild env ib e w)) = markFailed (clock env (steps w)) ib e) /\
     (forall reason, exists now logs,
        fst (fst (CancelBuild env cfg ib reason w)) = markCancelled now ib reason logs)) /\
  (forall now ib p m ref refs e reason logs,
     advances ib (markStatus now ib p m) /\ advances ib (markContainerImage ib ref) /\
     advances ib (markCompleted now ib ref refs) /\ advances ib (markFailed now ib e) /\
     advances ib (markCancelled now ib reason logs)) /\
  (forall env cfg ib w, advances ib (fst (fst (BuildImage env cfg ib w)))) /\
  (forall ib st, Status ib = Some st ->
     statusOf (resetStatus ib)
     = mkImageBuildStatus None None None None (StartTime st) None (Api.Logs st)).
Proof.
  split.
  { intros now ib m H. unfold markStatus. cbn [statusOf set_Status Status].
    rewrite String.eqb_refl. cbn [andb].
    destruct (Status ib) as [st|] eqn:Es; unfold statusOf in *; rewrite Es in *; simpl in *.
    - rewrite H. now rewrite bool_decide_eq_true_2.
    - reflexivity. }
  split.
  { intros now ib p m t H. exact (proj1 (proj2 (proj2 (markStatus_advances now ib p m))) t H). }
  split.
  { intros. split; [apply markCompleted_phase|].
    split; [apply markFailed_phase | apply markCancelled_phase]. }
  split.
  { intros env cfg ib w.
    split; [intros; unfold updateStatus, bind at 1; simpl; apply Replace_local|].
    split; [intros; unfold updateStatusWithContainerImage; apply Replace_local|].
    split; [intros; unfold completeBuild, bind at 1; simpl; apply Replace_local|].
    split; [intros; unfold failBuild, bind at 1; simpl; apply Replace_local|].
    intros reason. destruct (CancelBuild_post env cfg ib reason w) as (now & logs & e & H).
    exists now, logs. now rewrite H. }
  split.
  { intros. split; [apply markStatus_advances|]. split; [apply markContainerImage_advances|].
    split; [apply markCompleted_advances|].
    split; [apply markFailed_advances | apply markCancelled_advances]. }
  split.
  { intros env cfg ib w. exact (proj1 (BuildImage_shape env cfg ib w)). }
  intros ib st H. unfold resetStatus, statusOf. rewrite H. reflexivity.
Qed.

(** C5 as stated fails: the reset of a retry leaves the start time and the
    logs of the earlier run on the status. *)
Lemma retry_keeps_start_time_and_logs :
  let ib := buildOf "b4" None [] (Some failedStatus) in
  StartTime (statusOf (resetStatus ib)) = Some t_2025_01_04_14_30_22 /\
  Api.Logs (statusOf (resetStatus ib)) = Api.Logs failedStatus /\
  CompletionTime (statusOf (resetStatus ib)) = None /\
  ~ retryZeroesStatus.
Proof.
  split; [reflexivity|]. split; [reflexivity|]. split; [reflexivity|].
  intros H. specialize (H (buildOf "b4" None [] (Some failedStatus))). discriminate H.
Qed.

End TimestampFacts.

(** ** The reconcile loop (C2, C4) *)
Section BuildManagerFacts.
Import GoErr GoTime Api Sys BuildManager Spec.
Variable env : Env.
Variable cfg : Config.Config.

Ltac step H :=
  apply post_bind; eapply post_mono; [apply H | cbv beta].

Lemma dispatches_nil (w : World) : dispatches w [] w.
Proof. unfold dispatches. now rewrite app_nil_r. Qed.

Lemma dispatches_trans (w1 w2 w3 : World) (t1 t2 : list ImageBuild) :
  dispatches w1 t1 w2 -> dispatches w2 t2 w3 -> dispatches w1 (t1 ++ t2) w3.
Proof.
  intros (C1 & O1 & S1) (C2 & O2 & S2). unfold dispatches.
  rewrite C2, C1, O2, O1, S2, S1. now rewrite app_assoc.
Qed.

Lemma call_dispatches (ev : Event) (w : World) :
  post (call ev) w (fun _ w' => dispatches w [] w').
Proof. unfold post, dispatches. simpl. now rewrite app_nil_r. Qed.

Lemma processItem_post (bm : BuildManager) (ib : ImageBuild) (w : World) :
  shouldCancelBuild ib = false ->
  post (processItem env cfg bm ib) w (fun bm' w' => bm' = bm /\ dispatches w (dispatchOf ib) w').
Proof.
  intros Hc. unfold processItem, dispatchOf, post, bind, handleRetry, spawn, ret, dispatches.
  rewrite Hc.
  destruct (shouldProcessBuild ib), (shouldRetryBuild ib); simpl;
    rewrite ?app_nil_r, <- ?app_assoc; auto.
Qed.

Lemma items_in_catalog (c : gmap (OrgId * string) ImageBuild) (org : OrgId) (ib : ImageBuild) :
  ib ∈ itemsOf c org -> exists k, c !! k = Some ib.
Proof.
  unfold itemsOf. intros H. apply list_elem_of_fmap in H as ([k v] & -> & H).
  apply list_elem_of_filter in H as [_ H]. apply elem_of_map_to_list in H. eauto.
Qed.

Lemma forEach_items (items : list ImageBuild) :
  Forall (fun ib => shouldCancelBuild ib = false) items ->
  forall bm w,
    post (forEach items bm (processItem env cfg)) w
         (fun bm' w' => bm' = bm /\ dispatches w (items ≫= dispatchOf) w').
Proof.
  induction items as [|ib items IH]; intros Hall bm w.
  - apply post_ret. split; [reflexivity | apply dispatches_nil].
  - inversion Hall as [|? ? Hib Hrest]; subst. simpl forEach.
    step processItem_post; [exact Hib|]. intros bm1 w1 [-> H1].
    eapply post_mono; [apply (IH Hrest)|]. cbv beta.
    intros bm2 w2 [-> H2]. split; [reflexivity|].
    rewrite bind_cons. exact (dispatches_trans _ _ _ _ _ H1 H2).
Qed.

Lemma processPendingBuildsForOrg_post (c : gmap (OrgId * string) ImageBuild)
      (bm : BuildManager) (org : OrgId) (w : World) :
  (forall n, storeFault env n = None) -> noCancelPending c -> catalog w = c ->
  post (processPendingBuildsForOrg env cfg bm org) w
       (fun bm' w' => bm' = bm /\ dispatches w (itemsOf c org ≫= dispatchOf) w').
Proof.
  intros Hf Hnc Hc. unfold processPendingBuildsForOrg.
  step call_dispatches. intros n w1 H1. rewrite Hf.
  unfold getCatalog. apply post_bind. unfold post at 1. cbn [fst snd].
  destruct H1 as (C1 & O1 & S1). rewrite C1, Hc.
  eapply post_mono; [apply forEach_items|].
  { apply Forall_forall. intros ib Hin.
    destruct (items_in_catalog _ _ _ Hin) as [k Hk]. exact (Hnc k ib Hk). }
  cbv beta. intros bm' w' [-> H2]. split; [reflexivity|].
  apply (dispatches_trans w w1 w' [] _); [|exact H2].
  unfold dispatches. now rewrite C1, O1, S1, Hc.
Qed.

Lemma forEach_orgs (c : gmap (OrgId * string) ImageBuild) (l : list OrgId) :
  (forall n, storeFault env n = None) -> noCancelPending c ->
  forall bm w, catalog w = c ->
    post (forEach l bm (processPendingBuildsForOrg env cfg)) w
         (fun bm' w' => bm' = bm /\ dispatches w (dispatchAll c l) w').
Proof.
  intros Hf Hnc. induction l as [|org l IH]; intros bm w Hc.
  - apply post_ret. split; [reflexivity | apply dispatches_nil].
  - simpl forEach. step (processPendingBuildsForOrg_post c); [exact Hf|exact Hnc|exact Hc|].
    intros bm1 w1 [-> H1].
    eapply post_mono; [apply IH; destruct H1 as (C1 & _); congruence|]. cbv beta.
    intros bm2 w2 [-> H2]. split; [reflexivity|].
    unfold dispatchAll. rewrite bind_cons. exact (dispatches_trans _ _ _ _ _ H1 H2).
Qed.

Lemma ProcessPendingBuilds_post (bm : BuildManager) (w : World) :
  (forall n, storeFault env n = None) -> noCancelPending (catalog w) ->
  post (ProcessPendingBuilds env cfg bm) w
       (fun _ w' => dispatches w (dispatchAll (catalog w) (orgs w)) w').
Proof.
  intros Hf Hnc. unfold ProcessPendingBuilds, cleanupRecentlyCancelled, time_Now.
  apply post_bind, post_bind, post_bind, post_call, post_ret, post_ret.
  apply post_bind, post_call. cbn [steps]. rewrite Hf.
  unfold post. cbn [orgs].
  match goal with |- context [forEach ?l ?b ?f ?w0] =>
    pose proof (forEach_orgs (catalog w) l Hf Hnc b w0 eq_refl) as H end.
  unfold post in H. destruct H as [_ (C & O & S)].
  unfold dispatches. cbn [catalog orgs spawned] in *. auto.
Qed.

(** C2, as the code has it.  The manager keeps no set of builds in
    flight.  One observation of a build in phase ∅ or Pending starts a
    task for it, whatever the state of the manager.  With the store
    answering and no cancel request pending, a tick leaves the catalog
    alone and starts one task for every build it lists in phase ∅ or
    Pending, and one for every Failed build with a retry request; the
    tick after it, seeing the same catalog, starts the same tasks again. *)
Theorem every_tick_dispatches (bm : BuildManager) (w : World) :
  (forall ib, shouldProcessBuild ib = true ->
     spawned (snd (processItem env cfg bm ib w)) = (spawned w ++ [ib])%list /\
     fst (processItem env cfg bm ib w) = bm) /\
  ((forall n, storeFault env n = None) -> noCancelPending (catalog w) ->
   let tasks := dispatchAll (catalog w) (orgs w) in
   dispatches w tasks (snd (ProcessPendingBuilds env cfg bm w)) /\
   dispatches w (tasks ++ tasks) (snd (Run env cfg 2 bm w))).
Proof.
  split.
  - intros ib Hp.
    assert (Hc : shouldCancelBuild ib = false).
    { unfold shouldProcessBuild in Hp. unfold shouldCancelBuild.
      destruct (Status ib) as [st|]; [|reflexivity].
      destruct (Phase st) as [p|]; [|reflexivity].
      apply orb_true_iff in Hp as [Hp|Hp]; apply String.eqb_eq in Hp; subst p; reflexivity. }
    assert (Hr : shouldRetryBuild ib = false).
    { unfold shouldProcessBuild in Hp. unfold shouldRetryBuild.
      destruct (Status ib) as [st|]; [|reflexivity].
      destruct (Phase st) as [p|]; [|reflexivity].
      apply orb_true_iff in Hp as [Hp|Hp]; apply String.eqb_eq in Hp; subst p; reflexivity. }
    destruct (processItem_post bm ib w Hc) as [Hbm (_ & _ & Hs)].
    unfold dispatchOf in Hs. rewrite Hp, Hr in Hs. now split.
  - intros Hf Hnc tasks.
    pose proof (ProcessPendingBuilds_post bm w Hf Hnc) as H1. unfold post in H1.
    split; [exact H1|].
    unfold Run, bind. destruct (ProcessPendingBuilds env cfg bm w) as [bm1 w1] eqn:E1.
    cbn [fst snd] in H1.
    destruct (ProcessPendingBuilds env cfg bm1 w1) as [bm2 w2] eqn:E2.
    assert (Hnc1 : noCancelPending (catalog w1)) by (destruct H1 as (-> & _); exact Hnc).
    pose proof (ProcessPendingBuilds_post bm1 w1 Hf Hnc1) as H2. unfold post in H2.
    rewrite E2 in H2. cbn [fst snd ret] in *.
    destruct H1 as (C1 & O1 & S1). rewrite C1, O1 in H2. fold tasks in H2.
    apply (dispatches_trans w w1 w2); [now split | exact H2].
Qed.

End BuildManagerFacts.

Section BuildManagerRuns.
Import GoErr GoTime Api Sys BuildManager Spec.

(** C2 as stated fails: two consecutive ticks that both see the build [b]
    without a phase start two tasks for it. *)
Lemma second_tick_dispatches_again :
  let pending := buildOf "b" None ["qcow2"] None in
  let w := worldOf [pending] in
  let w2 := snd (Run calmEnv localConfig 2 NewBuildManager w) in
  shouldProcessBuild pending = true /\
  storedPhase w2 "b" = None /\
  spawned w2 = [pending; pending] /\
  ~ atMostOncePerName (spawned w2).
Proof.
  split; [reflexivity|]. split; [vm_compute; reflexivity|].
  assert (H : spawned (snd (Run calmEnv localConfig 2 NewBuildManager
                               (worldOf [buildOf "b" None ["qcow2"] None])))
              = [buildOf "b" None ["qcow2"] None; buildOf "b" None ["qcow2"] None])
    by (vm_compute; reflexivity).
  split; [exact H|].
  cbv zeta. rewrite H. unfold atMostOncePerName. intros Hnd.
  apply NoDup_cons in Hnd as [Hnin _]. apply Hnin. left.
Qed.

(** C4: the retry annotation is deleted from the listed copy only.  The
    tick that sees the Failed build with [retry=true] sends no patch and
    starts a task on a copy without the annotation; the stored resource
    keeps the annotation, also after the task has run the build to
    Completed. *)
Theorem retry_annotation_stays_stored :
  let w := worldOf [retryRequested] in
  let w1 := snd (ProcessPendingBuilds calmEnv localConfig NewBuildManager w) in
  let w2 := snd (ProcessBuild calmEnv localConfig (withoutRetry retryRequested) w1) in
  shouldRetryBuild retryRequested = true /\
  spawned w1 = [withoutRetry retryRequested] /\
  Annotations (Metadata (withoutRetry retryRequested)) = Some ∅ /\
  filter (fun ev => isPatch ev = true) (trace w1) = [] /\
  storedAnnotation w1 "b4" retryAnnotation = Some "true" /\
  storedPhase w2 "b4" = Some "Completed" /\
  filter (fun ev => isPatch ev = true) (trace w2) = [] /\
  storedAnnotation w2 "b4" retryAnnotation = Some "true".
Proof.
  repeat split; vm_compute; reflexivity.
Qed.

End BuildManagerRuns.

(** ** The cleanup of orphaned workloads (C7) *)
Section CleanupFacts.
Import GoErr GoTime Api Sys Cleanup Spec.
Variable env : Env.
Variable cfg : Config.Config.

Ltac step H :=
  apply post_bind; eapply post_mono; [apply H | cbv beta].







(** The deletions are those of the orphans found, and no others. *)
Lemma forEach_calls {A} (f : A -> Event) (l : list A) (w : World) :
  post (forEach l tt (fun _ a => let* _ := call (f a) in ret tt)%sys) w
       (fun _ w' => catalog w' = catalog w /\ trace w' = (trace w ++ (f <$> l))%list).
Proof.
  revert w. induction l as [|a l IH]; intros w.
  - apply post_ret. split; [reflexivity | now rewrite app_nil_r].
  - simpl forEach. apply post_bind, post_bind, post_call, post_ret.
    eapply post_mono; [apply IH|]. cbv beta. cbn [catalog trace].
    intros _ w' [Hc Ht]. split; [exact Hc|]. rewrite Ht, <- app_assoc. reflexivity.
Qed.

Lemma deleteOrphans_post (acc : Orphans) (w : World) :
  post (deleteOrphans cfg acc) w
       (fun _ w' =>
          catalog w' = catalog w /\
          trace w' = (trace w
                      ++ (DeleteJob (getBuildNamespace cfg) <$> elements (orphanedJobs acc))
                      ++ (DeleteConfigMap (getBuildNamespace cfg)
                            <$> elements (orphanedConfigMaps acc)))%list).
Proof.
  unfold deleteOrphans.
  step (forEach_calls (DeleteJob (getBuildNamespace cfg))). intros _ w1 [C1 T1].
  eapply post_mono; [apply (forEach_calls (DeleteConfigMap (getBuildNamespace cfg)))|].
  cbv beta. intros _ w2 [C2 T2]. split; [congruence|].
  rewrite T2, T1, <- app_assoc. reflexivity.
Qed.

(** What spares the workloads. *)
Lemma sparing_refl (w : World) : sparing w w.
Proof.
  split; [reflexivity|]. split; [reflexivity|].
  exists []. split; [now rewrite app_nil_r | constructor].
Qed.

Lemma sparing_trans (w1 w2 w3 : World) : sparing w1 w2 -> sparing w2 w3 -> sparing w1 w3.
Proof.
  intros (C1 & O1 & e1 & T1 & F1) (C2 & O2 & e2 & T2 & F2).
  split; [congruence|]. split; [congruence|].
  exists (e1 ++ e2)%list. split; [now rewrite T2, T1, <- app_assoc|].
  apply Forall_app. now split.
Qed.

Lemma call_sparing (ev : Event) (w : World) (Q : nat -> World -> Prop) :
  sparesWorkloads ev ->
  (forall w', sparing w w' -> steps w' = S (steps w) -> Q (steps w) w') ->
  post (call ev) w Q.
Proof.
  intros Hev HQ. apply post_call, HQ; [|reflexivity].
  split; [reflexivity|]. split; [reflexivity|].
  exists [ev]. split; [reflexivity|]. now constructor.
Qed.

Lemma forEach_sparing {A S} (body : S -> A -> M S) (l : list A) :
  (forall s a w, post (body s a) w (fun _ w' => sparing w w')) ->
  forall s w, post (forEach l s body) w (fun _ w' => sparing w w').
Proof.
  intros Hb s w.
  apply (post_forEach (fun _ w' => sparing w w')); [|apply sparing_refl].
  intros s0 a w0 _ H0. eapply post_mono; [apply Hb|].
  cbv beta. intros _ w' H'. exact (sparing_trans _ _ _ H0 H').
Qed.


Lemma collectActive_sparing (w : World) :
  post (collectActive env) w (fun _ w' => sparing w w').
Proof.
  unfold collectActive. apply post_bind, call_sparing; [exact I|]. intros w1 S1 _.
  destruct (storeFault env (steps w)); [exact S1|].
  assert (Hb : forall s org w0,
             post (activeOfOrg env s org) w0 (fun _ w' => sparing w0 w')).
  { intros s org w0. unfold activeOfOrg.
    apply post_bind, call_sparing; [exact I|]. intros w2 S2 _.
    destruct (storeFault env (steps w0)); exact S2. }
  pose proof (forEach_sparing _ (orgs w1) Hb ∅ w1) as H.
  unfold post in *.
  destruct (forEach (orgs w1) ∅ (activeOfOrg env) w1) as [active w'].
  exact (sparing_trans _ _ _ S1 H).
Qed.

Lemma markOrphans_sparing (active : gset string) (w : World) :
  post (markOrphans env cfg active) w (fun _ w' => sparing w w').
Proof.
  unfold markOrphans. apply post_bind, call_sparing; [exact I|]. intros w1 S1 _.
  destruct (listPods env (steps w)) as [pods|e]; [|exact S1].
  apply post_bind. eapply post_mono.
  - apply forEach_sparing. intros acc pod w0. unfold checkPod.
    destruct (K8s.Labels pod !! "job-name") as [jobName|]; [|apply sparing_refl].
    destruct (negb _); [apply sparing_refl|].
    case_bool_decide; [apply sparing_refl|].
    unfold time_Now. apply post_bind, post_bind, call_sparing; [exact I|].
    intros w2 S2 _. apply post_ret. destruct (_ <? _); exact S2.
  - cbv beta. intros acc w2 S2. exact (sparing_trans _ _ _ S1 S2).
Qed.





End CleanupFacts.

Section CleanupRuns.
Import GoErr GoTime Api Sys Cleanup Spec.


(** When the listing of the builds of a tenant fails, the tenant is
    skipped although the active builds are to be collected from all
    tenants ([// Get all active ImageBuilds]): the workload and the
    configmap of its build [a], in phase Building, are then deleted. *)
Lemma cleanup_skips_tenant_whose_listing_fails :
  let old := buildPod "a" (t_2025_01_04_14_30_22 - 2 * Hour) in
  let w := worldOf [buildingBuild "a"] in
  let w' := snd (PerformInitialCleanup (cleanupEnv [old] (Some 2%nat)) localConfig noParse 1 w) in
  isActive (buildingBuild "a") = true /\
  storedPhase w' "a" = Some "Building" /\
  DeleteJob "flightctl-builds" "build-a" ∈ trace w' /\
  DeleteConfigMap "flightctl-builds" "containerfile-a" ∈ trace w'.
Proof.
  cbv zeta. split; [reflexivity|]. split; [vm_compute; reflexivity|].
  split; apply list_elem_of_In; vm_compute; tauto.
Qed.

End CleanupRuns.

(** ** The upload endpoint (C6) *)
Section UploadFacts.
Import GoErr GoStrings Storage Upload Spec.
Variable cfg : Config.Config.
Variable os : OS.
Variable etag : string.

(** The reading loop, in the words of the specification. *)
Lemma readParts_spec (parts : list PartEvent) :
  forall form,
    readParts parts form =
    if parseFails parts then inr (http_Error "Failed to read upload" StatusBadRequest)
    else inl (mkForm
                (fold_left (fun v ev => match ev with
                                        | Part n _ c => if String.eqb n "imageName" then data c else v
                                        | Malformed _ => v end)
                           (beforeFile parts) (imageName form))
                (fold_left (fun v ev => match ev with
                                        | Part n _ c => if String.eqb n "imageType" then data c else v
                                        | Malformed _ => v end)
                           (beforeFile parts) (imageType form))
                (fold_left (fun v ev => match ev with
                                        | Part n _ c => if String.eqb n "architecture" then data c else v
                                        | Malformed _ => v end)
                           (beforeFile parts) (architecture form))
                (match firstFile parts with
                 | Some f => Some f
                 | None => filePart form
                 end)).
Proof.
  induction parts as [|ev parts IH]; intros form.
  - destruct form. reflexivity.
  - destruct ev as [n f c|e]; [|reflexivity].
    cbn [readParts].
    destruct (String.eqb n "imageName") eqn:E1.
    { apply String.eqb_eq in E1. subst n. rewrite IH. unfold parseFails. cbn.
      destruct (existsb _ (beforeFile parts)); reflexivity. }
    destruct (String.eqb n "imageType") eqn:E2.
    { apply String.eqb_eq in E2. subst n. rewrite IH. unfold parseFails. cbn.
      destruct (existsb _ (beforeFile parts)); reflexivity. }
    destruct (String.eqb n "architecture") eqn:E3.
    { apply String.eqb_eq in E3. subst n. rewrite IH. unfold parseFails. cbn.
      destruct (existsb _ (beforeFile parts)); reflexivity. }
    destruct (String.eqb n "file") eqn:E4.
    { unfold parseFails. cbn. rewrite E4. cbn. destruct form. reflexivity. }
    rewrite IH. unfold parseFails. cbn. rewrite E4. cbn. rewrite E1, E2, E3.
    destruct (existsb _ (beforeFile parts)); reflexivity.
Qed.

Lemma readParts_fresh (parts : list PartEvent) :
  readParts parts (mkForm "" "" "" None) =
  if parseFails parts then inr (http_Error "Failed to read upload" StatusBadRequest)
  else inl (mkForm (fieldValue "imageName" parts) (fieldValue "imageType" parts)
                   (fieldValue "architecture" parts) (firstFile parts)).
Proof.
  rewrite readParts_spec. destruct (parseFails parts); [reflexivity|].
  unfold fieldValue. cbn [imageName imageType architecture filePart].
  now destruct (firstFile parts).
Qed.

(** The middleware lets through exactly the header [Bearer <token>]. *)
Lemma middleware_accepts (token : string) (next : Disk -> Request -> Response * Disk)
      (disk : Disk) (r : Request) :
  token <> "" -> Authorization r = "Bearer " +:+ token ->
  uploadAuthMiddleware token next disk r = next disk r.
Proof.
  intros Ht Hh. unfold uploadAuthMiddleware.
  destruct (String.eqb token "") eqn:E; [apply String.eqb_eq in E; contradiction|].
  rewrite Hh, HasPrefix_append, TrimPrefix_append, String.eqb_refl.
  reflexivity.
Qed.

Lemma middleware_rejects (token : string) (next : Disk -> Request -> Response * Disk)
      (disk : Disk) (r : Request) :
  token <> "" ->
  Authorization r = "" \/ HasPrefix (Authorization r) "Bearer " = false \/
  (exists t, Authorization r = "Bearer " +:+ t /\ t <> token) ->
  StatusCode (fst (uploadAuthMiddleware token next disk r)) = StatusUnauthorized /\
  snd (uploadAuthMiddleware token next disk r) = disk.
Proof.
  intros Ht Hh. unfold uploadAuthMiddleware.
  destruct (String.eqb token "") eqn:E; [apply String.eqb_eq in E; contradiction|].
  destruct (String.eqb (Authorization r) "") eqn:E1; [now split|].
  destruct (HasPrefix (Authorization r) "Bearer ") eqn:E2; [|now split].
  destruct Hh as [Hh|[Hh|(t & Hh & Hne)]].
  - rewrite Hh in E1. discriminate.
  - discriminate.
  - rewrite Hh, TrimPrefix_append.
    destruct (String.eqb t token) eqn:E3; [apply String.eqb_eq in E3; contradiction|].
    now split.
Qed.

(** C6. The upload endpoint answers 503 when no upload token is
    configured and 401 when the Authorization header is missing, has no
    [Bearer ] prefix or carries another token, in both cases without
    writing a file.  With the valid token it answers 400 when the body
    cannot be parsed as multipart, when [imageName] or [imageType] is
    missing or when there is no [file] part -- the fields are those read
    before the [file] part, so metadata that comes only after it is
    missing --, 500 when the storage layer returns an error, and otherwise
    200 with a JSON summary holding [success], [imageName], [imageType],
    [storageType], [storagePath] and [size]. *)
Theorem upload_status_codes (token : string) (disk : Disk) (r : Request) :
  let out := postUpload cfg os etag token disk r in
  (token = "" ->
   StatusCode (fst out) = StatusServiceUnavailable /\ snd out = disk) /\
  (token <> "" ->
   Authorization r = "" \/ HasPrefix (Authorization r) "Bearer " = false \/
   (exists t, Authorization r = "Bearer " +:+ t /\ t <> token) ->
   StatusCode (fst out) = StatusUnauthorized /\ snd out = disk) /\
  (token <> "" -> Authorization r = "Bearer " +:+ token ->
   (forall e, body r = NotMultipart e ->
              StatusCode (fst out) = StatusBadRequest /\ snd out = disk) /\
   (forall parts, body r = Multipart parts ->
      (parseFails parts = true \/
       fieldValue "imageName" parts = "" \/ fieldValue "imageType" parts = "" \/
       firstFile parts = None ->
       StatusCode (fst out) = StatusBadRequest /\ snd out = disk) /\
      (forall f content rest, parts = Part "file" f content :: rest ->
       StatusCode (fst out) = StatusBadRequest /\ snd out = disk) /\
      (forall filename part,
         parseFails parts = false ->
         fieldValue "imageName" parts <> "" -> fieldValue "imageType" parts <> "" ->
         firstFile parts = Some (filename, part) ->
         let stored := streamed cfg os etag disk (fieldValue "imageName" parts)
                                (fieldValue "imageType" parts) filename part in
         snd out = snd stored /\
         match fst stored with
         | Ok ref =>
             StatusCode (fst out) = StatusOK /\
             isSummary (payload (fst out)) (fieldValue "imageName" parts)
                       (fieldValue "imageType" parts) ref
         | Err _ | Panic _ => StatusCode (fst out) = StatusInternalServerError
         end))).
Proof.
  cbv zeta. unfold postUpload.
  assert (Hbad : forall parts, body r = Multipart parts ->
            parseFails parts = true \/
            fieldValue "imageName" parts = "" \/ fieldValue "imageType" parts = "" \/
            firstFile parts = None ->
            StatusCode (fst (handleUploadArtifact cfg os etag disk r)) = StatusBadRequest /\
            snd (handleUploadArtifact cfg os etag disk r) = disk).
  { intros parts Hb H. unfold handleUploadArtifact. rewrite Hb, readParts_fresh.
    destruct (parseFails parts) eqn:Ep; [now split|].
    cbn [imageName imageType filePart].
    destruct H as [H|[H|[H|H]]]; [discriminate| | |].
    - rewrite H. now split.
    - rewrite H, orb_true_r. now split.
    - rewrite H. destruct (_ || _); now split. }
  split; [|split].
  - intros ->. now split.
  - intros Ht Hh. now apply middleware_rejects.
  - intros Ht Hh. rewrite (middleware_accepts _ _ _ _ Ht Hh).
    split.
    { intros e Hb. unfold handleUploadArtifact. rewrite Hb. now split. }
    intros parts Hb. split; [exact (Hbad parts Hb)|]. split.
    { intros f content rest ->. apply (Hbad _ Hb). right. left. reflexivity. }
    intros filename part Hp Hn Hty Hf.
    unfold handleUploadArtifact. rewrite Hb, readParts_fresh, Hp.
    cbn [imageName imageType filePart].
    destruct (String.eqb (fieldValue "imageName" parts) "") eqn:E1;
      [apply String.eqb_eq in E1; contradiction|].
    destruct (String.eqb (fieldValue "imageType" parts) "") eqn:E2;
      [apply String.eqb_eq in E2; contradiction|].
    cbn [orb]. rewrite Hf. unfold streamed.
    destruct (if String.eqb _ "s3" then _ else _) as [[ref|err|m] disk'];
      cbn [fst snd]; split; try reflexivity.
    split; [reflexivity|].
    eexists. split; [reflexivity|].
    repeat split; reflexivity.
Qed.

End UploadFacts.

(** ** Runs on sample inputs *)
Section SampleRuns.
Import GoErr GoStrings GoTime Api Sys Orchestrator BuildManager Cleanup Spec.

(** C1 as stated fails: of two exports the first, [qcow2], is built and
    the second, [ami], fails; the build ends in phase Failed, not
    Completed, and carries no reference to the image that was built. *)
Lemma one_failed_export_fails_the_build :
  let env := failingJob "bootc-b-ami" in
  let ib := buildOf "b" None ["qcow2"; "ami"] None in
  let run := BuildImage env localConfig ib (worldOf [ib]) in
  workloadSucceeds env "bootc-b-qcow2" /\
  WatchJob "default" "bootc-b-qcow2" ∈ trace (snd run) /\
  workloadFails env "bootc-b-ami" /\
  phaseOf (fst (fst run)) = Some "Failed" /\
  BootcImageRefs (statusOf (fst (fst run))) = None /\
  storedPhase (snd run) "b" = Some "Failed".
Proof.
  cbv zeta. split; [intros n; split; reflexivity|].
  split; [apply list_elem_of_In; vm_compute; tauto|].
  split; [right; intros n; eexists; reflexivity|].
  repeat split; vm_compute; reflexivity.
Qed.

Lemma every_tick_dispatches_witness :
  let pending := buildOf "b" None ["qcow2"] None in
  let w := worldOf [pending] in
  (forall n, storeFault calmEnv n = None) /\ noCancelPending (catalog w) /\
  dispatchAll (catalog w) (orgs w) = [pending] /\
  dispatches w ([pending] ++ [pending])%list (snd (Run calmEnv localConfig 2 NewBuildManager w)).
Proof.
  cbv zeta.
  assert (Hf : forall n, storeFault calmEnv n = None).
  { intros n. reflexivity. }
  assert (Hc : noCancelPending (catalog (worldOf [buildOf "b" None ["qcow2"] None]))).
  { intros k ib H. cbn in H.
    apply lookup_insert_Some in H as [[_ <-]|[_ H]]; [reflexivity|].
    rewrite lookup_empty in H. discriminate. }
  assert (Hd : dispatchAll (catalog (worldOf [buildOf "b" None ["qcow2"] None]))
                           (orgs (worldOf [buildOf "b" None ["qcow2"] None]))
               = [buildOf "b" None ["qcow2"] None]).
  { vm_compute. reflexivity. }
  split; [exact Hf|]. split; [exact Hc|]. split; [exact Hd|].
  rewrite <- Hd.
  exact (proj2 (proj2 (every_tick_dispatches calmEnv localConfig NewBuildManager
                         (worldOf [buildOf "b" None ["qcow2"] None])) Hf Hc)).
Defined.


Lemma extension_mapping_and_sentinel_path_witness :
  let ref := Storage.mkStorageReference "local" "/var/lib/flightctl/images/b/ami.raw" 0
               (Storage.uploadedMetadata "b" "ami") in
  plain "b" = true /\
  Storage.StoreBootcImage localConfig calmOS "b" (sentinel "b" "ami") "ami" = Ok ref /\
  HasSuffix (Storage.Path ref) ("b" +:+ "/ami.raw") = true.
Proof.
  cbv zeta.
  assert (Hp : plain "b" = true).
  { reflexivity. }
  assert (Hs : Storage.StoreBootcImage localConfig calmOS "b" (sentinel "b" "ami") "ami"
               = Ok (Storage.mkStorageReference "local" "/var/lib/flightctl/images/b/ami.raw" 0
                       (Storage.uploadedMetadata "b" "ami"))).
  { vm_compute. reflexivity. }
  split; [exact Hp|]. split; [exact Hs|].
  exact (proj2 (proj2 (proj2 extension_mapping_and_sentinel_path))
               localConfig calmOS "b" _ Hp Hs).
Defined.

Lemma upload_status_codes_witness :
  let name := Storage.mkReader "b" None in
  let type := Storage.mkReader "qcow2" None in
  let file := Storage.mkReader "QFI" None in
  let parts := [Upload.Part "imageName" "" name; Upload.Part "imageType" "" type;
                Upload.Part "file" "disk.qcow2" file] in
  let r := Upload.mkRequest "Bearer s3cret" (Upload.Multipart parts) in
  let late := Upload.mkRequest "Bearer s3cret"
                (Upload.Multipart [Upload.Part "file" "disk.qcow2" file;
                                   Upload.Part "imageName" "" name;
                                   Upload.Part "imageType" "" type]) in
  let disk := Storage.mkDisk ∅ ∅ in
  "s3cret" <> "" /\
  Upload.Authorization r = "Bearer " +:+ "s3cret" /\
  parseFails parts = false /\
  fieldValue "imageName" parts <> "" /\ fieldValue "imageType" parts <> "" /\
  firstFile parts = Some ("disk.qcow2", file) /\
  Upload.StatusCode (fst (Upload.postUpload localConfig calmOS "" "s3cret" disk r))
    = Upload.StatusOK /\
  Upload.StatusCode (fst (Upload.postUpload localConfig calmOS "" "s3cret" disk late))
    = Upload.StatusBadRequest.
Proof.
  cbv zeta.
  set (parts := [Upload.Part "imageName" "" (Storage.mkReader "b" None);
                 Upload.Part "imageType" "" (Storage.mkReader "qcow2" None);
                 Upload.Part "file" "disk.qcow2" (Storage.mkReader "QFI" None)]).
  set (late := [Upload.Part "file" "disk.qcow2" (Storage.mkReader "QFI" None);
                Upload.Part "imageName" "" (Storage.mkReader "b" None);
                Upload.Part "imageType" "" (Storage.mkReader "qcow2" None)]).
  assert (Ht : "s3cret" <> "").
  { discriminate. }
  assert (Hh : forall body, Upload.Authorization (Upload.mkRequest "Bearer s3cret" body)
                            = "Bearer " +:+ "s3cret").
  { intros body. reflexivity. }
  assert (Hp : parseFails parts = false).
  { reflexivity. }
  assert (Hn : fieldValue "imageName" parts <> "").
  { discriminate. }
  assert (Hy : fieldValue "imageType" parts <> "").
  { discriminate. }
  assert (Hfile : firstFile parts = Some ("disk.qcow2", Storage.mkReader "QFI" None)).
  { reflexivity. }
  split; [exact Ht|]. split; [exact (Hh _)|]. split; [exact Hp|]. split; [exact Hn|].
  split; [exact Hy|]. split; [exact Hfile|]. split.
  - destruct (upload_status_codes localConfig calmOS "" "s3cret" (Storage.mkDisk ∅ ∅)
                (Upload.mkRequest "Bearer s3cret" (Upload.Multipart parts)))
      as (_ & _ & Hvalid).
    destruct (Hvalid Ht (Hh _)) as [_ Hparts].
    destruct (Hparts parts eq_refl) as (_ & _ & Hgood).
    destruct (Hgood _ _ Hp Hn Hy Hfile) as [_ Hcode].
    exact (proj1 Hcode).
  - destruct (upload_status_codes localConfig calmOS "" "s3cret" (Storage.mkDisk ∅ ∅)
                (Upload.mkRequest "Bearer s3cret" (Upload.Multipart late)))
      as (_ & _ & Hvalid).
    destruct (Hvalid Ht (Hh _)) as [_ Hparts].
    destruct (Hparts late eq_refl) as (_ & Hlate & _).
    exact (proj1 (Hlate _ _ _ eq_refl)).
Defined.

End SampleRuns.

(** ** The reconcile loop: what one observation does *)
Section ObservationFacts.
Import GoErr GoTime Api Sys BuildManager Spec Reading.
Variable env : Env.
Variable cfg : Config.Config.

Lemma phase_cases (phase : string) :
  (String.eqb phase "" || String.eqb phase "Pending")
  && (String.eqb phase "Building" || String.eqb phase "Pushing"
      || String.eqb phase "GeneratingImages") = false /\
  (String.eqb phase "" || String.eqb phase "Pending") && String.eqb phase "Failed" = false /\
  (String.eqb phase "Building" || String.eqb phase "Pushing"
   || String.eqb phase "GeneratingImages") && String.eqb phase "Failed" = false.
Proof.
  destruct (String.eqb_spec phase "") as [->|]; [now repeat split|].
  destruct (String.eqb_spec phase "Pending") as [->|]; [now repeat split|].
  destruct (String.eqb_spec phase "Building") as [->|]; [now repeat split|].
  destruct (String.eqb_spec phase "Pushing") as [->|]; [now repeat split|].
  destruct (String.eqb_spec phase "GeneratingImages") as [->|]; [now repeat split|].
  now repeat split.
Qed.

(** X1.  The three tests of the reconcile loop exclude one another: no
    build is at once to be started, to be cancelled and to be retried, or
    any two of these.  So the three [if]s of the loop body act as an
    if-else chain: one observation starts a task, or handles a
    cancellation, or handles a retry, or does nothing. *)
Theorem observation_takes_one_branch (bm : BuildManager) (ib : ImageBuild) (w : World) :
  shouldProcessBuild ib && shouldCancelBuild ib = false /\
  shouldProcessBuild ib && shouldRetryBuild ib = false /\
  shouldCancelBuild ib && shouldRetryBuild ib = false /\
  processItem env cfg bm ib w = oneBranch env cfg bm ib w.
Proof.
  assert (H : shouldProcessBuild ib && shouldCancelBuild ib = false /\
              shouldProcessBuild ib && shouldRetryBuild ib = false /\
              shouldCancelBuild ib && shouldRetryBuild ib = false).
  { unfold shouldProcessBuild, shouldCancelBuild, shouldRetryBuild.
    destruct (Status ib) as [st|]; [|now repeat split].
    destruct (Phase st) as [phase|]; [|now repeat split].
    destruct (phase_cases phase) as (H1 & H2 & H3).
    destruct (String.eqb phase "" || String.eqb phase "Pending");
      destruct (String.eqb phase "Building" || String.eqb phase "Pushing"
                || String.eqb phase "GeneratingImages");
      destruct (String.eqb phase "Failed"); try discriminate;
      cbn; rewrite ?andb_false_r; now repeat split. }
  destruct H as (H1 & H2 & H3). repeat split; try assumption.
  unfold processItem, oneBranch.
  destruct (shouldProcessBuild ib), (shouldCancelBuild ib), (shouldRetryBuild ib);
    try discriminate; unfold bind, ret; cbn;
    repeat match goal with |- context [let (_, _) := ?m in _] => destruct m end;
    reflexivity.
Qed.

End ObservationFacts.

(** ** The reconcile loop: repeated cancel requests *)
Section CancellationFacts.
Import GoErr GoTime Api Sys BuildManager Spec.
Variable env : Env.
Variable cfg : Config.Config.

(** X2.  A cancel request seen again less than two minutes after it was
    handled is not handled again: the first handling records the time it
    read and runs [CancelBuild]; the second makes no call but to the
    clock and leaves the manager and the catalog as they are. *)
Theorem second_cancellation_is_suppressed (bm : BuildManager) (ib : ImageBuild) (w : World) :
  let name := Name (Metadata ib) in
  let r1 := handleCancellation env cfg bm ib w in
  let r2 := handleCancellation env cfg (fst r1) ib (snd r1) in
  recentlyCancelled bm !! name = None ->
  Since (clock env (steps (snd r1))) (clock env (steps w)) < 2 * Minute ->
  recentlyCancelled (fst r1) = <[name := clock env (steps w)]> (recentlyCancelled bm) /\
  snd r1 = snd (Orchestrator.CancelBuild env cfg ib "Build cancelled by user request"
                  (snd (call TimeNow w))) /\
  fst r2 = fst r1 /\
  catalog (snd r2) = catalog (snd r1) /\
  Forall (fun ev => ev = TimeNow) (newEvents (snd r1) (snd r2)).
Proof.
  intros name r1 r2 Hnone Hsoon.
  set (wc := snd (Orchestrator.CancelBuild env cfg ib "Build cancelled by user request"
                    (snd (call TimeNow w)))).
  assert (E1 : r1 = (mkBuildManager (<[name := clock env (steps w)]> (recentlyCancelled bm)),
                     wc)).
  { unfold r1, wc, handleCancellation. fold name. rewrite Hnone.
    cbv [bind ret time_Now call]. cbn [fst snd].
    match goal with |- context [Orchestrator.CancelBuild ?e ?c ?i ?r ?v] =>
      now destruct (Orchestrator.CancelBuild e c i r v) end. }
  clearbody wc.
  assert (E2 : r2 = (fst r1, snd (call TimeNow wc))).
  { unfold r2, handleCancellation. fold name. rewrite E1 in *. cbn [fst snd] in *.
    cbn [recentlyCancelled]. rewrite lookup_insert_eq.
    apply Z.ltb_lt in Hsoon.
    cbv [bind ret time_Now call]. cbn [fst snd]. rewrite Hsoon. reflexivity. }
  rewrite E2. rewrite E1. cbn [fst snd recentlyCancelled].
  split; [reflexivity|]. split; [reflexivity|]. split; [reflexivity|].
  split; [reflexivity|].
  unfold newEvents, call. cbn [snd trace]. rewrite drop_app_length.
  repeat constructor.
Qed.

End CancellationFacts.

(** ** The cleanup: the lock *)
Section CleanupLockFacts.
Import GoErr GoTime Api Sys Cleanup Spec.
Variable env : Env.
Variable cfg : Config.Config.
Variable parse : string -> option Time.

Ltac step H :=
  apply post_bind; eapply post_mono; [apply H | cbv beta].

(** The lock is reported as acquired only right after its configmap was
    created. *)
Lemma tryAcquireLock_acquired (ns lockName : string) (lease : Duration) (fuel : nat) :
  forall w, post (tryAcquireLock env parse fuel ns lockName lease) w
                 (fun r w' =>
                    r = inl true ->
                    exists pre, trace w' = (pre ++ [CreateConfigMap ns lockName])%list /\
                                steps w' = S (pred (steps w')) /\
                                createConfigMap env (pred (steps w')) = None).
Proof.
  induction fuel as [|fuel IH]; intros w; cbn [tryAcquireLock].
  all: apply post_bind, post_call.
  all: destruct (createConfigMap env (steps w)) eqn:Ec;
    [|apply post_ret; intros _; exists (trace w); cbn; auto].
  all: apply post_bind, post_call; cbn [steps].
  all: destruct (getConfigMap env (S (steps w))) as [existing|err];
    [|apply post_ret; discriminate].
  all: destruct (existing !! "timestamp") as [ts|];
    [|apply post_bind, post_call, post_ret; discriminate].
  all: destruct (parse ts) as [lockTime|];
    [|apply post_bind, post_call, post_ret; discriminate].
  all: unfold time_Now; apply post_bind, post_bind, post_call, post_ret.
  all: destruct (lease <? _); [|apply post_ret; discriminate].
  all: apply post_bind, post_call.
  - apply post_ret. discriminate.
  - apply IH.
Qed.

(** X3.  The cleanup works only while it holds the lock.  When the lock
    was not acquired the run ends at once: without an error when another
    holder has it, with the error of the attempt otherwise.  When it was
    acquired -- by a creation of the lock's configmap that succeeded, the
    last call of the attempt -- every path of the run, also one that ends
    in an error, makes the release of the lock its last call. *)
Theorem cleanup_works_only_under_the_lock (fuel : nat) (w : World) :
  let ns := getBuildNamespace cfg in
  let lock := tryAcquireLock env parse fuel ns "imagebuilder-cleanup-lock" (5 * Minute) w in
  let run := PerformInitialCleanup env cfg parse fuel w in
  match fst lock with
  | inl true =>
      (exists pre, trace (snd lock)
                   = (pre ++ [CreateConfigMap ns "imagebuilder-cleanup-lock"])%list /\
                   createConfigMap env (pred (steps (snd lock))) = None) /\
      (exists work, trace (snd run)
                    = (trace (snd lock) ++ work
                       ++ [DeleteConfigMap ns "imagebuilder-cleanup-lock"])%list)
  | inl false => run = (None, snd lock)
  | inr err => run = (Some (Wrap "failed to acquire cleanup lock" err), snd lock)
  end.
Proof.
  cbv zeta.
  pose proof (tryAcquireLock_acquired (getBuildNamespace cfg) "imagebuilder-cleanup-lock"
                (5 * Minute) fuel w) as Hacq.
  unfold post in Hacq. unfold PerformInitialCleanup, bind.
  destruct (tryAcquireLock env parse fuel (getBuildNamespace cfg)
              "imagebuilder-cleanup-lock" (5 * Minute) w) as [locked w1].
  cbn [fst snd] in *.
  destruct locked as [[|]|err]; [|reflexivity..].
  split; [destruct (Hacq eq_refl) as (pre & T & _ & C); eauto|].
  pose proof (collectActive_sparing env w1) as S2. unfold post in S2.
  destruct (collectActive env w1) as [active w2]. cbn [fst snd] in S2.
  destruct S2 as (_ & _ & e2 & T2 & _).
  destruct active as [active|err].
  2:{ cbv [ret call]. cbn [fst snd trace]. exists e2. rewrite T2, <- app_assoc. reflexivity. }
  pose proof (markOrphans_sparing env cfg active w2) as S3. unfold post in S3.
  destruct (markOrphans env cfg active w2) as [found w3]. cbn [fst snd] in S3.
  destruct S3 as (_ & _ & e3 & T3 & _).
  destruct found as [acc|err].
  2:{ cbv [ret call]. cbn [fst snd trace]. exists (e2 ++ e3)%list.
      rewrite T3, T2, <- !app_assoc. reflexivity. }
  pose proof (deleteOrphans_post cfg acc w3) as S4. unfold post in S4.
  destruct (deleteOrphans cfg acc w3) as [u w4]. cbn [fst snd] in S4.
  destruct S4 as [_ T4].
  cbv [ret call]. cbn [fst snd trace].
  match type of T4 with _ = (_ ++ ?d)%list => exists (e2 ++ e3 ++ d)%list end.
  rewrite T4, T3, T2, <- !app_assoc. reflexivity.
Qed.

End CleanupLockFacts.

(** ** The orchestrator: the calls of a cancellation *)
Section CancelCalls.
Import GoErr GoTime Api Sys Orchestrator Spec Reading.
Variable env : Env.
Variable cfg : Config.Config.

Ltac step H :=
  apply post_bind; eapply post_mono; [apply H | cbv beta].

Lemma collectPodLogs_calls (ns : string) (pods : list K8s.Pod) :
  forall (logs : list string) (w : World),
    post (forEach pods logs (collectPodLogs env ns)) w
         (fun _ w' =>
            catalog w' = catalog w /\ steps w' = (steps w + length pods)%nat /\
            trace w' = (trace w ++ ((fun pod => GetPodLogs ns (K8s.Name pod) 1000) <$> pods))%list).
Proof.
  induction pods as [|pod pods IH]; intros logs w.
  - apply post_ret. rewrite Nat.add_0_r, app_nil_r. auto.
  - simpl forEach. apply post_bind. unfold collectPodLogs at 1.
    apply post_bind, post_call.
    assert (Hk : forall logs', post (forEach pods logs' (collectPodLogs env ns))
                   (mkWorld (orgs w) (catalog w) (spawned w) (S (steps w))
                            (trace w ++ [GetPodLogs ns (K8s.Name pod) 1000]))
                   (fun _ w' =>
                      catalog w' = catalog w /\ steps w' = (steps w + length (pod :: pods))%nat /\
                      trace w' = (trace w ++ ((fun pod => GetPodLogs ns (K8s.Name pod) 1000)
                                                <$> pod :: pods))%list)).
    { intros logs'. eapply post_mono; [apply IH|]. cbv beta. cbn [catalog steps trace length].
      intros _ w' (C & S' & T). split; [exact C|]. split; [lia|].
      rewrite T, <- app_assoc. reflexivity. }
    destruct (podLogs env (steps w)) as [podLog|e]; [|apply post_ret, Hk].
    destruct (0 <? String.length podLog)%nat; apply post_ret, Hk.
Qed.

Lemma deleteOneJob_calls (ns : string) (jobs : list K8s.Job) :
  forall (count : nat) (w : World),
    post (forEach jobs count (deleteOneJob env ns)) w
         (fun _ w' =>
            catalog w' = catalog w /\ steps w' = (steps w + length jobs)%nat /\
            trace w' = (trace w ++ ((fun job => DeleteJob ns (K8s.JobName job)) <$> jobs))%list).
Proof.
  induction jobs as [|job jobs IH]; intros count w.
  - apply post_ret. rewrite Nat.add_0_r, app_nil_r. auto.
  - simpl forEach. apply post_bind. unfold deleteOneJob at 1.
    apply post_bind, post_call.
    assert (Hk : forall count', post (forEach jobs count' (deleteOneJob env ns))
                   (mkWorld (orgs w) (catalog w) (spawned w) (S (steps w))
                            (trace w ++ [DeleteJob ns (K8s.JobName job)]))
                   (fun _ w' =>
                      catalog w' = catalog w /\ steps w' = (steps w + length (job :: jobs))%nat /\
                      trace w' = (trace w ++ ((fun job => DeleteJob ns (K8s.JobName job))
                                                <$> job :: jobs))%list)).
    { intros count'. eapply post_mono; [apply IH|]. cbv beta. cbn [catalog steps trace length].
      intros _ w' (C & S' & T). split; [exact C|]. split; [lia|].
      rewrite T, <- app_assoc. reflexivity. }
    destruct (deleteJob env (steps w)); apply post_ret, Hk.
Qed.

Lemma Patch_calls (name : string) (ops : list PatchOp) (w : World) :
  post (PatchImageBuildWithResponse env name ops) w
       (fun _ w' => steps w' = S (steps w) /\
                    trace w' = (trace w ++ [PatchImageBuild name ops])%list).
Proof.
  unfold PatchImageBuildWithResponse. apply post_bind, post_call.
  destruct (apiFault env (steps w)) as [[e|code]|]; [now apply post_ret..|].
  unfold post, bind, getCatalog, putCatalog, ret. cbn [fst snd catalog].
  destruct (catalog w !! (apiOrg env, name)) as [stored|]; [|now cbn].
  destruct (applyPatch stored ops) as [newObj|]; [|now cbn].
  destruct (String.eqb (BaseImage (Spec newObj)) ""); now cbn.
Qed.

Lemma Replace_calls (name : string) (body : ImageBuild) (w : World) :
  post (ReplaceImageBuildStatusWithResponse env name body) w
       (fun _ w' => steps w' = S (steps w) /\
                    trace w' = (trace w ++ [ReplaceImageBuildStatus name body])%list).
Proof.
  unfold ReplaceImageBuildStatusWithResponse. apply post_bind, post_call.
  destruct (apiFault env (steps w)) as [[e|code]|]; [now apply post_ret..|].
  unfold post, bind, getCatalog, putCatalog, ret. cbn [fst snd catalog].
  destruct (catalog w !! (apiOrg env, name)) as [stored|]; now cbn.
Qed.

Lemma CancelBuild_calls (ib : ImageBuild) (reason : string) (w : World) :
  let name := Name (Metadata ib) in
  let pods := match listPods env (steps w) with inl p => p | inr _ => [] end in
  let jobs := match listJobs env (S (steps w) + length pods) with inl j => j | inr _ => [] end in
  post (CancelBuild env cfg ib reason) w
       (fun r w' =>
          trace w' = (trace w ++ cancellationCalls (namespace cfg) name pods jobs (fst r))%list /\
          steps w' = (steps w + length pods + length jobs + 6)%nat /\
          exists logs,
            fst r = markCancelled (clock env (steps w + length pods + length jobs + 4)) ib
                                  reason logs).
Proof.
  intros name pods jobs. unfold CancelBuild. fold name.
  apply post_bind, post_call. cbv beta.
  apply post_bind.
  eapply (post_mono _ _ (fun _ w' =>
            steps w' = (S (steps w) + length pods)%nat /\
            trace w' = (trace w ++ [ListPods (namespace cfg) ("imagebuild=" +:+ name)]
                        ++ ((fun pod => GetPodLogs (namespace cfg) (K8s.Name pod) 1000)
                              <$> pods))%list)).
  { unfold pods. destruct (listPods env (steps w)) as [ps|e].
    - eapply post_mono; [apply collectPodLogs_calls|]. cbv beta. cbn [steps trace].
      intros _ w' (_ & S' & T). split; [exact S'|]. rewrite T, <- app_assoc. reflexivity.
    - apply post_ret. cbn [steps trace length fmap list_fmap].
      split; [lia | reflexivity]. }
  intros logs w2 [S2 T2]. apply post_bind, post_call. rewrite S2. cbv beta.
  apply post_bind.
  eapply (post_mono _ _ (fun _ w' =>
            steps w' = (S (S (steps w) + length pods) + length jobs)%nat /\
            trace w' = (trace w2 ++ [ListJobs (namespace cfg) ("imagebuild=" +:+ name)]
                        ++ ((fun job => DeleteJob (namespace cfg) (K8s.JobName job))
                              <$> jobs))%list)).
  { unfold jobs. destruct (listJobs env (S (steps w) + length pods)) as [js|e].
    - eapply post_mono; [apply deleteOneJob_calls|]. cbv beta. cbn [steps trace].
      intros _ w' (_ & S' & T). split; [exact S'|]. rewrite T, <- app_assoc. reflexivity.
    - apply post_ret. cbn [steps trace length fmap list_fmap].
      split; [lia | reflexivity]. }
  intros count w3 [S3 T3]. apply post_bind, post_call. cbv beta.
  step Patch_calls. cbn [steps trace]. intros _ w4 [S4 T4].
  unfold time_Now. apply post_bind, post_bind, post_call, post_ret. cbv beta.
  step Replace_calls. cbn [steps trace]. intros resp w5 [S5 T5].
  assert (Hnow : steps w4 = (steps w + length pods + length jobs + 4)%nat) by lia.
  rewrite Hnow in *.
  assert (Hres : forall e : error, post (ret (markCancelled
                     (clock env (steps w + length pods + length jobs + 4)) ib reason logs,
                     Some e)) w5
            (fun r w' =>
               trace w' = (trace w ++ cancellationCalls (namespace cfg) name pods jobs (fst r))%list /\
               steps w' = (steps w + length pods + length jobs + 6)%nat /\
               exists logs0,
                 fst r = markCancelled (clock env (steps w + length pods + length jobs + 4)) ib
                                       reason logs0)).
  { intros e. apply post_ret. cbn [fst]. split; [|split; [lia | eauto]].
    rewrite T5, T4, T3, T2. unfold cancellationCalls. rewrite <- !app_assoc. reflexivity. }
  destruct resp as [e|code body]; [apply Hres|].
  destruct (negb (code =? 200)); apply Hres.
Qed.

(** X4.  A cancellation runs every one of its steps, whatever fails on
    the way: the logs of every listed pod are asked for, every listed job
    is deleted -- a deletion that fails does not stop the next --, the
    configmap is deleted, the patch that removes the cancel annotation is
    sent, and the status is written last, with the phase Cancelled and the
    time read just before.  A listing that fails counts as empty. *)
Theorem cancellation_runs_every_step (ib : ImageBuild) (reason : string) (w : World) :
  let name := Name (Metadata ib) in
  let pods := match listPods env (steps w) with inl p => p | inr _ => [] end in
  let jobs := match listJobs env (S (steps w) + length pods) with inl j => j | inr _ => [] end in
  let r := CancelBuild env cfg ib reason w in
  newEvents w (snd r)
    = cancellationCalls (namespace cfg) name pods jobs (fst (fst r)) /\
  phaseOf (fst (fst r)) = Some "Cancelled" /\
  Message (statusOf (fst (fst r))) = Some ("Build cancelled: " +:+ reason) /\
  CompletionTime (statusOf (fst (fst r)))
    = Some (clock env (steps w + length pods + length jobs + 4)).
Proof.
  intros name pods jobs r.
  pose proof (CancelBuild_calls ib reason w) as H. unfold post in H. cbv zeta in H.
  fold name pods jobs r in H. destruct H as (T & _ & logs & E).
  split; [unfold newEvents; rewrite T; apply drop_app_length|].
  rewrite E. unfold markCancelled, phaseOf, statusOf. cbn.
  destruct logs; cbn; repeat split; reflexivity.
Qed.

End CancelCalls.

(** ** The orchestrator: the calls of a build *)
Section StageCalls.
Import GoErr GoTime Api Sys Orchestrator Spec Reading.
Variable env : Env.
Variable ns : string.

(** The calls of the container stage: the preparation alone when it
    fails, the creation too when that fails, the whole life of the job
    otherwise. *)
Lemma BuildAndPushImage_calls (ib : ImageBuild) (containerfile : string) (w : World) :
  let name := Name (Metadata ib) in
  let job := "build-" +:+ name in
  post (ContainerStage.BuildAndPushImage env ns ib containerfile) w
       (fun _ w' =>
          (trace w' = (trace w ++ [PrepareBuild name])%list) \/
          (trace w' = (trace w ++ [PrepareBuild name; CreateJob ns job])%list /\
           is_Some (createJob env (S (steps w)) job)) \/
          (trace w' = (trace w ++ [PrepareBuild name; CreateJob ns job; WatchJob ns job;
                                   ListPods ns ("job-name=build-" +:+ name);
                                   DeleteJob ns job;
                                   DeleteConfigMap ns ("containerfile-" +:+ name)])%list)).
Proof.
  intros name job. unfold ContainerStage.BuildAndPushImage. fold name. fold job.
  apply post_bind, post_call.
  destruct (prepareBuild env (steps w)); [apply post_ret; left; reflexivity|].
  apply post_bind, post_call. cbn [steps trace].
  destruct (createJob env (S (steps w)) job) eqn:Ec.
  { apply post_ret. right. left. cbn [trace]. rewrite <- app_assoc. split; [reflexivity | eauto]. }
  apply post_bind, post_call. cbv zeta.
  apply post_bind, post_call. apply post_bind, post_call. apply post_bind, post_call.
  cbn [steps trace orgs catalog spawned].
  destruct (watchJob env _ job); apply post_ret; right; right;
    cbn [trace]; rewrite <- !app_assoc; reflexivity.
Qed.

(** The calls of one export: the creation alone when it fails, the whole
    life of the job otherwise. *)
Lemma buildBootcImage_calls (ib : ImageBuild) (ref : string) (export : BootcExport)
      (w : World) :
  let name := Name (Metadata ib) in
  let job := bootcJobName name export in
  post (Bootc.buildBootcImage env ns ib ref export) w
       (fun _ w' =>
          (trace w' = (trace w ++ [CreateJob ns job])%list /\
           is_Some (createJob env (steps w) job)) \/
          (trace w' = (trace w ++ [CreateJob ns job; WatchJob ns job;
                                   ListPods ns ("job-name=" +:+ job);
                                   DeleteJob ns job])%list)).
Proof.
  intros name job. unfold Bootc.buildBootcImage. fold name.
  change ("bootc-" +:+ name +:+ "-" +:+ Api.Type_ export) with job.
  apply post_bind, post_call.
  destruct (createJob env (steps w) job) eqn:Ec.
  { apply post_ret. left. split; [reflexivity | eauto]. }
  apply post_bind, post_call. cbv zeta. apply post_bind, post_call.
  cbn [steps trace orgs catalog spawned].
  destruct (watchJob env _ job); apply post_bind, post_call, post_ret; right;
    cbn [trace]; rewrite <- !app_assoc; reflexivity.
Qed.

End StageCalls.

(** ** The orchestrator: the shape of a run *)
Section RunShape.
Import GoErr GoTime Api Sys Orchestrator Spec Reading.
Variable env : Env.
Variable cfg : Config.Config.

(** A property of call sequences that holds of the stages of a build and
    is kept by putting sequences one after the other. *)
Variable Q : list Event -> Prop.
Hypothesis Q_nil : Q [].
Hypothesis Q_app : forall a b, Q a -> Q b -> Q (a ++ b)%list.
Hypothesis Q_get : forall name, Q [GetImageBuild name].
Hypothesis Q_now : Q [TimeNow].
Hypothesis Q_replace : forall name body, Q [ReplaceImageBuildStatus name body].
Hypothesis Q_cert : forall name expiry, Q [RequestEnrollmentCertificate name expiry].
Hypothesis Q_container :
  forall ib containerfile w,
    post (ContainerStage.BuildAndPushImage env (namespace cfg) ib containerfile) w
         (fun _ w' => extendsBy Q w w').
Hypothesis Q_bootc :
  forall ib ref export w,
    post (Bootc.buildBootcImage env (namespace cfg) ib ref export) w
         (fun _ w' => extendsBy Q w w').

Lemma extendsBy_refl (w : World) : extendsBy Q w w.
Proof. exists []. split; [now rewrite app_nil_r | exact Q_nil]. Qed.

Lemma extendsBy_trans (w1 w2 w3 : World) :
  extendsBy Q w1 w2 -> extendsBy Q w2 w3 -> extendsBy Q w1 w3.
Proof.
  intros (a & Ta & Qa) (b & Tb & Qb). exists (a ++ b)%list.
  split; [now rewrite Tb, Ta, <- app_assoc | now apply Q_app].
Qed.

Lemma call_extends (ev : Event) (w : World) :
  Q [ev] -> post (call ev) w (fun _ w' => extendsBy Q w w').
Proof. intros H. apply post_call. exists [ev]. split; [reflexivity | exact H]. Qed.

(** A stage run from a world that continues [w0] leaves one that does. *)
Lemma stage {A} (m : M A) (w0 w : World) (P : A -> World -> Prop) :
  extendsBy Q w0 w ->
  post m w (fun _ w' => extendsBy Q w w') ->
  (forall a w', extendsBy Q w0 w' -> P a w') ->
  post m w P.
Proof.
  intros H0 Hm HP. eapply post_mono; [exact Hm|]. cbv beta.
  intros a w' H. apply HP. exact (extendsBy_trans _ _ _ H0 H).
Qed.

Lemma isCancelled_extends (ib : ImageBuild) (w : World) :
  post (isCancelled env ib) w (fun _ w' => extendsBy Q w w').
Proof.
  unfold isCancelled, GetImageBuildWithResponse.
  apply post_bind, post_bind. eapply post_mono; [apply call_extends, Q_get|].
  cbv beta. intros n w' H. exact H.
Qed.

Lemma Replace_extends (name : string) (body : ImageBuild) (w : World) :
  post (ReplaceImageBuildStatusWithResponse env name body) w (fun _ w' => extendsBy Q w w').
Proof.
  eapply post_mono; [apply Replace_calls|]. cbv beta. intros _ w' [_ T].
  exists [ReplaceImageBuildStatus name body]. split; [exact T | apply Q_replace].
Qed.

Lemma time_Now_extends (w : World) :
  post (time_Now env) w (fun _ w' => extendsBy Q w w').
Proof.
  unfold time_Now. apply post_bind. eapply post_mono; [apply call_extends, Q_now|].
  cbv beta. intros n w' H. exact H.
Qed.

Lemma updateStatus_extends (ib : ImageBuild) (phase message : string) (w : World) :
  post (updateStatus env ib phase message) w (fun _ w' => extendsBy Q w w').
Proof.
  unfold updateStatus. apply post_bind.
  apply (stage _ w w); [apply extendsBy_refl | apply time_Now_extends|].
  intros now w1 H1. apply post_bind.
  apply (stage _ w w1); [exact H1 | apply Replace_extends|].
  intros r w2 H2. exact H2.
Qed.

Lemma updateStatusWithContainerImage_extends (ib : ImageBuild) (ref : string) (w : World) :
  post (updateStatusWithContainerImage env ib ref) w (fun _ w' => extendsBy Q w w').
Proof.
  unfold updateStatusWithContainerImage. apply post_bind.
  apply (stage _ w w); [apply extendsBy_refl | apply Replace_extends|].
  intros r w2 H2. exact H2.
Qed.

Lemma completeBuild_extends (ib : ImageBuild) (ref : string) (refs : list BootcImageRef)
      (w : World) :
  post (completeBuild env ib ref refs) w (fun _ w' => extendsBy Q w w').
Proof.
  unfold completeBuild. apply post_bind.
  apply (stage _ w w); [apply extendsBy_refl | apply time_Now_extends|].
  intros now w1 H1. apply post_bind.
  apply (stage _ w w1); [exact H1 | apply Replace_extends|].
  intros r w2 H2. exact H2.
Qed.

Lemma failBuild_extends (ib : ImageBuild) (e : error) (w : World) :
  post (failBuild env ib e) w (fun _ w' => extendsBy Q w w').
Proof.
  unfold failBuild. apply post_bind.
  apply (stage _ w w); [apply extendsBy_refl | apply time_Now_extends|].
  intros now w1 H1. apply post_bind.
  apply (stage _ w w1); [exact H1 | apply Replace_extends|].
  intros r w2 H2. exact H2.
Qed.

Lemma buildAll_extends (ib : ImageBuild) (ref : string) (exports : list BootcExport) :
  forall acc w, post (Bootc.buildAll env (namespace cfg) ib ref exports acc) w
                     (fun _ w' => extendsBy Q w w').
Proof.
  induction exports as [|export rest IH]; intros acc w; cbn [Bootc.buildAll].
  - apply post_ret, extendsBy_refl.
  - apply post_bind.
    apply (stage _ w w); [apply extendsBy_refl | apply Q_bootc|].
    intros [res|e|m] w1 H1; [|exact H1..].
    apply (stage _ w w1); [exact H1 | apply IH | auto].
Qed.

Lemma BuildBootcImages_extends (ib : ImageBuild) (ref : string) (w : World) :
  post (Bootc.BuildBootcImages env (namespace cfg) ib ref) w (fun _ w' => extendsBy Q w w').
Proof.
  unfold Bootc.BuildBootcImages.
  destruct (BootcExports (Spec ib)) as [[|e es]|]; try (apply post_ret, extendsBy_refl).
  apply buildAll_extends.
Qed.

Lemma run_stage {A} (m : M A) (w0 w : World) :
  extendsBy Q w0 w ->
  post m w (fun _ w' => extendsBy Q w w') ->
  post m w (fun _ w' => runsTo env cfg Q w0 w').
Proof.
  intros H0 Hm. apply (stage _ w0 w); [exact H0 | exact Hm|].
  intros a w' H. exists w'. auto.
Qed.

Lemma run_cancel (w0 w : World) (ib : ImageBuild) (reason : string) :
  extendsBy Q w0 w ->
  post (let* r := cancelBuild env cfg ib reason in ret (returned r))%sys w
       (fun _ w' => runsTo env cfg Q w0 w').
Proof.
  intros H0. unfold cancelBuild, post, bind, ret.
  destruct (CancelBuild env cfg ib reason w) as [r w'] eqn:E. cbn [snd].
  exists w. split; [exact H0|]. right. exists ib, reason. now rewrite E.
Qed.

Lemma run_fail (w0 w : World) (ib : ImageBuild) (e : error) :
  extendsBy Q w0 w ->
  post (let* r := failBuild env ib e in ret (returned r))%sys w
       (fun _ w' => runsTo env cfg Q w0 w').
Proof.
  intros H0. apply post_bind.
  eapply post_mono; [apply (run_stage _ w0 w H0), failBuild_extends|].
  cbv beta. intros r w' H. exact H.
Qed.

Lemma run_complete (w0 w : World) (ib : ImageBuild) (ref : string)
      (refs : list BootcImageRef) :
  extendsBy Q w0 w ->
  post (let* r := completeBuild env ib ref refs in ret (returned r))%sys w
       (fun _ w' => runsTo env cfg Q w0 w').
Proof.
  intros H0. apply post_bind.
  eapply post_mono; [apply (run_stage _ w0 w H0), completeBuild_extends|].
  cbv beta. intros r w' H. exact H.
Qed.

Lemma run_ret {A} (a : A) (w0 w : World) :
  extendsBy Q w0 w -> post (ret a) w (fun _ w' => runsTo env cfg Q w0 w').
Proof. intros H0. exists w. auto. Qed.

Lemma buildExportsAndComplete_run (w0 w : World) (ib : ImageBuild) (ref : string) :
  extendsBy Q w0 w ->
  post (buildExportsAndComplete env cfg ib ref) w (fun _ w' => runsTo env cfg Q w0 w').
Proof.
  intros H0. unfold buildExportsAndComplete.
  destruct (BootcExports (Spec ib)) as [[|e es]|]; try (now apply run_complete).
  apply post_bind.
  apply (stage _ w0 w); [exact H0 | apply isCancelled_extends|].
  intros c w1 H1. destruct c; [now apply run_cancel|].
  apply post_bind.
  apply (stage _ w0 w1); [exact H1 | apply updateStatus_extends|].
  intros [ib1 e1] w2 H2. apply post_bind.
  apply (stage _ w0 w2); [exact H2 | apply BuildBootcImages_extends|].
  intros [rs|err|m] w3 H3; [|now apply run_fail | now apply run_ret].
  destruct (storeAll env cfg _ rs []); [now apply run_complete | now apply run_ret..].
Qed.

Lemma generateAndBuild_run (w0 w : World) (ib : ImageBuild) (cert key : string) :
  extendsBy Q w0 w ->
  post (generateAndBuild env cfg ib cert key) w (fun _ w' => runsTo env cfg Q w0 w').
Proof.
  intros H0. unfold generateAndBuild.
  apply post_bind.
  apply (stage _ w0 w); [exact H0 | apply isCancelled_extends|].
  intros c w1 H1. destruct c; [now apply run_cancel|].
  destruct (generate env (Spec ib) cert key) as [containerfile|err]; [|now apply run_fail].
  apply post_bind.
  apply (stage _ w0 w1); [exact H1 | apply isCancelled_extends|].
  intros c w2 H2. destruct c; [now apply run_cancel|].
  apply post_bind.
  apply (stage _ w0 w2); [exact H2 | apply Q_container|].
  intros [ref|err|m] w3 H3; [|now apply run_fail | now apply run_ret].
  apply post_bind.
  apply (stage _ w0 w3); [exact H3 | apply updateStatusWithContainerImage_extends|].
  intros [ib1 e1] w4 H4. now apply buildExportsAndComplete_run.
Qed.

(** The calls of a build are those of its stages, one after the other,
    and then, when a poll saw the cancel request, those of one
    cancellation. *)
Lemma BuildImage_run (ib : ImageBuild) (w : World) :
  post (BuildImage env cfg ib) w (fun _ w' => runsTo env cfg Q w w').
Proof.
  unfold BuildImage. apply post_bind.
  apply (stage _ w w); [apply extendsBy_refl | apply isCancelled_extends|].
  intros c w1 H1. destruct c; [now apply run_cancel|].
  apply post_bind.
  apply (stage _ w w1); [exact H1 | apply updateStatus_extends|].
  intros [ib1 e1] w2 H2.
  destruct (FlightctlConfig (Spec ib1)); [|now apply generateAndBuild_run].
  apply post_bind.
  apply (stage _ w w2); [exact H2 | apply isCancelled_extends|].
  intros c w3 H3. destruct c; [now apply run_cancel|].
  apply post_bind.
  apply (stage _ w w3); [exact H3 | apply call_extends, Q_cert|].
  intros n w4 H4.
  destruct (requestCertificate env n) as [[cert key]|err];
    [now apply generateAndBuild_run | now apply run_fail].
Qed.

End RunShape.

(** ** The orchestrator: what a run never does *)
Section RunFacts.
Import GoErr GoTime Api Sys Orchestrator Spec Reading.
Variable env : Env.
Variable cfg : Config.Config.

Lemma Forall_calls (P : Event -> Prop) (w w' : World) (evs : list Event) :
  trace w' = (trace w ++ evs)%list -> Forall P evs -> extendsBy (Forall P) w w'.
Proof. intros T F. exists evs. auto. Qed.

(** The calls of a cancellation start nothing. *)
Lemma cancellationCalls_start_nothing (ns name : string) (pods : list K8s.Pod)
      (jobs : list K8s.Job) (body : ImageBuild) :
  Forall (fun ev => startsWork ev = false) (cancellationCalls ns name pods jobs body).
Proof.
  unfold cancellationCalls. rewrite !Forall_app. repeat split.
  - repeat constructor.
  - apply Forall_fmap, Forall_forall. reflexivity.
  - repeat constructor.
  - apply Forall_fmap, Forall_forall. reflexivity.
  - repeat constructor.
Qed.

(** X5.  Once a build is being cancelled it starts nothing more.  The
    calls of a run of [BuildImage] fall into a first part without any
    patch of the resource and a rest -- empty unless a poll saw the cancel
    request -- in which no job is created or watched, no configmap or
    secret is prepared and no certificate is requested. *)
Theorem nothing_starts_after_the_cancel_patch (ib : ImageBuild) (w : World) :
  let w' := snd (BuildImage env cfg ib w) in
  exists before rest,
    newEvents w w' = (before ++ rest)%list /\
    Forall (fun ev => isPatch ev = false) before /\
    Forall (fun ev => startsWork ev = false) rest.
Proof.
  cbv zeta.
  pose proof (BuildImage_run env cfg (Forall (fun ev => isPatch ev = false))) as H.
  specialize (H ltac:(constructor)).
  specialize (H ltac:(intros a b Ha Hb; apply Forall_app; now split)).
  specialize (H ltac:(repeat constructor)).
  specialize (H ltac:(repeat constructor)).
  specialize (H ltac:(repeat constructor)).
  specialize (H ltac:(repeat constructor)).
  assert (Hc : forall ib0 containerfile w0,
             post (ContainerStage.BuildAndPushImage env (namespace cfg) ib0 containerfile) w0
                  (fun _ w1 => extendsBy (Forall (fun ev => isPatch ev = false)) w0 w1)).
  { intros ib0 cf w0. eapply post_mono; [apply BuildAndPushImage_calls|].
    cbv beta zeta. intros _ w1 [T | [[T _] | T]];
      apply (Forall_calls _ _ _ _ T); repeat constructor. }
  assert (Hb : forall ib0 ref export w0,
             post (Bootc.buildBootcImage env (namespace cfg) ib0 ref export) w0
                  (fun _ w1 => extendsBy (Forall (fun ev => isPatch ev = false)) w0 w1)).
  { intros ib0 ref export w0. eapply post_mono; [apply buildBootcImage_calls|].
    cbv beta zeta. intros _ w1 [[T _] | T];
      apply (Forall_calls _ _ _ _ T); repeat constructor. }
  specialize (H Hc Hb ib w). unfold post in H.
  destruct H as (w1 & (before & T1 & F1) & [-> | (ib' & reason & ->)]).
  - exists before, []. rewrite app_nil_r. split; [|split; [exact F1 | constructor]].
    unfold newEvents. rewrite T1. apply drop_app_length.
  - pose proof (CancelBuild_calls env cfg ib' reason w1) as Hcalls.
    unfold post in Hcalls. cbv zeta in Hcalls. destruct Hcalls as (T2 & _).
    eexists before, _. split; [|split; [exact F1 | apply cancellationCalls_start_nothing]].
    unfold newEvents. rewrite T2, T1, <- app_assoc. apply drop_app_length.
Qed.

Lemma balanced_app (a b : list Event) : balanced a -> balanced b -> balanced (a ++ b).
Proof.
  intros Ha Hb i ns job Hi. apply lookup_app_Some in Hi as [Hi | [Hle Hi]].
  - destruct (Ha _ _ _ Hi) as (j & Hlt & Hj). exists j. split; [exact Hlt|].
    rewrite lookup_app_l; [exact Hj | exact (lookup_lt_Some _ _ _ Hj)].
  - destruct (Hb _ _ _ Hi) as (j & Hlt & Hj). exists (length a + j)%nat. split; [lia|].
    rewrite lookup_app_r by lia. now replace (length a + j - length a)%nat with j by lia.
Qed.

Lemma balanced_without_creation (evs : list Event) :
  (forall ns job, CreateJob ns job ∉ evs) -> balanced evs.
Proof. intros H i ns job Hi. destruct (H _ _ (list_elem_of_lookup_2 _ _ _ Hi)). Qed.

Lemma cancellationCalls_create_nothing (ns name : string) (pods : list K8s.Pod)
      (jobs : list K8s.Job) (body : ImageBuild) :
  balanced (cancellationCalls ns name pods jobs body).
Proof.
  apply balanced_without_creation. intros ns' job Hin.
  pose proof (cancellationCalls_start_nothing ns name pods jobs body) as F.
  rewrite Forall_forall in F. specialize (F _ Hin). discriminate.
Qed.

(** X6.  Every job a build creates it asks to be deleted.  When the
    cluster accepts the jobs a build creates, every request of a run of
    [BuildImage] to create a job -- the container job and the job of
    each export that is reached -- is followed, later in the same run,
    by a request to delete that job, whether the job succeeded or failed
    and whether the build ended completed, failed or cancelled.  The
    answer to the request is dropped by the code and is no part of the
    statement. *)
Theorem every_job_created_is_deleted (ib : ImageBuild) (w : World) :
  (forall n job, createJob env n job = None) ->
  balanced (newEvents w (snd (BuildImage env cfg ib w))).
Proof.
  intros Hcreate.
  assert (Hone : forall ev, (forall ns job, ev <> CreateJob ns job) -> balanced [ev]).
  { intros ev Hne. apply balanced_without_creation. intros ns job Hin.
    apply list_elem_of_singleton in Hin. exact (Hne _ _ (eq_sym Hin)). }
  pose proof (BuildImage_run env cfg balanced) as H.
  specialize (H ltac:(intros i ns job Hi; inversion Hi) balanced_app).
  specialize (H ltac:(intros; apply Hone; discriminate)).
  specialize (H ltac:(apply Hone; discriminate)).
  specialize (H ltac:(intros; apply Hone; discriminate)).
  specialize (H ltac:(intros; apply Hone; discriminate)).
  assert (Hc : forall ib0 containerfile w0,
             post (ContainerStage.BuildAndPushImage env (namespace cfg) ib0 containerfile) w0
                  (fun _ w1 => extendsBy balanced w0 w1)).
  { intros ib0 cf w0. eapply post_mono; [apply BuildAndPushImage_calls|].
    cbv beta zeta. intros _ w1 [T | [[T [e He]] | T]].
    - eexists. split; [exact T|]. apply Hone. discriminate.
    - rewrite Hcreate in He. discriminate.
    - eexists. split; [exact T|]. intros i ns job Hi.
      destruct i as [|[|[|[|[|[|i]]]]]]; try discriminate Hi.
      injection Hi as <- <-. exists 4%nat. split; [lia | reflexivity]. }
  assert (Hb : forall ib0 ref export w0,
             post (Bootc.buildBootcImage env (namespace cfg) ib0 ref export) w0
                  (fun _ w1 => extendsBy balanced w0 w1)).
  { intros ib0 ref export w0. eapply post_mono; [apply buildBootcImage_calls|].
    cbv beta zeta. intros _ w1 [[T [e He]] | T].
    - rewrite Hcreate in He. discriminate.
    - eexists. split; [exact T|]. intros i ns job Hi.
      destruct i as [|[|[|[|i]]]]; try discriminate Hi.
      injection Hi as <- <-. exists 3%nat. split; [lia | reflexivity]. }
  specialize (H Hc Hb ib w). unfold post in H.
  destruct H as (w1 & (evs & T1 & B1) & [-> | (ib' & reason & ->)]).
  - unfold newEvents. rewrite T1, drop_app_length. exact B1.
  - pose proof (CancelBuild_calls env cfg ib' reason w1) as Hcalls.
    unfold post in Hcalls. cbv zeta in Hcalls. destruct Hcalls as (T2 & _).
    unfold newEvents. rewrite T2, T1, <- app_assoc, drop_app_length.
    apply balanced_app; [exact B1 | apply cancellationCalls_create_nothing].
Qed.

End RunFacts.

(** ** Paths: joining in two steps *)
Section CleanFacts.
Import GoStrings Spec.

Lemma Split_parts_noSlash (s : string) :
  Forall (fun c => noSlash c = true) (Split s "/").
Proof.
  induction s as [|c s IH]; simpl; [repeat constructor|].
  destruct (Ascii.eqb c "/") eqn:E; [constructor; [reflexivity | exact IH]|].
  destruct (Split s "/") as [|h t]; [repeat constructor; simpl; now rewrite E|].
  inversion IH; subst. constructor; [simpl; now rewrite E | assumption].
Qed.

Lemma Split_Join (l : list string) :
  l <> [] -> Forall (fun c => noSlash c = true) l -> Split (Join l "/") "/" = l.
Proof.
  induction l as [|e l IH]; [congruence|]. intros _ H. inversion H; subst.
  destruct l as [|e' l]; [now apply Split_noSlash|].
  change (Join (e :: e' :: l) "/") with (e +:+ "/" +:+ Join (e' :: l) "/").
  rewrite Split_append_slash, IH by (assumption || discriminate).
  now rewrite Split_noSlash.
Qed.

Lemma fold_kept (rooted : bool) (l : list string) :
  forall ups acc,
    Forall (fun c => plain c = true) l ->
    fold_left (Filepath.clean_step rooted) l (ups, acc) = (ups, rev l ++ acc)%list.
Proof.
  induction l as [|c l IH]; intros ups acc H; [reflexivity|].
  inversion H; subst. cbn [fold_left]. rewrite clean_step_plain by assumption.
  rewrite IH by assumption. simpl. now rewrite <- app_assoc.
Qed.

Lemma fold_ups (n : nat) :
  forall ups, fold_left (Filepath.clean_step false) (repeat ".." n) (ups, [])
              = ((ups + n)%nat, []).
Proof.
  induction n as [|n IH]; intros ups; cbn [repeat fold_left]; [now rewrite Nat.add_0_r|].
  change (Filepath.clean_step false (ups, []) "..") with (S ups, @nil string).
  rewrite IH. f_equal. lia.
Qed.

(** What [Clean] has read so far keeps only plain elements, and counts no
    leading [..] under a root. *)
Lemma clean_step_kept (rooted : bool) (st : nat * list string) (c : string) :
  noSlash c = true ->
  Forall (fun e => plain e = true) (snd st) /\ (rooted = true -> fst st = O) ->
  Forall (fun e => plain e = true) (snd (Filepath.clean_step rooted st c)) /\
  (rooted = true -> fst (Filepath.clean_step rooted st c) = O).
Proof.
  destruct st as [ups elems]. cbn [fst snd]. intros Hc [He Hr].
  unfold Filepath.clean_step.
  destruct (String.eqb c "") eqn:E0; [now split|].
  destruct (String.eqb c ".") eqn:E1; [now split|].
  destruct (String.eqb c "..") eqn:E2.
  - destruct elems as [|e t].
    + destruct rooted; cbn [fst snd]; split; auto; discriminate.
    + inversion He; subst. now split.
  - cbn [fst snd]. split; [|exact Hr]. constructor; [|exact He].
    unfold plain. now rewrite Hc, E0, E1, E2.
Qed.

Lemma fold_clean_kept (rooted : bool) (l : list string) :
  forall st,
    Forall (fun c => noSlash c = true) l ->
    Forall (fun e => plain e = true) (snd st) /\ (rooted = true -> fst st = O) ->
    Forall (fun e => plain e = true) (snd (fold_left (Filepath.clean_step rooted) l st)) /\
    (rooted = true -> fst (fold_left (Filepath.clean_step rooted) l st) = O).
Proof.
  induction l as [|c l IH]; intros st Hl Hst; [exact Hst|].
  inversion Hl; subst. cbn [fold_left]. apply IH; [assumption|]. now apply clean_step_kept.
Qed.

Lemma plain_noSlash (l : list string) :
  Forall (fun e => plain e = true) l -> Forall (fun c => noSlash c = true) l.
Proof.
  intros H. eapply Forall_impl; [exact H|]. intros e He. now apply plain_inv in He.
Qed.

Lemma Join_nil_inv (l : list string) :
  Forall (fun e => e <> "") l -> Join l "/" = "" -> l = [].
Proof.
  destruct l as [|a l]; [reflexivity|]. intros H E. inversion H; subst.
  now apply (Join_head_nonempty a l "/") in E.
Qed.

Lemma HasPrefix_slash_plain (e x : string) :
  plain e = true -> HasPrefix (e +:+ x) "/" = false.
Proof.
  intros H. apply plain_inv in H as (Hs & He & _).
  destruct e as [|c e]; [discriminate|]. rewrite append_cons.
  cbn [noSlash] in Hs. apply andb_true_iff in Hs as [Hs _]. apply negb_true_iff in Hs.
  cbn [HasPrefix]. rewrite Ascii.eqb_sym. now rewrite Hs.
Qed.


Lemma HasPrefix_slash_Join (l : list string) (x : string) :
  Forall (fun e => noSlash e = true /\ e <> "") l ->
  HasPrefix ((if String.eqb (Join l "/") "" then "." else Join l "/") +:+ x) "/" = false.
Proof.
  destruct l as [|a l]; [reflexivity|]. intros H. inversion H as [|? ? [Hs Ha] _]; subst.
  destruct (String.eqb (Join (a :: l) "/") "") eqn:E.
  { apply String.eqb_eq in E. now apply Join_head_nonempty in E. }
  assert (Hj : exists t, Join (a :: l) "/" = a +:+ t).
  { destruct l as [|b l]; [exists ""; now rewrite append_nil_r | eexists; reflexivity]. }
  destruct Hj as [t ->]. destruct a as [|c a]; [congruence|].
  rewrite !append_cons. cbn [noSlash] in Hs.
  apply andb_true_iff in Hs as [Hs _]. apply negb_true_iff in Hs.
  cbn [HasPrefix]. rewrite Ascii.eqb_sym. now rewrite Hs.
Qed.

Lemma kept_elements (ups : nat) (elems : list string) :
  Forall (fun e => plain e = true) elems ->
  Forall (fun e => noSlash e = true /\ e <> "") (repeat ".." ups ++ rev elems).
Proof.
  intros H. apply Forall_app. split.
  - clear. induction ups; cbn [repeat]; constructor; [split; [reflexivity | discriminate] | assumption].
  - apply Forall_rev. eapply Forall_impl; [exact H|]. intros e He.
    apply plain_inv in He as (Hs & He & _). split; [exact Hs|].
    intros ->. discriminate.
Qed.

(** A cleaned path is rooted exactly when the path it was made from is. *)
Lemma render_rooted (rooted : bool) (st : nat * list string) (x : string) :
  Forall (fun e => plain e = true) (snd st) ->
  HasPrefix (Filepath.render rooted st +:+ x) "/" = rooted.
Proof.
  destruct st as [ups elems]. cbn [snd]. intros H. unfold Filepath.render.
  destruct rooted.
  { rewrite !append_cons. cbn [HasPrefix]. rewrite Ascii.eqb_refl.
    now destruct (_ +:+ x). }
  apply HasPrefix_slash_Join. now apply kept_elements.
Qed.

(** Reading a cleaned path again gives the state it was written from. *)
Lemma fold_render (rooted : bool) (st : nat * list string) :
  Forall (fun e => plain e = true) (snd st) -> (rooted = true -> fst st = O) ->
  fold_left (Filepath.clean_step rooted) (Split (Filepath.render rooted st) "/") (O, []) = st.
Proof.
  destruct st as [ups elems]. cbn [fst snd]. intros H Hr.
  pose proof (kept_elements ups elems H) as HL.
  assert (Hs : Forall (fun c => noSlash c = true) (repeat ".." ups ++ rev elems)).
  { eapply Forall_impl; [exact HL|]. now intros e [He _]. }
  assert (Hn : Forall (fun e => e <> "") (repeat ".." ups ++ rev elems)).
  { eapply Forall_impl; [exact HL|]. now intros e [_ He]. }
  assert (Hrev : Forall (fun e => plain e = true) (rev elems)) by now apply Forall_rev.
  unfold Filepath.render. destruct rooted.
  - rewrite (Hr eq_refl) in *. cbn [repeat app] in *.
    change ("/" +:+ Join (rev elems) "/") with ("" +:+ "/" +:+ Join (rev elems) "/").
    rewrite Split_append_slash. cbn [Split app fold_left].
    change (Filepath.clean_step true (O, []) "") with (O, @nil string).
    destruct (rev elems) as [|a l] eqn:E.
    + apply (f_equal (@rev string)) in E. rewrite rev_involutive in E. now subst.
    + rewrite Split_Join by (assumption || discriminate).
      rewrite fold_kept by assumption. rewrite <- E, rev_involutive, app_nil_r. reflexivity.
  - destruct (String.eqb (Join (repeat ".." ups ++ rev elems) "/") "") eqn:E.
    + apply String.eqb_eq in E. apply Join_nil_inv in E; [|exact Hn].
      apply app_eq_nil in E as [E1 E2]. destruct ups; [|discriminate].
      apply (f_equal (@rev string)) in E2. rewrite rev_involutive in E2. now subst.
    + rewrite Split_Join; [|intros E'; now rewrite E' in E|exact Hs].
      rewrite fold_left_app, fold_ups, fold_kept by assumption.
      now rewrite rev_involutive, app_nil_r.
Qed.

Lemma append_slash_nonempty (a b : string) : String.eqb (a +:+ "/" +:+ b) "" = false.
Proof. destruct a; [now rewrite append_nil_l | now rewrite append_cons]. Qed.

Lemma HasPrefix_slash_append (p x : string) :
  p <> "" -> HasPrefix (p +:+ x) "/" = HasPrefix p "/".
Proof.
  destruct p as [|c p]; [congruence|]. intros _. rewrite append_cons. cbn [HasPrefix].
  destruct (Ascii.eqb "/" c); [now destruct (p +:+ x), p | reflexivity].
Qed.

(** Cleaning a directory before a file is joined to it changes nothing. *)
Lemma Clean_join (p f : string) :
  p <> "" ->
  Filepath.Clean (Filepath.Clean p +:+ "/" +:+ f) = Filepath.Clean (p +:+ "/" +:+ f).
Proof.
  intros Hp. unfold Filepath.Clean at 1 3. rewrite !append_slash_nonempty.
  unfold Filepath.Clean. destruct (String.eqb p "") eqn:E; [apply String.eqb_eq in E; congruence|].
  set (r := HasPrefix p "/").
  set (st := fold_left (Filepath.clean_step r) (Split p "/") (O, [])).
  assert (Hst : Forall (fun e => plain e = true) (snd st) /\ (r = true -> fst st = O)).
  { apply fold_clean_kept; [apply Split_parts_noSlash | split; [constructor | reflexivity]]. }
  destruct Hst as [H1 H2].
  rewrite render_rooted by exact H1.
  rewrite (HasPrefix_slash_append p) by exact Hp. fold r.
  rewrite !Split_append_slash, !fold_left_app.
  rewrite fold_render by assumption. reflexivity.
Qed.

Lemma Clean_nonempty (p : string) : Filepath.Clean p <> "".
Proof.
  unfold Filepath.Clean. destruct (String.eqb p ""); [discriminate|].
  destruct (fold_left _ _ _) as [ups elems]. unfold Filepath.render.
  destruct (HasPrefix p "/"); [now rewrite append_cons|].
  destruct (String.eqb (Join _ _) "") eqn:E; [discriminate|].
  intros E'. now rewrite E' in E.
Qed.

(** [filepath.Join(filepath.Join(base, name), file)] is
    [filepath.Join(base, name, file)] for a base that is not empty. *)
Lemma Join_nested (base name file : string) :
  base <> "" ->
  Filepath.Join [Filepath.Join [base; name]; file] = Filepath.Join [base; name; file].
Proof.
  intros Hb. apply String.eqb_neq in Hb.
  unfold Filepath.Join at 2 3. cbn [Filepath.drop_empty]. rewrite Hb.
  unfold Filepath.Join. cbn [Filepath.drop_empty].
  pose proof (Clean_nonempty (Join [base; name] "/")) as Hc.
  apply String.eqb_neq in Hc. rewrite Hc.
  change (Join [Filepath.Clean (Join [base; name] "/"); file] "/")
    with (Filepath.Clean (Join [base; name] "/") +:+ "/" +:+ file).
  change (Join [base; name; file] "/") with (base +:+ "/" +:+ name +:+ "/" +:+ file).
  change (Join [base; name] "/") with (base +:+ "/" +:+ name).
  rewrite Clean_join.
  - now rewrite <- !append_assoc.
  - intros E. apply append_eq_nil in E as [E _]. apply String.eqb_neq in Hb. congruence.
Qed.

End CleanFacts.

(** ** Streaming uploads and the references of the storage manager *)
Section StreamFacts.
Import GoStrings GoErr Storage Spec.

Lemma localBase_nonempty (storage : Config.StorageConfig) :
  (if String.eqb (Config.LocalPath storage) ""
   then "/var/lib/flightctl/images" else Config.LocalPath storage) <> "".
Proof.
  destruct (String.eqb (Config.LocalPath storage) "") eqn:E;
    [discriminate | now apply String.eqb_neq].
Qed.

Lemma pvcBase_nonempty (pvc : string) : "/mnt/pvc/" +:+ pvc <> "".
Proof. discriminate. Qed.

(** The file a streaming upload writes, when there is one. *)
Lemma StreamToLocalOrPVC_target (cfg : Config.Config) (os : OS) (disk : Disk)
      (name type : string) (reader : Reader) :
  let r := StreamToLocalOrPVC cfg os disk name reader type in
  (exists e, r = (Err e, disk)) \/
  exists storage base,
    Config.storageOf cfg = Some storage /\
    (String.eqb (Config.Type_ storage) "local" || String.eqb (Config.Type_ storage) "pvc") = true /\
    storageBase storage = Some base /\
    let target := Filepath.Join [base; name; fileName type] in
    ((exists e, failure reader = Some e /\
                r = (Err (Wrap "failed to stream to file" e),
                     mkDisk (match Remove os target with
                             | None => delete target (files disk)
                             | Some _ => <[target := data reader]> (files disk)
                             end) (objects disk))) \/
     (failure reader = None /\
      r = (Ok (mkStorageReference (Config.Type_ storage) target
                 (Z.of_nat (String.length (data reader)))
                 (<["image_name" := name]> (<["image_type" := type]>
                  (<["streamed" := "true"]> ∅)))),
           mkDisk (<[target := data reader]> (files disk)) (objects disk)))).
Proof.
  unfold StreamToLocalOrPVC.
  destruct (Config.storageOf cfg) as [storage|]; [|left; eauto].
  assert (Hcase :
    forall (ty base : string),
      base <> "" ->
      Config.Type_ storage = ty ->
      (String.eqb (Config.Type_ storage) "local" || String.eqb (Config.Type_ storage) "pvc") = true ->
      storageBase storage = Some base ->
      let r :=
        match MkdirAll os (Filepath.Join [base; name]) with
        | Some err => (Err (Wrap "failed to create target directory" err), disk)
        | None =>
            match Create os (Filepath.Join [Filepath.Join [base; name]; fileName type]) with
            | Some err => (Err (Wrap "failed to create target file" err), disk)
            | None =>
                match failure reader with
                | Some err =>
                    (Err (Wrap "failed to stream to file" err),
                     mkDisk (match Remove os (Filepath.Join [Filepath.Join [base; name];
                                                             fileName type]) with
                             | None => delete (Filepath.Join [Filepath.Join [base; name];
                                                              fileName type]) (files disk)
                             | Some _ => <[Filepath.Join [Filepath.Join [base; name];
                                                          fileName type] := data reader]>
                                           (files disk)
                             end) (objects disk))
                | None =>
                    (Ok (mkStorageReference ty
                           (Filepath.Join [Filepath.Join [base; name]; fileName type])
                           (Z.of_nat (String.length (data reader)))
                           (<["image_name" := name]> (<["image_type" := type]>
                            (<["streamed" := "true"]> ∅)))),
                     mkDisk (<[Filepath.Join [Filepath.Join [base; name]; fileName type]
                               := data reader]> (files disk)) (objects disk))
                end
            end
        end in
      (exists e, r = (Err e, disk)) \/
      exists storage' base',
        Some storage = Some storage' /\
        (String.eqb (Config.Type_ storage') "local" || String.eqb (Config.Type_ storage') "pvc") = true /\
        storageBase storage' = Some base' /\
        let target := Filepath.Join [base'; name; fileName type] in
        ((exists e, failure reader = Some e /\
                    r = (Err (Wrap "failed to stream to file" e),
                         mkDisk (match Remove os target with
                             | None => delete target (files disk)
                             | Some _ => <[target := data reader]> (files disk)
                             end) (objects disk))) \/
         (failure reader = None /\
          r = (Ok (mkStorageReference (Config.Type_ storage') target
                     (Z.of_nat (String.length (data reader)))
                     (<["image_name" := name]> (<["image_type" := type]>
                      (<["streamed" := "true"]> ∅)))),
               mkDisk (<[target := data reader]> (files disk)) (objects disk))))).
  { intros ty base Hb Hty Hlp Hbase. cbv zeta.
    rewrite (Join_nested base name (fileName type) Hb).
    destruct (MkdirAll os _); [left; eauto|].
    destruct (Create os _); [left; eauto|].
    right. exists storage, base. split; [reflexivity|]. split; [exact Hlp|].
    split; [exact Hbase|]. rewrite Hty.
    destruct (failure reader) as [e|]; [left; eauto | right; split; reflexivity]. }
  destruct (String.eqb (Config.Type_ storage) "local") eqn:El.
  { apply String.eqb_eq in El.
    apply (Hcase "local" _ (localBase_nonempty storage) El).
    - now rewrite El.
    - unfold storageBase. now rewrite El. }
  destruct (String.eqb (Config.Type_ storage) "pvc") eqn:Ep.
  { apply String.eqb_eq in Ep.
    apply (Hcase "pvc" _ (pvcBase_nonempty (Config.PVCName storage)) Ep).
    - reflexivity.
    - unfold storageBase. rewrite El. now rewrite Ep. }
  left. eauto.
Qed.

(** What [StoreBootcImage] resolves a sentinel to on a directory backend. *)
Lemma StoreBootcImage_uploaded (cfg : Config.Config) (os : OS) (name src type : string)
      (storage : Config.StorageConfig) (base : string) :
  HasPrefix src "uploaded:" = true ->
  Config.storageOf cfg = Some storage ->
  (String.eqb (Config.Type_ storage) "local" || String.eqb (Config.Type_ storage) "pvc") = true ->
  storageBase storage = Some base ->
  StoreBootcImage cfg os name src type
  = Ok (mkStorageReference (Config.Type_ storage)
          (Filepath.Join [base; name; fileName type])
          (match Stat os (Filepath.Join [base; name; fileName type]) with
           | Some n => n | None => 0 end)
          (uploadedMetadata name type)).
Proof.
  intros Hp Hs Hlp Hb. unfold StoreBootcImage. rewrite Hp, Hs.
  unfold storageBase in Hb.
  destruct (String.eqb (Config.Type_ storage) "local") eqn:El.
  { injection Hb as <-. reflexivity. }
  destruct (String.eqb (Config.Type_ storage) "pvc") eqn:Ep; [|discriminate].
  injection Hb as <-. reflexivity.
Qed.

(** X7.  A streaming upload to a directory backend that succeeds has
    written the uploaded bytes to exactly the file that the storage
    manager resolves the upload sentinel of the same name and type to, and
    has changed nothing else: the reference the orchestrator records names
    the file the upload wrote. *)
Theorem upload_lands_where_the_sentinel_points
        (cfg : Config.Config) (os os' : OS) (disk : Disk) (name type src : string)
        (reader : Reader) (ref : StorageReference) :
  HasPrefix src "uploaded:" = true ->
  fst (StreamToLocalOrPVC cfg os disk name reader type) = Ok ref ->
  exists ref',
    StoreBootcImage cfg os' name src type = Ok ref' /\
    Path ref' = Path ref /\ Type_ ref' = Type_ ref /\
    files (snd (StreamToLocalOrPVC cfg os disk name reader type))
      = <[Path ref := data reader]> (files disk) /\
    objects (snd (StreamToLocalOrPVC cfg os disk name reader type)) = objects disk.
Proof.
  intros Hp Hok.
  destruct (StreamToLocalOrPVC_target cfg os disk name type reader)
    as [[e He] | (storage & base & Hs & Hlp & Hb & [(e & _ & He) | [_ He]])];
    rewrite He in *; cbn [fst snd] in *; try discriminate.
  injection Hok as <-. cbn [Path Type_ files objects].
  eexists. split; [exact (StoreBootcImage_uploaded cfg os' name src type storage base Hp Hs Hlp Hb)|].
  repeat split; reflexivity.
Qed.


End StreamFacts.

(** ** Deleting what was stored *)
Section RemovalFacts.
Import GoStrings GoErr Storage Removal Spec.

(** X9.  A file that a streaming upload has written can be deleted through
    its reference: unless the removal itself fails, [DeleteImage] returns
    no error and the disk holds what it held before the upload, without
    the target file. *)
Theorem streamed_file_is_deleted_again
        (cfg : Config.Config) (os : OS) (faults : Faults) (disk : Disk)
        (name type : string) (reader : Reader) (ref : StorageReference) :
  fst (StreamToLocalOrPVC cfg os disk name reader type) = Ok ref ->
  removeFault faults (Path ref) = None ->
  DeleteImage cfg os faults (snd (StreamToLocalOrPVC cfg os disk name reader type)) ref
  = (None, mkDisk (delete (Path ref) (files disk)) (objects disk)).
Proof.
  intros Hok Hf.
  destruct (StreamToLocalOrPVC_target cfg os disk name type reader)
    as [[e He] | (storage & base & Hs & Hlp & Hb & [(e & _ & He) | [_ He]])];
    rewrite He in *; cbn [fst snd] in *; try discriminate.
  injection Hok as <-. cbn [Path] in *.
  unfold DeleteImage. cbn [Type_ Path]. rewrite Hlp.
  unfold os_Remove. cbn [files objects]. rewrite lookup_insert_eq, Hf.
  now rewrite delete_insert_eq.
Qed.

(** X10.  On the object store, only the reference of the upload itself
    deletes the object.  The reference that [StoreBootcImage] resolves the
    upload sentinel to has the same URL, but carries neither bucket nor
    key: [DeleteImage] refuses it and the object stays. *)
Theorem only_the_streamed_reference_deletes_the_object
        (cfg : Config.Config) (os os' : OS) (faults : Faults) (disk : Disk)
        (name type src filename etag : string) (reader : Reader)
        (storage : Config.StorageConfig) (s3cfg : Config.S3Config)
        (ref : StorageReference) :
  Config.storageOf cfg = Some storage ->
  Config.Type_ storage = "s3" ->
  Config.S3 storage = Some s3cfg ->
  Config.Bucket s3cfg <> "" ->
  HasPrefix src "uploaded:" = true ->
  fst (StreamToS3 cfg os disk name reader type filename etag) = Ok ref ->
  deleteObjectFault faults (Config.Bucket s3cfg) (name +:+ "/" +:+ fileName type) = None ->
  let disk' := snd (StreamToS3 cfg os disk name reader type filename etag) in
  objects disk' !! (Config.Bucket s3cfg, name +:+ "/" +:+ fileName type)
    = Some (data reader) /\
  DeleteImage cfg os faults disk' ref
    = (None, mkDisk (files disk)
                    (delete (Config.Bucket s3cfg, name +:+ "/" +:+ fileName type)
                            (objects disk))) /\
  exists ref',
    StoreBootcImage cfg os' name src type = Ok ref' /\
    Path ref' = Path ref /\
    DeleteImage cfg os faults disk' ref'
      = (Some (Errorf "invalid S3 reference: missing bucket or key"), disk').
Proof.
  intros Hs Hty Hs3 Hb Hp Hok Hf.
  assert (Hc : Config.s3Of cfg = Some s3cfg) by (unfold Config.s3Of; now rewrite Hs).
  unfold StreamToS3 in *. rewrite Hc in *.
  destruct (NewSession os) eqn:Hn; [discriminate|].
  destruct (failure reader); [discriminate|]. cbn [fst snd] in *. cbv zeta.
  injection Hok as <-. cbn [objects files Path].
  split; [apply lookup_insert_eq|]. split.
  - unfold DeleteImage. cbn [Type_]. change (String.eqb "s3" "local" || String.eqb "s3" "pvc") with false.
    cbn match. change (String.eqb "s3" "s3") with true. cbn match. rewrite Hc.
    unfold metadataOf. cbn [Metadata].
    rewrite lookup_insert_ne, lookup_insert_ne, lookup_insert_eq by discriminate.
    rewrite lookup_insert_ne, lookup_insert_ne, lookup_insert_ne, lookup_insert_eq by discriminate.
    apply String.eqb_neq in Hb. rewrite Hb, append_slash_nonempty. cbn [orb].
    rewrite Hn, Hf. cbn [files objects]. now rewrite delete_insert_eq.
  - unfold StoreBootcImage. rewrite Hp, Hs, Hty, Hs3.
    change (String.eqb "s3" "local") with false. change (String.eqb "s3" "pvc") with false.
    change (String.eqb "s3" "s3") with true. cbn match. cbn [orb]. cbn match.
    eexists. split; [reflexivity|]. cbn [Path]. split; [reflexivity|].
    unfold DeleteImage. cbn [Type_].
    change (String.eqb "s3" "local" || String.eqb "s3" "pvc") with false.
    cbn match. change (String.eqb "s3" "s3") with true. cbn match. rewrite Hc.
    reflexivity.
Qed.

End RemovalFacts.

(** ** The download endpoint *)
Section DownloadFacts.
Import GoStrings GoErr Storage Download Spec Reading.

Lemma Split_without (c : ascii) (s : string) : without c s = true -> Split s c = [s].
Proof.
  induction s as [|d s IH]; cbn [without Split]; [reflexivity|].
  intros H. apply andb_true_iff in H as [Hd Hs].
  apply negb_true_iff in Hd. rewrite Hd, (IH Hs). reflexivity.
Qed.

Lemma Split_cons_nonempty (c : ascii) (s : string) : Split s c <> [].
Proof.
  destruct s as [|d s]; cbn [Split]; [discriminate|].
  destruct (Ascii.eqb d c); [discriminate|].
  destruct (Split s c); discriminate.
Qed.

Lemma Split_append_sep (c : ascii) (a b : string) :
  Split (a +:+ String c b) c = (Split a c ++ Split b c)%list.
Proof.
  induction a as [|d a IH].
  - rewrite append_nil_l. cbn [Split]. now rewrite Ascii.eqb_refl.
  - rewrite append_cons. cbn [Split]. rewrite IH.
    destruct (Ascii.eqb d c); [reflexivity|].
    pose proof (Split_cons_nonempty c a) as Hne.
    destruct (Split a c); [congruence | reflexivity].
Qed.

Lemma append_sep_nonempty (a b : string) (c : ascii) :
  String.eqb (a +:+ String c b) "" = false.
Proof. destruct a; [now rewrite append_nil_l | now rewrite append_cons]. Qed.

(** The type read off a file name [<prefix>-<type>-<architecture>]. *)
Lemma imageTypeOf_name (pre t arch : string) :
  without "-" t = true -> without "-" arch = true ->
  let parts := Split (pre +:+ "-" +:+ t +:+ "-" +:+ arch) "-" in
  (length parts <? 2)%nat = false /\ imageTypeOf parts = t.
Proof.
  intros Ht Ha. cbv zeta.
  change (pre +:+ "-" +:+ t +:+ "-" +:+ arch)
    with (pre +:+ String "-" (t +:+ String "-" arch)).
  rewrite !Split_append_sep, (Split_without _ _ Ht), (Split_without _ _ Ha).
  pose proof (Split_cons_nonempty "-" pre) as Hne.
  unfold imageTypeOf. rewrite !length_app. cbn [length].
  set (n := length (Split pre "-")).
  assert (Hn : (1 <= n)%nat) by (unfold n; destruct (Split pre "-"); [congruence | cbn; lia]).
  split; [apply Nat.ltb_ge; lia|].
  replace (3 <=? n + (1 + 1))%nat with true by (symmetry; apply Nat.leb_le; lia).
  replace (n + (1 + 1) - 2)%nat with (n + 0)%nat by lia.
  unfold n. rewrite app_nth2_plus. reflexivity.
Qed.

(** X11.  What was uploaded is what is downloaded.  After the upload
    handler has answered 200 for a name and a type, a download request for
    that name and a file name [<prefix>-<type>-<architecture>], type and
    architecture without hyphen, is served the uploaded bytes with their
    length when the backend is a directory and the file can be read; on the
    object store it is answered 501: what was uploaded there cannot be
    downloaded. *)
Theorem download_returns_the_upload
        (cfg : Config.Config) (os : OS) (etag : string) (faults : Faults) (disk : Disk)
        (r : Upload.Request) (parts : list Upload.PartEvent) (form : Upload.Form)
        (pre arch : string) :
  Upload.body r = Upload.Multipart parts ->
  Upload.readParts parts (Upload.mkForm "" "" "" None) = inl form ->
  Upload.StatusCode (fst (Upload.handleUploadArtifact cfg os etag disk r)) = 200 ->
  without "-" (Upload.imageType form) = true -> without "-" arch = true ->
  (forall p, statFault faults p = None) -> (forall p, openFault faults p = None) ->
  accepted faults = None ->
  let disk' := snd (Upload.handleUploadArtifact cfg os etag disk r) in
  let file := pre +:+ "-" +:+ Upload.imageType form +:+ "-" +:+ arch in
  exists storage fname part,
    Config.storageOf cfg = Some storage /\
    Upload.filePart form = Some (fname, part) /\
    handleDownload cfg faults disk' (mkRequest (Upload.imageName form) file)
    = if String.eqb (Config.Type_ storage) "s3"
      then Failure "S3 downloads not yet implemented" 501
      else Served (<["Content-Type" := "application/octet-stream"]>
                   (<["Content-Disposition" := "attachment; filename=" +:+ file]>
                   (<["Content-Length" := itoa (Z.of_nat (String.length (data part)))]> ∅)))
                  (data part).
Proof.
  intros Hbody Hparts Hok Ht Ha Hstat Hopen Hacc. cbv zeta.
  unfold Upload.handleUploadArtifact in *. rewrite Hbody, Hparts in *.
  destruct (String.eqb (Upload.imageName form) "") eqn:En; [discriminate Hok|].
  destruct (String.eqb (Upload.imageType form) "") eqn:Et; [discriminate Hok|].
  cbn [orb] in *.
  destruct (Upload.filePart form) as [[fname part]|]; [|discriminate Hok].
  destruct (imageTypeOf_name pre _ arch Ht Ha) as [Hlen Htype].
  unfold handleDownload. cbn [name filename]. rewrite En.
  change (pre +:+ "-" +:+ Upload.imageType form +:+ "-" +:+ arch)
    with (pre +:+ String "-" (Upload.imageType form +:+ String "-" arch)) in *.
  rewrite append_sep_nonempty. cbn [orb]. rewrite Hlen, Htype.
  destruct (Config.storageOf cfg) as [storage|] eqn:Hs.
  2:{ exfalso. change (String.eqb "pvc" "s3") with false in Hok. cbn match in Hok.
      unfold StreamToLocalOrPVC in Hok. rewrite Hs in Hok. discriminate Hok. }
  exists storage, fname, part. split; [reflexivity|]. split; [reflexivity|].
  destruct (String.eqb (Config.Type_ storage) "s3") eqn:Es3.
  { apply String.eqb_eq in Es3. rewrite Es3. reflexivity. }
  pose proof (StreamToLocalOrPVC_target cfg os disk (Upload.imageName form)
                (Upload.imageType form) part) as Hst.
  cbv zeta in Hst.
  destruct (StreamToLocalOrPVC cfg os disk (Upload.imageName form) part (Upload.imageType form))
    as [stored disk'] eqn:Hrun.
  destruct Hst as [[e He] | (storage' & base & Hs' & Hlp & Hb & [(e & _ & He) | [_ He]])];
    injection He as -> ->; try discriminate Hok.
  rewrite Hs in Hs'. injection Hs' as <-. cbn [snd files].
  unfold storageBase in Hb.
  destruct (String.eqb (Config.Type_ storage) "local") eqn:El.
  { injection Hb as <-. rewrite Hstat, lookup_insert_eq, Hopen, Hacc. reflexivity. }
  destruct (String.eqb (Config.Type_ storage) "pvc") eqn:Ep; [|discriminate Hlp].
  injection Hb as <-. rewrite Hstat, lookup_insert_eq, Hopen, Hacc. reflexivity.
Qed.


End DownloadFacts.

(** ** Registry helpers *)
Section RegistryFacts.
Import GoStrings Api Registry Reading.

Lemma without_append (c : ascii) (a b : string) :
  without c (a +:+ b) = without c a && without c b.
Proof.
  induction a as [|d a IH]; [now rewrite append_nil_l|].
  rewrite append_cons. cbn [without]. rewrite IH. now rewrite andb_assoc.
Qed.

Lemma Split_parts_without (c : ascii) (s : string) :
  Forall (fun p => without c p = true) (Split s c).
Proof.
  induction s as [|d s IH]; cbn [Split]; [repeat constructor|].
  destruct (Ascii.eqb d c) eqn:E; [constructor; [reflexivity | exact IH]|].
  destruct (Split s c) as [|h t]; [repeat constructor; cbn [without]; now rewrite E|].
  inversion IH; subst. constructor; [cbn [without]; now rewrite E | assumption].
Qed.

Lemma Split_head_without (c : ascii) (s : string) : without c (hd "" (Split s c)) = true.
Proof.
  pose proof (Split_parts_without c s) as H.
  destruct (Split s c); [reflexivity | now inversion H].
Qed.

(** The first part of a split is a prefix, followed by the separator when
    there are more parts. *)
Lemma Split_head_prefix (c : ascii) (s : string) :
  exists rest, s = hd "" (Split s c) +:+ rest /\
               (length (Split s c) <> 1%nat -> exists rest', rest = String c rest').
Proof.
  induction s as [|d s (rest & Hs & Hmore)]; cbn [Split].
  - exists "". split; [reflexivity | intros H; now contradiction H].
  - destruct (Ascii.eqb d c) eqn:E.
    + apply Ascii.eqb_eq in E. subst d. exists (String c s).
      split; [reflexivity | intros _; eauto].
    + destruct (Split s c) as [|h t] eqn:Esp.
      * exists s. cbn [hd]. split; [now rewrite append_cons, append_nil_l|].
        intros H. now contradiction H.
      * cbn [hd] in *. exists rest. split; [now rewrite append_cons, <- Hs|].
        exact Hmore.
Qed.

Lemma looks_like_registry_nonempty (p : string) :
  Contains p "." || Contains p ":" || EqualFold p "localhost" = true -> p <> "".
Proof. intros H ->. discriminate H. Qed.

(** X13.  The registry read off an image reference is never empty and
    holds no slash; it is [docker.io], or the text of the reference before
    its first slash, which then lies before any digest and contains a dot
    or a colon or is [localhost] in some case. *)
Theorem base_image_registry_shape (imageRef : string) :
  let r := GetBaseImageRegistry imageRef in
  r <> "" /\ without "/" r = true /\
  (r = "docker.io" \/
   (without "@" r = true /\ HasPrefix imageRef (r +:+ "/") = true /\
    Contains r "." || Contains r ":" || EqualFold r "localhost" = true)).
Proof.
  cbv zeta. unfold GetBaseImageRegistry.
  set (iwd := hd "" (Split imageRef "@")).
  set (fp := hd "" (Split iwd "/")).
  destruct (length (Split iwd "/") =? 1)%nat eqn:Elen;
    [split; [discriminate|]; split; [reflexivity | now left]|].
  destruct (Contains fp "." || Contains fp ":" || EqualFold fp "localhost") eqn:Ereg;
    [|split; [discriminate|]; split; [reflexivity | now left]].
  split; [now apply looks_like_registry_nonempty|].
  split; [apply Split_head_without|].
  right. apply Nat.eqb_neq in Elen.
  destruct (Split_head_prefix "@" imageRef) as (rest1 & H1 & _).
  destruct (Split_head_prefix "/" iwd) as (rest2 & H2 & Hmore).
  destruct (Hmore Elen) as [rest' ->]. fold iwd in H1. fold fp in H2.
  split; [|split; [|exact Ereg]].
  - pose proof (Split_head_without "@" imageRef) as Hw. fold iwd in Hw.
    rewrite H2, without_append in Hw. now apply andb_true_iff in Hw as [Hw _].
  - rewrite H1, H2.
    change (fp +:+ String "/" rest') with (fp +:+ "/" +:+ rest').
    rewrite !append_assoc, <- (append_assoc fp "/").
    apply HasPrefix_append.
Qed.

Lemma without_zeros (c : ascii) (n : nat) :
  Ascii.eqb "0" c = false -> without c (zeros n) = true.
Proof. intros H. induction n as [|n IH]; cbn [zeros without]; [reflexivity | now rewrite H]. Qed.

Lemma without_uint (d : Decimal.uint) : without "/" (NilEmpty.string_of_uint d) = true.
Proof. induction d; cbn [NilEmpty.string_of_uint without]; try reflexivity; exact IHd. Qed.

Lemma without_itoa (n : Z) : without "/" (itoa n) = true.
Proof.
  unfold itoa, NilZero.string_of_int, NilZero.string_of_uint.
  destruct (Z.to_int n) as [d|d]; destruct d; try reflexivity;
    cbn [without]; cbn [negb andb Ascii.eqb Bool.eqb];
    try apply (without_uint (Decimal.D0 _)); apply without_uint.
Qed.

Lemma without_pad (w : nat) (n : Z) : without "/" (pad w n) = true.
Proof.
  unfold pad. rewrite without_append, without_zeros by reflexivity. apply without_itoa.
Qed.

Lemma without_tagOf (ib : ImageBuild) : without "/" (ContainerBuilder.tagOf ib) = true.
Proof.
  unfold ContainerBuilder.tagOf.
  destruct (CreationTimestamp (Metadata ib)) as [t|]; [|reflexivity].
  unfold GoTime.Format_20060102_150405.
  destruct (GoTime.civil_from_days _) as [[y m] d].
  rewrite !without_append, !without_pad. reflexivity.
Qed.

Lemma Split_one (c : ascii) (s : string) :
  without c s = true -> length (Split s c) = 1%nat.
Proof.
  induction s as [|d s IH]; cbn [without Split]; [reflexivity|].
  intros H. apply andb_true_iff in H as [Hd Hs]. apply negb_true_iff in Hd.
  rewrite Hd. specialize (IH Hs). destruct (Split s c) as [|h [|? ?]]; now try discriminate.
Qed.

(** X14.  With a registry URL, the image reference the container builder
    generates starts with the registry [GetRegistryURL] answers.  Without
    one, [GetRegistryURL] answers [localhost:5000] but the generated
    reference is [<name>:<tag>] and names no registry at all: read as an
    image reference, its registry is [docker.io]. *)
Theorem image_name_and_registry (ib : ImageBuild) :
  let url := match ContainerRegistry (Spec ib) with Some reg => Url reg | None => "" end in
  (url <> "" ->
   HasPrefix (ContainerBuilder.generateImageName ib) (GetRegistryURL ib) = true) /\
  (url = "" ->
   GetRegistryURL ib = "localhost:5000" /\
   ContainerBuilder.generateImageName ib
     = Name (Metadata ib) +:+ ":" +:+ ContainerBuilder.tagOf ib /\
   (without "/" (Name (Metadata ib)) = true ->
    GetBaseImageRegistry (ContainerBuilder.generateImageName ib) = "docker.io")).
Proof.
  cbv zeta. unfold GetRegistryURL, ContainerBuilder.generateImageName.
  assert (Hnone :
    without "/" (Name (Metadata ib)) = true ->
    GetBaseImageRegistry (Name (Metadata ib) +:+ ":" +:+ ContainerBuilder.tagOf ib)
    = "docker.io").
  { intros Hn. unfold GetBaseImageRegistry.
    set (s := Name (Metadata ib) +:+ ":" +:+ ContainerBuilder.tagOf ib).
    assert (Hs : without "/" s = true).
    { unfold s. rewrite !without_append, Hn, without_tagOf. reflexivity. }
    destruct (Split_head_prefix "@" s) as (rest & H1 & _).
    rewrite H1, without_append in Hs. apply andb_true_iff in Hs as [Hs _].
    now rewrite (Split_one _ _ Hs). }
  destruct (ContainerRegistry (Spec ib)) as [reg|].
  2:{ split; [congruence|]. intros _. repeat split. exact Hnone. }
  split.
  - intros Hu. apply String.eqb_neq in Hu. rewrite Hu. cbn [negb].
    unfold ContainerBuilder.NormalizeRegistryURL.
    set (u := TrimSuffix (TrimPrefix (TrimPrefix (Url reg) "https://") "http://") "/").
    destruct (Contains u "/").
    + destruct (Contains u ":" && (LastIndex u "/" <? Index u ":")).
      * rewrite <- (append_nil_r u) at 1. apply HasPrefix_append.
      * apply HasPrefix_append.
    + apply HasPrefix_append.
  - intros ->. cbn [String.eqb negb]. repeat split. exact Hnone.
Qed.

End RegistryFacts.

(** ** The annotations a patch leaves *)
Section ServiceFacts.
Import GoStrings Service.
Variable managed : option (gmap string string) -> option (gmap string string).

Lemma imageBuilderAnnotations_lookup (patch : list Sys.PatchOp)
      (current patched : option (gmap string string)) (key : string) :
  HasPrefix key "imagebuilder.flightctl.io/" = true ->
  imageBuilderAnnotations patch current patched !! key
  = if decide (key ∈ modifiedAnnotationKeys patch)
    then entries patched !! key else entries current !! key.
Proof.
  intros Hp. unfold imageBuilderAnnotations.
  set (modified := modifiedAnnotationKeys patch).
  destruct (decide (key ∈ modified)) as [Hin|Hout].
  - destruct (entries patched !! key) as [v|] eqn:Ev.
    + apply lookup_union_Some_l, map_lookup_filter_Some. now split.
    + apply lookup_union_None. split; apply map_lookup_filter_None.
      * now left.
      * right. intros v _ [_ Hn]. now apply Hn.
  - rewrite lookup_union_r.
    + destruct (entries current !! key) as [v|] eqn:Ev.
      * apply map_lookup_filter_Some. now split.
      * apply map_lookup_filter_None. now left.
    + apply map_lookup_filter_None. right. intros v _ [_ Hn]. now apply Hout.
Qed.

(** X15.  What a patch does to the image builder annotations of the object
    it hands to the store: one that no operation of the patch names keeps
    the stored value, whatever the patch made of the annotations; one that
    an operation names takes the value of the patched object; one that an
    operation names and the patched object no longer has is restored from
    nowhere. *)
Theorem patch_keeps_unnamed_annotations
        (patch : list Sys.PatchOp) (current patched : option (gmap string string))
        (key : string) :
  HasPrefix key "imagebuilder.flightctl.io/" = true ->
  let final := entries (restoredAnnotations managed patch current patched) in
  (key ∉ modifiedAnnotationKeys patch ->
   forall value, entries current !! key = Some value -> final !! key = Some value) /\
  (key ∈ modifiedAnnotationKeys patch ->
   forall value, entries patched !! key = Some value -> final !! key = Some value) /\
  (key ∈ modifiedAnnotationKeys patch -> entries patched !! key = None ->
   final !! key = entries (managed patched) !! key).
Proof.
  intros Hp. cbv zeta. unfold restoredAnnotations.
  pose proof (imageBuilderAnnotations_lookup patch current patched key Hp) as Hl.
  set (restored := imageBuilderAnnotations patch current patched) in *.
  split; [|split].
  - intros Hout value Hv. destruct (decide (key ∈ _)); [contradiction|].
    rewrite Hv in Hl.
    destruct (decide (restored = ∅)) as [E|_]; [rewrite E in Hl; discriminate Hl|].
    cbn [entries]. now apply lookup_union_Some_l.
  - intros Hin value Hv. destruct (decide (key ∈ _)); [|contradiction].
    rewrite Hv in Hl.
    destruct (decide (restored = ∅)) as [E|_]; [rewrite E in Hl; discriminate Hl|].
    cbn [entries]. now apply lookup_union_Some_l.
  - intros Hin Hv. destruct (decide (key ∈ _)); [|contradiction].
    rewrite Hv in Hl.
    destruct (decide (restored = ∅)) as [E|_]; [reflexivity|].
    cbn [entries]. now apply lookup_union_r.
Qed.

End ServiceFacts.

(** ** The orchestrator: how a build ends *)
Section ExitFacts.
Import GoErr GoTime Api Sys Orchestrator Spec.
Variable env : Env.
Variable cfg : Config.Config.

(** X16.  A build that returns has ended.  Whatever the cluster and the
    API server answer, when [BuildImage] returns -- with or without an
    error -- the local copy carries a terminal phase and a completion
    time, and its metadata and spec are those of the build it was given;
    when it returns no error the phase is [Completed]. *)
Theorem a_returned_build_has_ended (ib : ImageBuild) (w : World) :
  let r := fst (BuildImage env cfg ib w) in
  Metadata (fst r) = Metadata ib /\ Spec (fst r) = Spec ib /\
  match snd r with
  | Ok _ =>
      phaseOf (fst r) = Some "Completed" /\ is_Some (CompletionTime (statusOf (fst r)))
  | Err _ =>
      (phaseOf (fst r) = Some "Completed" \/ phaseOf (fst r) = Some "Failed"
       \/ phaseOf (fst r) = Some "Cancelled")
      /\ is_Some (CompletionTime (statusOf (fst r)))
  | Panic _ => True
  end.
Proof.
  cbv zeta. destruct (BuildImage_shape env cfg ib w) as ((Hm & Hs & _) & _ & Hok & Hend).
  split; [exact Hm|]. split; [exact Hs|].
  destruct (snd (fst (BuildImage env cfg ib w))) as [[]|e|m] eqn:E.
  - split; [now apply Hok | now apply Hend; right].
  - apply Hend. left. eauto.
  - exact I.
Qed.

End ExitFacts.

(** ** The log endpoint *)
Section LogsFacts.
Import GoStrings GoErr Api Sys LogsEndpoint Spec Reading.
Variable env : Env.
Variable cfg : Config.Config.

Ltac step H :=
  apply post_bind; eapply post_mono; [apply H | cbv beta].

Lemma collectBuildPod_calls (ns : string) (pods : list K8s.Pod) :
  forall (logs : list string) (w : World),
    post (forEach pods logs (collectBuildPod env ns)) w
         (fun _ w' =>
            steps w' = (steps w + length pods)%nat /\
            trace w' = (trace w ++ ((fun pod => GetPodLogs ns (K8s.Name pod) 1000) <$> pods))%list).
Proof.
  induction pods as [|pod pods IH]; intros logs w.
  - apply post_ret. rewrite Nat.add_0_r, app_nil_r. auto.
  - cbn [forEach]. apply post_bind. unfold collectBuildPod at 1.
    apply post_bind, post_call.
    assert (Hk : forall logs', post (forEach pods logs' (collectBuildPod env ns))
                   (mkWorld (orgs w) (catalog w) (spawned w) (S (steps w))
                            (trace w ++ [GetPodLogs ns (K8s.Name pod) 1000]))
                   (fun _ w' =>
                      steps w' = (steps w + length (pod :: pods))%nat /\
                      trace w' = (trace w ++ ((fun pod => GetPodLogs ns (K8s.Name pod) 1000)
                                                <$> pod :: pods))%list)).
    { intros logs'. eapply post_mono; [apply IH|]. cbv beta. cbn [steps trace length].
      intros _ w' (S' & T). split; [lia|].
      rewrite T, <- app_assoc. reflexivity. }
    destruct (podLogs env (steps w)) as [podLog|e]; [|apply post_ret, Hk].
    destruct (0 <? String.length podLog)%nat; apply post_ret, Hk.
Qed.

Lemma collectBootcPod_calls (ns pfx : string) (pods : list K8s.Pod) :
  forall (logs : list string) (w : World),
    post (forEach pods logs (collectBootcPod env ns pfx)) w
         (fun logs' w' =>
            (logs <> [] -> logs' <> []) /\
            trace w' = (trace w ++ ((fun pod => GetPodLogs ns (K8s.Name pod) 1000)
                                      <$> filter (fun pod => HasPrefix (K8s.Name pod) pfx = true)
                                                 pods))%list).
Proof.
  induction pods as [|pod pods IH]; intros logs w.
  - apply post_ret. rewrite app_nil_r. auto.
  - cbn [forEach]. apply post_bind. unfold collectBootcPod at 1.
    rewrite filter_cons.
    destruct (HasPrefix (K8s.Name pod) pfx) eqn:Ep.
    + rewrite decide_True by reflexivity.
      apply post_bind, post_call.
      assert (Hk : forall logs', (logs <> [] -> logs' <> []) ->
                 post (forEach pods logs' (collectBootcPod env ns pfx))
                   (mkWorld (orgs w) (catalog w) (spawned w) (S (steps w))
                            (trace w ++ [GetPodLogs ns (K8s.Name pod) 1000]))
                   (fun logs'' w' =>
                      (logs <> [] -> logs'' <> []) /\
                      trace w' = (trace w ++ ((fun pod => GetPodLogs ns (K8s.Name pod) 1000)
                                   <$> pod :: filter (fun pod => HasPrefix (K8s.Name pod) pfx = true)
                                                     pods))%list)).
      { intros logs' Hl. eapply post_mono; [apply IH|]. cbv beta. cbn [trace].
        intros logs'' w' (Hl' & T). split; [auto|].
        rewrite T, <- app_assoc. reflexivity. }
      destruct (podLogs env (steps w)) as [podLog|e]; [|apply post_ret, Hk; auto].
      destruct (0 <? String.length podLog)%nat; apply post_ret, Hk; auto.
      intros _ E. apply app_eq_nil in E as [E _]. apply app_eq_nil in E as [_ E]. discriminate.
    + rewrite decide_False by discriminate. apply post_ret.
      eapply post_mono; [apply IH|]. cbv beta. auto.
Qed.

(** The calls of the log endpoint, and its answer. *)
Lemma handleGetLogs_calls (name : string) (w : World) :
  name <> "" ->
  let ns := getBuildNamespace cfg in
  let pods := match listPods env (steps w) with inl p => p | inr _ => [] end in
  let allPods :=
    match listPods env (S (steps w) + length pods) with inl p => p | inr _ => [] end in
  post (handleGetLogs env cfg name) w
       (fun r w' =>
          trace w' = (trace w ++ logCalls ns name pods allPods)%list /\
          exists lines, r = Lines lines /\ lines <> []).
Proof.
  intros Hn. cbv zeta. unfold handleGetLogs.
  apply String.eqb_neq in Hn. rewrite Hn.
  apply post_bind, post_call. cbn [steps trace].
  set (ns := getBuildNamespace cfg).
  set (w1 := mkWorld _ _ _ _ _).
  assert (H1 : post (match listPods env (steps w) with
                     | inr _ => ret []
                     | inl pods => forEach pods [] (collectBuildPod env ns)
                     end) w1
                 (fun _ w' =>
                    let pods := match listPods env (steps w) with inl p => p | inr _ => [] end in
                    steps w' = (S (steps w) + length pods)%nat /\
                    trace w' = (trace w ++ [ListPods ns ("job-name=build-" +:+ name)]
                                ++ ((fun pod => GetPodLogs ns (K8s.Name pod) 1000) <$> pods))%list)).
  { destruct (listPods env (steps w)) as [pods|e].
    - eapply post_mono; [apply collectBuildPod_calls|]. cbv beta zeta.
      intros _ w' [S' T]. split; [exact S'|]. rewrite T. unfold w1. cbn [trace].
      now rewrite <- app_assoc.
    - apply post_ret. cbv zeta. unfold w1. cbn [steps trace length fmap list_fmap].
      split; [lia | reflexivity]. }
  apply post_bind. eapply post_mono; [exact H1|]. cbv beta zeta. clear H1.
  intros logs1 w2 [S2 T2].
  apply post_bind, post_call. rewrite S2.
  set (pods := match listPods env (steps w) with inl p => p | inr _ => [] end) in *.
  set (w3 := mkWorld _ _ _ _ _).
  assert (H2 : post (match listPods env (S (steps w) + length pods) with
                     | inr _ => ret logs1
                     | inl allPods =>
                         forEach allPods logs1
                                 (collectBootcPod env ns ("bootc-" +:+ name +:+ "-"))
                     end) w3
                 (fun _ w' =>
                    trace w' = (trace w ++ logCalls ns name pods
                                  (match listPods env (S (steps w) + length pods) with
                                   | inl p => p | inr _ => [] end))%list)).
  { unfold logCalls. destruct (listPods env (S (steps w) + length pods)) as [allPods|e].
    - eapply post_mono; [apply collectBootcPod_calls|]. cbv beta.
      intros _ w' [_ T]. rewrite T. unfold w3. cbn [trace]. rewrite T2.
      now rewrite <- !app_assoc.
    - apply post_ret. unfold w3. cbn [trace]. rewrite T2.
      rewrite filter_nil. cbn [fmap list_fmap]. now rewrite app_nil_r, <- !app_assoc. }
  apply post_bind. eapply post_mono; [exact H2|]. cbv beta. clear H2.
  intros logs2 w4 T4. apply post_ret. split; [exact T4|].
  eexists. split; [reflexivity|].
  destruct logs2; [discriminate | discriminate].
Qed.

Lemma logCalls_namespace (ns name : string) (pods allPods : list K8s.Pod) :
  Forall (fun ev => inNamespace ns ev = true) (logCalls ns name pods allPods).
Proof.
  unfold logCalls. rewrite !Forall_app. repeat split.
  - repeat constructor. apply String.eqb_refl.
  - apply Forall_fmap, Forall_forall. intros pod _. apply String.eqb_refl.
  - repeat constructor. apply String.eqb_refl.
  - apply Forall_fmap, Forall_forall. intros pod _. apply String.eqb_refl.
Qed.


Lemma cancellationCalls_namespace (ns name : string) (pods : list K8s.Pod)
      (jobs : list K8s.Job) (body : ImageBuild) :
  Forall (fun ev => inNamespace ns ev = true) (cancellationCalls ns name pods jobs body).
Proof.
  unfold cancellationCalls. rewrite !Forall_app. repeat split.
  - repeat constructor. apply String.eqb_refl.
  - apply Forall_fmap, Forall_forall. intros pod _. apply String.eqb_refl.
  - repeat constructor. apply String.eqb_refl.
  - apply Forall_fmap, Forall_forall. intros job _. apply String.eqb_refl.
  - repeat constructor. apply String.eqb_refl.
Qed.

(** X17.  The log endpoint and the orchestrator each ask one namespace
    only, and without a configured build namespace not the same one: the
    orchestrator creates, watches and deletes its jobs in [default], the
    log endpoint looks for their pods in [flightctl-builds]. *)
Theorem logs_are_sought_where_builds_run_only_if_configured
        (ib : ImageBuild) (name : string) (w w0 : World) :
  let configured :=
    match Config.ImageBuilder cfg with
    | Some c => Config.BuildNamespace c
    | None => ""
    end in
  Forall (fun ev => inNamespace (Orchestrator.namespace cfg) ev = true)
         (newEvents w (snd (Orchestrator.BuildImage env cfg ib w))) /\
  Forall (fun ev => inNamespace (getBuildNamespace cfg) ev = true)
         (newEvents w0 (snd (handleGetLogs env cfg name w0))) /\
  if String.eqb configured ""
  then Orchestrator.namespace cfg = "default" /\ getBuildNamespace cfg = "flightctl-builds"
  else Orchestrator.namespace cfg = configured /\ getBuildNamespace cfg = configured.
Proof.
  cbv zeta. split; [|split].
  - set (ns := Orchestrator.namespace cfg).
    pose proof (BuildImage_run env cfg (Forall (fun ev => inNamespace ns ev = true))) as H.
    specialize (H ltac:(constructor)).
    specialize (H ltac:(intros a b Ha Hb; apply Forall_app; now split)).
    specialize (H ltac:(repeat constructor)).
    specialize (H ltac:(repeat constructor)).
    specialize (H ltac:(repeat constructor)).
    specialize (H ltac:(repeat constructor)).
    assert (Hc : forall ib0 containerfile w1,
               post (ContainerStage.BuildAndPushImage env ns ib0 containerfile) w1
                    (fun _ w2 => extendsBy (Forall (fun ev => inNamespace ns ev = true)) w1 w2)).
    { intros ib0 cf w1. eapply post_mono; [apply BuildAndPushImage_calls|].
      cbv beta zeta. intros _ w2 [T | [[T _] | T]];
        apply (Forall_calls _ _ _ _ T); repeat constructor; apply String.eqb_refl. }
    assert (Hb : forall ib0 ref export w1,
               post (Bootc.buildBootcImage env ns ib0 ref export) w1
                    (fun _ w2 => extendsBy (Forall (fun ev => inNamespace ns ev = true)) w1 w2)).
    { intros ib0 ref export w1. eapply post_mono; [apply buildBootcImage_calls|].
      cbv beta zeta. intros _ w2 [[T _] | T];
        apply (Forall_calls _ _ _ _ T); repeat constructor; apply String.eqb_refl. }
    specialize (H Hc Hb ib w). unfold post in H.
    destruct H as (w1 & (before & T1 & F1) & [-> | (ib' & reason & ->)]).
    + unfold newEvents. rewrite T1, drop_app_length. exact F1.
    + pose proof (CancelBuild_calls env cfg ib' reason w1) as Hcalls.
      unfold post in Hcalls. cbv zeta in Hcalls. destruct Hcalls as (T2 & _).
      unfold newEvents. rewrite T2, T1, <- app_assoc, drop_app_length.
      apply Forall_app. split; [exact F1 | apply cancellationCalls_namespace].
  - destruct (decide (name = "")) as [->|Hn].
    + unfold newEvents, handleGetLogs. cbn [String.eqb ret snd].
      rewrite drop_all. constructor.
    + pose proof (handleGetLogs_calls name w0 Hn) as H. unfold post in H. cbv zeta in H.
      destruct H as [T _]. unfold newEvents. rewrite T, drop_app_length.
      apply logCalls_namespace.
  - unfold Orchestrator.namespace, getBuildNamespace.
    destruct (Config.ImageBuilder cfg) as [c|]; [|now split].
    destruct (String.eqb (Config.BuildNamespace c) ""); now split.
Qed.

Lemma HasPrefix_weaken (p q : string) :
  forall s, HasPrefix s (p +:+ q) = true -> HasPrefix s p = true.
Proof.
  induction p as [|c p IH]; intros s H; [now destruct s|].
  rewrite append_cons in H. destruct s as [|d s]; [discriminate H|].
  cbn [HasPrefix] in *. destruct (Ascii.eqb c d); [now apply IH | discriminate H].
Qed.

Lemma collectBootcPod_lines (ns pfx : string) (pods : list K8s.Pod) :
  (forall n, exists l, podLogs env n = inl l /\ l <> "") ->
  forall (logs : list string) (w : World),
    post (forEach pods logs (collectBootcPod env ns pfx)) w
         (fun logs' _ =>
            (forall x, x ∈ logs -> x ∈ logs') /\
            forall pod, pod ∈ pods -> HasPrefix (K8s.Name pod) pfx = true ->
                        ("=== Logs from bootc image generation pod "
                         +:+ K8s.Name pod +:+ " ===") ∈ logs').
Proof.
  intros Hlogs. induction pods as [|pod pods IH]; intros logs w.
  - apply post_ret. split; [auto|]. intros pod Hin. inversion Hin.
  - cbn [forEach]. apply post_bind. unfold collectBootcPod at 1.
    destruct (HasPrefix (K8s.Name pod) pfx) eqn:Ep.
    + apply post_bind, post_call.
      destruct (Hlogs (steps w)) as (l & -> & Hl).
      replace (0 <? String.length l)%nat with true
        by (destruct l; [congruence | reflexivity]).
      apply post_ret. eapply post_mono; [apply IH|]. cbv beta.
      intros logs' _ [Hsub Hpods]. split.
      * intros x Hx. apply Hsub. apply elem_of_app. left. apply elem_of_app. now left.
      * intros pod' Hin Hp. apply elem_of_cons in Hin as [-> | Hin]; [|now apply Hpods].
        apply Hsub. apply elem_of_app. left. apply elem_of_app. right.
        apply list_elem_of_here.
    + apply post_ret. eapply post_mono; [apply IH|]. cbv beta.
      intros logs' _ [Hsub Hpods]. split; [exact Hsub|].
      intros pod' Hin Hp. apply elem_of_cons in Hin as [-> | Hin]; [|now apply Hpods].
      rewrite Hp in Ep. discriminate Ep.
Qed.

(** X18.  The log endpoint takes the pods of a build by the prefix
    [bootc-<name>-] of their names, so it mixes builds: asked for the logs
    of the build [name], it also answers with the logs of every export pod
    of a build called [<name>-<other>]. *)
Theorem log_endpoint_mixes_builds
        (name other : string) (pod : K8s.Pod) (allPods : list K8s.Pod) (w : World) :
  name <> "" ->
  (forall n, exists l, podLogs env n = inl l /\ l <> "") ->
  listPods env (S (steps w) + length (match listPods env (steps w) with
                                      | inl p => p | inr _ => [] end)) = inl allPods ->
  pod ∈ allPods ->
  HasPrefix (K8s.Name pod) ("bootc-" +:+ (name +:+ "-" +:+ other) +:+ "-") = true ->
  exists lines,
    fst (handleGetLogs env cfg name w) = Lines lines /\
    ("=== Logs from bootc image generation pod " +:+ K8s.Name pod +:+ " ===") ∈ lines.
Proof.
  intros Hn Hlogs Hall Hin Hp.
  assert (Hp' : HasPrefix (K8s.Name pod) ("bootc-" +:+ name +:+ "-") = true).
  { apply (HasPrefix_weaken _ (other +:+ "-")).
    replace (("bootc-" +:+ name +:+ "-") +:+ other +:+ "-")
      with ("bootc-" +:+ (name +:+ "-" +:+ other) +:+ "-"); [exact Hp|].
    now rewrite !append_assoc. }
  change (post (handleGetLogs env cfg name) w
            (fun r _ => exists lines, r = Lines lines /\
               ("=== Logs from bootc image generation pod " +:+ K8s.Name pod +:+ " ===")
                 ∈ lines)).
  unfold handleGetLogs. apply String.eqb_neq in Hn. rewrite Hn.
  apply post_bind, post_call. cbn [steps trace].
  set (ns := getBuildNamespace cfg).
  set (w1 := mkWorld _ _ _ _ _).
  assert (H1 : post (match listPods env (steps w) with
                     | inr _ => ret []
                     | inl pods => forEach pods [] (collectBuildPod env ns)
                     end) w1
                 (fun _ w' =>
                    steps w' = (S (steps w) + length (match listPods env (steps w) with
                                                      | inl p => p | inr _ => [] end))%nat)).
  { destruct (listPods env (steps w)) as [pods|e].
    - eapply post_mono; [apply collectBuildPod_calls|]. cbv beta. now intros _ w' [S' _].
    - apply post_ret. unfold w1. cbn [steps length]. lia. }
  apply post_bind. eapply post_mono; [exact H1|]. cbv beta. clear H1.
  intros logs1 w2 S2. apply post_bind, post_call. rewrite S2, Hall.
  apply post_bind. eapply post_mono; [apply (collectBootcPod_lines _ _ _ Hlogs)|]. cbv beta.
  intros logs2 w3 [_ Hpods]. apply post_ret.
  specialize (Hpods pod Hin Hp').
  eexists. split; [reflexivity|].
  destruct logs2 as [|x logs2]; [inversion Hpods | exact Hpods].
Qed.

End LogsFacts.

(** ** Calls that all satisfy a property *)
Section AllCalls.
Import GoErr GoTime Api Sys Spec Reading.
Variable P : Event -> Prop.

Lemma all_refl (w : World) : extendsBy (Forall P) w w.
Proof. exists []. split; [now rewrite app_nil_r | constructor]. Qed.

Lemma all_trans (w1 w2 w3 : World) :
  extendsBy (Forall P) w1 w2 -> extendsBy (Forall P) w2 w3 -> extendsBy (Forall P) w1 w3.
Proof.
  intros (a & Ta & Fa) (b & Tb & Fb). exists (a ++ b)%list.
  split; [now rewrite Tb, Ta, <- app_assoc | apply Forall_app; now split].
Qed.

Lemma all_ret {A} (a : A) (w : World) :
  post (ret a) w (fun _ w' => extendsBy (Forall P) w w').
Proof. apply post_ret, all_refl. Qed.

Lemma all_call (ev : Event) (w : World) :
  P ev -> post (call ev) w (fun _ w' => extendsBy (Forall P) w w').
Proof. intros H. apply post_call. exists [ev]. split; [reflexivity | now repeat constructor]. Qed.

Lemma all_bind {A B} (m : M A) (k : A -> M B) (w : World) :
  post m w (fun _ w' => extendsBy (Forall P) w w') ->
  (forall a w', post (k a) w' (fun _ w'' => extendsBy (Forall P) w' w'')) ->
  post (bind m k) w (fun _ w' => extendsBy (Forall P) w w').
Proof.
  intros Hm Hk. apply post_bind. eapply post_mono; [exact Hm|]. cbv beta.
  intros a w' H1. eapply post_mono; [apply Hk|]. cbv beta.
  intros b w'' H2. exact (all_trans _ _ _ H1 H2).
Qed.

Lemma all_forEach {A S} (body : S -> A -> M S) (l : list A) :
  (forall s a w, post (body s a) w (fun _ w' => extendsBy (Forall P) w w')) ->
  forall s w, post (forEach l s body) w (fun _ w' => extendsBy (Forall P) w w').
Proof.
  intros Hb. induction l as [|a l IH]; intros s w; [apply all_ret|].
  cbn [forEach]. apply all_bind; [apply Hb | intros s' w'; apply IH].
Qed.

End AllCalls.

(** ** The cleanup: where it looks *)
Section CleanupNamespace.
Import GoErr GoTime Api Sys Cleanup Spec Reading.
Variable env : Env.
Variable cfg : Config.Config.
Variable parse : string -> option Time.

Lemma tryAcquireLock_here (lockName : string) (lease : Duration) (fuel : nat) :
  forall w, post (tryAcquireLock env parse fuel (getBuildNamespace cfg) lockName lease) w
                 (fun _ w' => extendsBy (Forall (allIn (getBuildNamespace cfg))) w w').
Proof.
  assert (Hs : forall n, allIn (getBuildNamespace cfg) (CreateConfigMap (getBuildNamespace cfg) n)
                         /\ allIn (getBuildNamespace cfg) (GetConfigMap (getBuildNamespace cfg) n)
                         /\ allIn (getBuildNamespace cfg) (DeleteConfigMap (getBuildNamespace cfg) n)).
  { intros n. repeat split; apply String.eqb_refl. }
  induction fuel as [|fuel IH]; intros w; cbn [tryAcquireLock].
  all: apply all_bind; [apply all_call, Hs|]; intros n w1.
  all: destruct (createConfigMap env n); [|apply all_ret].
  all: apply all_bind; [apply all_call, Hs|]; intros n' w2.
  all: destruct (getConfigMap env n') as [existing|err]; [|apply all_ret].
  all: destruct (existing !! "timestamp") as [ts|];
    [|apply all_bind; [apply all_call, Hs | intros; apply all_ret]].
  all: destruct (parse ts) as [lockTime|];
    [|apply all_bind; [apply all_call, Hs | intros; apply all_ret]].
  all: apply all_bind;
    [unfold time_Now; apply all_bind; [now apply all_call | intros; apply all_ret]|].
  all: intros now w3; destruct (lease <? _); [|apply all_ret].
  all: apply all_bind; [apply all_call, Hs|]; intros u w4.
  - apply all_ret.
  - apply IH.
Qed.

Lemma collectActive_here (w : World) :
  post (collectActive env) w (fun _ w' => extendsBy (Forall (allIn (getBuildNamespace cfg))) w w').
Proof.
  unfold collectActive. apply all_bind; [now apply all_call|]. intros n w1.
  destruct (storeFault env n); [apply all_ret|].
  assert (Hb : forall s org w0,
             post (activeOfOrg env s org) w0 (fun _ w' => extendsBy (Forall (allIn (getBuildNamespace cfg))) w0 w')).
  { intros s org w0. unfold activeOfOrg.
    apply all_bind; [now apply all_call|]. intros n' w2.
    destruct (storeFault env n'); [apply all_ret|].
    unfold post, bind, getCatalog, ret. cbn [fst snd]. apply all_refl. }
  pose proof (all_forEach (allIn (getBuildNamespace cfg)) _ (orgs w1) Hb ∅ w1) as H.
  unfold post in *.
  destruct (forEach (orgs w1) ∅ (activeOfOrg env) w1) as [active w']. exact H.
Qed.

Lemma markOrphans_here (active : gset string) (w : World) :
  post (markOrphans env cfg active) w (fun _ w' => extendsBy (Forall (allIn (getBuildNamespace cfg))) w w').
Proof.
  unfold markOrphans. apply all_bind; [apply all_call, String.eqb_refl|]. intros n w1.
  destruct (listPods env n) as [pods|e]; [|apply all_ret].
  apply all_bind; [|intros; apply all_ret].
  apply all_forEach. intros acc pod w0. unfold checkPod.
  destruct (K8s.Labels pod !! "job-name") as [jobName|]; [|apply all_ret].
  destruct (negb _); [apply all_ret|].
  case_bool_decide; [apply all_ret|].
  apply all_bind;
    [unfold time_Now; apply all_bind; [now apply all_call | intros; apply all_ret]|].
  intros now w2. destruct (_ <? _); apply all_ret.
Qed.

Lemma deleteOrphans_here (acc : Orphans) (w : World) :
  post (deleteOrphans cfg acc) w (fun _ w' => extendsBy (Forall (allIn (getBuildNamespace cfg))) w w').
Proof.
  unfold deleteOrphans. apply all_bind.
  - apply all_forEach. intros s a w0.
    apply all_bind; [apply all_call, String.eqb_refl | intros; apply all_ret].
  - intros _ w1. apply all_forEach. intros s a w0.
    apply all_bind; [apply all_call, String.eqb_refl | intros; apply all_ret].
Qed.

(** X19.  The cleanup addresses one namespace only, and it is the
    orchestrator's only when a build namespace is configured: every
    cluster call of [PerformInitialCleanup] -- the lock, the pod listing,
    the deletions -- names [getBuildNamespace()], which without a
    configured namespace is [flightctl-builds] while the orchestrator
    runs its jobs in [default]. *)
Theorem cleanup_looks_where_builds_run_only_if_configured (fuel : nat) (w : World) :
  let configured :=
    match Config.ImageBuilder cfg with
    | Some c => Config.BuildNamespace c
    | None => ""
    end in
  Forall (fun ev => inNamespace (getBuildNamespace cfg) ev = true)
         (newEvents w (snd (PerformInitialCleanup env cfg parse fuel w))) /\
  if String.eqb configured ""
  then getBuildNamespace cfg = "flightctl-builds" /\ Orchestrator.namespace cfg = "default"
  else getBuildNamespace cfg = configured /\ Orchestrator.namespace cfg = configured.
Proof.
  cbv zeta. split.
  - assert (H : post (PerformInitialCleanup env cfg parse fuel) w
                     (fun _ w' => extendsBy (Forall (allIn (getBuildNamespace cfg))) w w')).
    { unfold PerformInitialCleanup.
      assert (Hu : forall w0, post (call (DeleteConfigMap (getBuildNamespace cfg)
                                            "imagebuilder-cleanup-lock")) w0
                                   (fun _ w' => extendsBy (Forall (allIn (getBuildNamespace cfg))) w0 w')).
      { intros w0. apply all_call, String.eqb_refl. }
      apply all_bind; [apply tryAcquireLock_here|]. intros locked w1.
      destruct locked as [[|]|err]; [|apply all_ret..].
      apply all_bind; [apply collectActive_here|]. intros active w2.
      destruct active as [active|err];
        [|apply all_bind; [apply Hu | intros; apply all_ret]].
      apply all_bind; [apply markOrphans_here|]. intros found w3.
      destruct found as [acc|err];
        [|apply all_bind; [apply Hu | intros; apply all_ret]].
      apply all_bind; [apply deleteOrphans_here|]. intros _ w4.
      apply all_bind; [apply Hu | intros; apply all_ret]. }
    unfold post in H. destruct H as (evs & T & F).
    unfold newEvents. rewrite T, drop_app_length. exact F.
  - unfold Orchestrator.namespace, getBuildNamespace.
    destruct (Config.ImageBuilder cfg) as [c|]; [|now split].
    destruct (String.eqb (Config.BuildNamespace c) ""); now split.
Qed.

End CleanupNamespace.

(** ** The orchestrator: what holds at every exit of a build *)
Section Exits.
Import GoErr GoTime Api Sys Orchestrator Spec Reading.
Variable env : Env.
Variable cfg : Config.Config.

(** [I] holds of the copy a build works on and of the world between its
    stages; [E] is to hold of what the build returns. *)
Variable I : ImageBuild -> World -> Prop.
Variable E : ImageBuild * result unit -> World -> Prop.
Hypothesis I_call :
  forall ib ev w,
    isStatusWrite ev = false -> I ib w ->
    I ib (mkWorld (orgs w) (catalog w) (spawned w) (S (steps w)) (trace w ++ [ev])).
Hypothesis I_updateStatus :
  forall ib phase message w,
    I ib w -> post (updateStatus env ib phase message) w (fun r w' => I (fst r) w').
Hypothesis I_container :
  forall ib ref w,
    I ib w -> post (updateStatusWithContainerImage env ib ref) w (fun r w' => I (fst r) w').
Hypothesis E_cancel :
  forall ib reason w,
    I ib w -> post (CancelBuild env cfg ib reason) w (fun r w' => E (returned r) w').
Hypothesis E_fail :
  forall ib e w, I ib w -> post (failBuild env ib e) w (fun r w' => E (returned r) w').
Hypothesis E_complete :
  forall ib ref refs w,
    I ib w -> post (completeBuild env ib ref refs) w (fun r w' => E (returned r) w').
Hypothesis E_panic : forall ib m w, I ib w -> E (ib, Panic m) w.

Lemma call_keeps (ib : ImageBuild) (ev : Event) (w : World) :
  isStatusWrite ev = false -> I ib w -> post (call ev) w (fun _ w' => I ib w').
Proof. intros Hev H. apply post_call. now apply I_call. Qed.

Ltac keep H :=
  apply post_bind; eapply post_mono; [apply call_keeps; [reflexivity | exact H] | cbv beta].

Lemma isCancelled_keeps (ib ib' : ImageBuild) (w : World) :
  I ib w -> post (isCancelled env ib') w (fun _ w' => I ib w').
Proof.
  intros H. unfold isCancelled, GetImageBuildWithResponse.
  apply post_bind. keep H. intros n w1 H1. apply post_ret, post_ret. exact H1.
Qed.

Lemma BuildAndPushImage_keeps (ib ib' : ImageBuild) (containerfile : string) (w : World) :
  I ib w ->
  post (ContainerStage.BuildAndPushImage env (namespace cfg) ib' containerfile) w
       (fun _ w' => I ib w').
Proof.
  intros H. unfold ContainerStage.BuildAndPushImage.
  keep H. intros n1 w1 H1.
  destruct (prepareBuild env n1); [apply post_ret; exact H1|].
  keep H1. intros n2 w2 H2.
  destruct (createJob env n2 _); [apply post_ret; exact H2|].
  keep H2. intros n3 w3 H3. cbv zeta.
  keep H3. intros n4 w4 H4.
  keep H4. intros n5 w5 H5.
  keep H5. intros n6 w6 H6.
  destruct (watchJob env n3 _); apply post_ret; exact H6.
Qed.

Lemma buildBootcImage_keeps (ib ib' : ImageBuild) (ref : string) (export : BootcExport)
      (w : World) :
  I ib w ->
  post (Bootc.buildBootcImage env (namespace cfg) ib' ref export) w (fun _ w' => I ib w').
Proof.
  intros H. unfold Bootc.buildBootcImage.
  keep H. intros n1 w1 H1.
  destruct (createJob env n1 _); [apply post_ret; exact H1|].
  keep H1. intros n2 w2 H2. cbv zeta.
  keep H2. intros n3 w3 H3.
  destruct (watchJob env n2 _); (keep H3; intros n4 w4 H4; apply post_ret; exact H4).
Qed.

Lemma buildAll_keeps (ib ib' : ImageBuild) (ref : string) (exports : list BootcExport) :
  forall acc w,
    I ib w ->
    post (Bootc.buildAll env (namespace cfg) ib' ref exports acc) w (fun _ w' => I ib w').
Proof.
  induction exports as [|export rest IH]; intros acc w H; cbn [Bootc.buildAll].
  - apply post_ret. exact H.
  - apply post_bind. eapply post_mono; [apply (buildBootcImage_keeps ib), H|]. cbv beta.
    intros [res|e|m] w1 H1; [now apply IH | exact H1..].
Qed.

Lemma BuildBootcImages_keeps (ib ib' : ImageBuild) (ref : string) (w : World) :
  I ib w ->
  post (Bootc.BuildBootcImages env (namespace cfg) ib' ref) w (fun _ w' => I ib w').
Proof.
  intros H. unfold Bootc.BuildBootcImages.
  destruct (BootcExports (Spec ib')) as [[|e es]|]; try (apply post_ret; exact H).
  now apply buildAll_keeps.
Qed.

Lemma exit_by_cancel (ib : ImageBuild) (reason : string) (w : World) :
  I ib w ->
  post (let* r := cancelBuild env cfg ib reason in ret (returned r))%sys w E.
Proof.
  intros H. apply post_bind. unfold cancelBuild.
  eapply post_mono; [apply E_cancel, H|]. cbv beta. intros r w' HE. exact HE.
Qed.

Lemma exit_by_failure (ib : ImageBuild) (e : error) (w : World) :
  I ib w -> post (let* r := failBuild env ib e in ret (returned r))%sys w E.
Proof.
  intros H. apply post_bind.
  eapply post_mono; [apply E_fail, H|]. cbv beta. intros r w' HE. exact HE.
Qed.

Lemma exit_by_completion (ib : ImageBuild) (ref : string) (refs : list BootcImageRef)
      (w : World) :
  I ib w -> post (let* r := completeBuild env ib ref refs in ret (returned r))%sys w E.
Proof.
  intros H. apply post_bind.
  eapply post_mono; [apply E_complete, H|]. cbv beta. intros r w' HE. exact HE.
Qed.

Lemma buildExportsAndComplete_exit (ib : ImageBuild) (ref : string) (w : World) :
  I ib w -> post (buildExportsAndComplete env cfg ib ref) w E.
Proof.
  intros H. unfold buildExportsAndComplete.
  destruct (BootcExports (Spec ib)) as [[|e es]|]; try (now apply exit_by_completion).
  apply post_bind. eapply post_mono; [apply (isCancelled_keeps ib), H|]. cbv beta.
  intros c w1 H1. destruct c; [now apply exit_by_cancel|].
  apply post_bind. eapply post_mono; [apply I_updateStatus, H1|]. cbv beta.
  intros [ib1 e1] w2 H2. cbn [fst] in H2.
  apply post_bind. eapply post_mono; [apply (BuildBootcImages_keeps ib1), H2|]. cbv beta.
  intros [rs|err|m] w3 H3;
    [|now apply exit_by_failure | apply post_ret; now apply E_panic].
  destruct (storeAll env cfg _ rs []) as [refs|err|m] eqn:Es;
    [now apply exit_by_completion | | apply post_ret; now apply E_panic].
  exfalso. exact (storeAll_not_Err env cfg _ _ _ _ Es).
Qed.

Lemma generateAndBuild_exit (ib : ImageBuild) (cert key : string) (w : World) :
  I ib w -> post (generateAndBuild env cfg ib cert key) w E.
Proof.
  intros H. unfold generateAndBuild.
  apply post_bind. eapply post_mono; [apply (isCancelled_keeps ib), H|]. cbv beta.
  intros c w1 H1. destruct c; [now apply exit_by_cancel|].
  destruct (generate env (Spec ib) cert key) as [containerfile|err];
    [|now apply exit_by_failure].
  apply post_bind. eapply post_mono; [apply (isCancelled_keeps ib), H1|]. cbv beta.
  intros c w2 H2. destruct c; [now apply exit_by_cancel|].
  apply post_bind. eapply post_mono; [apply (BuildAndPushImage_keeps ib), H2|]. cbv beta.
  intros [ref|err|m] w3 H3;
    [|now apply exit_by_failure | apply post_ret; now apply E_panic].
  apply post_bind. eapply post_mono; [apply I_container, H3|]. cbv beta.
  intros [ib1 e1] w4 H4. cbn [fst] in H4. now apply buildExportsAndComplete_exit.
Qed.

(** Every exit of [BuildImage] is a cancellation, a failure, a completion
    or a panic, reached through stages that keep [I]. *)
Lemma BuildImage_exit (ib : ImageBuild) (w : World) :
  I ib w -> post (BuildImage env cfg ib) w E.
Proof.
  intros H. unfold BuildImage.
  apply post_bind. eapply post_mono; [apply (isCancelled_keeps ib), H|]. cbv beta.
  intros c w1 H1. destruct c; [now apply exit_by_cancel|].
  apply post_bind. eapply post_mono; [apply I_updateStatus, H1|]. cbv beta.
  intros [ib1 e1] w2 H2. cbn [fst] in H2.
  destruct (FlightctlConfig (Spec ib1)); [|now apply generateAndBuild_exit].
  apply post_bind. eapply post_mono; [apply (isCancelled_keeps ib1), H2|]. cbv beta.
  intros c w3 H3. destruct c; [now apply exit_by_cancel|].
  keep H3. intros n w4 H4.
  destruct (requestCertificate env n) as [[cert key]|err];
    [now apply generateAndBuild_exit | now apply exit_by_failure].
Qed.

End Exits.

(** ** The orchestrator: the status the catalog holds when a build returns *)
Section StoredStatus.
Import GoErr GoTime Api Sys Orchestrator Spec Reading.
Variable env : Env.
Variable cfg : Config.Config.

Ltac step H :=
  apply post_bind; eapply post_mono; [apply H | cbv beta].

(** A status write that the API server accepts replaces the status of the
    stored resource, whatever it was, by that of the body. *)
Lemma Replace_accepted (name : string) (body stored : ImageBuild) (w : World) :
  apiFault env (steps w) = None ->
  catalog w !! (apiOrg env, name) = Some stored ->
  ReplaceImageBuildStatusWithResponse env name body w
  = (HTTP 200 (Some (set_Status stored (Status body))),
     mkWorld (orgs w) (<[(apiOrg env, name) := set_Status stored (Status body)]> (catalog w))
             (spawned w) (S (steps w)) (trace w ++ [ReplaceImageBuildStatus name body])).
Proof.
  intros Hf Hs.
  unfold ReplaceImageBuildStatusWithResponse, bind, call. simpl. rewrite Hf.
  unfold getCatalog. simpl. rewrite Hs. reflexivity.
Qed.

Lemma Replace_keeps_present (name name' : string) (body : ImageBuild) (w : World) :
  present env name w ->
  post (ReplaceImageBuildStatusWithResponse env name' body) w
       (fun _ w' => present env name w').
Proof.
  intros H. unfold ReplaceImageBuildStatusWithResponse.
  step (call_present env name); [exact H|]. intros n w1 H1.
  destruct (apiFault env n) as [[e|c]|]; [exact H1 | exact H1 |].
  unfold post, bind, getCatalog, putCatalog, ret. cbn [fst snd catalog].
  destruct (catalog w1 !! (apiOrg env, name')) as [cur|] eqn:Ec; [|exact H1].
  unfold present. cbn [fst snd catalog].
  destruct (decide ((apiOrg env, name) = (apiOrg env, name'))) as [->|Hne].
  - rewrite lookup_insert_eq. eauto.
  - rewrite lookup_insert_ne by congruence. exact H1.
Qed.

(** What a status write leaves: the call, and, when it is accepted, the
    status of the body on the stored resource. *)
Lemma Replace_stores (body : ImageBuild) (w : World) :
  post (ReplaceImageBuildStatusWithResponse env (Name (Metadata body)) body) w
       (fun resp w' =>
          lastWrote body w' /\
          ((forall n, apiFault env n = None) -> present env (Name (Metadata body)) w ->
           storedAs env body w' /\ exists answer, resp = HTTP 200 answer)).
Proof.
  split.
  - pose proof (Replace_calls env (Name (Metadata body)) body w) as [_ T].
    exists (trace w). exact T.
  - intros Hf [stored Hs].
    rewrite (Replace_accepted _ body stored w (Hf _) Hs). cbn [fst snd].
    split; [|eauto].
    exists (set_Status stored (Status body)). cbn [catalog].
    now rewrite lookup_insert_eq.
Qed.

Lemma time_Now_keeps_present (name : string) (w : World) :
  present env name w -> post (time_Now env) w (fun _ w' => present env name w').
Proof. intros H. exact H. Qed.

(** The copy [ib1] is a copy of the build [ib0], and the resource of
    [ib0], when it was stored in [w0], is stored in [w1]. *)
Lemma updateStatus_tracked (ib0 ib1 : ImageBuild) (phase message : string) (w0 w1 : World) :
  Metadata ib1 = Metadata ib0 /\
  (present env (Name (Metadata ib0)) w0 -> present env (Name (Metadata ib0)) w1) ->
  post (updateStatus env ib1 phase message) w1
       (fun r w' =>
          Metadata (fst r) = Metadata ib0 /\
          (present env (Name (Metadata ib0)) w0 -> present env (Name (Metadata ib0)) w')).
Proof.
  intros [Hm Hp]. unfold updateStatus.
  apply post_bind. apply (post_mono _ _ (fun _ w' =>
    present env (Name (Metadata ib0)) w0 -> present env (Name (Metadata ib0)) w')).
  { exact Hp. }
  intros now w2 H2. apply post_bind.
  apply (post_mono _ _ (fun _ w' =>
    present env (Name (Metadata ib0)) w0 -> present env (Name (Metadata ib0)) w')).
  { intros H0. apply Replace_keeps_present. exact (H2 H0). }
  intros resp w3 H3. apply post_ret. cbn [fst]. split; [exact Hm | exact H3].
Qed.

Lemma updateStatusWithContainerImage_tracked (ib0 ib1 : ImageBuild) (ref : string)
      (w0 w1 : World) :
  Metadata ib1 = Metadata ib0 /\
  (present env (Name (Metadata ib0)) w0 -> present env (Name (Metadata ib0)) w1) ->
  post (updateStatusWithContainerImage env ib1 ref) w1
       (fun r w' =>
          Metadata (fst r) = Metadata ib0 /\
          (present env (Name (Metadata ib0)) w0 -> present env (Name (Metadata ib0)) w')).
Proof.
  intros [Hm Hp]. unfold updateStatusWithContainerImage.
  apply post_bind.
  apply (post_mono _ _ (fun _ w' =>
    present env (Name (Metadata ib0)) w0 -> present env (Name (Metadata ib0)) w')).
  { intros H0. apply Replace_keeps_present. exact (Hp H0). }
  intros resp w3 H3. apply post_ret. cbn [fst]. split; [exact Hm | exact H3].
Qed.

Lemma completeBuild_written (ib : ImageBuild) (ref : string) (refs : list BootcImageRef)
      (w : World) :
  post (completeBuild env ib ref refs) w
       (fun r w' =>
          (exists now, fst r = markCompleted now ib ref refs) /\
          lastWrote (fst r) w' /\
          ((forall n, apiFault env n = None) -> present env (Name (Metadata ib)) w ->
           storedAs env (fst r) w' /\ snd r = None)).
Proof.
  unfold completeBuild. apply post_bind, post_bind, post_call, post_ret.
  set (body := markCompleted _ ib ref refs).
  step (Replace_stores body). intros resp w2 [Hlast Hst]. apply post_ret. cbn [fst snd].
  split; [unfold body; eauto|].
  split; [exact Hlast|]. intros Hf Hp.
  destruct (Hst Hf Hp) as [Hs [answer ->]]. split; [exact Hs | reflexivity].
Qed.

Lemma failBuild_written (ib : ImageBuild) (e : error) (w : World) :
  post (failBuild env ib e) w
       (fun r w' =>
          (exists now, r = (markFailed now ib e, Some e)) /\
          lastWrote (fst r) w' /\
          ((forall n, apiFault env n = None) -> present env (Name (Metadata ib)) w ->
           storedAs env (fst r) w')).
Proof.
  unfold failBuild. apply post_bind, post_bind, post_call, post_ret.
  set (body := markFailed _ ib e).
  step (Replace_stores body). intros resp w2 [Hlast Hst]. apply post_ret. cbn [fst snd].
  split; [unfold body; eauto|].
  split; [exact Hlast|]. intros Hf Hp. exact (proj1 (Hst Hf Hp)).
Qed.

Lemma CancelBuild_written (ib : ImageBuild) (reason : string) (w : World) :
  post (CancelBuild env cfg ib reason) w
       (fun r w' =>
          (exists now logs e, r = (markCancelled now ib reason logs, Some e)) /\
          lastWrote (fst r) w' /\
          ((forall n, apiFault env n = None) -> present env (Name (Metadata ib)) w ->
           storedAs env (fst r) w')).
Proof.
  apply post_conj; [apply CancelBuild_post|]. apply post_conj.
  - eapply post_mono; [apply CancelBuild_calls|]. cbv beta zeta.
    intros [ib' e'] w' (T & _ & logs & Hr). cbn [fst] in *. subst ib'.
    unfold lastWrote. rewrite T. unfold cancellationCalls.
    eexists. rewrite !app_assoc.
    change [DeleteConfigMap ?a ?b; ?p; ?t; ?x] with ([DeleteConfigMap a b; p; t] ++ [x])%list.
    rewrite app_assoc. reflexivity.
  - unfold CancelBuild.
    set (name := Name (Metadata ib)) in *.
    apply post_bind. apply (post_mono _ _ (fun _ w' => present env name w -> present env name w')).
    { intros Hp. exact Hp. }
    intros n1 w1 H1. apply post_bind.
    apply (post_mono _ _ (fun _ w' => present env name w -> present env name w')).
    { intros Hp. destruct (listPods env n1) as [pods|e]; [|exact (H1 Hp)].
      apply (post_forEach (fun _ w' => present env name w')); [|exact (H1 Hp)].
      intros s a w0 _. apply collectPodLogs_present. }
    intros logs w2 H2. apply post_bind.
    apply (post_mono _ _ (fun _ w' => present env name w -> present env name w')).
    { exact H2. }
    intros n3 w3 H3. apply post_bind.
    apply (post_mono _ _ (fun _ w' => present env name w -> present env name w')).
    { intros Hp. destruct (listJobs env n3) as [jobs|e]; [|exact (H3 Hp)].
      apply (post_forEach (fun _ w' => present env name w')); [|exact (H3 Hp)].
      intros s a w0 _. apply deleteOneJob_present. }
    intros count w4 H4. apply post_bind.
    apply (post_mono _ _ (fun _ w' => present env name w -> present env name w')).
    { exact H4. }
    intros n5 w5 H5. apply post_bind.
    apply (post_mono _ _ (fun _ w' => present env name w -> present env name w')).
    { intros Hp. apply Patch_present. exact (H5 Hp). }
    intros r6 w6 H6. apply post_bind.
    apply (post_mono _ _ (fun _ w' => present env name w -> present env name w')).
    { exact H6. }
    intros now w7 H7.
    set (body := markCancelled now ib reason logs).
    step (Replace_stores body). intros resp w8 [_ Hst].
    assert (Hres : forall e : error,
               post (ret (body, Some e)) w8
                    (fun r w' => (forall n, apiFault env n = None) -> present env name w ->
                                 storedAs env (fst r) w')).
    { intros e. apply post_ret. cbn [fst]. intros Hf Hp. exact (proj1 (Hst Hf (H7 Hp))). }
    destruct resp as [e|code answer]; [apply Hres|].
    destruct (negb (code =? 200)); apply Hres.
Qed.

(** Every build that returns and did not panic has written, as its last
    call, the status of the copy it returns. *)
Lemma BuildImage_written (ib : ImageBuild) (w : World) :
  post (BuildImage env cfg ib) w
       (fun r w' => (exists m, snd r = Panic m) \/ endsWritten env r w w').
Proof.
  apply (BuildImage_exit env cfg
           (fun ib1 w1 =>
              Metadata ib1 = Metadata ib /\
              (present env (Name (Metadata ib)) w -> present env (Name (Metadata ib)) w1))).
  - intros ib1 ev w1 _ [Hm Hp]. split; [exact Hm | exact Hp].
  - intros ib1 phase message w1 H. now apply updateStatus_tracked.
  - intros ib1 ref w1 H. now apply updateStatusWithContainerImage_tracked.
  - intros ib1 reason w1 [Hm Hp].
    eapply post_mono; [apply CancelBuild_written|]. cbv beta.
    intros r w' ((now & logs & e & ->) & Hlast & Hst). right. cbn [returned fst] in *.
    split; [exact Hlast|]. cbn [fst snd]. intros Hf Hp0.
    change (Name (Metadata (markCancelled now ib1 reason logs)))
      with (Name (Metadata ib1)) in Hp0.
    rewrite Hm in Hp0, Hst. split; [exact (Hst Hf (Hp Hp0))|].
    rewrite (proj1 (markCancelled_phase now ib1 reason logs)). discriminate.
  - intros ib1 e w1 [Hm Hp].
    eapply post_mono; [apply failBuild_written|]. cbv beta.
    intros r w' ((now & ->) & Hlast & Hst). right. cbn [returned fst] in *.
    split; [exact Hlast|]. cbn [fst snd]. intros Hf Hp0.
    change (Name (Metadata (markFailed now ib1 e))) with (Name (Metadata ib1)) in Hp0.
    rewrite Hm in Hp0, Hst. split; [exact (Hst Hf (Hp Hp0))|].
    rewrite (proj1 (markFailed_phase now ib1 e)). discriminate.
  - intros ib1 ref refs w1 [Hm Hp].
    eapply post_mono; [apply completeBuild_written|]. cbv beta.
    intros [ib2 e2] w' ((now & Hr) & Hlast & Hst). right. cbn [fst snd] in *. subst ib2.
    assert (Hfst : forall x, fst (returned (markCompleted now ib1 ref refs, x))
                             = markCompleted now ib1 ref refs) by (now intros [x|]).
    unfold endsWritten. rewrite Hfst.
    split; [exact Hlast|]. intros Hf Hp0.
    change (Name (Metadata (markCompleted now ib1 ref refs)))
      with (Name (Metadata ib1)) in Hp0.
    rewrite Hm in Hp0, Hst. destruct (Hst Hf (Hp Hp0)) as [Hs ->].
    split; [exact Hs | reflexivity].
  - intros ib1 m w1 _. left. eauto.
  - split; [reflexivity | auto].
Qed.

End StoredStatus.

(** ** The exports of a build, to the status that is stored (C1, C10) *)
Section ExportOutcome.
Import GoErr GoTime Api Sys Orchestrator Spec Reading.
Variable env : Env.
Variable cfg : Config.Config.

(** The loop of [BuildBootcImages] ends at the first export whose
    workload fails: it returns the error of that export, whatever was
    built before it. *)
Lemma buildAll_first_failure (ns : string) (ib : ImageBuild) (ref : string)
      (x : BootcExport) (rest : list BootcExport) (pre : list BootcExport) :
  Forall (fun e => workloadSucceeds env (bootcJobName (Name (Metadata ib)) e)) pre ->
  workloadFails env (bootcJobName (Name (Metadata ib)) x) ->
  forall acc w,
    exists err,
      fst (Bootc.buildAll env ns ib ref (pre ++ x :: rest) acc w)
      = Err (Wrap ("failed to build bootc image type=" +:+ Api.Type_ x) err).
Proof.
  intros Hpre Hx. induction Hpre as [|a pre Ha _ IH]; intros acc w.
  - cbn [app Bootc.buildAll]. unfold bind at 1.
    pose proof (buildBootcImage_post env ns ib ref x w) as Hpost. unfold post in Hpost.
    destruct (Bootc.buildBootcImage env ns ib ref x w) as [[res|err|m] w1];
      cbn [fst snd] in *; [|eauto|contradiction].
    destruct Hpost as [_ Hwell]. exfalso. exact (fails_not_well env _ Hx Hwell).
  - cbn [app Bootc.buildAll]. unfold bind at 1.
    pose proof (buildBootcImage_post env ns ib ref a w) as Hpost. unfold post in Hpost.
    destruct (Bootc.buildBootcImage env ns ib ref a w) as [[res|err|m] w1];
      cbn [fst snd] in *; [apply IH| |contradiction].
    exfalso. exact (succeeds_not_badly env _ Ha Hpost).
Qed.

Lemma BuildBootcImages_first_failure (ns : string) (ib : ImageBuild) (ref : string)
      (pre : list BootcExport) (x : BootcExport) (rest : list BootcExport) (w : World) :
  exportsOf ib = (pre ++ x :: rest)%list ->
  Forall (fun e => workloadSucceeds env (bootcJobName (Name (Metadata ib)) e)) pre ->
  workloadFails env (bootcJobName (Name (Metadata ib)) x) ->
  exists err,
    fst (Bootc.BuildBootcImages env ns ib ref w)
    = Err (Wrap ("failed to build bootc image type=" +:+ Api.Type_ x) err).
Proof.
  intros Hex Hpre Hx. unfold Bootc.BuildBootcImages. unfold exportsOf in Hex.
  destruct (BootcExports (Spec ib)) as [[|e es]|];
    [destruct pre; discriminate Hex | | destruct pre; discriminate Hex].
  rewrite Hex. now apply buildAll_first_failure.
Qed.

Lemma BuildBootcImages_fails (ns : string) (ib : ImageBuild) (ref : string) (w : World) :
  Exists (fun e => workloadFails env (bootcJobName (Name (Metadata ib)) e)) (exportsOf ib) ->
  exists err, fst (Bootc.BuildBootcImages env ns ib ref w) = Err err.
Proof.
  intros Hex.
  pose proof (BuildBootcImages_post env ns ib ref w) as Hpost. unfold post in Hpost.
  destruct (fst (Bootc.BuildBootcImages env ns ib ref w)) as [rs|err|m];
    [|eauto|contradiction].
  destruct Hpost as [_ Hall]. exfalso.
  apply (jobs_fail_not_well env _ _ Hex). now apply Forall_fmap.
Qed.

(** C1, as the code has it.  With no cancellation seen and the stages
    before the exports succeeding: [BuildBootcImages] returns the error of
    the first export whose workload fails and none of the results built
    before it; when the workload of some requested export fails, the
    build ends in phase Failed with an error, whatever the other exports
    did, with the disk-image references its copy carried at the start;
    when the workloads of all requested exports succeed, or none is
    requested, and the storage configuration can be read, the build ends
    in phase Completed with the references that the storage manager
    resolves.  In both cases the last call of the build is the status
    write of the copy it returns; when the API server answers every
    request and the resource exists, the catalog then holds that status,
    and the completed build returns no error. *)
Theorem export_failure_fails_the_build (ib : ImageBuild) (w : World) :
  quiet env ib -> earlyStagesSucceed env ib ->
  let name := Name (Metadata ib) in
  let run := BuildImage env cfg ib w in
  let r := fst run in
  (forall ib1 ref w1 pre x rest,
     Metadata ib1 = Metadata ib -> Spec ib1 = Spec ib ->
     exportsOf ib = (pre ++ x :: rest)%list ->
     Forall (fun e => workloadSucceeds env (bootcJobName name e)) pre ->
     workloadFails env (bootcJobName name x) ->
     exists err,
       fst (Bootc.BuildBootcImages env (namespace cfg) ib1 ref w1)
       = Err (Wrap ("failed to build bootc image type=" +:+ Api.Type_ x) err)) /\
  (Exists (fun e => workloadFails env (bootcJobName name e)) (exportsOf ib) ->
   (forall ib1 ref w1,
      Metadata ib1 = Metadata ib -> Spec ib1 = Spec ib ->
      exists err, fst (Bootc.BuildBootcImages env (namespace cfg) ib1 ref w1) = Err err) /\
   phaseOf (fst r) = Some "Failed" /\ (exists e, snd r = Err e) /\
   BootcImageRefs (statusOf (fst r)) = BootcImageRefs (statusOf ib) /\
   lastWrote (fst r) (snd run) /\
   ((forall n, apiFault env n = None) -> present env name w ->
    storedAs env (fst r) (snd run))) /\
  (Forall (fun e => workloadSucceeds env (bootcJobName name e)) (exportsOf ib) ->
   exportsOf ib = [] \/ ~ storagePanics cfg ->
   phaseOf (fst r) = Some "Completed" /\
   BootcImageRefs (statusOf (fst r)) =
     (let refs := omap (resolve cfg (os env) name) (resultOf name <$> exportsOf ib) in
      if (0 <? length refs)%nat then Some refs else BootcImageRefs (statusOf ib)) /\
   lastWrote (fst r) (snd run) /\
   ((forall n, apiFault env n = None) -> present env name w ->
    storedAs env (fst r) (snd run) /\ snd r = Ok tt)).
Proof.
  intros Hq Hearly name run r.
  assert (Hname : Name (Metadata (fst r)) = name).
  { pose proof (BuildImage_shape env cfg ib w) as ((Hm & _) & _). fold run r in Hm.
    unfold name. now rewrite Hm. }
  pose proof (BuildImage_post env cfg ib w Hq Hearly) as H.
  pose proof (BuildImage_written env cfg ib w) as Hw.
  unfold post, exportsOutcome in H, Hw. fold run r in H, Hw. fold name in H.
  split.
  { intros ib1 ref w1 pre x rest Hm Hs Hex Hpre Hx.
    apply (BuildBootcImages_first_failure _ ib1 ref pre x rest w1).
    - unfold exportsOf. rewrite Hs. exact Hex.
    - now rewrite Hm.
    - now rewrite Hm. }
  destruct H as [_ [(H1 & H2 & H3 & H4 & _) | [(H1 & H2 & H3 & H4)
               | (H1 & H2 & H3 & H4 & H5 & H6)]]].
  - split; [|intros Hall _; exfalso; exact (jobs_succeed_not_badly env name _ Hall H1)].
    intros Hex. split.
    { intros ib1 ref w1 Hm Hs. apply BuildBootcImages_fails.
      unfold exportsOf. rewrite Hm, Hs. exact Hex. }
    split; [exact H2|]. split; [exact H3|]. split; [exact H4|].
    destruct H3 as [e He].
    destruct Hw as [[m Hm] | [Hlast Hst]]; [congruence|].
    split; [exact Hlast|]. intros Hf Hp. rewrite Hname in Hst. exact (proj1 (Hst Hf Hp)).
  - split.
    + intros Hex. exfalso. exact (jobs_fail_not_well env name _ Hex H1).
    + intros _ [Hnil | Hnp]; contradiction.
  - split.
    + intros Hex. exfalso. exact (jobs_fail_not_well env name _ Hex H1).
    + intros _ _. split; [exact H3|]. split; [exact H6|].
      destruct Hw as [[m Hm] | [Hlast Hst]]; [destruct (H4 m Hm)|].
      split; [exact Hlast|]. intros Hf Hp. rewrite Hname in Hst.
      destruct (Hst Hf Hp) as [Hs Hok]. split; [exact Hs | exact (Hok H3)].
Qed.

(** C10.  When the workloads of all requested exports succeed but the
    storage step cannot resolve a reference, the reference is skipped and
    the remaining ones are still resolved: the build ends in phase
    Completed with exactly the references that resolve, in order, and its
    last call is the status write of that copy; when the API server
    answers every request and the resource exists, the catalog then holds
    that status and the build returns no error.  When no reference
    resolves, as with a configuration without a storage section,
    [status.bootcImageRefs] is left as it was: unset on a build that
    carried none. *)
Theorem storage_failure_still_completes (ib : ImageBuild) (w : World) :
  quiet env ib -> earlyStagesSucceed env ib ->
  exportsOf ib <> [] ->
  Forall (fun e => workloadSucceeds env (bootcJobName (Name (Metadata ib)) e)) (exportsOf ib) ->
  ~ storagePanics cfg ->
  let name := Name (Metadata ib) in
  let run := BuildImage env cfg ib w in
  let r := fst run in
  let refs := omap (resolve cfg (os env) name) (resultOf name <$> exportsOf ib) in
  phaseOf (fst r) = Some "Completed" /\
  (forall m, snd r <> Panic m) /\
  BootcImageRefs (statusOf (fst r))
    = (if (0 <? length refs)%nat then Some refs else BootcImageRefs (statusOf ib)) /\
  lastWrote (fst r) (snd run) /\
  ((forall n, apiFault env n = None) -> present env name w ->
   snd r = Ok tt /\
   exists stored,
     catalog (snd run) !! (apiOrg env, name) = Some stored /\
     Status stored = Status (fst r) /\
     phaseOf stored = Some "Completed" /\
     BootcImageRefs (statusOf stored)
       = (if (0 <? length refs)%nat then Some refs else BootcImageRefs (statusOf ib))) /\
  (Config.storageOf cfg = None ->
   refs = [] /\
   BootcImageRefs (statusOf (fst r)) = BootcImageRefs (statusOf ib) /\
   (Status ib = None -> BootcImageRefs (statusOf (fst r)) = None)).
Proof.
  intros Hq Hearly Hne Hall Hnp name run r refs.
  assert (Hname : Name (Metadata (fst r)) = name).
  { pose proof (BuildImage_shape env cfg ib w) as ((Hm & _) & _). fold run r in Hm.
    unfold name. now rewrite Hm. }
  pose proof (BuildImage_post env cfg ib w Hq Hearly) as H.
  pose proof (BuildImage_written env cfg ib w) as Hw.
  unfold post, exportsOutcome in H, Hw. fold run r in H, Hw. fold name refs in H.
  destruct H as [_ [(H1 & _) | [(_ & H2 & _) | (H1 & H2 & H3 & H4 & H5 & H6)]]].
  - exfalso. exact (jobs_succeed_not_badly env name _ Hall H1).
  - contradiction.
  - destruct Hw as [[m Hm] | [Hlast Hst]]; [destruct (H4 m Hm)|].
    split; [exact H3|]. split; [exact H4|]. split; [exact H6|]. split; [exact Hlast|].
    split.
    { intros Hf Hp. rewrite Hname in Hst. destruct (Hst Hf Hp) as [(stored & Hs & Hstat) Hok].
      split; [exact (Hok H3)|]. rewrite Hname in Hs.
      exists stored. split; [exact Hs|]. split; [exact Hstat|].
      unfold phaseOf, statusOf in *. rewrite Hstat. split; [exact H3 | exact H6]. }
    intros Hst0.
    assert (Hrefs : refs = []).
    { unfold refs. generalize (exportsOf ib). intros l.
      induction l as [|e es IH]; [reflexivity|].
      rewrite fmap_cons. cbn [omap list_omap].
      rewrite (resolve_no_storage cfg (os env) name e Hst0). exact IH. }
    split; [exact Hrefs|]. rewrite H6, Hrefs. simpl.
    split; [reflexivity|]. unfold statusOf. now intros ->.
Qed.

End ExportOutcome.

(** ** The timestamps, on the copy of a build and in the catalog (C5) *)
Section Timestamps.
Import GoErr GoTime Api Sys Orchestrator Spec Reading.

Ltac step H :=
  apply post_bind; eapply post_mono; [apply H | cbv beta].

Lemma statusWrites_app (a b : list Event) :
  statusWrites (a ++ b) = (statusWrites a ++ statusWrites b)%list.
Proof. apply omap_app. Qed.

Lemma statusWrites_other (ev : Event) : isStatusWrite ev = false -> statusWrites [ev] = [].
Proof. now destruct ev. Qed.

Lemma statusWrites_fmap {A} (f : A -> Event) (l : list A) :
  (forall a, isStatusWrite (f a) = false) -> statusWrites (f <$> l) = [].
Proof.
  intros Hf. induction l as [|a l IH]; [reflexivity|].
  rewrite fmap_cons. change (f a :: (f <$> l)) with ([f a] ++ (f <$> l))%list.
  now rewrite statusWrites_app, (statusWrites_other _ (Hf a)), IH.
Qed.

Lemma statusWrites_cancellationCalls (ns name : string) (pods : list K8s.Pod)
      (jobs : list K8s.Job) (body : ImageBuild) :
  statusWrites (cancellationCalls ns name pods jobs body) = [body].
Proof.
  unfold cancellationCalls. rewrite !statusWrites_app.
  rewrite !statusWrites_fmap by reflexivity. reflexivity.
Qed.

(** A copy that advances the last of a sorted run of copies may be
    written after them. *)
Lemma sorted_write (l : list ImageBuild) (a b : ImageBuild) :
  StronglySorted advances (l ++ [a]) -> advances a b ->
  StronglySorted advances (l ++ [b; b]).
Proof.
  intros Hs Hab. induction l as [|x l IH]; cbn [app] in *.
  - repeat constructor; apply advances_refl.
  - apply StronglySorted_inv in Hs as [Hs Hx]. constructor; [now apply IH|].
    rewrite Forall_app in Hx. destruct Hx as [Hl Ha].
    rewrite Forall_app. split; [exact Hl|].
    assert (Hxb : advances x b).
    { apply Forall_inv in Ha. exact (advances_trans _ _ _ Ha Hab). }
    constructor; [exact Hxb|]. constructor; [exact Hxb | constructor].
Qed.

Lemma returned_fst (r : ImageBuild * option error) : fst (returned r) = fst r.
Proof. now destruct r as [ib [e|]]. Qed.

Lemma updateStatus_trace (env : Env) (ib : ImageBuild) (phase message : string) (w : World) :
  post (updateStatus env ib phase message) w
       (fun r w' =>
          fst r = markStatus (clock env (steps w)) ib phase message /\
          trace w'
          = (trace w ++ [TimeNow; ReplaceImageBuildStatus (Name (Metadata ib))
                                    (markStatus (clock env (steps w)) ib phase message)])%list).
Proof.
  unfold updateStatus, time_Now. apply post_bind, post_bind, post_call, post_ret. cbv beta.
  step Replace_calls. intros resp w2 [_ T]. apply post_ret. cbn [fst].
  split; [reflexivity|]. rewrite T. cbn [trace]. now rewrite <- app_assoc.
Qed.

Lemma updateStatusWithContainerImage_trace (env : Env) (ib : ImageBuild) (ref : string)
      (w : World) :
  post (updateStatusWithContainerImage env ib ref) w
       (fun r w' =>
          fst r = markContainerImage ib ref /\
          trace w'
          = (trace w ++ [ReplaceImageBuildStatus (Name (Metadata ib))
                           (markContainerImage ib ref)])%list).
Proof.
  unfold updateStatusWithContainerImage.
  step Replace_calls. intros resp w2 [_ T]. apply post_ret. cbn [fst].
  split; [reflexivity | exact T].
Qed.

Lemma completeBuild_trace (env : Env) (ib : ImageBuild) (ref : string)
      (refs : list BootcImageRef) (w : World) :
  post (completeBuild env ib ref refs) w
       (fun r w' =>
          fst r = markCompleted (clock env (steps w)) ib ref refs /\
          trace w'
          = (trace w ++ [TimeNow; ReplaceImageBuildStatus (Name (Metadata ib))
                                    (markCompleted (clock env (steps w)) ib ref refs)])%list).
Proof.
  unfold completeBuild, time_Now. apply post_bind, post_bind, post_call, post_ret. cbv beta.
  step Replace_calls. intros resp w2 [_ T]. apply post_ret. cbn [fst].
  split; [reflexivity|]. rewrite T. cbn [trace]. now rewrite <- app_assoc.
Qed.

Lemma failBuild_trace (env : Env) (ib : ImageBuild) (e : error) (w : World) :
  post (failBuild env ib e) w
       (fun r w' =>
          fst r = markFailed (clock env (steps w)) ib e /\
          trace w'
          = (trace w ++ [TimeNow; ReplaceImageBuildStatus (Name (Metadata ib))
                                    (markFailed (clock env (steps w)) ib e)])%list).
Proof.
  unfold failBuild, time_Now. apply post_bind, post_bind, post_call, post_ret. cbv beta.
  step Replace_calls. intros resp w2 [_ T]. apply post_ret. cbn [fst].
  split; [reflexivity|]. rewrite T. cbn [trace]. now rewrite <- app_assoc.
Qed.

Lemma CancelBuild_trace (env : Env) (cfg : Config.Config) (ib : ImageBuild)
      (reason : string) (w : World) :
  post (CancelBuild env cfg ib reason) w
       (fun r w' =>
          exists evs, trace w' = (trace w ++ evs)%list /\ statusWrites evs = [fst r]).
Proof.
  eapply post_mono; [apply CancelBuild_calls|]. cbv beta zeta.
  intros r w' (T & _). eexists. split; [exact T|]. apply statusWrites_cancellationCalls.
Qed.

(** The copies a build writes, in the order of the writes, from the copy
    it started on to the copy it returns: each keeps the identity and the
    timestamps of all before it. *)
Lemma BuildImage_writes_sorted (env : Env) (cfg : Config.Config) (ib : ImageBuild)
      (w : World) :
  post (BuildImage env cfg ib) w
       (fun r w' =>
          exists evs,
            trace w' = (trace w ++ evs)%list /\
            StronglySorted advances (ib :: statusWrites evs ++ [fst r])).
Proof.
  assert (Hwrite : forall (ib1 body : ImageBuild) (evs more : list Event) (w1 w2 : World),
             trace w1 = (trace w ++ evs)%list ->
             StronglySorted advances (ib :: statusWrites evs ++ [ib1]) ->
             trace w2 = (trace w1 ++ more)%list ->
             statusWrites more = [body] -> advances ib1 body ->
             exists evs',
               trace w2 = (trace w ++ evs')%list /\
               StronglySorted advances (ib :: statusWrites evs' ++ [body])).
  { intros ib1 body evs more w1 w2 T S K W A.
    exists (evs ++ more)%list. split; [now rewrite K, T, app_assoc|].
    rewrite statusWrites_app, W, <- app_assoc.
    exact (sorted_write (ib :: statusWrites evs) ib1 body S A). }
  apply (BuildImage_exit env cfg
           (fun ib1 w1 =>
              exists evs,
                trace w1 = (trace w ++ evs)%list /\
                StronglySorted advances (ib :: statusWrites evs ++ [ib1]))).
  - intros ib1 ev w1 Hev (evs & T & S). exists (evs ++ [ev])%list. cbn [trace].
    split; [now rewrite T, app_assoc|].
    now rewrite statusWrites_app, (statusWrites_other _ Hev), app_nil_r.
  - intros ib1 phase message w1 (evs & T & S).
    eapply post_mono; [apply updateStatus_trace|]. cbv beta. intros r w2 [-> K].
    apply (Hwrite ib1 _ evs _ w1 w2 T S K); [reflexivity | apply markStatus_advances].
  - intros ib1 ref w1 (evs & T & S).
    eapply post_mono; [apply updateStatusWithContainerImage_trace|]. cbv beta.
    intros r w2 [-> K].
    apply (Hwrite ib1 _ evs _ w1 w2 T S K); [reflexivity | apply markContainerImage_advances].
  - intros ib1 reason w1 (evs & T & S).
    eapply post_mono;
      [apply post_conj; [apply CancelBuild_post | apply CancelBuild_trace]|]. cbv beta.
    intros r w2 [(now & logs & e & ->) (more & K & W)]. cbn [returned fst] in *.
    apply (Hwrite ib1 _ evs _ w1 w2 T S K W). apply markCancelled_advances.
  - intros ib1 e w1 (evs & T & S).
    eapply post_mono; [apply failBuild_trace|]. cbv beta.
    intros r w2 [Hr K]. rewrite returned_fst, Hr.
    apply (Hwrite ib1 _ evs _ w1 w2 T S K); [reflexivity | apply markFailed_advances].
  - intros ib1 ref refs w1 (evs & T & S).
    eapply post_mono; [apply completeBuild_trace|]. cbv beta.
    intros r w2 [Hr K]. rewrite returned_fst, Hr.
    apply (Hwrite ib1 _ evs _ w1 w2 T S K); [reflexivity | apply markCompleted_advances].
  - intros ib1 m w1 H. exact H.
  - exists []. split; [now rewrite app_nil_r|]. cbn [statusWrites omap list_omap app].
    repeat constructor; apply advances_refl.
Qed.

(** C5, as the code has it.  On the copy a build works on, the start time
    is set when [Building] is entered without one and is kept by every
    later mark; the completion time is set to the current time by each of
    the three marks of a terminal phase; no operation of a build, and no
    build as a whole, loses a timestamp that is set.  The reset of
    [RebuildImage] clears the phase, the message, both references and the
    completion time, and leaves the start time and the logs as they are.
    Each status operation sends one status write, of the copy it has
    marked; the copies a build writes, from the copy it started on to the
    copy it returns, keep in turn the identity and the timestamps of all
    before them.  A status write that the API server accepts replaces the
    stored status as a whole by that of the copy written, whatever was
    stored; so when the API server answers every request and the resource
    exists, the catalog holds, when the build returns, the status of the
    copy it returns. *)
Theorem timestamps_set_and_kept :
  (forall now ib m, StartTime (statusOf ib) = None ->
     StartTime (statusOf (markStatus now ib "Building" m)) = Some now) /\
  (forall now ib p m t, StartTime (statusOf ib) = Some t ->
     StartTime (statusOf (markStatus now ib p m)) = Some t) /\
  (forall now ib ref refs e reason logs,
     (phaseOf (markCompleted now ib ref refs) = Some "Completed" /\
      CompletionTime (statusOf (markCompleted now ib ref refs)) = Some now) /\
     (phaseOf (markFailed now ib e) = Some "Failed" /\
      CompletionTime (statusOf (markFailed now ib e)) = Some now) /\
     (phaseOf (markCancelled now ib reason logs) = Some "Cancelled" /\
      CompletionTime (statusOf (markCancelled now ib reason logs)) = Some now)) /\
  (forall env cfg ib w,
     (forall p m, fst (fst (updateStatus env ib p m w))
                  = markStatus (clock env (steps w)) ib p m) /\
     (forall ref, fst (fst (updateStatusWithContainerImage env ib ref w))
                  = markContainerImage ib ref) /\
     (forall ref refs, fst (fst (completeBuild env ib ref refs w))
                       = markCompleted (clock env (steps w)) ib ref refs) /\
     (forall e, fst (fst (failBuild env ib e w)) = markFailed (clock env (steps w)) ib e) /\
     (forall reason, exists now logs,
        fst (fst (CancelBuild env cfg ib reason w)) = markCancelled now ib reason logs)) /\
  (forall now ib p m ref refs e reason logs,
     advances ib (markStatus now ib p m) /\ advances ib (markContainerImage ib ref) /\
     advances ib (markCompleted now ib ref refs) /\ advances ib (markFailed now ib e) /\
     advances ib (markCancelled now ib reason logs)) /\
  (forall env cfg ib w, advances ib (fst (fst (BuildImage env cfg ib w)))) /\
  (forall ib st, Status ib = Some st ->
     statusOf (resetStatus ib)
     = mkImageBuildStatus None None None None (StartTime st) None (Api.Logs st)) /\
  (forall env cfg ib w,
     (forall p m,
        newEvents w (snd (updateStatus env ib p m w))
        = [TimeNow; ReplaceImageBuildStatus (Name (Metadata ib))
                      (markStatus (clock env (steps w)) ib p m)]) /\
     (forall ref,
        newEvents w (snd (updateStatusWithContainerImage env ib ref w))
        = [ReplaceImageBuildStatus (Name (Metadata ib)) (markContainerImage ib ref)]) /\
     (forall ref refs,
        newEvents w (snd (completeBuild env ib ref refs w))
        = [TimeNow; ReplaceImageBuildStatus (Name (Metadata ib))
                      (markCompleted (clock env (steps w)) ib ref refs)]) /\
     (forall e,
        newEvents w (snd (failBuild env ib e w))
        = [TimeNow; ReplaceImageBuildStatus (Name (Metadata ib))
                      (markFailed (clock env (steps w)) ib e)]) /\
     (forall reason,
        statusWrites (newEvents w (snd (CancelBuild env cfg ib reason w)))
        = [fst (fst (CancelBuild env cfg ib reason w))])) /\
  (forall env cfg ib w,
     StronglySorted advances
       (ib :: statusWrites (newEvents w (snd (BuildImage env cfg ib w)))
           ++ [fst (fst (BuildImage env cfg ib w))])) /\
  (forall env name body stored w,
     apiFault env (steps w) = None ->
     catalog w !! (apiOrg env, name) = Some stored ->
     catalog (snd (ReplaceImageBuildStatusWithResponse env name body w)) !! (apiOrg env, name)
     = Some (set_Status stored (Status body))) /\
  (forall env cfg ib w,
     (forall n, apiFault env n = None) -> present env (Name (Metadata ib)) w ->
     (forall m, snd (fst (BuildImage env cfg ib w)) <> Panic m) ->
     lastWrote (fst (fst (BuildImage env cfg ib w))) (snd (BuildImage env cfg ib w)) /\
     storedAs env (fst (fst (BuildImage env cfg ib w))) (snd (BuildImage env cfg ib w))).
Proof.
  destruct marks_keep_timestamps as (H1 & H2 & H3 & H4 & H5 & H6 & H7).
  split; [exact H1|]. split; [exact H2|]. split; [exact H3|]. split; [exact H4|].
  split; [exact H5|]. split; [exact H6|]. split; [exact H7|].
  split.
  { intros env cfg ib w.
    split.
    { intros p m. destruct (updateStatus_trace env ib p m w) as [_ T].
      unfold newEvents. rewrite T. apply drop_app_length. }
    split.
    { intros ref. destruct (updateStatusWithContainerImage_trace env ib ref w) as [_ T].
      unfold newEvents. rewrite T. apply drop_app_length. }
    split.
    { intros ref refs. destruct (completeBuild_trace env ib ref refs w) as [_ T].
      unfold newEvents. rewrite T. apply drop_app_length. }
    split.
    { intros e. destruct (failBuild_trace env ib e w) as [_ T].
      unfold newEvents. rewrite T. apply drop_app_length. }
    intros reason. destruct (CancelBuild_trace env cfg ib reason w) as (evs & T & W).
    unfold newEvents. rewrite T, drop_app_length. exact W. }
  split.
  { intros env cfg ib w.
    pose proof (BuildImage_writes_sorted env cfg ib w) as (evs & T & S).
    unfold newEvents. rewrite T, drop_app_length. exact S. }
  split.
  { intros env name body stored w Hf Hs.
    rewrite (Replace_accepted env name body stored w Hf Hs). cbn [snd catalog].
    apply lookup_insert_eq. }
  intros env cfg ib w Hf Hp Hnp.
  pose proof (BuildImage_written env cfg ib w) as Hw. unfold post in Hw.
  destruct Hw as [[m Hm] | [Hlast Hst]]; [destruct (Hnp m Hm)|].
  split; [exact Hlast|].
  assert (Hname : Name (Metadata (fst (fst (BuildImage env cfg ib w)))) = Name (Metadata ib)).
  { pose proof (BuildImage_shape env cfg ib w) as ((Hm & _) & _). now rewrite Hm. }
  rewrite Hname in Hst. exact (proj1 (Hst Hf Hp)).
Qed.

End Timestamps.

(** ** The properties at sample inputs *)
Section ReadingRuns.
Import GoStrings GoErr GoTime Api Sys Spec Reading Samples.

Lemma second_cancellation_is_suppressed_witness :
  let w := worldOf [cancelSeenWhileBuilding] in
  let r1 := BuildManager.handleCancellation calmEnv localConfig BuildManager.NewBuildManager
              cancelSeenWhileBuilding w in
  let r2 := BuildManager.handleCancellation calmEnv localConfig (fst r1) cancelSeenWhileBuilding
              (snd r1) in
  BuildManager.recentlyCancelled BuildManager.NewBuildManager !! "b" = None /\
  Since (clock calmEnv (steps (snd r1))) (clock calmEnv (steps w)) < 2 * Minute /\
  fst r2 = fst r1 /\ catalog (snd r2) = catalog (snd r1).
Proof.
  cbv zeta.
  assert (H1 : BuildManager.recentlyCancelled BuildManager.NewBuildManager
                 !! Name (Metadata cancelSeenWhileBuilding) = None).
  { reflexivity. }
  assert (H2 : Since (clock calmEnv
                        (steps (snd (BuildManager.handleCancellation calmEnv localConfig
                                       BuildManager.NewBuildManager cancelSeenWhileBuilding
                                       (worldOf [cancelSeenWhileBuilding])))))
                     (clock calmEnv (steps (worldOf [cancelSeenWhileBuilding]))) < 2 * Minute).
  { vm_compute. reflexivity. }
  split; [exact H1|]. split; [exact H2|].
  destruct (second_cancellation_is_suppressed calmEnv localConfig
              BuildManager.NewBuildManager cancelSeenWhileBuilding
              (worldOf [cancelSeenWhileBuilding]) H1 H2) as (_ & _ & Hm & Hc & _).
  split; [exact Hm | exact Hc].
Defined.

Lemma export_failure_fails_the_build_witness :
  let env := failingJob "bootc-b-ami" in
  let ib := buildOf "b" None ["qcow2"; "ami"] None in
  let w := worldOf [ib] in
  let run := Orchestrator.BuildImage env localConfig ib w in
  quiet env ib /\ earlyStagesSucceed env ib /\
  workloadSucceeds env (bootcJobName "b" (mkBootcExport "qcow2" None)) /\
  workloadFails env (bootcJobName "b" (mkBootcExport "ami" None)) /\
  (forall n, apiFault env n = None) /\ present env "b" w /\
  (exists err,
     fst (Bootc.BuildBootcImages env "default" ib "registry/b:latest" w)
     = Err (Wrap "failed to build bootc image type=ami" err)) /\
  phaseOf (fst (fst run)) = Some "Failed" /\
  (exists e, snd (fst run) = Err e) /\
  BootcImageRefs (Orchestrator.statusOf (fst (fst run))) = None /\
  lastWrote (fst (fst run)) (snd run) /\
  storedAs env (fst (fst run)) (snd run).
Proof.
  cbv zeta.
  assert (Hq : quiet (failingJob "bootc-b-ami") (buildOf "b" None ["qcow2"; "ami"] None)).
  { intros n. reflexivity. }
  assert (He : earlyStagesSucceed (failingJob "bootc-b-ami")
                                  (buildOf "b" None ["qcow2"; "ami"] None)).
  { split; [intros n; eexists; eexists; reflexivity|].
    split; [intros cert key; eexists; reflexivity|].
    split; [intros n; reflexivity|]. intros n. split; reflexivity. }
  assert (Hs : workloadSucceeds (failingJob "bootc-b-ami")
                                (bootcJobName "b" (mkBootcExport "qcow2" None))).
  { intros n. split; reflexivity. }
  assert (Hx : workloadFails (failingJob "bootc-b-ami")
                             (bootcJobName "b" (mkBootcExport "ami" None))).
  { right. intros n. eexists. reflexivity. }
  assert (Hf : forall n, apiFault (failingJob "bootc-b-ami") n = None).
  { intros n. reflexivity. }
  assert (Hp : present (failingJob "bootc-b-ami") "b"
                       (worldOf [buildOf "b" None ["qcow2"; "ami"] None])).
  { eexists. vm_compute. reflexivity. }
  assert (Hex : Exists (fun e => workloadFails (failingJob "bootc-b-ami") (bootcJobName "b" e))
                       (exportsOf (buildOf "b" None ["qcow2"; "ami"] None))).
  { apply Exists_cons_tl, Exists_cons_hd. exact Hx. }
  destruct (export_failure_fails_the_build
              (failingJob "bootc-b-ami") localConfig
              (buildOf "b" None ["qcow2"; "ami"] None)
              (worldOf [buildOf "b" None ["qcow2"; "ami"] None]) Hq He)
    as (Hfirst & Hfail & _).
  destruct (Hfail Hex) as (_ & Hphase & Herr & Hrefs & Hlast & Hstored).
  split; [exact Hq|]. split; [exact He|]. split; [exact Hs|]. split; [exact Hx|].
  split; [exact Hf|]. split; [exact Hp|].
  assert (Hpre : Forall (fun e => workloadSucceeds (failingJob "bootc-b-ami")
                                                    (bootcJobName "b" e))
                        [mkBootcExport "qcow2" None]).
  { constructor; [exact Hs | constructor]. }
  split.
  { exact (Hfirst (buildOf "b" None ["qcow2"; "ami"] None) "registry/b:latest"
                  (worldOf [buildOf "b" None ["qcow2"; "ami"] None])
                  [mkBootcExport "qcow2" None] (mkBootcExport "ami" None) []
                  eq_refl eq_refl eq_refl Hpre Hx). }
  split; [exact Hphase|]. split; [exact Herr|]. split; [exact Hrefs|].
  split; [exact Hlast | exact (Hstored Hf Hp)].
Defined.

Lemma storage_failure_still_completes_witness :
  let ib := buildOf "b" None ["qcow2"] None in
  let w := worldOf [ib] in
  let run := Orchestrator.BuildImage calmEnv noStorageConfig ib w in
  quiet calmEnv ib /\ earlyStagesSucceed calmEnv ib /\ exportsOf ib <> [] /\
  Forall (fun e => workloadSucceeds calmEnv (bootcJobName "b" e)) (exportsOf ib) /\
  ~ storagePanics noStorageConfig /\
  Config.storageOf noStorageConfig = None /\
  (forall n, apiFault calmEnv n = None) /\ present calmEnv "b" w /\
  phaseOf (fst (fst run)) = Some "Completed" /\
  BootcImageRefs (Orchestrator.statusOf (fst (fst run))) = None /\
  lastWrote (fst (fst run)) (snd run) /\
  snd (fst run) = Ok tt /\
  exists stored,
    catalog (snd run) !! (apiOrg calmEnv, "b") = Some stored /\
    phaseOf stored = Some "Completed" /\
    BootcImageRefs (Orchestrator.statusOf stored) = None.
Proof.
  cbv zeta.
  assert (Hq : quiet calmEnv (buildOf "b" None ["qcow2"] None)).
  { intros n. reflexivity. }
  assert (He : earlyStagesSucceed calmEnv (buildOf "b" None ["qcow2"] None)).
  { split; [intros n; eexists; eexists; reflexivity|].
    split; [intros cert key; eexists; reflexivity|].
    split; [intros n; reflexivity|]. intros n. split; reflexivity. }
  assert (Hx : exportsOf (buildOf "b" None ["qcow2"] None) <> []).
  { discriminate. }
  assert (Hs : Forall (fun e => workloadSucceeds calmEnv (bootcJobName "b" e))
                      (exportsOf (buildOf "b" None ["qcow2"] None))).
  { repeat constructor. }
  assert (Hp : ~ storagePanics noStorageConfig).
  { intros (storage & Hst & _). discriminate Hst. }
  assert (Hn : Config.storageOf noStorageConfig = None).
  { reflexivity. }
  assert (Hf : forall n, apiFault calmEnv n = None).
  { intros n. reflexivity. }
  assert (Hpr : present calmEnv "b" (worldOf [buildOf "b" None ["qcow2"] None])).
  { eexists. vm_compute. reflexivity. }
  destruct (storage_failure_still_completes calmEnv noStorageConfig
              (buildOf "b" None ["qcow2"] None)
              (worldOf [buildOf "b" None ["qcow2"] None]) Hq He Hx Hs Hp)
    as (Hphase & _ & _ & Hlast & Hstored & Hnone).
  destruct (Hstored Hf Hpr) as (Hok & stored & Hcat & Hstat & Hsp & _).
  destruct (Hnone Hn) as (_ & _ & Hunset).
  split; [exact Hq|]. split; [exact He|]. split; [exact Hx|]. split; [exact Hs|].
  split; [exact Hp|]. split; [exact Hn|]. split; [exact Hf|]. split; [exact Hpr|].
  split; [exact Hphase|]. split; [exact (Hunset eq_refl)|]. split; [exact Hlast|].
  split; [exact Hok|].
  exists stored. split; [exact Hcat|]. split; [exact Hsp|].
  unfold Orchestrator.statusOf. rewrite Hstat. exact (Hunset eq_refl).
Defined.

Lemma timestamps_set_and_kept_witness :
  let ib := buildOf "b" None [] None in
  let message := "Starting image build process" in
  let first := Orchestrator.updateStatus calmEnv ib "Building" message (worldOf [ib]) in
  let started := fst (fst first) in
  let other := Orchestrator.markStatus (t_2025_01_04_14_30_22 + 5 * Minute) ib
                 "Building" message in
  let second := ReplaceImageBuildStatusWithResponse calmEnv "b" other (snd first) in
  StartTime (Orchestrator.statusOf ib) = None /\
  StartTime (Orchestrator.statusOf started) = Some t_2025_01_04_14_30_22 /\
  StartTime (Orchestrator.statusOf
               (Orchestrator.markStatus (t_2025_01_04_14_30_22 + 5 * Minute) started
                                        "Building" message))
    = Some t_2025_01_04_14_30_22 /\
  (exists stored,
     catalog (snd first) !! (apiOrg calmEnv, "b") = Some stored /\
     StartTime (Orchestrator.statusOf stored) = Some t_2025_01_04_14_30_22) /\
  (exists stored,
     catalog (snd second) !! (apiOrg calmEnv, "b") = Some stored /\
     StartTime (Orchestrator.statusOf stored) = Some (t_2025_01_04_14_30_22 + 5 * Minute)).
Proof.
  cbv zeta.
  assert (H0 : StartTime (Orchestrator.statusOf (buildOf "b" None [] None)) = None).
  { reflexivity. }
  destruct timestamps_set_and_kept
    as (Hset & Hkept & _ & Hcopy & _ & _ & _ & _ & _ & Hstored & _).
  pose proof (Hset t_2025_01_04_14_30_22 (buildOf "b" None [] None)
                   "Starting image build process" H0) as H1.
  destruct (Hcopy calmEnv localConfig (buildOf "b" None [] None)
                  (worldOf [buildOf "b" None [] None])) as (Hfirst & _).
  specialize (Hfirst "Building" "Starting image build process").
  assert (Hclock : clock calmEnv (steps (worldOf [buildOf "b" None [] None]))
                   = t_2025_01_04_14_30_22).
  { vm_compute. reflexivity. }
  rewrite Hclock in Hfirst.
  split; [exact H0|]. split; [rewrite Hfirst; exact H1|].
  split; [rewrite Hfirst; exact (Hkept _ _ "Building" "Starting image build process" _ H1)|].
  assert (Hs1 : exists stored,
             catalog (snd (Orchestrator.updateStatus calmEnv (buildOf "b" None [] None)
                             "Building" "Starting image build process"
                             (worldOf [buildOf "b" None [] None])))
               !! (apiOrg calmEnv, "b") = Some stored /\
             StartTime (Orchestrator.statusOf stored) = Some t_2025_01_04_14_30_22).
  { eexists. split; vm_compute; reflexivity. }
  split; [exact Hs1|]. destruct Hs1 as (stored & Hl & _).
  assert (Hf : apiFault calmEnv
                 (steps (snd (Orchestrator.updateStatus calmEnv (buildOf "b" None [] None)
                                "Building" "Starting image build process"
                                (worldOf [buildOf "b" None [] None])))) = None).
  { reflexivity. }
  eexists. split.
  - exact (Hstored calmEnv "b" _ stored _ Hf Hl).
  - vm_compute. reflexivity.
Defined.

Lemma CancelBuild_never_returns_nil_witness :
  let pod := buildPod "b" t_2025_01_04_14_30_22 in
  let job := K8s.mkJob "build-b" in
  let env := cancelEnv [pod] [job] in
  let ib := cancelSeenWhileBuilding in
  let w := worldOf [ib] in
  let r := Orchestrator.CancelBuild env localConfig ib "user request" w in
  (forall n, apiFault env n = None) /\ present env "b" w /\
  storedAnnotation w "b" cancelAnnotation = Some "true" /\
  newEvents w (snd r) = cancellationCalls "default" "b" [pod] [job] (fst (fst r)) /\
  Logs (Orchestrator.statusOf (fst (fst r)))
    = Some ["=== Logs from pod build-b-x7k2p (before cancellation) ===";
            "STEP 1/4: FROM scratch"] /\
  storedAnnotation (snd r) "b" cancelAnnotation = None /\
  storedPhase (snd r) "b" = Some "Cancelled" /\
  snd (fst r) = Some (Errorf "build cancelled: user request").
Proof.
  cbv zeta.
  assert (Hf : forall n,
             apiFault (cancelEnv [buildPod "b" t_2025_01_04_14_30_22] [K8s.mkJob "build-b"]) n
             = None).
  { intros n. reflexivity. }
  assert (Hp : present (cancelEnv [buildPod "b" t_2025_01_04_14_30_22] [K8s.mkJob "build-b"])
                       "b" (worldOf [cancelSeenWhileBuilding])).
  { eexists. vm_compute. reflexivity. }
  split; [exact Hf|]. split; [exact Hp|].
  split; [vm_compute; reflexivity|]. split; [vm_compute; reflexivity|].
  split; [vm_compute; reflexivity|]. split; [vm_compute; reflexivity|].
  split; [vm_compute; reflexivity|].
  exact (proj1 (proj2 (proj2 (CancelBuild_never_returns_nil
                                (cancelEnv [buildPod "b" t_2025_01_04_14_30_22]
                                           [K8s.mkJob "build-b"])
                                localConfig cancelSeenWhileBuilding
                                "user request" (worldOf [cancelSeenWhileBuilding])))) Hf Hp).
Defined.

Lemma every_job_created_is_deleted_witness :
  let ib := buildOf "b" None ["qcow2"] None in
  let w := worldOf [ib] in
  (forall n job, createJob calmEnv n job = None) /\
  balanced (newEvents w (snd (Orchestrator.BuildImage calmEnv localConfig ib w))).
Proof.
  cbv zeta.
  assert (H : forall n job, createJob calmEnv n job = None).
  { intros n job. reflexivity. }
  split; [exact H|].
  exact (every_job_created_is_deleted calmEnv localConfig (buildOf "b" None ["qcow2"] None)
           (worldOf [buildOf "b" None ["qcow2"] None]) H).
Defined.

Lemma upload_lands_where_the_sentinel_points_witness :
  let ref := Storage.mkStorageReference "local" "/var/lib/flightctl/images/b/qcow2.qcow2" 11
               (<["image_name" := "b"]> (<["image_type" := "qcow2"]>
                (<["streamed" := "true"]> ∅))) in
  HasPrefix (sentinel "b" "qcow2") "uploaded:" = true /\
  fst (Storage.StreamToLocalOrPVC localConfig calmOS emptyDisk "b" artifact "qcow2") = Ok ref /\
  exists ref',
    Storage.StoreBootcImage localConfig calmOS "b" (sentinel "b" "qcow2") "qcow2" = Ok ref' /\
    Storage.Path ref' = "/var/lib/flightctl/images/b/qcow2.qcow2".
Proof.
  cbv zeta.
  assert (H1 : HasPrefix (sentinel "b" "qcow2") "uploaded:" = true).
  { reflexivity. }
  assert (H2 : fst (Storage.StreamToLocalOrPVC localConfig calmOS emptyDisk "b" artifact "qcow2")
               = Ok (Storage.mkStorageReference "local"
                       "/var/lib/flightctl/images/b/qcow2.qcow2" 11
                       (<["image_name" := "b"]> (<["image_type" := "qcow2"]>
                        (<["streamed" := "true"]> ∅))))).
  { vm_compute. reflexivity. }
  split; [exact H1|]. split; [exact H2|].
  destruct (upload_lands_where_the_sentinel_points localConfig calmOS calmOS emptyDisk
              "b" "qcow2" (sentinel "b" "qcow2") artifact _ H1 H2)
    as (ref' & Hs & Hp & _).
  exists ref'. split; [exact Hs | exact Hp].
Defined.


Lemma streamed_file_is_deleted_again_witness :
  let r := Storage.StreamToLocalOrPVC localConfig calmOS emptyDisk "b" artifact "qcow2" in
  let ref := Storage.mkStorageReference "local" "/var/lib/flightctl/images/b/qcow2.qcow2" 11
               (<["image_name" := "b"]> (<["image_type" := "qcow2"]>
                (<["streamed" := "true"]> ∅))) in
  fst r = Ok ref /\
  Removal.removeFault noRemovalFaults (Storage.Path ref) = None /\
  Removal.DeleteImage localConfig calmOS noRemovalFaults (snd r) ref
  = (None, Storage.mkDisk (delete (Storage.Path ref) (Storage.files emptyDisk))
                          (Storage.objects emptyDisk)).
Proof.
  cbv zeta.
  assert (H1 : fst (Storage.StreamToLocalOrPVC localConfig calmOS emptyDisk "b" artifact "qcow2")
               = Ok (Storage.mkStorageReference "local"
                       "/var/lib/flightctl/images/b/qcow2.qcow2" 11
                       (<["image_name" := "b"]> (<["image_type" := "qcow2"]>
                        (<["streamed" := "true"]> ∅))))).
  { vm_compute. reflexivity. }
  split; [exact H1|]. split; [reflexivity|].
  exact (streamed_file_is_deleted_again localConfig calmOS noRemovalFaults emptyDisk
           "b" "qcow2" artifact _ H1 eq_refl).
Defined.

Lemma only_the_streamed_reference_deletes_the_object_witness :
  let r := Storage.StreamToS3 s3Config calmOS emptyDisk "b" artifact "qcow2" "disk.qcow2" "etag" in
  let ref := Storage.mkStorageReference "s3" "s3://images/b/qcow2.qcow2" 0
               (<["image_name" := "b"]> (<["image_type" := "qcow2"]>
                (<["bucket" := "images"]> (<["key" := "b/qcow2.qcow2"]>
                (<["etag" := "etag"]> (<["streamed" := "true"]> ∅)))))) in
  Config.storageOf s3Config = Some s3Storage /\
  Config.Type_ s3Storage = "s3" /\
  HasPrefix (sentinel "b" "qcow2") "uploaded:" = true /\
  fst r = Ok ref /\
  fst (Removal.DeleteImage s3Config calmOS noRemovalFaults (snd r) ref) = None /\
  exists ref',
    Storage.StoreBootcImage s3Config calmOS "b" (sentinel "b" "qcow2") "qcow2" = Ok ref' /\
    Storage.Path ref' = Storage.Path ref /\
    Removal.DeleteImage s3Config calmOS noRemovalFaults (snd r) ref'
    = (Some (Errorf "invalid S3 reference: missing bucket or key"), snd r).
Proof.
  cbv zeta.
  assert (H1 : fst (Storage.StreamToS3 s3Config calmOS emptyDisk "b" artifact "qcow2"
                      "disk.qcow2" "etag")
               = Ok (Storage.mkStorageReference "s3" "s3://images/b/qcow2.qcow2" 0
                       (<["image_name" := "b"]> (<["image_type" := "qcow2"]>
                        (<["bucket" := "images"]> (<["key" := "b/qcow2.qcow2"]>
                        (<["etag" := "etag"]> (<["streamed" := "true"]> ∅)))))))).
  { vm_compute. reflexivity. }
  assert (Hb : Config.Bucket (Config.mkS3Config "http://minio:9000" "images" "" "key" "secret")
               <> "").
  { discriminate. }
  split; [reflexivity|]. split; [reflexivity|]. split; [reflexivity|]. split; [exact H1|].
  destruct (only_the_streamed_reference_deletes_the_object s3Config calmOS calmOS
              noRemovalFaults emptyDisk "b" "qcow2" (sentinel "b" "qcow2") "disk.qcow2" "etag"
              artifact s3Storage _ _ eq_refl eq_refl eq_refl Hb eq_refl H1 eq_refl)
    as (_ & Hd & ref' & Hs & Hp & Hr).
  split; [now rewrite Hd|].
  exists ref'. split; [exact Hs|]. split; [exact Hp | exact Hr].
Defined.

Lemma download_returns_the_upload_witness :
  let form := Upload.mkForm "b" "qcow2" "" (Some ("disk.qcow2", artifact)) in
  let up := Upload.handleUploadArtifact localConfig calmOS "etag" emptyDisk uploadRequest in
  Upload.readParts uploadParts (Upload.mkForm "" "" "" None) = inl form /\
  Upload.StatusCode (fst up) = 200 /\
  without "-" "qcow2" = true /\ without "-" "x86_64" = true /\
  exists headers,
    Download.handleDownload localConfig noDownloadFaults (snd up)
      (Download.mkRequest "b" "b-qcow2-x86_64")
    = Download.Served headers "qcow2 bytes" /\
    headers !! "Content-Length" = Some "11".
Proof.
  cbv zeta.
  assert (H1 : Upload.readParts uploadParts (Upload.mkForm "" "" "" None)
               = inl (Upload.mkForm "b" "qcow2" "" (Some ("disk.qcow2", artifact)))).
  { reflexivity. }
  assert (H2 : Upload.StatusCode
                 (fst (Upload.handleUploadArtifact localConfig calmOS "etag" emptyDisk
                         uploadRequest)) = 200).
  { vm_compute. reflexivity. }
  split; [exact H1|]. split; [exact H2|]. split; [reflexivity|]. split; [reflexivity|].
  destruct (download_returns_the_upload localConfig calmOS "etag" noDownloadFaults emptyDisk
              uploadRequest uploadParts _ "b" "x86_64" eq_refl H1 H2 eq_refl eq_refl
              (fun _ => eq_refl) (fun _ => eq_refl) eq_refl)
    as (storage & fname & part & Hs & Hf & Hd).
  injection Hs as <-. injection Hf as <- <-.
  eexists. split; [exact Hd|]. vm_compute. reflexivity.
Defined.

Lemma image_name_and_registry_witness :
  let plainBuild := buildOf "b" None [] None in
  let pushed := buildWith (Some "https://quay.io/org/") "b" None in
  without "/" (Name (Metadata plainBuild)) = true /\
  Registry.GetRegistryURL plainBuild = "localhost:5000" /\
  Registry.GetBaseImageRegistry (ContainerBuilder.generateImageName plainBuild) = "docker.io" /\
  HasPrefix (ContainerBuilder.generateImageName pushed) (Registry.GetRegistryURL pushed) = true.
Proof.
  cbv zeta.
  assert (H1 : without "/" (Name (Metadata (buildOf "b" None [] None))) = true).
  { reflexivity. }
  split; [exact H1|].
  destruct (proj2 (image_name_and_registry (buildOf "b" None [] None)) eq_refl)
    as (Hr & _ & Hd).
  split; [exact Hr|]. split; [exact (Hd H1)|].
  apply (proj1 (image_name_and_registry (buildWith (Some "https://quay.io/org/") "b" None))).
  discriminate.
Defined.

Lemma patch_keeps_unnamed_annotations_witness :
  let managed : option (gmap string string) -> option (gmap string string) := fun _ => None in
  let current : option (gmap string string) :=
    Some (<[cancelAnnotation := "true"]> (<[retryAnnotation := "true"]> ∅)) in
  let patched : option (gmap string string) := Some (<[retryAnnotation := "false"]> ∅) in
  HasPrefix retryAnnotation "imagebuilder.flightctl.io/" = true /\
  (retryAnnotation ∉ Service.modifiedAnnotationKeys removeCancel) /\
  Service.entries current !! retryAnnotation = Some "true" /\
  Service.entries (Service.restoredAnnotations managed removeCancel current patched)
    !! retryAnnotation = Some "true".
Proof.
  cbv zeta.
  assert (H1 : HasPrefix retryAnnotation "imagebuilder.flightctl.io/" = true).
  { reflexivity. }
  assert (H2 : retryAnnotation ∉ Service.modifiedAnnotationKeys removeCancel).
  { intros H. apply elem_of_list_to_set in H. apply list_elem_of_In in H.
    vm_compute in H. destruct H as [H | []]. discriminate H. }
  split; [exact H1|]. split; [exact H2|]. split; [reflexivity|].
  exact (proj1 (patch_keeps_unnamed_annotations (fun _ => None) removeCancel
                  (Some (<[cancelAnnotation := "true"]> (<[retryAnnotation := "true"]> ∅)))
                  (Some (<[retryAnnotation := "false"]> ∅)) retryAnnotation H1)
               H2 "true" eq_refl).
Defined.

Lemma log_endpoint_mixes_builds_witness :
  let env := logsEnv [exportPod] in
  "a" <> "" /\
  (forall n, exists l, podLogs env n = inl l /\ l <> "") /\
  exportPod ∈ [exportPod] /\
  HasPrefix (K8s.Name exportPod) ("bootc-" +:+ ("a" +:+ "-" +:+ "b") +:+ "-") = true /\
  exists lines,
    fst (LogsEndpoint.handleGetLogs env localConfig "a" (worldOf [])) = LogsEndpoint.Lines lines /\
    "=== Logs from bootc image generation pod bootc-a-b-iso-x7k2p ===" ∈ lines.
Proof.
  cbv zeta.
  assert (H1 : "a" <> "").
  { discriminate. }
  assert (H2 : forall n, exists l, podLogs (logsEnv [exportPod]) n = inl l /\ l <> "").
  { intros n. eexists. split; [reflexivity | discriminate]. }
  assert (H3 : exportPod ∈ [exportPod]).
  { apply list_elem_of_here. }
  assert (H4 : HasPrefix (K8s.Name exportPod) ("bootc-" +:+ ("a" +:+ "-" +:+ "b") +:+ "-")
               = true).
  { reflexivity. }
  split; [exact H1|]. split; [exact H2|]. split; [exact H3|]. split; [exact H4|].
  exact (log_endpoint_mixes_builds (logsEnv [exportPod]) localConfig "a" "b" exportPod
           [exportPod] (worldOf []) H1 H2 eq_refl H3 H4).
Defined.

End ReadingRuns.
